(* ===== verification/_CoqProject ===== *)
-Q . S2P
Prelude.v
Records.v
Bytes.v
Chain.v
Hash.v
Pool.v
AddrHash.v
History.v
Race.v
CStr.v
StringMap.v
CfgFile.v
OptionsT.v
OptionsCfg.v
OptionsOld.v
ProcInfo.v
ProcMac.v
Packet.v
NetFilter.v
Float.v
FloatBounds.v
FloatOrder.v
SortedList.v
Analyse.v
LineOrder.v
NsHash.v
ServHash.v
Resolver.v
EdLine.v
Session.v
UiKeys.v
Colors.v
Vector.v
Json.v
Export.v
Pipeline.v
Main.v
DataInv.v
LineNames.v
Pairs.v
UiFormat.v
UiPrint.v
Bars.v
Paint.v
Whole.v
DoResolve.v
Dlpi.v
AddrsDlpi.v
ThreadProf.v
Util.v
