(* ===== verification/Prelude.v ===== *)
(** * iftopcolor: verification library (root file)

    iftopcolor shows the traffic of a network interface by pairs of hosts.
    libpcap gives it frames; each frame is decoded, attributed to a flow and
    added to the flow's history of forty slots of one second; some thirty
    times a second the flows are grouped into lines, averaged over 2, 10 and 40
    seconds, sorted and drawn, or printed as JSON or CSV.  Resolver threads
    find host names, /proc gives the process of a socket, and keys change the
    options while the program runs.

    ** The files

    The files below model src/; where a file is named as X.c it is under
    src/.  C functions keep their names.

    - [Prelude]: integers of a width ([u16], [u64], [s32]), arrays whose reads
      and writes out of range have no value ([!!z], [store_z]), sums over lists
      and maps, tactics and the hint database [iftop_db].  [Records]: a table
      that leads from keys to records in a heap stands for a finite map
      ([cells_rep]); flows, screen lines, host and service names share it.
    - Data structures.  [Chain]: walking and unlinking a singly linked chain in
      a heap.  [Hash]: data/map/hash.c over any key type, with the class
      [HashOps] of what the comparison and the hash function must satisfy.
      [Pool]: a free list carved from blocks, behind the class [PoolItem];
      [AddrHash]: data/map/addr_hash.c, two tables that share one pool of
      nodes.  [NsHash], [ServHash]: data/map/ns_hash.c and serv_hash.c, clients
      of [Hash].  [StringMap]: data/map/stringmap.c, a binary search tree.
      [SortedList]: data/sorted_list.c, with [QSort], the laws of qsort.
      [Vector]: data/vector.c.
    - Configuration.  [CStr]: the C string functions the program calls.
      [CfgFile]: config/cfgfile.c.  [OptionsT]: the record [options_t] and its
      setters.  [OptionsCfg]: config/options.c, with [OptionsOld], the two
      parsers there that nothing calls any more.
    - Capture.  [Bytes]: reading a captured frame.  [History]: the histories
      and their rotation (entry/iftop.c).  [Race]: the steps of handle_ip_packet
      and the rotation on two threads.  [Packet]: the link layers and
      [handle_ip_packet].  [NetFilter]: the meaning of the net filter, and
      util/addrs_ioctl.c.
      [ProcInfo]: util/procinfo.c on Linux; [ProcMac]: on macOS, with the class
      [ProcSource] of what both promise and the life of the tables.  [Dlpi],
      [AddrsDlpi]: util/dlcommon.c and util/addrs_dlpi.c (Solaris).
    - Screen.  [Float]: float, double and long double by SpecFloat;
      [FloatBounds], [FloatOrder]: the ranges and the order of what their
      operations return.
      [Analyse]: [analyse_data] and what it calls in ui/ui.c; [LineOrder]: the
      order of the lines it lists.  [Session]: tick
      and its clock.  [EdLine]: util/edline.c.  [UiKeys]: the keys of
      [ui_loop], the help line, util/screenfilter.c.  [Colors]: the file of
      colours.  [UiFormat], [UiPrint]: the text of the screen and the curses
      calls of a repaint; [Bars]: the bar chart and its smoothing stay in range.
      [Json], [Export]: a JSON reader, and ui/export.c.
    - Threads.  [Resolver]: util/resolver.c as a step relation, one step for
      each critical section, over the real ring and table.  [DoResolve]: the
      variants of do_resolve there.  [ThreadProf]: util/threadprof.c as a step
      relation of its two sides.  [Util]: util/util.c over a heap of blocks.
    - The whole.  [Pipeline]: from any run to the exported document.  [Main]:
      entry/iftop.c's main, from the command line to the two threads, and every
      interleaving of frames, keys, export turns and signals.  [DataInv]: an
      interface for invariants of the flows and the screen ([data_invariant]:
      kept by a rotation, a repaint and a packet), and that the program keeps
      them; its instances are [LineNames], of the host names in the lines, and
      [Pairs], of the address pairs of flows and lines.  [Paint]: what a repaint
      draws in a state that the program reaches.  [Whole]: the program and the
      resolver's workers together.

    ** How the parts meet

    [Main.main] reads the options ([OptionsCfg.read_options]), the addresses
    ([NetFilter.get_addrs_ioctl]) and opens the capture ([Packet.packet_init]),
    then builds the session ([Session.session_init], [UiKeys.ui_init] or
    [Export.export_init]).  A frame ([Main.packet_loop]) may tick
    ([Session.tick]), is decoded ([Packet.run_handler]) and written to the flows
    ([History.packet_seen]); a key ([Main.main_key]) goes to the line editor or
    to [UiKeys.simple_key], which ticks too; tick rotates the histories, rereads
    the processes ([ProcInfo.procinfo_refresh]) and regroups the flows
    ([Analyse.analyse_data]).  The flow table of [History] and the screen table
    of [Analyse] share one pool of nodes, and every theorem about a session
    carries both.

    ** State and errors

    A C object is a record; an object with an address lives in a heap, a
    [gmap positive] of cells, and a freed cell is absent.  An operation returns
    [option]: [None] is an access that C does not define (outside an array, to
    freed or uninitialised memory), so that a theorem that gives [Some] says
    that there is none.  Errors the code handles are values of its own status
    types.  Time, /proc, names, qsort, regcomp and libpcap are parameters, a
    [world] in [Session]; the laws they need are hypotheses or classes and have
    instances in the witnesses.  inet_ntop may fail, and resolve() may write
    nothing into a buffer of one byte: both are partial, a name of [Resolver]'s
    heap may be one that nothing has written, and reading it is [None].

    Where a function is part of what its own property says, the property states
    its result by a definition made for the purpose: the fields of a page
    ([page_texts]), the order of two lines ([listed_first]), an average
    ([averaged]), the first socket that answers ([first_answer]), a line of a
    file ([says]), the entries merged on the screen ([shown_on]).

    ** What is proved

    - Refinement: the hash table, the string map, the table of services and the
      vector are finite maps or lists under every sequence of operations
      ([hash_run_refines], [stringmap_refines_gmap], [serv_table_refines_map],
      [vector_refines_list]); the histories are a map of flows
      ([history_refines_map]); the resolver's threads implement a ring and a
      map ([resolver_refines]); the exported document is the captured flows,
      grouped ([captured_flows_exported]).
    - The program: from any command line and files it exits or runs (but for
      a net filter whose prefix length no int holds), and no interleaving of its
      events is undefined, for keys that isprint may be given and a terminal of
      at least 16 columns ([program_never_stuck]); the
      flows add up to the totals in every state it reaches
      ([program_conserves_bytes]); and a repaint, in any state it reaches, draws
      the captured flows, text by text, with bars of up to 10 Mbit/s or of what
      the scale has reached ([program_paints]).  With the resolver's workers
      beside it, it still never gets stuck, and the lines only keep names that
      were found for their hosts ([program_with_resolver]).
    - Invariants and safety: two tables share the pool without losing or
      doubling a node ([flow_tables_share_pool]); every byte counted for a flow
      is in the totals ([history_conserves_bytes], from the frames on in
      [captured_frames_conserve_bytes]); decoding stays inside the frame
      ([handle_ip_packet_in_bounds]); no sequence of keys, frames and
      ticks has an undefined access ([session_never_stuck], [edline_safe]) and
      neither has any schedule of the resolver ([resolver_never_stuck]) or of
      the profiling wrapper ([handshake_safe]).  Where the code has a race it is
      characterised: a rotation inside a packet is harmless exactly when the
      flow does not expire in it ([rotation_race]), and with the mutex held the
      two threads are sequential ([locked_threads_sequential]).
    - Function: what each screen line holds and how lines are ordered
      ([analyse_groups_flows], [analyse_sorts_lines], [totals_and_peaks]), which
      lines a page shows and how a host fits its field ([page_shows_lines],
      [sprint_host_fits]), when the scale of the bars stays in its table
      ([bar_scale_in_table]), the precedence of arguments over the file ([command_line_wins]), the meaning
      of the filters, the process of a flow, the two directions of a flow.
    - Round trips: exported JSON and printed device addresses are read back
      ([export_json_reads_back], [address_text_reads_back]).  What a line of the
      configuration file says, with its blanks and its comment, is what is read
      from it ([config_lines_read]).
    - Liveness: idle flows are dropped after forty rotations
      ([history_retention]), no queued address is left without a woken worker
      ([resolver_no_lost_wakeup]), a resolved name is shown.
    - Errors: a filter libpcap refuses changes no option
      ([filter_error_keeps_options]); a removed key that is absent, an
      unreadable directive or an unknown colour leaves the state alone; an
      acknowledgement of a device is accepted only when it is whole and the one
      expected ([acknowledgements_checked]).

    Small lemmas named after what they show record where the code and its
    intent part: for instance [Vector.vector_remove_full_overflows],
    [Colors.blank_line_reads_uninitialised], [Export.csv_name_splits_row],
    [UiPrint.fast_link_leaves_scale].

    ** Fuel

    A loop over a chain takes as many steps as the heap has cells at most, and
    its fuel is that number and one ([chain_fuel]); the fuel of the loops over
    strings and slots is their length.  That it is enough is part of each
    theorem: the results are [Some].

    ** Not modelled

    - The terminal: [UiPrint] gives the curses calls of a repaint, and
      [Session] only records that a repaint happens; ui_curses_init and ui_finish
      only call curses.
    - Libraries: libpcap, the resolver libraries, libproc, regcomp, strftime
      and the system calls are arguments that answer.
    - Running out of memory, but in [Util] and [ProcMac]: xmalloc and the pools
      abort.
    - The memory accesses of the two threads inside one event of [Main]: a
      frame, a key and a tick are events of one sequence, although
      handle_ip_packet does not take the [tick_mutex] that tick holds.  [Race]
      splits a packet where a rotation can fall; finer interleavings, of the
      single reads and writes, are not modelled.
    - Between the lines of one sweep: [Whole] lets the table change while a sweep
      reads its names, but an address that two lines share gets one name; the
      calls of resolve made while painting are steps that the resolver may
      always take.
    - Painting with the logarithmic scale, or with a scale given by -m, is
      modelled ([UiPrint]) but not proved total: log is a parameter, and a small
      limit overflows ([Bars.small_limit_overflows_int]).
    - The usage text, config_get_float, which nothing calls, and the shell
      command, which is compiled out.
    - Tests, benchmarks, and the legacy directory. *)

From stdpp Require Export prelude gmap strings.
From Stdlib Require Export ZArith Lia.

Local Open Scope Z_scope.

Declare Scope iftop_scope.
Delimit Scope iftop_scope with iftop.
Global Open Scope iftop_scope.

(** ** Machine integers

    An unsigned C integer of width [w] is a [Z] reduced modulo [2^w]; a signed
    one is the representative of its class in [[-2^(w-1), 2^(w-1))]. *)
Definition uwrap (w z : Z) : Z := z mod 2 ^ w.
Definition swrap (w z : Z) : Z := (z + 2 ^ (w - 1)) mod 2 ^ w - 2 ^ (w - 1).

Abbreviation u8 := (uwrap 8).
Abbreviation u16 := (uwrap 16).
Abbreviation u32 := (uwrap 32).
Abbreviation u64 := (uwrap 64).
Abbreviation s32 := (swrap 32).

Lemma uwrap_range w z : 0 <= w -> 0 <= uwrap w z < 2 ^ w.
Proof. intros. apply Z.mod_pos_bound. lia. Qed.

Lemma uwrap_small w z : 0 <= z < 2 ^ w -> uwrap w z = z.
Proof. apply Z.mod_small. Qed.

Lemma swrap_range w z : 0 < w -> - 2 ^ (w - 1) <= swrap w z < 2 ^ (w - 1).
Proof.
  intros Hw. unfold swrap.
  assert (2 ^ w = 2 * 2 ^ (w - 1)) as E
    by (rewrite <- Z.pow_succ_r by lia; f_equal; lia).
  assert (0 < 2 ^ (w - 1)) by (apply Z.pow_pos_nonneg; lia).
  pose proof (Z.mod_pos_bound (z + 2 ^ (w - 1)) (2 ^ w)). lia.
Qed.

Lemma swrap_small w z : 0 < w -> - 2 ^ (w - 1) <= z < 2 ^ (w - 1) -> swrap w z = z.
Proof.
  intros Hw Hz. unfold swrap.
  assert (2 ^ w = 2 * 2 ^ (w - 1)) as E
    by (rewrite <- Z.pow_succ_r by lia; f_equal; lia).
  rewrite Z.mod_small by lia. lia.
Qed.

(** ** Pointers and memory *)

(** An object address; [ptr] adds the null pointer. *)
Abbreviation loc := positive (only parsing).
Abbreviation ptr := (option positive) (only parsing).
Abbreviation NULL := (@None positive) (only parsing).

(** C truth values: an [int] is true when it is not zero. *)
Definition truth (z : Z) : bool := negb (z =? 0).

(** ** Arrays indexed by C integers: a read out of range has no value. *)
Definition lookup_z {A} (l : list A) (i : Z) : option A :=
  if 0 <=? i then l !! Z.to_nat i else None.
Notation "l '!!z' i" := (lookup_z l i) (at level 20) : iftop_scope.

(** An array write in range; [None] is a write outside the array. *)
Definition store_z {A} (l : list A) (i : Z) (x : A) : option (list A) :=
  if (0 <=? i) && (i <? Z.of_nat (length l)) then Some (<[Z.to_nat i := x]> l) else None.

Lemma lookup_z_nat {A} (l : list A) (i : nat) : l !!z Z.of_nat i = l !! i.
Proof. unfold lookup_z. rewrite (proj2 (Z.leb_le _ _)) by lia. by rewrite Nat2Z.id. Qed.

Lemma lookup_z_Some {A} (l : list A) (i : Z) x :
  l !!z i = Some x <-> 0 <= i /\ l !! Z.to_nat i = Some x.
Proof. unfold lookup_z. destruct (Z.leb_spec 0 i); naive_solver lia. Qed.

Lemma lookup_z_lt_is_Some {A} (l : list A) (i : Z) :
  is_Some (l !!z i) <-> 0 <= i < Z.of_nat (length l).
Proof.
  unfold lookup_z. destruct (Z.leb_spec 0 i).
  - rewrite lookup_lt_is_Some. lia.
  - split; [intros [? [=]] | lia].
Qed.

Lemma store_z_Some {A} (l l' : list A) (i : Z) x :
  store_z l i x = Some l' <->
  0 <= i < Z.of_nat (length l) /\ l' = <[Z.to_nat i := x]> l.
Proof.
  unfold store_z.
  destruct (Z.leb_spec 0 i), (Z.ltb_spec i (Z.of_nat (length l))); simpl; naive_solver lia.
Qed.

(** ** Sums of integers over lists and maps *)
Definition zsum (l : list Z) : Z := foldr Z.add 0 l.

Lemma zsum_app l1 l2 : zsum (l1 ++ l2) = zsum l1 + zsum l2.
Proof. induction l1; simpl; lia. Qed.

#[export] Instance zsum_perm : Proper ((≡ₚ) ==> (=)) zsum.
Proof. induction 1; simpl; lia. Qed.

Lemma zsum_fmap_add {A} (f g : A -> Z) l :
  zsum ((fun x => f x + g x) <$> l) = zsum (f <$> l) + zsum (g <$> l).
Proof. induction l; csimpl; lia. Qed.

Lemma zsum_fmap_zero {A} (f : A -> Z) l : (forall x, x ∈ l -> f x = 0) -> zsum (f <$> l) = 0.
Proof.
  induction l as [|x l IH]; intros Hf; csimpl; [done|].
  rewrite Hf, IH; [done| |]; set_solver.
Qed.

Definition msum `{Countable K} {V} (f : V -> Z) (m : gmap K V) : Z :=
  zsum ((fun kv => f kv.2) <$> map_to_list m).

Section msum.
Context `{Countable K} {V : Type}.
Implicit Types (m : gmap K V) (f : V -> Z).

Lemma msum_empty f : msum f (∅ : gmap K V) = 0.
Proof. unfold msum. by rewrite map_to_list_empty. Qed.

Lemma msum_insert f m k v : m !! k = None -> msum f (<[k:=v]> m) = f v + msum f m.
Proof. intros. unfold msum. by rewrite map_to_list_insert. Qed.

Lemma msum_delete f m k v : m !! k = Some v -> msum f m = f v + msum f (delete k m).
Proof. intros. unfold msum. by rewrite <- (map_to_list_delete m k v). Qed.

Lemma msum_insert_Some f m k v w :
  m !! k = Some w -> msum f (<[k:=v]> m) = msum f m - f w + f v.
Proof.
  intros Hw. rewrite (msum_delete f m k w) by done.
  rewrite <- insert_delete_eq, msum_insert by apply lookup_delete_eq. lia.
Qed.

Lemma msum_upsert f m k v :
  msum f (<[k:=v]> m) = msum f m - from_option f 0 (m !! k) + f v.
Proof.
  destruct (m !! k) as [w|] eqn:E; simpl.
  - by apply msum_insert_Some.
  - rewrite msum_insert by done. lia.
Qed.

Lemma msum_ext f g m : (forall k v, m !! k = Some v -> f v = g v) -> msum f m = msum g m.
Proof.
  induction m as [|k v m Hk IH] using map_ind; intros Hfg; [by rewrite !msum_empty|].
  rewrite !msum_insert by done. rewrite (Hfg k v) by apply lookup_insert_eq.
  rewrite IH; [done|]. intros k' v' Hm. apply (Hfg k').
  rewrite lookup_insert_ne; [done|]. congruence.
Qed.

Lemma msum_add f g m : msum (fun v => f v + g v) m = msum f m + msum g m.
Proof. unfold msum. apply zsum_fmap_add. Qed.

Lemma msum_omap f (g : V -> option V) m :
  msum f (omap g m) = msum (fun v => from_option f 0 (g v)) m.
Proof.
  induction m as [|k v m Hk IH] using map_ind.
  { by rewrite omap_empty, !msum_empty. }
  rewrite msum_insert, <- IH by done.
  destruct (g v) as [w|] eqn:Hg; simpl.
  - rewrite (omap_insert_Some g m k v w Hg).
    rewrite msum_insert; [done|]. by rewrite lookup_omap, Hk.
  - rewrite (omap_insert_None g m k v Hg), delete_id by (by rewrite lookup_omap, Hk). done.
Qed.
End msum.

(** ** Lists used as bounded heaps of addresses *)
Lemma NoDup_length_le_size {V} (h : gmap positive V) (l : list positive) :
  NoDup l -> (forall x, x ∈ l -> is_Some (h !! x)) -> (length l <= size h)%nat.
Proof.
  intros Hnd Hin.
  rewrite <- (size_dom (D := gset positive) h).
  rewrite <- (size_list_to_set (C := gset positive) l) by done.
  apply subseteq_size. intros x Hx. apply elem_of_list_to_set in Hx.
  apply elem_of_dom. auto.
Qed.

Lemma concat_split {A} (C : list (list A)) b l :
  C !! b = Some l -> concat C = concat (take b C) ++ l ++ concat (drop (S b) C).
Proof.
  intros Hb. rewrite <- (take_drop_middle C b l Hb) at 1.
  by rewrite concat_app.
Qed.

Lemma concat_insert {A} (C : list (list A)) b l l' :
  C !! b = Some l ->
  concat (<[b := l']> C) = concat (take b C) ++ l' ++ concat (drop (S b) C).
Proof.
  intros Hb. apply lookup_lt_Some in Hb as Hlt.
  rewrite (concat_split (<[b := l']> C) b l') by (by apply list_lookup_insert_eq).
  rewrite take_insert_ge by lia. by rewrite drop_insert_lt by lia.
Qed.

Lemma elem_of_concat {A} (C : list (list A)) x :
  x ∈ concat C <-> exists i l, C !! i = Some l /\ x ∈ l.
Proof.
  rewrite list_elem_of_In, in_concat. split.
  - intros (l & Hl & Hx). apply list_elem_of_In, list_elem_of_lookup in Hl as [i Hi].
    exists i, l. by rewrite list_elem_of_In.
  - intros (i & l & Hi & Hx). exists l. rewrite <- !list_elem_of_In.
    split; [|done]. by apply list_elem_of_lookup_2 in Hi.
Qed.

(** A list without duplicates that is a concatenation keeps each element in one part. *)
Lemma concat_NoDup_same {A} (C : list (list A)) i j l1 l2 x :
  NoDup (concat C) -> C !! i = Some l1 -> C !! j = Some l2 -> x ∈ l1 -> x ∈ l2 -> i = j.
Proof.
  intros Hnd Hi Hj H1 H2. destruct (decide (i = j)) as [->|Hne]; [done|]. exfalso.
  rewrite (concat_split C i l1 Hi) in Hnd.
  apply NoDup_app in Hnd as (_ & Ha & Hnd). apply NoDup_app in Hnd as (_ & Hb & _).
  destruct (decide (j < i)%nat).
  - apply (Ha x); [|apply elem_of_app; by left].
    apply elem_of_concat. exists j, l2. split; [|done]. rewrite lookup_take_lt; [done|lia].
  - apply (Hb x); [done|]. apply elem_of_concat. exists (j - S i)%nat, l2. split; [|done].
    rewrite lookup_drop. replace (S i + (j - S i))%nat with j by lia. done.
Qed.

(** ** Automation

    [iftop_db] collects the closing lemmas of the components; [inv_bind]
    inverts a hypothesis that says a fallible computation returned. *)
Create HintDb iftop_db.
#[export] Hint Resolve uwrap_range swrap_range : iftop_db.

Ltac inv_bind :=
  repeat match goal with
  | H : _ ≫= _ = Some _ |- _ => apply bind_Some in H as (? & ? & H)
  | H : Some _ = Some _ |- _ => injection H as H; try subst
  | H : (_, _) = (_, _) |- _ => injection H as H; try subst
  | H : None = Some _ |- _ => discriminate H
  end.

Ltac bool_cases :=
  repeat match goal with
  | |- context [?a =? ?b] => destruct (Z.eqb_spec a b)
  | |- context [?a <? ?b] => destruct (Z.ltb_spec a b)
  | |- context [?a <=? ?b] => destruct (Z.leb_spec a b)
  end; simpl.
