(* ===== verification/Records.v ===== *)
(** * Tables of records

    A table whose bindings [L] lead from keys to the addresses of records in a
    heap stands for a finite map: [cells_rep].  Used for the histories of the
    flows (iftop.c) and for the lines of the screen (ui.c). *)

From S2P Require Import Prelude.

Lemma elem_of_keys {A B} (L : list (A * B)) k r : (k, r) ∈ L -> k ∈ L.*1.
Proof. intros. apply list_elem_of_fmap. by exists (k, r). Qed.

Lemma elem_of_recs {A B} (L : list (A * B)) k r : (k, r) ∈ L -> r ∈ L.*2.
Proof. intros. apply list_elem_of_fmap. by exists (k, r). Qed.

Lemma NoDup_recs_inj {A B} (L : list (A * B)) k k' r :
  NoDup L.*2 -> (k, r) ∈ L -> (k', r) ∈ L -> k = k'.
Proof.
  induction L as [|[k0 r0] L IH]; csimpl; [set_solver|].
  intros [Hn Hd]%NoDup_cons [E1|H1]%elem_of_cons [E2|H2]%elem_of_cons; simplify_eq; auto;
    destruct Hn; by eapply elem_of_recs.
Qed.

Lemma NoDup_keys_inj {A B} (L : list (A * B)) k r r' :
  NoDup L.*1 -> (k, r) ∈ L -> (k, r') ∈ L -> r = r'.
Proof.
  induction L as [|[k0 r0] L IH]; csimpl; [set_solver|].
  intros [Hn Hd]%NoDup_cons [E1|H1]%elem_of_cons [E2|H2]%elem_of_cons; simplify_eq; auto;
    destruct Hn; by eapply elem_of_keys.
Qed.

(** [live v]: the cell that holds the record [v]. *)
Record cells_rep `{Countable K} {V A} (live : V -> A) (L : list (K * positive))
    (cells : gmap positive A) (m : gmap K V) : Prop := CellsRep {
  cl_keys : NoDup L.*1;
  cl_recs : NoDup L.*2;
  cl_live k r : (k, r) ∈ L -> exists h, cells !! r = Some (live h) /\ m !! k = Some h;
  cl_dom k : is_Some (m !! k) -> k ∈ L.*1
}.
Arguments cl_keys {K _ _ V A live}. Arguments cl_recs {K _ _ V A live}.
Arguments cl_live {K _ _ V A live}. Arguments cl_dom {K _ _ V A live}.

Section records.
Context `{Countable K} {V A : Type} {live : V -> A}.
Implicit Types (L : list (K * positive)) (cells : gmap positive A) (m : gmap K V).

Lemma cells_rep_perm L L' cells m : L ≡ₚ L' -> cells_rep live L cells m -> cells_rep live L' cells m.
Proof.
  intros E [Hk Hr Hl Hd]. split; intros; [by rewrite <- E|by rewrite <- E|apply Hl|].
  - by rewrite E.
  - rewrite <- E. auto.
Qed.

Lemma cells_rep_frame L cells cells' m :
  cells_rep live L cells m -> (forall r, r ∈ L.*2 -> cells' !! r = cells !! r) -> cells_rep live L cells' m.
Proof.
  intros [Hk Hr Hl Hd] Hs. split; [done|done| |done]. intros k r Hin.
  rewrite Hs by (by eapply elem_of_recs). auto.
Qed.

Lemma cells_rep_update L cells m k r h :
  cells_rep live L cells m -> (k, r) ∈ L ->
  cells_rep live L (<[r := live h]> cells) (<[k := h]> m).
Proof.
  intros [Hk Hr Hl Hd] Hin. split; [done|done|..].
  - intros k' r' Hin'. destruct (decide (r = r')) as [<-|Hne].
    + assert (k' = k) as -> by (by eapply NoDup_recs_inj). exists h.
      by rewrite !lookup_insert_eq.
    + assert (k <> k') by (intros <-; destruct Hne; by eapply NoDup_keys_inj).
      rewrite !lookup_insert_ne by done. auto.
  - intros k' [<-|[_ Hm]]%lookup_insert_is_Some; [by eapply elem_of_keys|auto].
Qed.

Lemma cells_rep_insert L cells m k r h :
  cells_rep live L cells m -> k ∉ L.*1 -> r ∉ L.*2 ->
  cells_rep live ((k, r) :: L) (<[r := live h]> cells) (<[k := h]> m).
Proof.
  intros [Hk Hr Hl Hd] Hkn Hrn. split; csimpl; [by apply NoDup_cons|by apply NoDup_cons|..].
  - intros k' r' [[= -> ->]|Hin]%elem_of_cons; [exists h; by rewrite !lookup_insert_eq|].
    rewrite !lookup_insert_ne; [auto|..]; intros <-;
      [destruct Hkn; by eapply elem_of_keys|destruct Hrn; by eapply elem_of_recs].
  - intros k' [<-|[_ Hm]]%lookup_insert_is_Some; [set_solver|]. apply elem_of_cons. auto.
Qed.

Lemma cells_rep_delete L cells cells' m k r :
  cells_rep live ((k, r) :: L) cells m ->
  (forall r', r' ∈ L.*2 -> cells' !! r' = cells !! r') -> cells_rep live L cells' (delete k m).
Proof.
  intros [Hk Hr Hl Hd] Hs. csimpl in *. apply NoDup_cons in Hk as [Hkn Hk].
  apply NoDup_cons in Hr as [Hrn Hr]. split; [done|done|..].
  - intros k' r' Hin. rewrite Hs by (by eapply elem_of_recs).
    rewrite lookup_delete_ne; [apply Hl; set_solver|]. intros <-. destruct Hkn.
    by eapply elem_of_keys.
  - intros k' [Hne Hm]%lookup_delete_is_Some. apply Hd in Hm. set_solver.
Qed.

Lemma cells_rep_absent L cells m k : cells_rep live L cells m -> k ∉ L.*1 -> m !! k = None.
Proof. intros Hr Hk. apply eq_None_not_Some. intros Hs. by apply (cl_dom _ _ _ Hr) in Hs. Qed.

Lemma cells_rep_size L cells m : cells_rep live L cells m -> size m = length L.
Proof.
  intros Hr. rewrite <- (size_dom (D := gset K)).
  assert (dom m = list_to_set (C := gset K) L.*1) as ->.
  { apply set_eq. intros k. rewrite elem_of_dom, elem_of_list_to_set. split; [apply Hr|].
    intros ([k' r] & -> & Hin)%list_elem_of_fmap. destruct (cl_live _ _ _ Hr _ _ Hin) as (h & _ & Hm).
    simpl. rewrite Hm. eauto. }
  rewrite size_list_to_set by apply Hr. apply length_fmap.
Qed.

End records.
