(* ===== verification/Bytes.v ===== *)
(** * Bytes in memory

    Big-endian values of byte lists and masks: network addresses
    (options.c, iftop.c) and packet fields. *)

From S2P Require Import Prelude.

Local Open Scope Z_scope.

Definition is_byte (x : Z) : Prop := 0 <= x < 256.
Definition bytes_ok (l : list Z) : Prop := Forall is_byte l.

(** The big-endian value of a list of bytes. *)
Definition be_acc (acc : Z) (l : list Z) : Z := foldl (fun a b => a * 256 + b) acc l.
Definition be_val (l : list Z) : Z := be_acc 0 l.

Definition and_bytes (a b : list Z) : list Z := zip_with Z.land a b.

Lemma bytes_ok_cons x l : bytes_ok (x :: l) <-> is_byte x /\ bytes_ok l.
Proof. apply Forall_cons. Qed.

(** ** Concatenating a byte *)
Lemma testbit_byte x y n :
  is_byte y -> 0 <= n ->
  Z.testbit (x * 256 + y) n = if n <? 8 then Z.testbit y n else Z.testbit x (n - 8).
Proof.
  intros Hy Hn. unfold is_byte in Hy. destruct (Z.ltb_spec n 8).
  - rewrite <- (Z.mod_pow2_bits_low (x * 256 + y) 8) by lia.
    f_equal. change (2 ^ 8) with 256. rewrite Z.add_comm, Z_mod_plus_full. by apply Z.mod_small.
  - replace n with (n - 8 + 8) at 1 by lia. rewrite <- Z.div_pow2_bits by lia.
    f_equal. change (2 ^ 8) with 256. rewrite Z.div_add_l by lia. rewrite Z.div_small by lia. lia.
Qed.

Lemma land_byte x y u v :
  is_byte y -> is_byte v ->
  Z.land (x * 256 + y) (u * 256 + v) = Z.land x u * 256 + Z.land y v.
Proof.
  intros Hy Hv. apply Z.bits_inj'. intros n Hn.
  assert (is_byte (Z.land y v)) as Hyv.
  { unfold is_byte in *. split; [apply Z.land_nonneg; lia|].
    apply Z.log2_lt_cancel. change (Z.log2 256) with 8.
    pose proof (Z.log2_land y v ltac:(lia) ltac:(lia)).
    pose proof (Z.log2_le_mono y 255 ltac:(lia)). change (Z.log2 255) with 7 in *. lia. }
  rewrite Z.land_spec, !testbit_byte by done.
  destruct (n <? 8); by rewrite Z.land_spec.
Qed.

Lemma be_acc_land a b x y :
  bytes_ok a -> bytes_ok b -> length a = length b ->
  be_acc (Z.land x y) (and_bytes a b) = Z.land (be_acc x a) (be_acc y b).
Proof.
  intros Ha. revert b x y. induction Ha as [|c a Hc Ha IH]; intros [|d b] x y Hb Hl; try done.
  apply bytes_ok_cons in Hb as [Hd Hb]. simpl. rewrite <- land_byte by done.
  unfold be_acc in IH. apply IH; [done|]. by injection Hl.
Qed.

Lemma be_val_land a b :
  bytes_ok a -> bytes_ok b -> length a = length b ->
  be_val (and_bytes a b) = Z.land (be_val a) (be_val b).
Proof. intros. by apply (be_acc_land a b 0 0). Qed.

Lemma be_acc_inj x y a b :
  bytes_ok a -> bytes_ok b -> length a = length b -> be_acc x a = be_acc y b -> x = y /\ a = b.
Proof.
  intros Ha. revert b x y. induction Ha as [|c a Hc Ha IH]; intros [|d b] x y Hb Hl E; try done.
  apply bytes_ok_cons in Hb as [Hd Hb]. injection Hl as Hl.
  destruct (IH b _ _ Hb Hl E) as [E1 ->]. unfold is_byte in *. split; [lia|]. f_equal. lia.
Qed.

Lemma be_val_inj a b :
  bytes_ok a -> bytes_ok b -> length a = length b -> be_val a = be_val b -> a = b.
Proof. intros. by destruct (be_acc_inj 0 0 a b). Qed.

Lemma land_byte_ok x y : is_byte x -> is_byte y -> is_byte (Z.land x y).
Proof.
  unfold is_byte. intros Hx Hy. split; [apply Z.land_nonneg; lia|].
  apply Z.log2_lt_cancel. change (Z.log2 256) with 8.
  pose proof (Z.log2_land x y ltac:(lia) ltac:(lia)).
  pose proof (Z.log2_le_mono x 255 ltac:(lia)). change (Z.log2 255) with 7 in *. lia.
Qed.

Lemma and_bytes_ok a b : bytes_ok a -> bytes_ok b -> bytes_ok (and_bytes a b).
Proof.
  intros Ha. revert b. induction Ha as [|c a Hc Ha IH]; intros [|d b] Hb; simpl; try constructor.
  - apply bytes_ok_cons in Hb as [Hd _]. by apply land_byte_ok.
  - apply bytes_ok_cons in Hb as [_ Hb]. by apply IH.
Qed.

Lemma be_acc_range x l :
  bytes_ok l -> x * 2 ^ (8 * Z.of_nat (length l)) <= be_acc x l
    < (x + 1) * 2 ^ (8 * Z.of_nat (length l)).
Proof.
  intros Hl. revert x. induction Hl as [|c l Hc Hl IH]; intros x; [simpl; lia|].
  specialize (IH (x * 256 + c)). cbn [be_acc foldl length]. unfold be_acc in IH.
  replace (8 * Z.of_nat (S (length l))) with (8 + 8 * Z.of_nat (length l)) by lia.
  rewrite Z.pow_add_r by lia. change (2 ^ 8) with 256. unfold is_byte in Hc.
  pose proof (Z.pow_pos_nonneg 2 (8 * Z.of_nat (length l))). nia.
Qed.

Lemma be_val_range l : bytes_ok l -> 0 <= be_val l < 2 ^ (8 * Z.of_nat (length l)).
Proof. intros Hl. pose proof (be_acc_range 0 l Hl). unfold be_val. lia. Qed.

(** ** Prefix masks: [p] leading ones in [w] bits *)
Definition prefix_value (w p : Z) : Z := 2 ^ w - 2 ^ (w - p).

Lemma prefix_bits w p n :
  0 <= p <= w -> 0 <= n ->
  Z.testbit (prefix_value w p) n = (w - p <=? n) && (n <? w).
Proof.
  intros Hp Hn. unfold prefix_value.
  replace (2 ^ w - 2 ^ (w - p)) with (Z.shiftl (Z.ones p) (w - p)).
  2:{ rewrite Z.shiftl_mul_pow2, Z.ones_equiv by lia.
      replace w with (p + (w - p)) at 2 by lia. rewrite Z.pow_add_r by lia. lia. }
  destruct (Z.leb_spec (w - p) n); simpl.
  - rewrite Z.shiftl_spec by lia. destruct (Z.ltb_spec n w).
    + apply Z.ones_spec_low. lia.
    + apply Z.ones_spec_high. lia.
  - rewrite Z.shiftl_spec_low by lia. done.
Qed.

(** Two values agree under a prefix mask exactly when their leading bits do. *)
Lemma land_prefix_eq w p x y :
  0 <= p <= w -> 0 <= x < 2 ^ w -> 0 <= y < 2 ^ w ->
  Z.land x (prefix_value w p) = Z.land y (prefix_value w p) <-> x / 2 ^ (w - p) = y / 2 ^ (w - p).
Proof.
  intros Hp Hx Hy.
  assert (forall z n, 0 <= z < 2 ^ w -> w <= n -> Z.testbit z n = false) as Hhigh.
  { intros z n Hz Hn. rewrite <- (Z.mod_small z (2 ^ w)) by lia. apply Z.mod_pow2_bits_high. lia. }
  split; intros E.
  - apply Z.bits_inj'. intros n Hn. rewrite !Z.div_pow2_bits by lia.
    destruct (Z.ltb_spec (n + (w - p)) w).
    + apply (f_equal (fun z => Z.testbit z (n + (w - p)))) in E.
      rewrite !Z.land_spec, prefix_bits in E by lia.
      rewrite (proj2 (Z.leb_le _ _)), (proj2 (Z.ltb_lt _ _)) in E by lia.
      by rewrite !andb_true_r in E.
    + by rewrite !Hhigh by lia.
  - apply Z.bits_inj'. intros n Hn. rewrite !Z.land_spec, prefix_bits by lia.
    destruct (Z.leb_spec (w - p) n); [|by rewrite !andb_false_r]. f_equal.
    apply (f_equal (fun z => Z.testbit z (n - (w - p)))) in E.
    rewrite !Z.div_pow2_bits in E by lia. by replace (n - (w - p) + (w - p)) with n in E by lia.
Qed.

Lemma and_bytes_prefix_eq a b m p :
  bytes_ok a -> bytes_ok b -> bytes_ok m -> length a = length m -> length b = length m ->
  let w := 8 * Z.of_nat (length m) in
  0 <= p <= w -> be_val m = prefix_value w p ->
  and_bytes a m = and_bytes b m <-> be_val a / 2 ^ (w - p) = be_val b / 2 ^ (w - p).
Proof.
  intros Ha Hb Hm La Lb w Hp Em.
  pose proof (be_val_range a Ha) as Ra. pose proof (be_val_range b Hb) as Rb.
  rewrite La in Ra. rewrite Lb in Rb. rewrite <- (land_prefix_eq w p) by done.
  rewrite <- Em, <- !be_val_land by done. split; [by intros ->|]. intros E.
  apply be_val_inj; [by apply and_bytes_ok|by apply and_bytes_ok| |done].
  unfold and_bytes. rewrite !length_zip_with. lia.
Qed.
