(* ===== verification/Chain.v ===== *)
(** * Linked chains in a heap

    The singly linked lists of the program: hash buckets (hash.c,
    addr_hash.c), free lists of the pools (addr_hash.c, iftop.c), the sorted
    list (sorted_list.c).  [chain] relates a head pointer to the list of the
    addresses it reaches; [walk] is the loop
    [while (node && !stop(node)) { prev = node; node = node->next; }];
    [unlink] is the splice that follows it in the deletions. *)

From S2P Require Import Prelude.

Section chain.
Context {A : Type} (next : A -> option positive).
Implicit Types (h : gmap positive A) (p : option positive) (l : list positive).

Fixpoint chain h p l : Prop :=
  match l with
  | [] => p = None
  | x :: l' => p = Some x /\ exists a, h !! x = Some a /\ chain h (next a) l'
  end.

Lemma chain_det h p l1 l2 : chain h p l1 -> chain h p l2 -> l1 = l2.
Proof.
  revert p l2. induction l1 as [|x l1 IH]; intros p [|y l2]; simpl;
    [done|by intros -> [? _]|by intros [-> _] ?|].
  intros [-> (a & Ha & H1)] [[= ->] (b & Hb & H2)]. simplify_eq. f_equal. eauto.
Qed.

Lemma chain_frame h h' p l :
  chain h p l ->
  (forall x a, x ∈ l -> h !! x = Some a -> exists a', h' !! x = Some a' /\ next a' = next a) ->
  chain h' p l.
Proof.
  revert p. induction l as [|x l IH]; intros p; simpl; [done|].
  intros [-> (a & Ha & Hc)] Hf. split; [done|].
  destruct (Hf x a) as (a' & Ha' & Hn); [set_solver|done|].
  exists a'. split; [done|]. rewrite Hn. apply IH; [done|].
  intros y b Hy. apply Hf. set_solver.
Qed.

Lemma chain_same h h' p l :
  chain h p l -> (forall x, x ∈ l -> h' !! x = h !! x) -> chain h' p l.
Proof. intros Hc Hs. apply (chain_frame h); [done|]. intros x a Hx. rewrite Hs; eauto. Qed.

Lemma chain_alive h p l x : chain h p l -> x ∈ l -> is_Some (h !! x).
Proof.
  revert p. induction l as [|y l IH]; intros p; simpl; [set_solver|].
  intros [-> (a & Ha & Hc)] [->|Hx]%elem_of_cons; eauto.
Qed.

Lemma chain_suffix h p l1 l2 :
  chain h p (l1 ++ l2) -> exists q, chain h q l2 /\ (q = None <-> l2 = []).
Proof.
  revert p. induction l1 as [|x l1 IH]; intros p; simpl.
  - intros Hc. exists p. split; [done|]. destruct l2; simpl in Hc; naive_solver.
  - intros [_ (a & _ & Hc)]. eauto.
Qed.

Lemma chain_NoDup h p l : chain h p l -> NoDup l.
Proof.
  revert p. induction l as [|x l IH]; intros p Hc; [constructor|].
  constructor; [|destruct Hc as [_ (a & _ & Hc)]; eauto].
  intros Hin. destruct Hc as [_ (a & Ha & Hc)].
  apply list_elem_of_split in Hin as (l1 & l2 & ->).
  destruct (chain_suffix h _ _ _ Hc) as (q & Hq & _).
  destruct Hq as [-> (b & Hb & Hq)]. simplify_eq.
  pose proof (chain_det _ _ _ _ Hc Hq) as E.
  apply (f_equal length) in E. rewrite length_app in E. simpl in E. lia.
Qed.

Lemma chain_length h p l : chain h p l -> (length l <= size h)%nat.
Proof.
  intros Hc. apply NoDup_length_le_size; [by eapply chain_NoDup|].
  intros x. by apply chain_alive with p.
Qed.

Lemma chain_cons h x a l :
  h !! x = Some a -> chain h (next a) l -> chain h (Some x) (x :: l).
Proof. simpl. eauto. Qed.

(** ** The traversal with a trailing pointer *)
Fixpoint walk (stop : positive -> A -> bool) h (fuel : nat) (prev node : option positive) :
    option (option positive * option positive) :=
  match fuel with
  | O => None
  | S fuel =>
      match node with
      | None => Some (prev, None)
      | Some n =>
          a ← h !! n;
          if stop n a then Some (prev, Some n) else walk stop h fuel (Some n) (next a)
      end
  end.

(** The trailing pointer after the nodes [l] have been passed. *)
Definition prev_of (prev : option positive) (l : list positive) : option positive :=
  match last l with Some y => Some y | None => prev end.

Lemma prev_of_cons prev x l : prev_of prev (x :: l) = prev_of (Some x) l.
Proof. unfold prev_of. rewrite last_cons. by destruct (last l). Qed.

Lemma walk_found stop h fuel prev p l1 x l2 a :
  chain h p (l1 ++ x :: l2) -> (length l1 < fuel)%nat ->
  (forall y b, y ∈ l1 -> h !! y = Some b -> stop y b = false) ->
  h !! x = Some a -> stop x a = true ->
  walk stop h fuel prev p = Some (prev_of prev l1, Some x).
Proof.
  revert fuel prev p. induction l1 as [|y l1 IH]; intros fuel prev p Hc Hf Hn Hx Hs.
  - destruct fuel; [simpl in Hf; lia|]. destruct Hc as [-> (b & Hb & _)].
    assert (b = a) as -> by congruence. simpl. rewrite Hx. simpl. by rewrite Hs.
  - destruct fuel; [simpl in Hf; lia|]. destruct Hc as [-> (b & Hb & Hc)].
    simpl. rewrite Hb. simpl. rewrite (Hn y b) by set_solver.
    rewrite prev_of_cons. apply IH; try done; [simpl in Hf; lia|set_solver].
Qed.

Lemma walk_none stop h fuel prev p l :
  chain h p l -> (length l < fuel)%nat ->
  (forall y b, y ∈ l -> h !! y = Some b -> stop y b = false) ->
  walk stop h fuel prev p = Some (prev_of prev l, None).
Proof.
  revert fuel prev p. induction l as [|y l IH]; intros fuel prev p Hc Hf Hn.
  - destruct fuel; [simpl in Hf; lia|]. simpl in Hc. by subst.
  - destruct fuel; [simpl in Hf; lia|]. destruct Hc as [-> (b & Hb & Hc)].
    simpl. rewrite Hb. simpl. rewrite (Hn y b) by set_solver.
    rewrite prev_of_cons. apply IH; try done; [simpl in Hf; lia|set_solver].
Qed.

(** Every chain either has a first stopping node or none. *)
Lemma chain_first stop h p l :
  chain h p l ->
  (forall y b, y ∈ l -> h !! y = Some b -> stop y b = false) \/
  (exists l1 x a l2, l = l1 ++ x :: l2 /\ h !! x = Some a /\ stop x a = true /\
     forall y b, y ∈ l1 -> h !! y = Some b -> stop y b = false).
Proof.
  revert p. induction l as [|x l IH]; intros p; [left; set_solver|].
  intros [-> (a & Ha & Hc)]. destruct (stop x a) eqn:Hs.
  - right. exists [], x, a, l. naive_solver set_solver.
  - destruct (IH _ Hc) as [Hn|(l1 & y & b & l2 & -> & Hy & Hsy & Hn)].
    + left. intros y b [->|Hy]%elem_of_cons; naive_solver.
    + right. exists (x :: l1), y, b, l2. split_and!; try done.
      intros z c [->|Hz]%elem_of_cons; naive_solver.
Qed.

(** ** Splicing a node out *)
Context (set_next : option positive -> A -> A).

Definition unlink h (head prev after : option positive) : option (gmap positive A * option positive) :=
  match prev with
  | Some y => b ← h !! y; Some (<[y := set_next after b]> h, head)
  | None => Some (h, after)
  end.

Hypothesis next_set_next : forall q a, next (set_next q a) = q.

Lemma unlink_chain h p l1 x l2 a :
  chain h p (l1 ++ x :: l2) -> h !! x = Some a ->
  exists h' p', unlink h p (prev_of None l1) (next a) = Some (h', p') /\
    chain h' p' (l1 ++ l2) /\
    (forall z, prev_of None l1 <> Some z -> h' !! z = h !! z) /\
    (forall z b, prev_of None l1 = Some z -> h !! z = Some b ->
       h' !! z = Some (set_next (next a) b)).
Proof.
  intros Hc Hx. pose proof (chain_NoDup _ _ _ Hc) as Hnd.
  destruct (last l1) as [y|] eqn:Hl.
  2:{ apply last_None in Hl as ->. exists h, (next a). simpl.
      destruct Hc as [-> (b & Hb & Hc)]. by simplify_eq. }
  apply last_Some in Hl as [l0 ->].
  assert (prev_of None (l0 ++ [y]) = Some y) as Hp by (unfold prev_of; by rewrite last_snoc).
  rewrite Hp. rewrite <- app_assoc in Hc, Hnd. simpl in Hc, Hnd.
  destruct (chain_alive h p _ y Hc) as [b Hb]; [set_solver|].
  simpl. rewrite Hb. simpl. eexists _, _. split; [done|]. split_and!.
  - apply NoDup_app in Hnd as (_ & Hnd0 & Hnd). rewrite <- app_assoc. simpl.
    revert p Hc. clear Hp. induction l0 as [|z l0 IH]; intros p.
    + intros [-> (? & ? & _ & (? & ? & Hc))]. simplify_eq. split; [done|].
      eexists. split; [apply lookup_insert_eq|]. rewrite next_set_next.
      apply (chain_same h); [done|]. intros z Hz.
      rewrite lookup_insert_ne; [done|]. intros ->. apply NoDup_cons in Hnd. set_solver.
    + intros [-> (c & Hcz & Hc)]. split; [done|]. exists c.
      split; [|apply IH; [set_solver|done]].
      rewrite lookup_insert_ne; [done|]. intros ->. apply (Hnd0 z); set_solver.
  - intros z Hz. rewrite lookup_insert_ne; congruence.
  - intros z c [= <-] Hc'. simplify_eq. apply lookup_insert_eq.
Qed.
End chain.
Arguments walk : simpl never.
