(* ===== verification/Hash.v ===== *)
(** * The chained hash table (src/data/map/hash.c, src/include/hash.h)

    Nodes live in a heap, buckets are chains of nodes linked by [n_next], and
    the table holds the heads.  [hash_rep] is the well-formedness invariant;
    [contents] is the abstract value: the association list of the table in
    iteration order.  A copied key is owned by its node, so that
    [delete_key(node->key); free(node)] is the removal of the node. *)

From S2P Require Import Prelude Chain.

Local Open Scope Z_scope.

Inductive hash_status_enum :=
  | HASH_STATUS_OK
  | HASH_STATUS_MEM_EXHAUSTED
  | HASH_STATUS_KEY_NOT_FOUND.

#[export] Instance hash_status_eq_dec : EqDecision hash_status_enum.
Proof. solve_decision. Defined.

Record hash_node_type (K R : Type) := HashNode {
  n_next : option positive;   (* next node *)
  n_key : K;
  n_record : R;               (* user data *)
  n_bucket : Z                (* cached bucket index *)
}.
Arguments HashNode {K R}.
Arguments n_next {K R}.
Arguments n_key {K R}.
Arguments n_record {K R}.
Arguments n_bucket {K R}.

Record hash_type (K : Type) := HashType {
  compare : K -> K -> bool;
  hash : K -> Z;
  copy_key : K -> K;
  table : list (option positive);
  hsize : Z
}.
Arguments HashType {K}.
Arguments compare {K}.
Arguments hash {K}.
Arguments copy_key {K}.
Arguments table {K}.
Arguments hsize {K}.

Definition with_table {K} (t : hash_type K) (tbl : list (option positive)) : hash_type K :=
  HashType (compare t) (hash t) (copy_key t) tbl (hsize t).

(** The heap of nodes; [brk] is the first address never allocated. *)
Record mem (K R : Type) := Mem {
  nodes : gmap positive (hash_node_type K R);
  brk : positive
}.
Arguments Mem {K R}.
Arguments nodes {K R}.
Arguments brk {K R}.

Section hash.
Context {K R : Type}.
Notation node := (hash_node_type K R).
Notation chain := (chain (@n_next K R)).
Implicit Types (t : hash_type K) (m : mem K R) (key : K) (rec : R).

Definition set_next (q : option positive) (nd : node) : node :=
  HashNode q (n_key nd) (n_record nd) (n_bucket nd).

(** Enough fuel for any chain of the heap. *)
Definition chain_fuel m : nat := S (size (nodes m)).

Definition hash_initialise t : hash_status_enum * hash_type K :=
  (HASH_STATUS_OK, with_table t (replicate (Z.to_nat (hsize t)) None)).

Definition hash_destroy t : hash_status_enum * hash_type K :=
  (HASH_STATUS_OK, with_table t []).

(** insert node at beginning of list *)
Definition hash_insert t m key rec : option (hash_status_enum * hash_type K * mem K R) :=
  let bucket := hash t key in
  let n := brk m in
  prev ← table t !!z bucket;
  tbl ← store_z (table t) bucket (Some n);
  let nd := HashNode prev (copy_key t key) rec bucket in
  Some (HASH_STATUS_OK, with_table t tbl, Mem (<[n := nd]> (nodes m)) (Pos.succ n)).

(** Remove [n], reached with the trailing pointer [prev], from its bucket. *)
Definition splice t m (bucket : Z) (prev : option positive) (n : positive) :
    option (gmap positive node * list (option positive)) :=
  p ← table t !!z bucket;
  nd ← nodes m !! n;
  '(h, p') ← unlink set_next (nodes m) p prev (n_next nd);
  tbl ← store_z (table t) bucket p';
  Some (h, tbl).

Definition hash_delete t m key : option (hash_status_enum * hash_type K * mem K R) :=
  let bucket := hash t key in
  p ← table t !!z bucket;
  '(prev, nd) ← walk n_next (fun _ nd => compare t (n_key nd) key) (nodes m) (chain_fuel m) None p;
  match nd with
  | None => Some (HASH_STATUS_KEY_NOT_FOUND, t, m)
  | Some n =>
      '(h, tbl) ← splice t m bucket prev n;
      Some (HASH_STATUS_OK, with_table t tbl, Mem (delete n h) (brk m))
  end.

Definition hash_find t m key : option (hash_status_enum * option R) :=
  let bucket := hash t key in
  p ← table t !!z bucket;
  '(_, nd) ← walk n_next (fun _ nd => compare t (n_key nd) key) (nodes m) (chain_fuel m) None p;
  match nd with
  | None => Some (HASH_STATUS_KEY_NOT_FOUND, None)
  | Some n => nd ← nodes m !! n; Some (HASH_STATUS_OK, Some (n_record nd))
  end.

(** [while (i < size && table[i] == NULL) i++;] *)
Fixpoint scan (fuel : nat) t (i : Z) : option Z :=
  match fuel with
  | O => None
  | S fuel =>
      if i <? hsize t then
        p ← table t !!z i;
        match p with None => scan fuel t (i + 1) | Some _ => Some i end
      else Some i
  end.

(** The first node of the first non-empty bucket from bucket [i] on. *)
Definition next_bucket t (i : Z) : option (hash_status_enum * option positive) :=
  i ← scan (S (length (table t))) t i;
  if i =? hsize t then Some (HASH_STATUS_KEY_NOT_FOUND, None)
  else p ← table t !!z i; Some (HASH_STATUS_OK, p).

Definition hash_next_item t m (pnode : option positive) :
    option (hash_status_enum * option positive) :=
  match pnode with
  | Some n =>
      nd ← nodes m !! n;
      match n_next nd with
      | Some q => Some (HASH_STATUS_OK, Some q)
      | None => next_bucket t (n_bucket nd + 1)
      end
  | None => next_bucket t 0
  end.

(** Delete a node by pointer (avoids re-hashing). *)
Definition hash_delete_node t m (target : positive) :
    option (hash_status_enum * hash_type K * mem K R) :=
  tnd ← nodes m !! target;
  let bucket := n_bucket tnd in
  p ← table t !!z bucket;
  '(prev, nd) ← walk n_next (fun n _ => bool_decide (n = target)) (nodes m) (chain_fuel m) None p;
  match nd with
  | None => Some (HASH_STATUS_KEY_NOT_FOUND, t, m)
  | Some n =>
      '(h, tbl) ← splice t m bucket prev n;
      Some (HASH_STATUS_OK, with_table t tbl, Mem (delete n h) (brk m))
  end.

(** [while (node != NULL) { next_node = node->next; ...; free(node); node = next_node; }];
    the result also lists the records of the freed nodes, in that order. *)
Fixpoint free_chain (fuel : nat) (h : gmap positive node) (p : option positive) :
    option (gmap positive node * list R) :=
  match fuel with
  | O => None
  | S fuel =>
      match p with
      | None => Some (h, [])
      | Some n =>
          nd ← h !! n;
          '(h', rs) ← free_chain fuel (delete n h) (n_next nd);
          Some (h', n_record nd :: rs)
      end
  end.

Fixpoint free_buckets (fuel : nat) (h : gmap positive node) (tbl : list (option positive)) :
    option (gmap positive node * list R) :=
  match tbl with
  | [] => Some (h, [])
  | p :: tbl =>
      '(h, rs) ← free_chain fuel h p;
      '(h, rs') ← free_buckets fuel h tbl;
      Some (h, rs ++ rs')
  end.

Definition hash_delete_all t m : option (hash_type K * mem K R) :=
  '(h, _) ← free_buckets (chain_fuel m) (nodes m) (table t);
  Some (with_table t (replicate (length (table t)) None), Mem h (brk m)).

(** Delete all nodes AND free their records: the list of the freed records is
    the third component. *)
Definition hash_delete_all_free t m : option (hash_type K * mem K R * list R) :=
  '(h, rs) ← free_buckets (chain_fuel m) (nodes m) (table t);
  Some (with_table t (replicate (length (table t)) None), Mem h (brk m), rs).

(** The clients' loop [node = NULL; while (hash_next_item(t, &node) == OK) ...]:
    the nodes it visits. *)
Fixpoint hash_iterate (fuel : nat) t m (pnode : option positive) : option (list positive) :=
  match fuel with
  | O => None
  | S fuel =>
      '(st, p) ← hash_next_item t m pnode;
      match st, p with
      | HASH_STATUS_OK, Some n => l ← hash_iterate fuel t m (Some n); Some (n :: l)
      | _, _ => Some []
      end
  end.
End hash.
Arguments scan : simpl never.
Arguments free_chain : simpl never.

(** ** What a client supplies: the functions of the table

    [compare] decides equality of valid keys, [hash] stays inside the table,
    [copy_key] duplicates. *)
Class HashOps {K} (t : hash_type K) (valid : K -> Prop) : Prop := {
  compare_eq k1 k2 : valid k1 -> valid k2 -> compare t k1 k2 = true <-> k1 = k2;
  hash_bound k : valid k -> 0 <= hash t k < hsize t;
  copy_key_id k : valid k -> copy_key t k = k
}.

#[export] Instance with_table_ops {K} (t : hash_type K) valid tbl :
  HashOps t valid -> HashOps (with_table t tbl) valid.
Proof. intros []. by constructor. Qed.

(** ** The abstract value: an association list in iteration order *)
Definition contents {K R} (h : gmap positive (hash_node_type K R)) (l : list positive) :
    list (K * R) :=
  omap (fun x => (fun nd => (n_key nd, n_record nd)) <$> h !! x) l.

Arguments contents : simpl never.

(** The first record bound to a key. *)
Fixpoint first_match {K R} `{EqDecision K} (k : K) (c : list (K * R)) : option R :=
  match c with
  | [] => None
  | (k', r) :: c => if decide (k' = k) then Some r else first_match k c
  end.

(** [c'] is [c] with the binding of [k] to [r] put before the other bindings of [k]. *)
Definition pushed {K R} (k : K) (r : R) (c c' : list (K * R)) : Prop :=
  exists a b, c = a ++ b /\ c' = a ++ (k, r) :: b /\ k ∉ a.*1.

(** [c'] is [c] without its first binding of [k], which is to [r]. *)
Definition popped {K R} (k : K) (r : R) (c c' : list (K * R)) : Prop := pushed k r c' c.

Section assoc.
Context {K R : Type} `{EqDecision K}.
Implicit Types (c : list (K * R)).

Lemma first_match_app k c1 c2 :
  k ∉ c1.*1 -> first_match k (c1 ++ c2) = first_match k c2.
Proof.
  induction c1 as [|[k' r] c1 IH]; csimpl; [done|]. intros Hn.
  rewrite decide_False by set_solver. apply IH. set_solver.
Qed.

Lemma first_match_None k c : first_match k c = None <-> k ∉ c.*1.
Proof.
  induction c as [|[k' r] c IH]; csimpl; [set_solver|].
  case_decide; simplify_eq; [set_solver|]. rewrite IH. set_solver.
Qed.

Lemma pushed_first_match k r c c' j :
  pushed k r c c' -> first_match j c' = if decide (k = j) then Some r else first_match j c.
Proof.
  intros (a & b & -> & -> & Hk). case_decide; simplify_eq.
  - rewrite first_match_app by done. simpl. by rewrite decide_True.
  - clear Hk. induction a as [|[k' r'] a IH]; csimpl; [by rewrite decide_False|].
    by rewrite IH.
Qed.

Lemma pushed_perm k r c c' : pushed k r c c' -> c' ≡ₚ (k, r) :: c.
Proof. intros (a & b & -> & -> & _). by rewrite <- Permutation_middle. Qed.

Lemma pushed_keys_NoDup k r c c' :
  pushed k r c c' -> NoDup c'.*1 <-> k ∉ c.*1 /\ NoDup c.*1.
Proof. intros Hp%pushed_perm. rewrite Hp. csimpl. by rewrite NoDup_cons. Qed.

Lemma popped_keys_NoDup k r c c' : popped k r c c' -> NoDup c.*1 -> k ∉ c'.*1 /\ NoDup c'.*1.
Proof. intros Hp. by apply (pushed_keys_NoDup k r). Qed.

Lemma first_match_elem k r c : NoDup c.*1 -> first_match k c = Some r <-> (k, r) ∈ c.
Proof.
  induction c as [|[k' r'] c IH]; csimpl; [set_solver|].
  intros [Hn Hd]%NoDup_cons. case_decide; simplify_eq.
  - split; [intros [= ->]; set_solver|].
    intros [?|Hin]%elem_of_cons; [congruence|].
    destruct Hn. apply list_elem_of_fmap. by exists (k, r).
  - rewrite IH by done. set_solver.
Qed.
End assoc.

(** ** Well-formed tables *)
Record hash_rep {K R} (valid : K -> Prop) (t : hash_type K) (m : mem K R)
    (C : list (list positive)) : Prop := HashRep {
  rep_size : Z.of_nat (length (table t)) = hsize t;
  rep_chains : Forall2 (chain n_next (nodes m)) (table t) C;
  rep_nodup : NoDup (concat C);
  rep_nodes i l x nd : C !! i = Some l -> x ∈ l -> nodes m !! x = Some nd ->
    n_bucket nd = Z.of_nat i /\ hash t (n_key nd) = Z.of_nat i /\ valid (n_key nd);
  rep_brk x : is_Some (nodes m !! x) -> (x < brk m)%positive
}.

Section theory.
Context {K R : Type} (valid : K -> Prop).
Notation node := (hash_node_type K R).
Notation chain := (Chain.chain (@n_next K R)).
Implicit Types (t : hash_type K) (m : mem K R) (h : gmap positive node) (C : list (list positive)).

Definition payload (nd : node) : K * R * Z := (n_key nd, n_record nd, n_bucket nd).

Lemma payload_key (nd nd' : node) : payload nd = payload nd' -> n_key nd = n_key nd'.
Proof. by intros [=]. Qed.

Lemma contents_app h l1 l2 : contents h (l1 ++ l2) = contents h l1 ++ contents h l2.
Proof. unfold contents. apply omap_app. Qed.

Lemma contents_step h x l :
  contents h (x :: l) =
  match h !! x with Some nd => [(n_key nd, n_record nd)] | None => [] end ++ contents h l.
Proof. unfold contents. simpl. by destruct (h !! x). Qed.

Lemma contents_cons h x nd l :
  h !! x = Some nd -> contents h (x :: l) = (n_key nd, n_record nd) :: contents h l.
Proof. intros Hx. by rewrite contents_step, Hx. Qed.

Lemma contents_payload h h' l :
  (forall x, x ∈ l -> payload <$> h' !! x = payload <$> h !! x) -> contents h' l = contents h l.
Proof.
  induction l as [|x l IH]; intros Hf; [done|]. rewrite !contents_step.
  rewrite IH by set_solver. pose proof (Hf x ltac:(set_solver)) as E.
  destruct (h' !! x) as [[]|], (h !! x) as [[]|]; simpl in *; naive_solver.
Qed.

Lemma contents_keys h l k :
  k ∈ (contents h l).*1 <-> exists x nd, x ∈ l /\ h !! x = Some nd /\ n_key nd = k.
Proof.
  unfold contents. rewrite list_elem_of_fmap. split.
  - intros ([k' r] & -> & (x & Hx & E)%list_elem_of_omap).
    destruct (h !! x) as [nd|] eqn:Hn; naive_solver.
  - intros (x & nd & Hx & Hn & <-). exists (n_key nd, n_record nd). split; [done|].
    apply list_elem_of_omap. exists x. by rewrite Hn.
Qed.

Lemma rep_bucket t m C i :
  hash_rep valid t m C -> 0 <= i < hsize t ->
  exists p l, table t !!z i = Some p /\ C !! Z.to_nat i = Some l /\ chain (nodes m) p l.
Proof.
  intros Hr Hi. destruct (lookup_lt_is_Some_2 (table t) (Z.to_nat i)) as [p Hp].
  { rewrite <- (rep_size _ _ _ _ Hr) in Hi. lia. }
  destruct (Forall2_lookup_l _ _ _ _ _ (rep_chains _ _ _ _ Hr) Hp) as (l & Hl & Hc).
  exists p, l. split_and!; try done. apply lookup_z_Some. split; [lia|done].
Qed.

Lemma rep_in t m C i l x :
  hash_rep valid t m C -> C !! i = Some l -> x ∈ l -> is_Some (nodes m !! x).
Proof.
  intros Hr Hl Hx.
  destruct (Forall2_lookup_r _ _ _ _ _ (rep_chains _ _ _ _ Hr) Hl) as (p & _ & Hc).
  by eapply chain_alive.
Qed.

(** Keys of a bucket's nodes hash to that bucket; so a key is found nowhere else. *)
Lemma rep_key_bucket t m C k x nd i l :
  hash_rep valid t m C -> C !! i = Some l -> x ∈ l -> nodes m !! x = Some nd ->
  n_key nd = k -> i = Z.to_nat (hash t k).
Proof.
  intros Hr Hl Hx Hn <-. destruct (rep_nodes _ _ _ _ Hr i l x nd) as (_ & -> & _); try done. lia.
Qed.

Lemma rep_other_buckets t m C k b l :
  hash_rep valid t m C -> b = Z.to_nat (hash t k) -> C !! b = Some l ->
  k ∉ (contents (nodes m) (concat (take b C))).*1 /\
  k ∉ (contents (nodes m) (concat (drop (S b) C))).*1.
Proof.
  intros Hr Hb Hl. split; intros (x & nd & Hx & Hn & Hk)%contents_keys;
    apply elem_of_concat in Hx as (i & l' & Hi & Hx).
  - apply lookup_take_Some in Hi as [Hi Hlt].
    pose proof (rep_key_bucket t m C k x nd i l' Hr Hi Hx Hn Hk). lia.
  - rewrite lookup_drop in Hi.
    pose proof (rep_key_bucket t m C k x nd _ l' Hr Hi Hx Hn Hk). lia.
Qed.

(** *** Locating a key *)
Definition by_key t (k : K) : positive -> node -> bool := fun _ nd => compare t (n_key nd) k.

Lemma locate t m C k :
  HashOps t valid -> hash_rep valid t m C -> valid k ->
  let b := Z.to_nat (hash t k) in
  exists p l, table t !!z hash t k = Some p /\ C !! b = Some l /\ chain (nodes m) p l /\
  ((k ∉ (contents (nodes m) (concat C)).*1 /\
    walk n_next (by_key t k) (nodes m) (chain_fuel m) None p = Some (prev_of None l, None)) \/
   (exists l1 x nd l2, l = l1 ++ x :: l2 /\ nodes m !! x = Some nd /\ n_key nd = k /\
    walk n_next (by_key t k) (nodes m) (chain_fuel m) None p = Some (prev_of None l1, Some x) /\
    k ∉ (contents (nodes m) (concat (take b C) ++ l1)).*1)).
Proof.
  intros Hops Hr Hk b.
  destruct (rep_bucket t m C (hash t k) Hr (hash_bound k Hk)) as (p & l & Hp & Hl & Hc).
  exists p, l. split_and!; [done|done|done|].
  assert (forall x nd, x ∈ l -> nodes m !! x = Some nd ->
    by_key t k x nd = true <-> n_key nd = k) as Hcmp.
  { intros x nd Hx Hn. apply compare_eq; [|done].
    by destruct (rep_nodes _ _ _ _ Hr _ _ _ _ Hl Hx Hn) as (_ & _ & ?). }
  pose proof (chain_length _ _ _ _ Hc) as Hlen.
  destruct (chain_first _ (by_key t k) _ _ _ Hc) as [Hn|(l1 & x & nd & l2 & -> & Hx & Hs & Hn)].
  - left. split; [|eapply walk_none; [done|unfold chain_fuel; lia|done]].
    rewrite contents_keys. intros (x & nd & Hx & Hnx & Hkx).
    apply elem_of_concat in Hx as (i & l' & Hi & Hx).
    pose proof (rep_key_bucket t m C k x nd i l' Hr Hi Hx Hnx Hkx) as ->.
    assert (l' = l) as -> by congruence.
    specialize (Hn x nd Hx Hnx). apply (Hcmp x nd Hx Hnx) in Hkx. congruence.
  - right. exists l1, x, nd, l2. split_and!; try done.
    + apply (Hcmp x nd); [set_solver|done|done].
    + rewrite length_app in Hlen. simpl in Hlen.
      eapply walk_found; [done|unfold chain_fuel; lia|done|done|done].
    + rewrite contents_app, fmap_app, not_elem_of_app. split.
      * by destruct (rep_other_buckets t m C k b _ Hr eq_refl Hl).
      * intros (y & nd' & Hy & Hny & Hky)%contents_keys.
        specialize (Hn y nd' Hy Hny). apply (Hcmp y nd' ltac:(set_solver) Hny) in Hky. congruence.
Qed.

Lemma located_split m C b l1 x nd l2 :
  C !! b = Some (l1 ++ x :: l2) -> nodes m !! x = Some nd ->
  contents (nodes m) (concat C) =
  contents (nodes m) (concat (take b C) ++ l1) ++
  (n_key nd, n_record nd) :: contents (nodes m) (l2 ++ concat (drop (S b) C)).
Proof.
  intros Hl Hx. rewrite (concat_split C b _ Hl), <- app_assoc. simpl.
  rewrite app_assoc, contents_app. by rewrite (contents_cons _ x nd).
Qed.

Lemma hash_find_spec `{EqDecision K} t m C k :
  HashOps t valid -> hash_rep valid t m C -> valid k ->
  hash_find t m k = Some match first_match k (contents (nodes m) (concat C)) with
                         | Some r => (HASH_STATUS_OK, Some r)
                         | None => (HASH_STATUS_KEY_NOT_FOUND, None)
                         end.
Proof.
  intros Hops Hr Hk. unfold hash_find.
  destruct (locate t m C k Hops Hr Hk)
    as (p & l & -> & Hl & Hc & [[Hn Hw]|(l1 & x & nd & l2 & -> & Hx & <- & Hw & Hn)]); simpl.
  - unfold by_key in Hw. rewrite Hw. simpl. by rewrite (proj2 (first_match_None k _)).
  - unfold by_key in Hw. rewrite Hw. simpl. rewrite Hx. simpl.
    rewrite (located_split m C _ l1 x nd l2 Hl Hx), first_match_app by done.
    simpl. by rewrite decide_True.
Qed.

(** *** Insertion *)
Lemma rep_frame t m m' C :
  hash_rep valid t m C -> (forall x, x ∈ concat C -> nodes m' !! x = nodes m !! x) ->
  (forall x, is_Some (nodes m' !! x) -> (x < brk m')%positive) -> hash_rep valid t m' C.
Proof.
  intros Hr Hs Hbrk. constructor; [apply Hr| |apply Hr| |done].
  - apply Forall2_same_length_lookup. split; [by eapply Forall2_length, rep_chains|].
    intros i p l Hp Hl. apply (chain_same _ (nodes m)).
    + eapply Forall2_lookup_lr; [apply Hr|done|done].
    + intros x Hx. apply Hs, elem_of_concat. eauto.
  - intros i l x nd Hl Hx Hn. rewrite Hs in Hn by (apply elem_of_concat; eauto).
    by eapply (rep_nodes _ _ _ _ Hr).
Qed.

(** Linking the node [n] for [k] at the head of its bucket. *)
Lemma link_spec t m C k r n brk' :
  HashOps t valid -> hash_rep valid t m C -> valid k -> n ∉ concat C ->
  (n < brk')%positive -> (brk m <= brk')%positive ->
  exists p tbl C', table t !!z hash t k = Some p /\ store_z (table t) (hash t k) (Some n) = Some tbl /\
    let m' := Mem (<[n := HashNode p k r (hash t k)]> (nodes m)) brk' in
    hash_rep valid (with_table t tbl) m' C' /\
    pushed k r (contents (nodes m) (concat C)) (contents (nodes m') (concat C')) /\
    concat C' ≡ₚ n :: concat C.
Proof.
  intros Hops Hr Hk Hnin Hn Hbrk. set (b := Z.to_nat (hash t k)).
  pose proof (hash_bound k Hk) as Hb.
  destruct (rep_bucket t m C (hash t k) Hr Hb) as (p & l & Hp & Hl & Hc).
  exists p, (<[b := Some n]> (table t)), (<[b := n :: l]> C). split; [done|]. split.
  { apply store_z_Some. split; [|done]. rewrite (rep_size _ _ _ _ Hr). done. }
  set (nd := HashNode p k r (hash t k)). simpl.
  assert (forall l', n ∉ l' -> contents (<[n:=nd]> (nodes m)) l' = contents (nodes m) l') as Hcf.
  { intros l' Hl'. apply contents_payload. intros x Hx.
    rewrite lookup_insert_ne; [done|]. congruence. }
  assert (concat (<[b := n :: l]> C) ≡ₚ n :: concat C) as Hperm.
  { rewrite (concat_insert C b l (n :: l) Hl), (concat_split C b l Hl). simpl.
    symmetry. apply Permutation_middle. }
  split_and!; [| |done].
  - constructor; simpl.
    + rewrite length_insert. apply Hr.
    + apply Forall2_insert.
      * apply Forall2_same_length_lookup. split; [by eapply Forall2_length, rep_chains|].
        intros i q l' Hq Hl'. apply (chain_same _ (nodes m)).
        { eapply Forall2_lookup_lr; [apply Hr|done|done]. }
        intros x Hx. rewrite lookup_insert_ne; [done|]. intros ->.
        destruct Hnin. apply elem_of_concat. eauto.
      * split; [done|]. exists nd. split; [apply lookup_insert_eq|].
        apply (chain_same _ (nodes m)); [done|]. intros x Hx. rewrite lookup_insert_ne; [done|].
        intros ->. destruct Hnin. apply elem_of_concat. eauto.
    + rewrite Hperm. apply NoDup_cons. split; [done|apply Hr].
    + intros i l' x nd' Hi Hx Hn'. rewrite lookup_insert in Hn'. case_decide; simplify_eq.
      * destruct (decide (i = b)) as [->|Hne].
        { simpl. unfold b. split_and!; try lia. done. }
        rewrite list_lookup_insert_ne in Hi by done.
        destruct Hnin. apply elem_of_concat. eauto.
      * destruct (decide (i = b)) as [->|Hne].
        { rewrite list_lookup_insert_eq in Hi by (by eapply lookup_lt_Some).
          simplify_eq. eapply (rep_nodes _ _ _ _ Hr); [done| |done]. set_solver. }
        rewrite list_lookup_insert_ne in Hi by done. by eapply (rep_nodes _ _ _ _ Hr).
    + intros x. rewrite lookup_insert. case_decide as E; [intros _; rewrite <- E; lia|].
      intros Hx%(rep_brk _ _ _ _ Hr). lia.
  - destruct (rep_other_buckets t m C k b l Hr eq_refl Hl) as [Hn' _].
    rewrite (concat_split C b l Hl) in Hnin.
    exists (contents (nodes m) (concat (take b C))),
           (contents (nodes m) (l ++ concat (drop (S b) C))).
    rewrite (concat_insert C b l (n :: l) Hl), (concat_split C b l Hl). split_and!; [|..|done].
    + apply contents_app.
    + simpl. rewrite contents_app, (contents_cons _ n nd) by apply lookup_insert_eq. simpl.
      rewrite !Hcf by set_solver. done.
Qed.

Lemma hash_insert_spec t m C k r :
  HashOps t valid -> hash_rep valid t m C -> valid k ->
  exists t' m' C', hash_insert t m k r = Some (HASH_STATUS_OK, t', m') /\
    hash_rep valid t' m' C' /\ HashOps t' valid /\
    pushed k r (contents (nodes m) (concat C)) (contents (nodes m') (concat C')) /\
    concat C' ≡ₚ brk m :: concat C /\
    (forall z, z <> brk m -> nodes m' !! z = nodes m !! z).
Proof.
  intros Hops Hr Hk. unfold hash_insert.
  destruct (link_spec t m C k r (brk m) (Pos.succ (brk m)) Hops Hr Hk)
    as (p & tbl & C' & -> & Htbl & Hr' & Hp & Hperm); [|lia|lia|].
  { intros (i & l' & Hi & Hx)%elem_of_concat.
    pose proof (rep_brk _ _ _ _ Hr _ (rep_in _ _ _ _ _ _ Hr Hi Hx)). lia. }
  simpl. rewrite Htbl. simpl. rewrite (copy_key_id k Hk).
  eexists _, _, C'. split; [done|]. split_and!; [done|apply _|done|done|].
  intros z Hz. simpl. by rewrite lookup_insert_ne.
Qed.

(** *** Removal of a located node *)
Lemma removal_perm {A} (a l1 l2 b : list A) x :
  a ++ (l1 ++ x :: l2) ++ b ≡ₚ x :: a ++ (l1 ++ l2) ++ b.
Proof. rewrite <- Permutation_middle. simpl. by rewrite <- Permutation_middle. Qed.

Lemma payload_brk t m C h z :
  hash_rep valid t m C -> (forall z, payload <$> h !! z = payload <$> nodes m !! z) ->
  is_Some (h !! z) -> (z < brk m)%positive.
Proof.
  intros Hr Hp [nd Hz]. apply (rep_brk _ _ _ _ Hr). specialize (Hp z). rewrite Hz in Hp.
  destruct (nodes m !! z); [eauto|done].
Qed.

Lemma splice_spec t m C b l1 x l2 nd :
  hash_rep valid t m C -> C !! b = Some (l1 ++ x :: l2) -> nodes m !! x = Some nd ->
  exists h tbl, splice t m (Z.of_nat b) (prev_of None l1) x = Some (h, tbl) /\
    length tbl = length (table t) /\
    Forall2 (chain h) tbl (<[b := l1 ++ l2]> C) /\
    (forall z, payload <$> h !! z = payload <$> nodes m !! z) /\
    (forall z, z ∉ l1 -> h !! z = nodes m !! z).
Proof.
  intros Hr Hl Hx.
  destruct (Forall2_lookup_r _ _ _ _ _ (rep_chains _ _ _ _ Hr) Hl) as (p & Hp & Hc).
  destruct (unlink_chain n_next set_next ltac:(done) _ _ _ _ _ _ Hc Hx)
    as (h & p' & Hu & Hc' & Hsame & Hset).
  unfold splice. rewrite lookup_z_nat, Hp. simpl. rewrite Hx. simpl. rewrite Hu. simpl.
  assert (store_z (table t) (Z.of_nat b) p' = Some (<[b := p']> (table t))) as ->.
  { apply store_z_Some. rewrite Nat2Z.id. apply lookup_lt_Some in Hp. split; [lia|done]. }
  assert (forall z, z ∉ l1 -> h !! z = nodes m !! z) as Hout.
  { intros z Hz. apply Hsame. intros E. unfold prev_of in E.
    destruct (last l1) eqn:El; [|done]. simplify_eq. apply last_Some_elem_of in El. done. }
  eexists _, _. split; [done|]. split_and!; [by rewrite length_insert| | |done].
  - apply Forall2_same_length_lookup. split.
    { rewrite !length_insert. by eapply Forall2_length, rep_chains. }
    intros i q l Hq Hil. destruct (decide (i = b)) as [->|Hne].
    + rewrite list_lookup_insert_eq in Hq by (by eapply lookup_lt_Some).
      rewrite list_lookup_insert_eq in Hil by (by eapply lookup_lt_Some). by simplify_eq.
    + rewrite list_lookup_insert_ne in Hq by done. rewrite list_lookup_insert_ne in Hil by done.
      destruct (Forall2_lookup_l _ _ _ _ _ (rep_chains _ _ _ _ Hr) Hq) as (l' & Hl' & Hcq).
      simplify_eq. apply (chain_same _ (nodes m)); [done|]. intros z Hz. apply Hout.
      intros Hz1. destruct Hne. eapply concat_NoDup_same; [apply Hr|done|apply Hl|done|].
      apply elem_of_app. by left.
  - intros z. destruct (decide (prev_of None l1 = Some z)) as [E|E]; [|by rewrite Hsame].
    destruct (nodes m !! z) as [ndz|] eqn:Hz.
    + rewrite (Hset z ndz E Hz). done.
    + exfalso. unfold prev_of in E. destruct (last l1) eqn:El; [|done]. simplify_eq.
      apply last_Some_elem_of in El.
      destruct (rep_in t m C b _ z Hr Hl); [set_solver|congruence].
Qed.

Lemma splice_rep t m C b l1 x l2 h tbl m' :
  hash_rep valid t m C -> C !! b = Some (l1 ++ x :: l2) ->
  length tbl = length (table t) -> Forall2 (chain h) tbl (<[b := l1 ++ l2]> C) ->
  (forall z, payload <$> h !! z = payload <$> nodes m !! z) ->
  (forall z, z <> x -> nodes m' !! z = h !! z) ->
  (forall z, is_Some (nodes m' !! z) -> (z < brk m')%positive) ->
  hash_rep valid (with_table t tbl) m' (<[b := l1 ++ l2]> C) /\
  (x ∉ concat (<[b := l1 ++ l2]> C)) /\ concat C ≡ₚ x :: concat (<[b := l1 ++ l2]> C).
Proof.
  intros Hr Hl Hlen Hch Hpay Hm' Hbrk.
  assert (concat C ≡ₚ x :: concat (<[b := l1 ++ l2]> C)) as Hperm.
  { rewrite (concat_insert C b _ (l1 ++ l2) Hl), (concat_split C b _ Hl).
    apply removal_perm. }
  assert (NoDup (x :: concat (<[b := l1 ++ l2]> C))) as [Hxn Hnd]%NoDup_cons
    by (rewrite <- Hperm; apply Hr).
  split; [|done]. constructor; simpl.
  - rewrite Hlen. apply Hr.
  - eapply Forall2_same_length_lookup. split; [by eapply Forall2_length|].
    intros i q l Hq Hil. pose proof (Forall2_lookup_lr _ _ _ _ _ _ Hch Hq Hil) as Hc.
    apply (chain_same _ h); [done|]. intros z Hz. apply Hm'. intros ->.
    destruct Hxn. apply elem_of_concat. eauto.
  - done.
  - intros i l z nd Hi Hz Hn.
    assert (z <> x) as Hzx by (intros ->; destruct Hxn; apply elem_of_concat; eauto).
    rewrite Hm' in Hn by done. pose proof (Hpay z) as E. rewrite Hn in E. simpl in E.
    destruct (nodes m !! z) as [nd'|] eqn:Hz'; [|done]. injection E as E1 E2 E3.
    rewrite E1, E3. destruct (decide (i = b)) as [->|Hne].
    + rewrite list_lookup_insert_eq in Hi by (by eapply lookup_lt_Some). simplify_eq.
      eapply (rep_nodes _ _ _ _ Hr); [done| |done]. set_solver.
    + rewrite list_lookup_insert_ne in Hi by done. by eapply (rep_nodes _ _ _ _ Hr).
  - done.
Qed.

(** The contents lose exactly the binding of the removed node. *)
Lemma splice_contents t m C b l1 x l2 nd m' :
  hash_rep valid t m C -> C !! b = Some (l1 ++ x :: l2) -> nodes m !! x = Some nd ->
  (forall z, z <> x -> payload <$> nodes m' !! z = payload <$> nodes m !! z) ->
  contents (nodes m) (concat C) =
    contents (nodes m) (concat (take b C) ++ l1) ++
    (n_key nd, n_record nd) :: contents (nodes m) (l2 ++ concat (drop (S b) C)) /\
  contents (nodes m') (concat (<[b := l1 ++ l2]> C)) =
    contents (nodes m) (concat (take b C) ++ l1) ++
    contents (nodes m) (l2 ++ concat (drop (S b) C)).
Proof.
  intros Hr Hl Hx Hm'. split; [by eapply located_split|].
  pose proof (rep_nodup _ _ _ _ Hr) as Hnd. rewrite (concat_split C b _ Hl) in Hnd.
  rewrite <- contents_app.
  rewrite (concat_insert C b _ (l1 ++ l2) Hl).
  replace ((concat (take b C) ++ l1) ++ l2 ++ concat (drop (S b) C))
    with (concat (take b C) ++ (l1 ++ l2) ++ concat (drop (S b) C)) by (by rewrite <- !app_assoc).
  apply contents_payload. intros z Hz. apply Hm'. intros ->.
  rewrite removal_perm in Hnd. by apply NoDup_cons in Hnd as [? _].
Qed.

Lemma hash_delete_spec `{EqDecision K} t m C k :
  HashOps t valid -> hash_rep valid t m C -> valid k ->
  match first_match k (contents (nodes m) (concat C)) with
  | None => hash_delete t m k = Some (HASH_STATUS_KEY_NOT_FOUND, t, m)
  | Some r => exists t' m' C', hash_delete t m k = Some (HASH_STATUS_OK, t', m') /\
      hash_rep valid t' m' C' /\ HashOps t' valid /\
      popped k r (contents (nodes m) (concat C)) (contents (nodes m') (concat C'))
  end.
Proof.
  intros Hops Hr Hk. unfold hash_delete.
  destruct (locate t m C k Hops Hr Hk)
    as (p & l & -> & Hl & Hc & [[Hn Hw]|(l1 & x & nd & l2 & -> & Hx & <- & Hw & Hn)]); simpl;
    unfold by_key in Hw; rewrite Hw; simpl.
  { by rewrite (proj2 (first_match_None k _)). }
  set (b := Z.to_nat (hash t (n_key nd))) in *.
  rewrite (located_split m C _ l1 x nd l2 Hl Hx), first_match_app by done.
  simpl. rewrite decide_True by done.
  destruct (splice_spec t m C b l1 x l2 nd Hr Hl Hx)
    as (h & tbl & Hs & Hlen & Hch & Hpay & Hout).
  unfold b in Hs. rewrite Z2Nat.id in Hs by (by apply hash_bound). rewrite Hs. simpl.
  set (m' := Mem (delete x h) (brk m)).
  assert (forall z, z <> x -> nodes m' !! z = h !! z) as Hm'
    by (intros z Hz; simpl; by rewrite lookup_delete_ne).
  destruct (splice_rep t m C b l1 x l2 h tbl m') as (Hr' & Hxn & Hperm); try done.
  { intros z. simpl. rewrite lookup_delete_is_Some. intros [_ Hz].
    by apply (payload_brk t m C h z Hr). }
  destruct (splice_contents t m C b l1 x l2 nd m' Hr Hl Hx) as [Hc1 Hc2].
  { intros z Hz. rewrite Hm' by done. done. }
  exists (with_table t tbl), m', (<[b := l1 ++ l2]> C). split_and!; [done|done|apply _|].
  eexists _, _. split; [exact Hc2|]. split; [done|exact Hn].
Qed.
(** A node is at one place of the iteration order. *)
Lemma NoDup_split_unique {A} (l1 l2 a b : list A) x :
  NoDup (l1 ++ x :: l2) -> l1 ++ x :: l2 = a ++ x :: b -> l1 = a /\ l2 = b.
Proof.
  revert a. induction l1 as [|y l1 IH]; intros [|z a] Hnd E; simplify_list_eq.
  - done.
  - apply NoDup_cons in Hnd as [Hn _]. set_solver.
  - apply NoDup_cons in Hnd as [Hn _]. set_solver.
  - apply NoDup_cons in Hnd as [_ Hnd]. destruct (IH a Hnd) as [-> ->]; [|done].
    by simplify_list_eq.
Qed.

Lemma rep_position t m C L1 x L2 :
  hash_rep valid t m C -> concat C = L1 ++ x :: L2 ->
  exists b l1 l2 nd, C !! b = Some (l1 ++ x :: l2) /\ nodes m !! x = Some nd /\
    n_bucket nd = Z.of_nat b /\ L1 = concat (take b C) ++ l1 /\ L2 = l2 ++ concat (drop (S b) C).
Proof.
  intros Hr E. assert (x ∈ concat C) as (b & l & Hl & Hx)%elem_of_concat by (rewrite E; set_solver).
  apply list_elem_of_split in Hx as (l1 & l2 & ->).
  destruct (rep_in t m C b _ x Hr Hl) as [nd Hn]; [set_solver|].
  destruct (rep_nodes _ _ _ _ Hr b _ x nd Hl) as (Hb & _ & _); [set_solver|done|].
  exists b, l1, l2, nd. split_and!; [done|done|done|..];
    pose proof (rep_nodup _ _ _ _ Hr) as Hnd; rewrite E in Hnd;
    rewrite (concat_split C b _ Hl) in E; rewrite <- app_assoc in E; simpl in E;
    rewrite app_assoc in E; by destruct (NoDup_split_unique _ _ _ _ _ Hnd (eq_sym E)).
Qed.

(** Finding a node by its address and splicing it out, whatever is done with
    the node afterwards. *)
Lemma node_removal t m C L1 x L2 :
  hash_rep valid t m C -> concat C = L1 ++ x :: L2 ->
  exists nd p prev h tbl, nodes m !! x = Some nd /\ table t !!z n_bucket nd = Some p /\
    walk n_next (fun n _ => bool_decide (n = x)) (nodes m) (chain_fuel m) None p =
      Some (prev, Some x) /\
    splice t m (n_bucket nd) prev x = Some (h, tbl) /\
    (forall z, payload <$> h !! z = payload <$> nodes m !! z) /\
    (forall z, z ∉ concat C -> h !! z = nodes m !! z) /\
    forall m', (forall z, z <> x -> nodes m' !! z = h !! z) ->
      (forall z, is_Some (nodes m' !! z) -> (z < brk m')%positive) ->
      exists C', hash_rep valid (with_table t tbl) m' C' /\ concat C' = L1 ++ L2.
Proof.
  intros Hr E.
  destruct (rep_position t m C L1 x L2 Hr E) as (b & l1 & l2 & nd & Hl & Hx & Hb & -> & ->).
  destruct (Forall2_lookup_r _ _ _ _ _ (rep_chains _ _ _ _ Hr) Hl) as (p & Hp & Hc).
  destruct (splice_spec t m C b l1 x l2 nd Hr Hl Hx)
    as (h & tbl & Hs & Hlen & Hch & Hpay & Hout).
  pose proof (chain_NoDup _ _ _ _ Hc) as Hnd. pose proof (chain_length _ _ _ _ Hc) as Hlc.
  rewrite length_app in Hlc. simpl in Hlc.
  exists nd, p, (prev_of None l1), h, tbl. rewrite Hb, lookup_z_nat. split_and!; try done.
  - eapply walk_found;
      [exact Hc|unfold chain_fuel; lia| |exact Hx|by rewrite bool_decide_true].
    intros y c Hy _. apply bool_decide_false. intros ->.
    apply NoDup_app in Hnd as (_ & Hd & _). set_solver.
  - intros z Hz. apply Hout. intros Hz1. destruct Hz. apply elem_of_concat.
    exists b, (l1 ++ x :: l2). split; [done|]. set_solver.
  - intros m' Hm' Hbrk.
    destruct (splice_rep t m C b l1 x l2 h tbl m') as (Hr' & Hxn & Hperm); try done.
    exists (<[b := l1 ++ l2]> C). split; [done|].
    rewrite (concat_insert C b _ (l1 ++ l2) Hl). by rewrite <- !app_assoc.
Qed.

Lemma hash_delete_node_spec t m C L1 x L2 :
  HashOps t valid -> hash_rep valid t m C -> concat C = L1 ++ x :: L2 ->
  exists t' m' C', hash_delete_node t m x = Some (HASH_STATUS_OK, t', m') /\
    hash_rep valid t' m' C' /\ HashOps t' valid /\ concat C' = L1 ++ L2 /\
    nodes m' !! x = None /\
    (forall z, z <> x -> payload <$> nodes m' !! z = payload <$> nodes m !! z).
Proof.
  intros Hops Hr E.
  destruct (node_removal t m C L1 x L2 Hr E)
    as (nd & p & prev & h & tbl & Hx & Hp & Hw & Hs & Hpay & Hout & Hrep).
  unfold hash_delete_node. rewrite Hx. simpl. rewrite Hp. simpl. rewrite Hw. simpl. rewrite Hs.
  simpl. destruct (Hrep (Mem (delete x h) (brk m))) as (C' & Hr' & E').
  { intros z Hz. simpl. by rewrite lookup_delete_ne. }
  { intros z. simpl. rewrite lookup_delete_is_Some. intros [_ Hz].
    by apply (payload_brk t m C h z Hr). }
  eexists _, _, C'. split_and!; [done|done|apply _|done|apply lookup_delete_eq|].
  intros z Hz. simpl. by rewrite lookup_delete_ne.
Qed.

(** *** Iteration *)
Lemma chain_next h p l1 x l2 nd :
  chain h p (l1 ++ x :: l2) -> h !! x = Some nd -> n_next nd = head l2.
Proof.
  revert p. induction l1 as [|y l1 IH]; intros p; simpl.
  - intros [_ (a & Ha & Hc)] Hx. simplify_eq. destruct l2; simpl in Hc; naive_solver.
  - intros [_ (a & _ & Hc)]. eauto.
Qed.

Lemma scan_spec t m C i fuel :
  hash_rep valid t m C -> 0 <= i <= hsize t -> hsize t - i < Z.of_nat fuel ->
  exists j, scan fuel t i = Some j /\ i <= j <= hsize t /\
    concat (drop (Z.to_nat i) C) = concat (drop (Z.to_nat j) C) /\
    (j < hsize t -> exists x l, table t !!z j = Some (Some x) /\ C !! Z.to_nat j = Some (x :: l)).
Proof.
  intros Hr. revert i. induction fuel as [|fuel IH]; intros i Hi Hf; [lia|].
  unfold scan; fold (@scan K). destruct (Z.ltb_spec i (hsize t)) as [Hlt|Hge].
  2:{ exists i. split_and!; [done|lia|lia|done|lia]. }
  destruct (rep_bucket t m C i Hr ltac:(lia)) as (p & l & Hp & Hl & Hc).
  rewrite Hp. simpl. destruct p as [x|].
  - exists i. split_and!; [done|lia|lia|done|]. intros _. exists x.
    destruct l as [|y l]; simpl in Hc; [done|]. destruct Hc as [[= <-] _]. eauto.
  - destruct (IH (i + 1)) as (j & Hj & Hij & Hcat & Hne); [lia|lia|].
    exists j. split_and!; [done|lia|lia| |done].
    rewrite <- Hcat. destruct l; [|by destruct Hc].
    rewrite (drop_S _ _ _ Hl). simpl. by rewrite Z2Nat.inj_add, Nat.add_comm by lia.
Qed.

Definition next_result (l : list positive) : hash_status_enum * option positive :=
  match l with
  | [] => (HASH_STATUS_KEY_NOT_FOUND, None)
  | x :: _ => (HASH_STATUS_OK, Some x)
  end.

Lemma next_bucket_spec t m C i :
  hash_rep valid t m C -> 0 <= i <= hsize t ->
  next_bucket t i = Some (next_result (concat (drop (Z.to_nat i) C))).
Proof.
  intros Hr Hi. unfold next_bucket. pose proof (rep_size _ _ _ _ Hr) as Hsz.
  destruct (scan_spec t m C i (S (length (table t))) Hr Hi) as (j & -> & Hij & -> & Hne); [lia|].
  simpl. destruct (Z.eqb_spec j (hsize t)) as [->|Hj].
  - rewrite drop_ge; [done|].
    rewrite <- (Forall2_length _ _ _ (rep_chains _ _ _ _ Hr)). lia.
  - destruct Hne as (x & l & -> & Hl); [lia|]. simpl. by rewrite (drop_S _ _ _ Hl).
Qed.

Lemma hash_next_item_first t m C :
  hash_rep valid t m C -> hash_next_item t m None = Some (next_result (concat C)).
Proof.
  intros Hr. simpl. rewrite (next_bucket_spec t m C 0 Hr); [done|].
  pose proof (rep_size _ _ _ _ Hr). lia.
Qed.

Lemma hash_next_item_next t m C L1 x L2 :
  hash_rep valid t m C -> concat C = L1 ++ x :: L2 ->
  hash_next_item t m (Some x) = Some (next_result L2).
Proof.
  intros Hr E.
  destruct (rep_position t m C L1 x L2 Hr E) as (b & l1 & l2 & nd & Hl & Hx & Hb & -> & ->).
  destruct (Forall2_lookup_r _ _ _ _ _ (rep_chains _ _ _ _ Hr) Hl) as (p & Hp & Hc).
  simpl. rewrite Hx. simpl. rewrite (chain_next _ _ _ _ _ _ Hc Hx).
  destruct l2 as [|y l2]; [|done]. simpl. rewrite Hb.
  rewrite (next_bucket_spec t m C _ Hr).
  - by replace (Z.to_nat (Z.of_nat b + 1)) with (S b) by lia.
  - apply lookup_lt_Some in Hp. pose proof (rep_size _ _ _ _ Hr). lia.
Qed.

Lemma hash_iterate_spec t m C fuel :
  hash_rep valid t m C -> (length (concat C) < fuel)%nat ->
  hash_iterate fuel t m None = Some (concat C).
Proof.
  intros Hr.
  assert (forall L2 L1 p fuel, concat C = L1 ++ L2 ->
    hash_next_item t m p = Some (next_result L2) -> (length L2 < fuel)%nat ->
    hash_iterate fuel t m p = Some L2) as Hgen.
  { induction L2 as [|x L2 IH]; intros L1 p [|f] E Hn Hf; try (simpl in Hf; lia);
      unfold hash_iterate; fold (@hash_iterate K R); rewrite Hn; [done|].
    simpl. rewrite (IH (L1 ++ [x]) (Some x) f); [done|..].
    - by rewrite <- app_assoc.
    - by apply (hash_next_item_next t m C L1 x L2).
    - simpl in Hf. lia. }
  intros Hf. apply (Hgen _ []); [done| |done]. by apply hash_next_item_first.
Qed.
(** *** Emptying the table *)
Lemma free_chain_spec h p l fuel :
  chain h p l -> (length l < fuel)%nat ->
  exists h', free_chain fuel h p = Some (h', (contents h l).*2) /\
    forall z, h' !! z = if decide (z ∈ l) then None else h !! z.
Proof.
  revert h p fuel. induction l as [|x l IH]; intros h p [|fuel] Hc Hf; try (simpl in Hf; lia);
    unfold free_chain; fold (@free_chain K R).
  - simpl in Hc. subst. exists h. split; [done|]. intros z. by rewrite decide_False by set_solver.
  - pose proof (chain_NoDup _ _ _ _ Hc) as [Hxl _]%NoDup_cons.
    destruct Hc as [-> (nd & Hx & Hc)]. rewrite Hx. simpl.
    assert (forall z, z ∈ l -> delete x h !! z = h !! z) as Hd
      by (intros z Hz; rewrite lookup_delete_ne; congruence).
    destruct (IH (delete x h) (n_next nd) fuel) as (h' & -> & Hh').
    { by apply (chain_same _ h). }
    { simpl in Hf. lia. }
    simpl. exists h'. split.
    + rewrite (contents_cons _ _ _ _ Hx), (contents_payload h (delete x h)); [done|].
      intros z Hz. by rewrite Hd.
    + intros z. rewrite Hh'. destruct (decide (z = x)) as [->|Hne].
      * rewrite lookup_delete_eq. rewrite (decide_True (P := x ∈ x :: l)) by set_solver.
        by case_decide.
      * rewrite lookup_delete_ne by congruence.
        destruct (decide (z ∈ l)), (decide (z ∈ x :: l)); set_solver.
Qed.

Lemma free_buckets_spec h tbl C fuel :
  Forall2 (chain h) tbl C -> NoDup (concat C) ->
  (forall l, l ∈ C -> (length l < fuel)%nat) ->
  exists h', free_buckets fuel h tbl = Some (h', (contents h (concat C)).*2) /\
    forall z, h' !! z = if decide (z ∈ concat C) then None else h !! z.
Proof.
  revert h C. induction tbl as [|p tbl IH]; intros h C Hc.
  - apply Forall2_nil_inv_l in Hc as ->. intros. exists h. split; [done|].
    intros z. by rewrite decide_False by set_solver.
  - apply Forall2_cons_inv_l in Hc as (l & C' & Hp & Hc & ->). simpl.
    intros Hnd Hf. apply NoDup_app in Hnd as (_ & Hd & Hnd).
    destruct (free_chain_spec h p l fuel Hp) as (h1 & -> & Hh1); [apply Hf; set_solver|]. simpl.
    assert (forall z, z ∈ concat C' -> h1 !! z = h !! z) as Hout.
    { intros z Hz. rewrite Hh1, decide_False; [done|]. intros Hz'. by apply (Hd z). }
    destruct (IH h1 C') as (h2 & -> & Hh2); [|done|set_solver|].
    { apply Forall2_same_length_lookup. split; [by eapply Forall2_length|].
      intros i q l' Hq Hl'. apply (chain_same _ h).
      - by eapply Forall2_lookup_lr.
      - intros z Hz. apply Hout, elem_of_concat. eauto. }
    simpl. exists h2. split.
    + rewrite contents_app, fmap_app. do 3 f_equal. apply (f_equal (fmap snd)).
      apply contents_payload. intros z Hz. by rewrite Hout.
    + intros z. rewrite Hh2, Hh1.
      destruct (decide (z ∈ l)), (decide (z ∈ concat C')), (decide (z ∈ l ++ concat C'));
        set_solver.
Qed.

Lemma concat_replicate_nil {A} n : concat (replicate n ([] : list A)) = [].
Proof. by induction n. Qed.

Lemma rep_empty t m n tbl :
  tbl = replicate n None -> Z.of_nat n = hsize t ->
  (forall z, is_Some (nodes m !! z) -> (z < brk m)%positive) ->
  hash_rep valid (with_table t tbl) m (replicate n []).
Proof.
  intros -> Hn Hbrk. constructor; simpl.
  - by rewrite length_replicate.
  - clear. induction n; constructor; done.
  - rewrite concat_replicate_nil. constructor.
  - intros i l x nd [-> _]%lookup_replicate Hx. set_solver.
  - done.
Qed.

Lemma hash_delete_all_free_spec t m C :
  HashOps t valid -> hash_rep valid t m C ->
  exists t' m', hash_delete_all_free t m = Some (t', m', (contents (nodes m) (concat C)).*2) /\
    hash_rep valid t' m' (replicate (length (table t)) []) /\ HashOps t' valid /\
    (forall z, nodes m' !! z = if decide (z ∈ concat C) then None else nodes m !! z).
Proof.
  intros Hops Hr. unfold hash_delete_all_free.
  destruct (free_buckets_spec (nodes m) (table t) C (chain_fuel m)) as (h & -> & Hh);
    [apply Hr|apply Hr|..].
  { intros l Hl. apply list_elem_of_lookup in Hl as [i Hi].
    destruct (Forall2_lookup_r _ _ _ _ _ (rep_chains _ _ _ _ Hr) Hi) as (p & _ & Hc).
    apply chain_length in Hc. unfold chain_fuel. lia. }
  simpl. eexists _, _. split; [done|]. split_and!; [|apply _|done].
  apply rep_empty; [done|apply Hr|]. intros z [nd Hz]. simpl in *. rewrite Hh in Hz.
  apply (rep_brk _ _ _ _ Hr). case_decide; [done|eauto].
Qed.

Lemma hash_initialise_spec t m :
  0 <= hsize t -> (forall z, is_Some (nodes m !! z) -> (z < brk m)%positive) ->
  hash_rep valid (hash_initialise t).2 m (replicate (Z.to_nat (hsize t)) []).
Proof. intros Hs Hb. apply rep_empty; [done|lia|done]. Qed.
End theory.

(** ** Refinement: a table is a map from keys to stacks of records

    [hash_insert] pushes on the stack of its key, [hash_find] reads its top,
    [hash_delete] pops it. *)
Inductive hash_op (K R : Type) :=
  | OpInsert (k : K) (r : R)
  | OpDelete (k : K)
  | OpFind (k : K).
Arguments OpInsert {K R}.
Arguments OpDelete {K R}.
Arguments OpFind {K R}.

Definition op_key {K R} (o : hash_op K R) : K :=
  match o with OpInsert k _ => k | OpDelete k => k | OpFind k => k end.

Section refinement.
Context {K R : Type} `{EqDecision K}.

(** The detailed machine: the operations of hash.c run in sequence. *)
Definition hash_step (o : hash_op K R) (s : hash_type K * mem K R) :
    option (hash_status_enum * option R * (hash_type K * mem K R)) :=
  let '(t, m) := s in
  match o with
  | OpInsert k r => '(st, t, m) ← hash_insert t m k r; Some (st, None, (t, m))
  | OpDelete k => '(st, t, m) ← hash_delete t m k; Some (st, None, (t, m))
  | OpFind k => '(st, r) ← hash_find t m k; Some (st, r, (t, m))
  end.

Fixpoint hash_run (os : list (hash_op K R)) (s : hash_type K * mem K R) :
    option (list (hash_status_enum * option R)) :=
  match os with
  | [] => Some []
  | o :: os => '(st, r, s) ← hash_step o s; l ← hash_run os s; Some ((st, r) :: l)
  end.

(** The specification. *)
Definition spec_step (o : hash_op K R) (f : K -> list R) :
    hash_status_enum * option R * (K -> list R) :=
  let upd k l := fun j => if decide (k = j) then l else f j in
  match o with
  | OpInsert k r => (HASH_STATUS_OK, None, upd k (r :: f k))
  | OpDelete k =>
      match f k with
      | [] => (HASH_STATUS_KEY_NOT_FOUND, None, f)
      | _ :: l => (HASH_STATUS_OK, None, upd k l)
      end
  | OpFind k =>
      match f k with
      | [] => (HASH_STATUS_KEY_NOT_FOUND, None, f)
      | r :: _ => (HASH_STATUS_OK, Some r, f)
      end
  end.

Fixpoint spec_run (os : list (hash_op K R)) (f : K -> list R) :
    list (hash_status_enum * option R) :=
  match os with
  | [] => []
  | o :: os => let '(st, r, f) := spec_step o f in (st, r) :: spec_run os f
  end.

Definition stack (k : K) (c : list (K * R)) : list R := (filter (fun kv => kv.1 = k) c).*2.

Lemma stack_first k c : first_match k c = head (stack k c).
Proof.
  unfold stack. induction c as [|[k' r] c IH]; [done|].
  simpl. rewrite filter_cons. simpl. case_decide; done.
Qed.

Lemma stack_pushed k r c c' j :
  pushed k r c c' -> stack j c' = if decide (k = j) then r :: stack k c else stack j c.
Proof.
  intros (a & b & -> & -> & Hk). unfold stack. rewrite !filter_app, filter_cons. simpl.
  case_decide; simplify_eq; [|done].
  assert (filter (fun kv => kv.1 = j) a = []) as ->; [|done].
  induction a as [|[k' r'] a IH]; csimpl in *; [done|].
  rewrite filter_cons. simpl. rewrite decide_False by set_solver. apply IH. set_solver.
Qed.

Lemma hash_step_sim (valid : K -> Prop) o t m C f :
  HashOps t valid -> hash_rep valid t m C ->
  (forall k, f k = stack k (contents (nodes m) (concat C))) -> valid (op_key o) ->
  exists t' m' C' f' st r,
    hash_step o (t, m) = Some (st, r, (t', m')) /\ spec_step o f = (st, r, f') /\
    HashOps t' valid /\ hash_rep valid t' m' C' /\
    (forall k, f' k = stack k (contents (nodes m') (concat C'))).
Proof.
  intros Hops Hr Hf Hk. destruct o as [k r|k|k]; simpl in *.
  - destruct (hash_insert_spec valid t m C k r Hops Hr Hk)
      as (t' & m' & C' & -> & Hr' & Hops' & Hp & _ & _). simpl.
    do 6 eexists. split_and!; [done|done|done|exact Hr'|].
    intros j. rewrite (stack_pushed k r _ _ j Hp), !Hf. by case_decide.
  - pose proof (hash_delete_spec valid t m C k Hops Hr Hk) as Hd.
    rewrite stack_first in Hd. rewrite (Hf k).
    destruct (stack k (contents (nodes m) (concat C))) as [|r l] eqn:Hst; simpl in Hd.
    + rewrite Hd. simpl. do 6 eexists. by split_and!.
    + destruct Hd as (t' & m' & C' & -> & Hr' & Hops' & Hp). simpl.
      do 6 eexists. split_and!; [done|done|done|exact Hr'|].
      intros j. pose proof (stack_pushed k r _ _ j Hp) as E.
      repeat case_decide; simplify_eq; [congruence|by rewrite Hf, E].
  - rewrite (hash_find_spec valid t m C k Hops Hr Hk), stack_first, (Hf k).
    destruct (stack k (contents (nodes m) (concat C))) as [|r l]; simpl;
      do 6 eexists; by split_and!.
Qed.

Lemma hash_run_sim (valid : K -> Prop) os t m C f :
  HashOps t valid -> hash_rep valid t m C ->
  (forall k, f k = stack k (contents (nodes m) (concat C))) ->
  Forall (fun o => valid (op_key o)) os ->
  hash_run os (t, m) = Some (spec_run os f).
Proof.
  intros Hops Hr Hf Hos. revert t m C f Hops Hr Hf.
  induction Hos as [|o os Ho Hos IH]; intros t m C f Hops Hr Hf; [done|]. cbn [hash_run spec_run].
  destruct (hash_step_sim valid o t m C f) as (t' & m' & C' & f' & st & r & -> & -> & ? & ? & ?);
    [done..|].
  simpl. by erewrite IH.
Qed.
End refinement.

(** ** Properties *)

(** C11: on a freshly initialised table, every sequence of insertions,
    deletions and lookups of valid keys runs without an invalid memory access
    and gives exactly the results of the specification that keeps one stack
    of records per key. *)
Theorem hash_run_refines {K R : Type} `{EqDecision K} (valid : K -> Prop) (t : hash_type K)
    (os : list (hash_op K R)) :
  HashOps t valid -> 0 <= hsize t -> Forall (fun o => valid (op_key o)) os ->
  hash_run os ((hash_initialise t).2, Mem ∅ 1) = Some (spec_run os (fun _ => [])).
Proof.
  intros Hops Hs Hos. eapply (hash_run_sim valid); [apply _| |..|done].
  - apply hash_initialise_spec; [done|]. intros z [nd Hz]. simpl in Hz. by rewrite lookup_empty in Hz.
  - intros k. by rewrite concat_replicate_nil.
Qed.

(** A table of two buckets keyed by natural numbers, for the concrete runs. *)
Definition demo_table : hash_type Z :=
  HashType Z.eqb (fun k => k mod 2) id [] 2.

#[export] Instance demo_ops : HashOps demo_table (fun _ => True).
Proof.
  split; intros; simpl; [apply Z.eqb_eq|apply Z.mod_pos_bound; lia|done].
Qed.

Definition demo_ops_list : list (hash_op Z string) :=
  [OpInsert 1 "a"; OpInsert 3 "b"; OpInsert 1 "c"; OpFind 1; OpDelete 1; OpFind 1; OpDelete 5].

Example hash_run_refines_witness :
  hash_run demo_ops_list ((hash_initialise demo_table).2, Mem ∅ 1) =
    Some [(HASH_STATUS_OK, None); (HASH_STATUS_OK, None); (HASH_STATUS_OK, None);
          (HASH_STATUS_OK, Some "c"); (HASH_STATUS_OK, None); (HASH_STATUS_OK, Some "a");
          (HASH_STATUS_KEY_NOT_FOUND, None)].
Proof.
  transitivity (Some (spec_run demo_ops_list (fun _ => [])));
    [|vm_compute; reflexivity].
  apply (hash_run_refines (fun _ => True) demo_table demo_ops_list);
    [apply demo_ops|simpl; lia|repeat constructor].
Defined.

(** From any well-formed table, the loop
    [node = NULL; while (hash_next_item(t, &node) == HASH_STATUS_OK) ...] ends
    and visits every node of the table exactly once, whatever the buckets are. *)
Theorem hash_iterate_visits_once {K R : Type} (valid : K -> Prop) (t : hash_type K) (m : mem K R)
    (C : list (list positive)) :
  hash_rep valid t m C ->
  exists l, hash_iterate (S (size (nodes m))) t m None = Some l /\ NoDup l /\
    forall x, x ∈ l <-> exists i c, C !! i = Some c /\ x ∈ c.
Proof.
  intros Hr. exists (concat C). split_and!; [|apply Hr|apply elem_of_concat].
  apply (hash_iterate_spec valid); [done|].
  enough (length (concat C) <= size (nodes m))%nat by lia.
  apply NoDup_length_le_size; [apply Hr|].
  intros x (i & l & Hi & Hx)%elem_of_concat. by eapply (rep_in valid).
Qed.

(** C40: deleting a node by its pointer takes exactly that node out of the
    iteration order, frees it, and leaves the table well formed and the key
    and record of every other node as they were. *)
Theorem hash_delete_node_removes {K R : Type} (valid : K -> Prop) (t : hash_type K) (m : mem K R)
    (C : list (list positive)) (x : positive) :
  HashOps t valid -> hash_rep valid t m C -> x ∈ concat C ->
  exists t' m' C', hash_delete_node t m x = Some (HASH_STATUS_OK, t', m') /\
    hash_rep valid t' m' C' /\ nodes m' !! x = None /\
    (exists l1 l2, concat C = l1 ++ x :: l2 /\ concat C' = l1 ++ l2) /\
    (forall z, z <> x -> payload <$> nodes m' !! z = payload <$> nodes m !! z).
Proof.
  intros Hops Hr (l1 & l2 & E)%list_elem_of_split.
  destruct (hash_delete_node_spec valid t m C l1 x l2 Hops Hr E)
    as (t' & m' & C' & ? & ? & _ & ? & ? & ?).
  exists t', m', C'. split_and!; eauto.
Qed.

(** A table of two nodes in one bucket. *)
Definition demo_m : mem Z string :=
  Mem (<[2%positive := HashNode (Some 1%positive) 3 "b" 1]>
      (<[1%positive := HashNode None 1 "a" 1]> ∅)) 3.
Definition demo_t : hash_type Z := with_table demo_table [None; Some 2%positive].

Lemma demo_rep : hash_rep (fun _ => True) demo_t demo_m [[]; [2%positive; 1%positive]].
Proof.
  constructor.
  - done.
  - repeat constructor; simpl; eauto 10.
  - by apply (bool_decide_unpack _).
  - intros [|[|i]] l x nd [= <-] Hx Hn; [set_solver|].
    rewrite !elem_of_cons in Hx. destruct Hx as [->|[->|Hx]]; [..|set_solver];
      vm_compute in Hn; injection Hn as <-; vm_compute; auto.
  - intros x [nd Hx]. simpl in Hx. rewrite !lookup_insert_Some, lookup_empty in Hx.
    simpl. naive_solver lia.
Qed.

Example hash_iterate_visits_once_witness :
  exists l, hash_iterate (S (size (nodes demo_m))) demo_t demo_m None = Some l /\ NoDup l /\
    forall x, x ∈ l <-> exists i c, [[]; [2%positive; 1%positive]] !! i = Some c /\ x ∈ c.
Proof. apply (hash_iterate_visits_once _ _ _ _ demo_rep). Defined.

Example hash_delete_node_removes_witness :
  exists t' m' C', hash_delete_node demo_t demo_m 1%positive = Some (HASH_STATUS_OK, t', m') /\
    hash_rep (fun _ => True) t' m' C' /\ nodes m' !! 1%positive = None /\
    (exists l1 l2, concat [[]; [2%positive; 1%positive]] = l1 ++ 1%positive :: l2 /\
       concat C' = l1 ++ l2) /\
    (forall z, z <> 1%positive -> payload <$> nodes m' !! z = payload <$> nodes demo_m !! z).
Proof.
  apply (hash_delete_node_removes _ _ _ _ _ (with_table_ops _ _ _ demo_ops) demo_rep).
  by apply (bool_decide_unpack _).
Defined.
