(* ===== verification/Pool.v ===== *)
(** * Block pools (addr_hash.c pool_alloc/pool_free, iftop.c history_create/history_free)

    Both pools of the program have the same shape: items are allocated in
    blocks of [bs], the items not handed out are linked through a word of
    their own, and a returned item goes to the front of that list. *)

From S2P Require Import Prelude Chain.

Local Open Scope Z_scope.

Record pool (A : Type) := Pool {
  p_cells : gmap positive A;
  p_brk : positive;
  free_list : option positive;
  pool_blocks : list positive
}.
Arguments Pool {A}.
Arguments p_cells {A}.
Arguments p_brk {A}.
Arguments free_list {A}.
Arguments pool_blocks {A}.

Definition empty_pool {A} : pool A := Pool ∅ 1 None [].

Definition item_at (base : positive) (i : Z) : positive := Z.to_pos (Z.pos base + i).

Lemma item_at_inj base i j : 0 <= i -> 0 <= j -> item_at base i = item_at base j -> i = j.
Proof. unfold item_at. intros. apply Z2Pos.inj in H1; lia. Qed.

Lemma item_at_ge base i : 0 <= i -> (base <= item_at base i)%positive.
Proof. unfold item_at. lia. Qed.

Lemma item_at_lt base i j : 0 <= i < j -> (item_at base i < item_at base j)%positive.
Proof. unfold item_at. lia. Qed.

Lemma elem_of_items base i n x :
  x ∈ item_at base <$> seqZ i n <-> exists j, i <= j < i + n /\ x = item_at base j.
Proof. rewrite list_elem_of_fmap. setoid_rewrite elem_of_seqZ. naive_solver. Qed.

(** What the items of a pool provide: a link that can be read and written. *)
Class PoolItem {A} (next : A -> option positive) (set_next : option positive -> A -> A)
    (mk : option positive -> A) (bs : Z) : Prop := {
  next_set_next q a : next (set_next q a) = q;
  next_mk q : next (mk q) = q;
  bs_pos : 2 <= bs
}.

Section pool.
Context {A : Type} (next : A -> option positive) (set_next : option positive -> A -> A).
Context (mk : option positive -> A) (bs : Z).
Notation chain := (Chain.chain next).
Implicit Types (p : pool A).

(** Items [i..bs-1] of a block, each linked to the one after it. *)
Fixpoint chain_items (n : nat) (base : positive) (i : Z) (h : gmap positive A) : gmap positive A :=
  match n with
  | O => h
  | S n =>
      let nx := if i <? bs - 1 then Some (item_at base (i + 1)) else None in
      chain_items n base (i + 1) (<[item_at base i := mk nx]> h)
  end.

Definition item_alloc p : option (positive * pool A) :=
  match free_list p with
  | Some n =>
      nd ← p_cells p !! n;
      Some (n, Pool (p_cells p) (p_brk p) (next nd) (pool_blocks p))
  | None =>
      let base := p_brk p in
      let h := <[item_at base 0 := mk None]> (p_cells p) in
      let h := chain_items (Z.to_nat (bs - 1)) base 1 h in
      Some (item_at base 0,
            Pool h (item_at base bs) (Some (item_at base 1)) (base :: pool_blocks p))
  end.

Definition item_free p (n : positive) : option (pool A) :=
  nd ← p_cells p !! n;
  Some (Pool (<[n := set_next (free_list p) nd]> (p_cells p)) (p_brk p) (Some n) (pool_blocks p)).

(** ** The pool *)
Record pool_ok (p : pool A) (F live : list positive) : Prop := PoolOk {
  pool_chain : chain (p_cells p) (free_list p) F;
  pool_nodup : NoDup (F ++ live);
  pool_part x : is_Some (p_cells p !! x) <-> x ∈ F ++ live;
  pool_brk x : is_Some (p_cells p !! x) -> (x < p_brk p)%positive;
  pool_count : Z.of_nat (length F) + Z.of_nat (length live) =
    bs * Z.of_nat (length (pool_blocks p))
}.

Lemma pool_ok_perm p F live live' : live ≡ₚ live' -> pool_ok p F live -> pool_ok p F live'.
Proof. intros Hl []. constructor; [done|by rewrite <- Hl|intros; by rewrite <- Hl|done|by rewrite <- Hl]. Qed.

Context `{!PoolItem next set_next mk bs}.

Lemma chain_items_spec base n i h :
  1 <= i -> i + Z.of_nat n = bs ->
  let l := item_at base <$> seqZ i (Z.of_nat n) in
  let h' := chain_items n base i h in
  (n <> O -> chain h' (Some (item_at base i)) l) /\
  (forall x, x ∉ l -> h' !! x = h !! x).
Proof.
  revert i h. induction n as [|n IH]; intros i h Hi Hn; [by split|].
  set (l := item_at base <$> seqZ i (Z.of_nat (S n))).
  assert (l = item_at base i :: (item_at base <$> seqZ (i + 1) (Z.of_nat n))) as El.
  { unfold l. rewrite seqZ_cons by lia. simpl.
    by replace (Z.pred (Z.of_nat (S n))) with (Z.of_nat n) by lia. }
  set (nx := if i <? bs - 1 then Some (item_at base (i + 1)) else None).
  destruct (IH (i + 1) (<[item_at base i := mk nx]> h)) as [Hc Hout]; [lia|lia|].
  assert (item_at base i ∉ item_at base <$> seqZ (i + 1) (Z.of_nat n)) as Hni.
  { rewrite elem_of_items. intros (j & Hj & E%item_at_inj); lia. }
  simpl. fold nx. split.
  - intros _. rewrite El. split; [done|]. exists (mk nx). split.
    + rewrite Hout by done. apply lookup_insert_eq.
    + rewrite next_mk. unfold nx in *. destruct (Z.ltb_spec i (bs - 1)).
      * apply Hc. lia.
      * assert (n = O) as -> by lia. done.
  - intros x Hx. rewrite El, not_elem_of_cons in Hx. destruct Hx as [Hx1 Hx2].
    rewrite Hout by done. by rewrite lookup_insert_ne.
Qed.

Lemma chain_items_alive base n i h x :
  x ∈ item_at base <$> seqZ i (Z.of_nat n) -> is_Some (chain_items n base i h !! x).
Proof.
  assert (forall n i h x, is_Some (h !! x) -> is_Some (chain_items n base i h !! x)) as Hmono.
  { clear. induction n as [|n IH]; intros i h x Hx; simpl; [done|].
    apply IH. destruct (decide (item_at base i = x)) as [<-|];
      [by rewrite lookup_insert_eq|by rewrite lookup_insert_ne]. }
  revert i h. induction n as [|n IH]; intros i h; simpl; [set_solver|].
  rewrite seqZ_cons by lia. csimpl. intros [->|Hx]%elem_of_cons.
  - apply Hmono. by rewrite lookup_insert_eq.
  - apply IH. by replace (Z.pred (Z.of_nat (S n))) with (Z.of_nat n) in Hx by lia.
Qed.

(** A new block: its first item is handed out, the others are free. *)
Lemma new_block_spec base h :
  (forall x, is_Some (h !! x) -> (x < base)%positive) ->
  let F' := item_at base <$> seqZ 1 (bs - 1) in
  let h' := chain_items (Z.to_nat (bs - 1)) base 1 (<[item_at base 0 := mk None]> h) in
  let new := item_at base 0 :: F' in
  chain h' (Some (item_at base 1)) F' /\ NoDup new /\ Z.of_nat (length F') = bs - 1 /\
  (forall x, x ∈ new -> h !! x = None /\ is_Some (h' !! x) /\ (x < item_at base bs)%positive) /\
  (forall x, x ∉ new -> h' !! x = h !! x).
Proof.
  pose proof bs_pos. intros Hbrk F' h' new.
  destruct (chain_items_spec base (Z.to_nat (bs - 1)) 1 (<[item_at base 0 := mk None]> h))
    as [Hch Hout]; [lia|lia|].
  rewrite Z2Nat.id in Hch, Hout by lia. fold F' h' in Hch, Hout.
  assert (item_at base 0 ∉ F') as H0.
  { unfold F'. rewrite elem_of_items. intros (j & Hj & E%item_at_inj); lia. }
  split_and!.
  - apply Hch. lia.
  - apply NoDup_cons. split; [done|]. apply NoDup_fmap_2_strong; [|apply NoDup_seqZ].
    intros i j Hi%elem_of_seqZ Hj%elem_of_seqZ. apply item_at_inj; lia.
  - unfold F'. rewrite length_fmap, length_seqZ. lia.
  - intros x Hx. assert (exists j, 0 <= j < bs /\ x = item_at base j) as (j & Hj & Ex).
    { apply elem_of_cons in Hx as [->|(j & Hj & ->)%elem_of_items];
        [exists 0|exists j]; split; (done || lia). }
    split_and!.
    + destruct (h !! x) eqn:E; [|done]. specialize (Hbrk x ltac:(eauto)).
      pose proof (item_at_ge base j). subst. lia.
    + apply elem_of_cons in Hx as [->|Hx].
      * rewrite Hout by done. by rewrite lookup_insert_eq.
      * apply (chain_items_alive base (Z.to_nat (bs - 1)) 1). by rewrite Z2Nat.id by lia.
    + subst. by apply item_at_lt.
  - intros x [Hx1 Hx2]%not_elem_of_cons. rewrite Hout by done. by rewrite lookup_insert_ne.
Qed.

(** An allocation takes an item that is neither free nor in use afterwards
    and changes nothing in use. *)
Lemma item_alloc_spec p F live :
  pool_ok p F live ->
  exists n p' F', item_alloc p = Some (n, p') /\ pool_ok p' F' (n :: live) /\
    (p_brk p <= p_brk p')%positive /\
    (forall x, x ∈ live -> p_cells p' !! x = p_cells p !! x).
Proof.
  pose proof bs_pos. intros [Hc Hnd Hpart Hbrk Hcnt]. unfold item_alloc. destruct F as [|n F]; simpl in Hc.
  - rewrite Hc. destruct (new_block_spec (p_brk p) (p_cells p) Hbrk) as (Hch & Hnew & Hl & Hin & Hout).
    set (F' := item_at (p_brk p) <$> seqZ 1 (bs - 1)) in *.
    set (n := item_at (p_brk p) 0) in *. cbv zeta.
    set (h' := chain_items _ _ _ _) in *. clearbody F' n h'. simpl in Hnd, Hpart, Hcnt.
    assert (forall x, x ∈ live -> x ∉ n :: F') as Hlive.
    { intros x Hx Hx'. apply Hin in Hx' as (E & _). destruct (proj2 (Hpart x) Hx). congruence. }
    assert (p_brk p <= item_at (p_brk p) bs)%positive as Hle by (apply item_at_ge; lia).
    eexists n, _, F'. split; [done|]. split_and!; [|done|by auto].
    constructor; cbn [p_cells p_brk free_list pool_blocks length]; [done|..].
    + rewrite <- Permutation_middle, app_comm_cons. apply NoDup_app. set_solver.
    + intros x. destruct (decide (x ∈ n :: F')) as [Hx|Hx].
      { split; [clear -Hx; set_solver|]. intros _. by apply Hin. }
      rewrite Hout, Hpart by done. clear -Hx. set_solver.
    + intros x Hx. destruct (decide (x ∈ n :: F')) as [Hx'|Hx']; [by apply Hin|].
      rewrite Hout in Hx by done. specialize (Hbrk x Hx). lia.
    + lia.
  - destruct Hc as [Hfl (nd & Hn & Hc)]. rewrite Hfl, Hn. simpl.
    eexists n, _, F. split; [done|]. split_and!; [|simpl; lia|done].
    constructor; cbn [p_cells p_brk free_list pool_blocks length]; [done| | |done|simpl in *; lia].
    + simpl in Hnd. by rewrite <- Permutation_middle.
    + intros x. rewrite Hpart. clear. set_solver.
Qed.

Lemma item_free_spec p F n live :
  pool_ok p F (n :: live) ->
  exists p' nd, p_cells p !! n = Some nd /\ item_free p n = Some p' /\ pool_ok p' (n :: F) live /\
    p_brk p' = p_brk p /\ p_cells p' !! n = Some (set_next (free_list p) nd) /\
    (forall x, x <> n -> p_cells p' !! x = p_cells p !! x).
Proof.
  intros [Hc Hnd Hpart Hbrk Hcnt].
  destruct (proj2 (Hpart n)) as [nd Hn]; [set_solver|].
  unfold item_free. rewrite Hn. simpl. eexists _, nd.
  split; [done|]. split; [done|]. split_and!; simpl.
  - assert (n ∉ F) as HnF.
    { apply NoDup_app in Hnd as (_ & Hd & _). intros Hx. apply (Hd n Hx). set_solver. }
    constructor; simpl.
    + split; [done|]. eexists. split; [apply lookup_insert_eq|]. rewrite next_set_next.
      apply (chain_same _ (p_cells p)); [done|]. intros x Hx.
      rewrite lookup_insert_ne; [done|]. congruence.
    + rewrite <- Permutation_middle in Hnd. done.
    + intros x. rewrite lookup_insert_is_Some, Hpart.
      destruct (decide (n = x)) as [<-|]; [clear; set_solver|].
      rewrite elem_of_app, !elem_of_cons, elem_of_app. clear Hpart. naive_solver.
    + intros x. rewrite lookup_insert_is_Some. intros [<-|[_ Hx]]; apply Hbrk; eauto.
    + simpl length in *. lia.
  - done.
  - apply lookup_insert_eq.
  - intros x Hx. by rewrite lookup_insert_ne.
Qed.

(** A write to a live item that keeps it live. *)
Lemma pool_ok_eq p p' F live :
  pool_ok p F live -> free_list p' = free_list p -> pool_blocks p' = pool_blocks p ->
  p_brk p' = p_brk p ->
  (forall x, x ∈ F -> p_cells p' !! x = p_cells p !! x) ->
  (forall x, is_Some (p_cells p' !! x) <-> is_Some (p_cells p !! x)) -> pool_ok p' F live.
Proof.
  intros [Hc Hnd Hpart Hb Hcnt] Hf Hpb Hbrk Hs Ha. constructor; [|done|..|by rewrite Hpb].
  - rewrite Hf. by apply (chain_same _ (p_cells p)).
  - intros x. by rewrite Ha.
  - intros x. rewrite Ha, Hbrk. apply Hb.
Qed.

Lemma empty_pool_ok : pool_ok empty_pool [] [].
Proof.
  constructor; [done|constructor| | |simpl; lia]; intros x; simpl; rewrite lookup_empty.
  - split; [by intros [? ?]|set_solver].
  - by intros [? ?].
Qed.
End pool.
