(* ===== verification/AddrHash.v ===== *)
(** * Flow tables (src/data/map/addr_hash.c, src/include/addr_hash.h)

    A specialised hash table keyed by [addr_pair], whose nodes come from a
    pool: blocks of 256 nodes, free nodes linked through the same [n_next]
    field that links the buckets.  The pool is shared by every table
    ([history] and [screen_hash]); [ah_rep] states that the nodes of the pool
    are exactly the free ones, those of one table and those used elsewhere. *)

From S2P Require Import Prelude Chain Hash Pool.

Local Open Scope Z_scope.

Definition AF_INET : Z := 2.
Definition AF_INET6 : Z := 10.
Definition hash_table_size : Z := 2048.
Definition POOL_BLOCK_SIZE : Z := 256.

(** [src] and [dst] are the 16 bytes of the unions [src]/[src6] and
    [dst]/[dst6]; an IPv4 address is their first four bytes. *)
Record addr_pair := AddrPair {
  address_family : Z;
  protocol : Z;
  src_port : Z;
  src : list Z;
  dst_port : Z;
  dst : list Z
}.

#[export] Instance addr_pair_eq_dec : EqDecision addr_pair.
Proof. solve_decision. Defined.

#[export] Program Instance addr_pair_countable : Countable addr_pair :=
  inj_countable
    (fun a => (address_family a, protocol a, src_port a, src a, dst_port a, dst a))
    (fun '(af, pr, sp, s, dp, d) => Some (AddrPair af pr sp s dp d)) _.
Next Obligation. by intros []. Qed.

Definition zeros16 : list Z := replicate 16 0.

(** The pair after [memset(ap, 0, sizeof *ap)]. *)
Definition zero_pair : addr_pair := AddrPair 0 0 0 zeros16 0 zeros16.

(** AF_INET and AF_INET6, the families that inet_ntop knows. *)
Definition known_family (af : Z) : Prop := af = 2 \/ af = 10.

(** The [i]-th 32-bit word of an address, loaded on a little-endian host. *)
Definition byte_at (b : list Z) (i : nat) : Z := default 0 (b !! i).
Definition word32 (b : list Z) (i : nat) : Z :=
  byte_at b (4 * i) + 256 * byte_at b (4 * i + 1) + 65536 * byte_at b (4 * i + 2) +
  16777216 * byte_at b (4 * i + 3).
Definition s_addr (b : list Z) : Z := word32 b 0.

(** ** Inline hash and compare *)
Definition hash_mix (hash_val val : Z) : Z :=
  let hash_val := Z.lxor hash_val val in
  let hash_val := Z.lor (u32 (Z.shiftl hash_val 5)) (Z.shiftr hash_val 27) in
  u32 (hash_val * 0x9e3779b9).

Definition addr_hash_bucket (pair : addr_pair) : Z :=
  let hash_val :=
    if address_family pair =? AF_INET6 then
      let h := hash_mix 0 (word32 (src pair) 0) in
      let h := hash_mix h (word32 (src pair) 1) in
      let h := hash_mix h (word32 (src pair) 2) in
      let h := hash_mix h (word32 (src pair) 3) in
      let h := hash_mix h (src_port pair) in
      let h := hash_mix h (word32 (dst pair) 0) in
      let h := hash_mix h (word32 (dst pair) 1) in
      let h := hash_mix h (word32 (dst pair) 2) in
      let h := hash_mix h (word32 (dst pair) 3) in
      hash_mix h (dst_port pair)
    else
      let h := hash_mix 0 (s_addr (src pair)) in
      let h := hash_mix h (src_port pair) in
      let h := hash_mix h (s_addr (dst pair)) in
      hash_mix h (dst_port pair) in
  Z.land hash_val (hash_table_size - 1).

(** [memcmp] over the whole structure, whose padding is always zero. *)
Definition addr_compare (lhs rhs : addr_pair) : bool := bool_decide (lhs = rhs).

Notation node_key_pair := (hash_node_type addr_pair positive).
Local Notation chain := (Chain.chain (@n_next addr_pair positive)).

(** ** Pool allocator for combined node and key *)
Abbreviation node_pool := (pool node_key_pair).

Definition p_mem (p : node_pool) : mem addr_pair positive := Mem (p_cells p) (p_brk p).
Arguments p_mem : simpl never.

(** A new node: only its link is written by the allocation. *)
Definition blank (next : option positive) : node_key_pair := HashNode next zero_pair 1%positive 0.

Definition pool_alloc (p : node_pool) : option (positive * node_pool) :=
  item_alloc n_next blank POOL_BLOCK_SIZE p.

Definition pool_free (p : node_pool) (nkp : positive) : option node_pool := item_free set_next p nkp.

(** ** Specialized fast-path operations *)
Fixpoint addr_find_loop (fuel : nat) (h : gmap positive node_key_pair) (key : addr_pair)
    (node : option positive) : option (hash_status_enum * option positive) :=
  match fuel with
  | O => None
  | S fuel =>
      match node with
      | None => Some (HASH_STATUS_KEY_NOT_FOUND, None)
      | Some n =>
          nd ← h !! n;
          if addr_compare (n_key nd) key then Some (HASH_STATUS_OK, Some (n_record nd))
          else addr_find_loop fuel h key (n_next nd)
      end
  end.

Definition addr_hash_find (p : node_pool) (t : hash_type addr_pair) (key : addr_pair) :
    option (hash_status_enum * option positive) :=
  head ← table t !!z addr_hash_bucket key;
  addr_find_loop (chain_fuel (p_mem p)) (nodes (p_mem p)) key head.

Definition addr_hash_insert (p : node_pool) (t : hash_type addr_pair) (key : addr_pair) (rec : positive) :
    option (hash_status_enum * node_pool * hash_type addr_pair) :=
  let bucket := addr_hash_bucket key in
  '(nkp, p) ← pool_alloc p;
  prev ← table t !!z bucket;
  tbl ← store_z (table t) bucket (Some nkp);
  let nd := HashNode prev key rec bucket in
  Some (HASH_STATUS_OK,
        Pool (<[nkp := nd]> (p_cells p)) (p_brk p) (free_list p) (pool_blocks p),
        with_table t tbl).

Definition addr_hash_delete_node (p : node_pool) (t : hash_type addr_pair) (target : positive) :
    option (node_pool * hash_type addr_pair) :=
  tnd ← nodes (p_mem p) !! target;
  let bucket := n_bucket tnd in
  head ← table t !!z bucket;
  '(prev, node) ← walk n_next (fun n _ => bool_decide (n = target)) (nodes (p_mem p))
                    (chain_fuel (p_mem p)) None head;
  match node with
  | None => Some (p, t)
  | Some n =>
      '(h, tbl) ← splice t (p_mem p) bucket prev n;
      p' ← pool_free (Pool h (p_brk p) (free_list p) (pool_blocks p)) n;
      Some (p', with_table t tbl)
  end.

(** Return a chain of nodes to the pool; the freed records in order. *)
Fixpoint addr_free_chain (fuel : nat) (p : node_pool) (node : option positive) :
    option (node_pool * list positive) :=
  match fuel with
  | O => None
  | S fuel =>
      match node with
      | None => Some (p, [])
      | Some n =>
          nd ← nodes (p_mem p) !! n;
          p ← pool_free p n;
          '(p, rs) ← addr_free_chain fuel p (n_next nd);
          Some (p, n_record nd :: rs)
      end
  end.

Fixpoint addr_free_buckets (fuel : nat) (p : node_pool) (tbl : list (option positive)) :
    option (node_pool * list positive) :=
  match tbl with
  | [] => Some (p, [])
  | head :: tbl =>
      '(p, rs) ← addr_free_chain fuel p head;
      '(p, rs') ← addr_free_buckets fuel p tbl;
      Some (p, rs ++ rs')
  end.

Definition addr_hash_delete_all_free (p : node_pool) (t : hash_type addr_pair) :
    option (node_pool * hash_type addr_pair * list positive) :=
  '(p, rs) ← addr_free_buckets (chain_fuel (p_mem p)) p (table t);
  Some (p, with_table t (replicate (length (table t)) None), rs).

(** [compare], [hash], [copy_key] are the wrappers of the generic interface. *)
Definition addr_hash_create : hash_type addr_pair :=
  (hash_initialise (HashType addr_compare addr_hash_bucket id [] hash_table_size)).2.

(** ** The functions meet the interface of the generic table *)
Lemma hash_mix_nonneg h v : 0 <= hash_mix h v < 2 ^ 32.
Proof. apply uwrap_range. lia. Qed.

Lemma addr_hash_bucket_range k : 0 <= addr_hash_bucket k < hash_table_size.
Proof.
  unfold addr_hash_bucket. change (hash_table_size - 1) with (Z.ones 11).
  rewrite Z.land_ones by lia. apply Z.mod_pos_bound. reflexivity.
Qed.

Definition addr_table (t : hash_type addr_pair) : Prop :=
  compare t = addr_compare /\ hash t = addr_hash_bucket /\ copy_key t = id /\
  hsize t = hash_table_size.

#[export] Instance addr_table_ops t : addr_table t -> HashOps t (fun _ => True).
Proof.
  intros (E1 & E2 & E3 & E4). split; intros; rewrite ?E1, ?E2, ?E3, ?E4.
  - unfold addr_compare. by rewrite bool_decide_eq_true.
  - apply addr_hash_bucket_range.
  - done.
Qed.

Lemma with_table_addr t tbl : addr_table t -> addr_table (with_table t tbl).
Proof. done. Qed.

(** ** The pool *)
Abbreviation pool_ok := (Pool.pool_ok n_next POOL_BLOCK_SIZE).

(** ** A table and the pool it draws from

    [F] lists the free nodes and [X] the live nodes of the other tables. *)
Record ah_rep (p : node_pool) (t : hash_type addr_pair) (F : list positive)
    (C : list (list positive)) (X : list positive) : Prop := AhRep {
  ah_table : addr_table t;
  ah_hash : hash_rep (fun _ => True) t (p_mem p) C;
  ah_pool : pool_ok p F (concat C ++ X)
}.

Lemma ah_brk p t F C X x :
  ah_rep p t F C X -> is_Some (nodes (p_mem p) !! x) -> (x < brk (p_mem p))%positive.
Proof. intros [_ _ Hp]. apply Hp. Qed.

#[export] Instance node_pool_item : PoolItem n_next set_next blank POOL_BLOCK_SIZE.
Proof. by split. Qed.

Lemma pool_alloc_spec p F live :
  pool_ok p F live ->
  exists n p' F', pool_alloc p = Some (n, p') /\ pool_ok p' F' (n :: live) /\
    (p_brk p <= p_brk p')%positive /\
    (forall x, x ∈ live -> nodes (p_mem p') !! x = nodes (p_mem p) !! x).
Proof. exact (item_alloc_spec n_next set_next blank POOL_BLOCK_SIZE p F live). Qed.

Lemma pool_free_spec p F n live :
  pool_ok p F (n :: live) ->
  exists p', pool_free p n = Some p' /\ pool_ok p' (n :: F) live /\
    brk (p_mem p') = brk (p_mem p) /\
    (forall x, payload <$> nodes (p_mem p') !! x = payload <$> nodes (p_mem p) !! x) /\
    (forall x, x <> n -> nodes (p_mem p') !! x = nodes (p_mem p) !! x).
Proof.
  intros Hp. destruct (item_free_spec n_next set_next blank POOL_BLOCK_SIZE p F n live Hp)
    as (p' & nd & Hn & Hf & Hp' & Hb & Hn' & Hs).
  exists p'. split_and!; [done..| |done]. intros x. simpl.
  destruct (decide (x = n)) as [->|Hne]; [by rewrite Hn', Hn|by rewrite Hs].
Qed.

Lemma addr_hash_insert_spec p t F C X key rec :
  ah_rep p t F C X ->
  exists n p' t' F' C',
    addr_hash_insert p t key rec = Some (HASH_STATUS_OK, p', t') /\ ah_rep p' t' F' C' X /\
    n ∉ concat C ++ X /\ concat C' ≡ₚ n :: concat C /\
    payload <$> nodes (p_mem p') !! n = Some (key, rec, addr_hash_bucket key) /\
    pushed key rec (contents (nodes (p_mem p)) (concat C))
                   (contents (nodes (p_mem p')) (concat C')) /\
    (forall x, x ∈ concat C ++ X -> nodes (p_mem p') !! x = nodes (p_mem p) !! x).
Proof.
  intros [Ht Hr Hp]. unfold addr_hash_insert.
  destruct (pool_alloc_spec p F _ Hp) as (n & p1 & F1 & -> & Hp1 & Hbrk & Hsame). simpl.
  pose proof (pool_nodup _ _ _ _ _ Hp1) as Hnd. apply NoDup_app in Hnd as (HndF & HdF & Hnd).
  apply NoDup_cons in Hnd as [Hn _].
  assert (hash_rep (fun _ => True) t (p_mem p1) C) as Hr1.
  { apply (rep_frame _ t (p_mem p)); [done| |apply Hp1]. intros x Hx. apply Hsame. set_solver. }
  destruct (link_spec (fun _ => True) t (p_mem p1) C key rec n (brk (p_mem p1)))
    as (q & tbl & C' & Hq & Htbl & Hr' & Hpush & Hperm); [by apply addr_table_ops|done|done|..].
  { set_solver. }
  { apply (pool_brk _ _ _ _ _ Hp1), (pool_part _ _ _ _ _ Hp1). set_solver. }
  { done. }
  destruct Ht as (E1 & E2 & E3 & E4). rewrite E2 in *. rewrite Hq. simpl. rewrite Htbl. simpl.
  exists n. eexists _, _, F1, C'. split; [done|].
  split_and!; [|set_solver|done|by simpl; rewrite lookup_insert_eq| |].
  - constructor; [done|done|]. simpl in *.
    apply pool_ok_perm with (n :: concat C ++ X); [by rewrite Hperm|].
    apply (pool_ok_eq _ _ p1); [done..| |].
    + intros x Hx. simpl. rewrite lookup_insert_ne; [done|]. intros <-. apply (HdF n Hx). set_solver.
    + intros x. simpl. rewrite lookup_insert_is_Some, (pool_part _ _ _ _ _ Hp1).
      destruct (decide (n = x)) as [<-|]; [|naive_solver]. clear. set_solver.
  - simpl in Hpush. rewrite (contents_payload (fun _ => True) (nodes (p_mem p)) (nodes (p_mem p1))) in Hpush; [done|].
    intros x Hx. rewrite Hsame; [done|]. set_solver.
  - intros x Hx. simpl. rewrite lookup_insert_ne by (intros <-; done). by apply Hsame.
Qed.

Lemma addr_hash_delete_node_spec p t F C X L1 x L2 :
  ah_rep p t F C X -> concat C = L1 ++ x :: L2 ->
  exists p' t' C', addr_hash_delete_node p t x = Some (p', t') /\
    ah_rep p' t' (x :: F) C' X /\ concat C' = L1 ++ L2 /\
    (forall z, payload <$> nodes (p_mem p') !! z = payload <$> nodes (p_mem p) !! z) /\
    (forall z, z ∈ X -> nodes (p_mem p') !! z = nodes (p_mem p) !! z).
Proof.
  intros [Ht Hr Hp] E. unfold addr_hash_delete_node.
  destruct (node_removal (fun _ => True) t (p_mem p) C L1 x L2 Hr E)
    as (nd & q & prev & h & tbl & Hx & Hq & Hw & Hs & Hpay & Hout & Hrep).
  rewrite Hx; cbn [mbind option_bind]. rewrite Hq; cbn [mbind option_bind].
  rewrite Hw; cbn [mbind option_bind]. rewrite Hs; cbn [mbind option_bind].
  pose proof (pool_nodup _ _ _ _ _ Hp) as Hnd. apply NoDup_app in Hnd as (HndF & HdF & HndX).
  apply NoDup_app in HndX as (HndC & HdX & _).
  set (p1 := Pool h (p_brk p) (free_list p) (pool_blocks p)).
  assert (pool_ok p1 F (x :: (L1 ++ L2) ++ X)) as Hp1.
  { apply pool_ok_perm with (concat C ++ X).
    { rewrite E, <- !app_assoc. simpl. by rewrite <- Permutation_middle. }
    apply (pool_ok_eq _ _ p); [done..| |].
    - intros z Hz. apply Hout. intros Hz'. apply (HdF z Hz). set_solver.
    - intros z. unfold p1. simpl. rewrite <- !(fmap_is_Some payload), Hpay. done. }
  destruct (pool_free_spec p1 F x _ Hp1) as (p2 & Hpf & Hp2 & Hbrk2 & Hpay2 & Hsame2).
  rewrite Hpf. simpl.
  destruct (Hrep (p_mem p2)) as (C' & Hr' & E'); [done|apply Hp2|].
  exists p2, (with_table t tbl), C'. split_and!; [done| |done|..].
  - constructor; [by apply with_table_addr|done|by rewrite E'].
  - intros z. rewrite Hpay2. apply Hpay.
  - intros z Hz. assert (z ∉ concat C) as HzC by (intros Hz'; by apply (HdX z)).
    rewrite Hsame2 by (intros ->; rewrite E in HzC; set_solver). by apply Hout.
Qed.

(** *** Emptying a table returns its nodes to the pool *)
Lemma addr_free_chain_spec p F head l X fuel :
  pool_ok p F (l ++ X) -> chain (nodes (p_mem p)) head l -> (length l < fuel)%nat ->
  exists p', addr_free_chain fuel p head = Some (p', (contents (nodes (p_mem p)) l).*2) /\
    pool_ok p' (rev l ++ F) X /\ brk (p_mem p') = brk (p_mem p) /\
    (forall x, x ∉ l -> nodes (p_mem p') !! x = nodes (p_mem p) !! x).
Proof.
  revert p F head fuel. induction l as [|x l IH]; intros p F head [|fuel] Hp Hc Hf;
    try (simpl in Hf; lia); simpl in Hc; cbn [addr_free_chain].
  - subst. exists p. by split_and!.
  - destruct Hc as [-> (nd & Hx & Hc)]. change (nodes (p_mem p) !! x = Some nd) in Hx. rewrite Hx. simpl.
    assert (NoDup (x :: l)) as [Hxl _]%NoDup_cons.
    { pose proof (pool_nodup _ _ _ _ _ Hp) as Hnd. apply NoDup_app in Hnd as (_ & _ & Hnd).
      by apply (NoDup_app (x :: l) X) in Hnd as (? & _). }
    destruct (pool_free_spec p F x _ Hp) as (p1 & -> & Hp1 & Hb1 & Hpay1 & Hs1). simpl.
    destruct (IH p1 (x :: F) (n_next nd) fuel Hp1) as (p2 & -> & Hp2 & Hb2 & Hs2).
    { apply (chain_same _ (nodes (p_mem p))); [done|]. intros z Hz. apply Hs1. congruence. }
    { simpl in Hf. lia. }
    simpl. exists p2. split_and!.
    + rewrite (contents_cons _ _ _ _ Hx).
      by rewrite (contents_payload (fun _ => True) (nodes (p_mem p)) (nodes (p_mem p1))).
    + by rewrite <- app_assoc.
    + simpl in *; congruence.
    + intros z [Hz1 Hz2]%not_elem_of_cons. rewrite Hs2 by done. by apply Hs1.
Qed.

Lemma addr_free_buckets_spec p F tbl C X fuel :
  pool_ok p F (concat C ++ X) -> Forall2 (chain (nodes (p_mem p))) tbl C ->
  (forall l, l ∈ C -> (length l < fuel)%nat) ->
  exists p', addr_free_buckets fuel p tbl = Some (p', (contents (nodes (p_mem p)) (concat C)).*2) /\
    pool_ok p' (rev (concat C) ++ F) X /\ brk (p_mem p') = brk (p_mem p) /\
    (forall x, x ∉ concat C -> nodes (p_mem p') !! x = nodes (p_mem p) !! x).
Proof.
  revert p F C. induction tbl as [|q tbl IH]; intros p F C Hp Hch Hf.
  { apply Forall2_nil_inv_l in Hch as ->. exists p. by split_and!. }
  apply Forall2_cons_inv_l in Hch as (l & C' & Hq & Hch & ->).
  simpl in Hp |- *. rewrite <- app_assoc in Hp.
  destruct (addr_free_chain_spec p F q l (concat C' ++ X) fuel Hp)
    as (p1 & -> & Hp1 & Hb1 & Hs1); [done|apply Hf; set_solver|]. simpl.
  assert (forall z, z ∈ concat C' -> z ∉ l) as Hd.
  { pose proof (pool_nodup _ _ _ _ _ Hp) as Hnd. apply NoDup_app in Hnd as (_ & _ & Hnd).
    apply NoDup_app in Hnd as (_ & Hd & _). intros z Hz Hl. apply (Hd z Hl). set_solver. }
  destruct (IH p1 (rev l ++ F) C' Hp1) as (p2 & -> & Hp2 & Hb2 & Hs2); [|set_solver|].
  { apply Forall2_same_length_lookup. split; [by eapply Forall2_length|].
    intros i q' l' Hq' Hl'. apply (chain_same _ (nodes (p_mem p))).
    - by eapply Forall2_lookup_lr.
    - intros z Hz. apply Hs1, Hd, elem_of_concat. eauto. }
  simpl. exists p2. split_and!.
  - rewrite (contents_app), fmap_app. do 3 f_equal. apply (f_equal (fmap snd)).
    apply (contents_payload (fun _ => True)). intros z Hz. by rewrite Hs1 by auto.
  - by rewrite rev_app_distr, <- app_assoc.
  - simpl in *; congruence.
  - intros z [Hz1 Hz2]%not_elem_of_app. rewrite Hs2 by done. by apply Hs1.
Qed.

Lemma rep_chain_fuel p t C :
  hash_rep (fun _ => True) t (p_mem p) C ->
  forall l, l ∈ C -> (length l < chain_fuel (p_mem p))%nat.
Proof.
  intros Hr l [i Hi]%list_elem_of_lookup.
  destruct (Forall2_lookup_r _ _ _ _ _ (rep_chains _ _ _ _ Hr) Hi) as (q & _ & Hc).
  apply chain_length in Hc. unfold chain_fuel. lia.
Qed.

Lemma addr_hash_delete_all_free_spec p t F C X :
  ah_rep p t F C X ->
  exists p' t', addr_hash_delete_all_free p t =
      Some (p', t', (contents (nodes (p_mem p)) (concat C)).*2) /\
    ah_rep p' t' (rev (concat C) ++ F) (replicate (length (table t)) []) X /\
    (forall x, x ∈ X -> nodes (p_mem p') !! x = nodes (p_mem p) !! x).
Proof.
  intros [Ht Hr Hp]. unfold addr_hash_delete_all_free.
  destruct (addr_free_buckets_spec p F (table t) C X (chain_fuel (p_mem p)) Hp)
    as (p' & -> & Hp' & Hb & Hs); [apply Hr|by apply (rep_chain_fuel p t)|].
  simpl. eexists _, _. split; [done|]. split.
  - constructor; [done| |by rewrite concat_replicate_nil].
    apply rep_empty; [done|apply Hr|apply Hp'].
  - intros x Hx. apply Hs. intros Hx'. pose proof (pool_nodup _ _ _ _ _ Hp) as Hnd.
    apply NoDup_app in Hnd as (_ & _ & Hnd). apply NoDup_app in Hnd as (_ & Hd & _).
    by apply (Hd x).
Qed.

(** *** The inline lookup is the generic one *)
Lemma addr_find_loop_walk h key fuel prev node :
  addr_find_loop fuel h key node =
  '(_, nd) ← walk n_next (fun _ nd => addr_compare (n_key nd) key) h fuel prev node;
  match nd with
  | None => Some (HASH_STATUS_KEY_NOT_FOUND, None)
  | Some n => nd ← h !! n; Some (HASH_STATUS_OK, Some (n_record nd))
  end.
Proof.
  revert prev node. induction fuel as [|fuel IH]; intros prev [n|]; try done.
  cbn [addr_find_loop]. unfold walk; fold (@walk node_key_pair).
  destruct (h !! n) as [nd|] eqn:Hn; simpl; [|done].
  destruct (addr_compare (n_key nd) key); simpl; [by rewrite Hn|apply IH].
Qed.

Lemma addr_hash_find_generic p t key :
  addr_table t -> addr_hash_find p t key = hash_find t (p_mem p) key.
Proof.
  intros (E1 & E2 & _ & _). unfold addr_hash_find, hash_find. rewrite E1, E2.
  destruct (table t !!z addr_hash_bucket key) as [q|]; [|done].
  exact (addr_find_loop_walk _ key _ None q).
Qed.

Lemma addr_hash_find_spec p t F C X key :
  ah_rep p t F C X ->
  addr_hash_find p t key =
    Some match first_match key (contents (nodes (p_mem p)) (concat C)) with
         | Some r => (HASH_STATUS_OK, Some r)
         | None => (HASH_STATUS_KEY_NOT_FOUND, None)
         end.
Proof.
  intros [Ht Hr _]. rewrite addr_hash_find_generic by done.
  apply (hash_find_spec (fun _ => True)); [by apply addr_table_ops|done|done].
Qed.

Lemma addr_create_table : addr_table addr_hash_create.
Proof. done. Qed.

Lemma empty_nodes_brk x :
  is_Some (nodes (p_mem empty_pool) !! x) -> (x < brk (p_mem empty_pool))%positive.
Proof. intros [nd Hx]. simpl in Hx. by rewrite lookup_empty in Hx. Qed.

Lemma addr_create_rep :
  ah_rep empty_pool addr_hash_create [] (replicate (Z.to_nat hash_table_size) []) [].
Proof.
  constructor; [apply addr_create_table| |].
  - apply (hash_initialise_spec (fun _ => True)); [done|apply empty_nodes_brk].
  - rewrite concat_replicate_nil. constructor; [done|constructor| |apply empty_nodes_brk|done].
    intros x. simpl. rewrite lookup_empty. split; [by intros [? ?]|set_solver].
Qed.

(** ** Two tables on one pool

    The program keeps two flow tables, [history] (iftop.c) and [screen_hash]
    (ui.c), whose nodes come from the same pool. *)
Record flow_sys := FlowSys {
  sys_pool : node_pool;
  sys_table : bool -> hash_type addr_pair
}.

Definition sys_init : flow_sys := FlowSys empty_pool (fun _ => addr_hash_create).

Definition sys_update (b : bool) (p : node_pool) (t : hash_type addr_pair) (s : flow_sys) : flow_sys :=
  FlowSys p (fun b' => if Bool.eqb b b' then t else sys_table s b').

(** One call on table [b]; a node is only deleted after an iteration of the
    table has found it. *)
Inductive flow_step (s : flow_sys) : flow_sys -> Prop :=
  | step_insert b key rec p t :
      addr_hash_insert (sys_pool s) (sys_table s b) key rec = Some (HASH_STATUS_OK, p, t) ->
      flow_step s (sys_update b p t s)
  | step_delete_node b fuel l x p t :
      hash_iterate fuel (sys_table s b) (p_mem (sys_pool s)) None = Some l -> x ∈ l ->
      addr_hash_delete_node (sys_pool s) (sys_table s b) x = Some (p, t) ->
      flow_step s (sys_update b p t s)
  | step_delete_all b p t rs :
      addr_hash_delete_all_free (sys_pool s) (sys_table s b) = Some (p, t, rs) ->
      flow_step s (sys_update b p t s).

Definition sys_ok (s : flow_sys) (F : list positive) (C : bool -> list (list positive)) : Prop :=
  forall b, ah_rep (sys_pool s) (sys_table s b) F (C b) (concat (C (negb b))).

(** A table is not affected by an operation on the other one. *)
Lemma ah_other p t F C X p' t' F' C' :
  ah_rep p t F C X -> ah_rep p' t' F' C' (concat C) ->
  (forall x, x ∈ concat C -> nodes (p_mem p') !! x = nodes (p_mem p) !! x) ->
  ah_rep p' t F' C (concat C').
Proof.
  intros [Ht Hh _] [_ _ Hp] Hsame. constructor; [done|apply (rep_frame _ _ (p_mem p))|]; [done|done|apply Hp|].
  apply pool_ok_perm with (concat C' ++ concat C); [apply Permutation_app_comm|done].
Qed.

(** What one table's operation gives for the whole system. *)
Lemma sys_ok_update s F C b p t F' Cb :
  sys_ok s F C -> ah_rep p t F' Cb (concat (C (negb b))) ->
  (forall x, x ∈ concat (C (negb b)) -> nodes (p_mem p) !! x = nodes (p_mem (sys_pool s)) !! x) ->
  sys_ok (sys_update b p t s) F' (fun b' => if Bool.eqb b b' then Cb else C b').
Proof.
  intros Hs Hr Hsame b'. unfold sys_update. cbn [sys_pool sys_table].
  pose proof (ah_other _ _ _ _ _ _ _ _ _ (Hs (negb b)) Hr Hsame) as Hother.
  by destruct b, b'.
Qed.

Lemma hash_iterate_mono {K R} (t : hash_type K) (m : mem K R) fuel pn l fuel' :
  hash_iterate fuel t m pn = Some l -> (fuel <= fuel')%nat -> hash_iterate fuel' t m pn = Some l.
Proof.
  revert pn l fuel'. induction fuel as [|fuel IH]; intros pn l [|fuel']; simpl; try done; [lia|].
  intros Hi Hle. destruct (hash_next_item t m pn) as [[st q]|]; simpl in *; [|done].
  destruct st, q as [n|]; try done.
  destruct (hash_iterate fuel t m (Some n)) as [l'|] eqn:E; simpl in *; [|done].
  rewrite (IH _ l' fuel' E) by lia. done.
Qed.

Lemma iterate_concat p t F C X fuel l :
  ah_rep p t F C X -> hash_iterate fuel t (p_mem p) None = Some l -> l = concat C.
Proof.
  intros [_ Hr _] Hi.
  apply (hash_iterate_mono _ _ _ _ _ (fuel + S (length (concat C)))) in Hi; [|lia].
  rewrite (hash_iterate_spec (fun _ => True) t (p_mem p) C) in Hi; [congruence|done|lia].
Qed.

Lemma flow_step_ok s s' F C :
  sys_ok s F C -> flow_step s s' -> exists F' C', sys_ok s' F' C'.
Proof.
  intros Hs [b key rec p t E|b fuel l x p t Hl Hx E|b p t rs E].
  - destruct (addr_hash_insert_spec _ _ _ _ _ key rec (Hs b))
      as (n & p' & t' & F' & C' & E' & Hr' & _ & _ & _ & _ & Hsame).
    simplify_eq. eexists _, _. apply (sys_ok_update s F C b); [done|done|].
    intros z Hz. apply Hsame. set_solver.
  - apply (iterate_concat _ _ _ _ _ _ _ (Hs b)) in Hl as ->.
    apply list_elem_of_split in Hx as (L1 & L2 & EC).
    destruct (addr_hash_delete_node_spec _ _ _ _ _ L1 x L2 (Hs b) EC)
      as (p' & t' & C' & E' & Hr' & _ & _ & Hsame).
    simplify_eq. eexists _, _. by apply (sys_ok_update s F C b).
  - destruct (addr_hash_delete_all_free_spec _ _ _ _ _ (Hs b)) as (p' & t' & E' & Hr' & Hsame).
    simplify_eq. eexists _, _. by apply (sys_ok_update s F C b).
Qed.

Lemma sys_init_ok : sys_ok sys_init [] (fun _ => replicate (Z.to_nat hash_table_size) []).
Proof.
  intros b. unfold sys_init. cbn [sys_pool sys_table]. rewrite concat_replicate_nil.
  apply addr_create_rep.
Qed.

Lemma flow_reachable_ok s : rtc flow_step sys_init s -> exists F C, sys_ok s F C.
Proof.
  intros H. remember sys_init as s0 eqn:E0.
  assert (exists F C, sys_ok s0 F C) as Hs0 by (subst; eauto using sys_init_ok). clear E0.
  induction H as [|s s1 s2 Hstep _ IH]; [done|].
  destruct Hs0 as (F & C & Hs). by apply IH, (flow_step_ok s s1 F C).
Qed.

(** ** Properties *)

(** C9: whatever calls were made on the two flow tables, every call that can
    be made next returns (no invalid access, no endless chain), each node
    of the pool is in exactly one place - free, in [history] or in
    [screen_hash] - and the pool holds 256 nodes per block it allocated: no
    node leaks and none is shared. *)
Theorem flow_tables_share_pool (s : flow_sys) :
  rtc flow_step sys_init s ->
  exists F C, let p := sys_pool s in
    (forall b, hash_iterate (S (length (concat (C b)))) (sys_table s b) (p_mem p) None =
       Some (concat (C b))) /\
    NoDup (F ++ concat (C true) ++ concat (C false)) /\
    (forall x, is_Some (nodes (p_mem p) !! x) <-> x ∈ F ++ concat (C true) ++ concat (C false)) /\
    Z.of_nat (length F + length (concat (C true)) + length (concat (C false))) =
      POOL_BLOCK_SIZE * Z.of_nat (length (pool_blocks p)) /\
    (forall b k, is_Some (addr_hash_find p (sys_table s b) k)) /\
    (forall b k r, is_Some (addr_hash_insert p (sys_table s b) k r)) /\
    (forall b x, x ∈ concat (C b) -> is_Some (addr_hash_delete_node p (sys_table s b) x)) /\
    (forall b, is_Some (addr_hash_delete_all_free p (sys_table s b))).
Proof.
  intros (F & C & Hs)%flow_reachable_ok. exists F, C. cbv zeta.
  destruct (Hs true) as [_ _ Hp]. simpl in Hp. split_and!.
  - intros b. apply (hash_iterate_spec (fun _ => True)); [apply Hs|lia].
  - apply Hp.
  - apply Hp.
  - pose proof (pool_count _ _ _ _ _ Hp) as Hc. rewrite length_app in Hc. lia.
  - intros b k. erewrite addr_hash_find_spec by apply Hs. eauto.
  - intros b k r. destruct (addr_hash_insert_spec _ _ _ _ _ k r (Hs b))
      as (? & ? & ? & ? & ? & -> & _). eauto.
  - intros b x (L1 & L2 & E)%list_elem_of_split.
    destruct (addr_hash_delete_node_spec _ _ _ _ _ L1 x L2 (Hs b) E) as (? & ? & ? & -> & _). eauto.
  - intros b. destruct (addr_hash_delete_all_free_spec _ _ _ _ _ (Hs b)) as (? & ? & -> & _). eauto.
Qed.

(** The state after one flow was entered in [history]. *)
Definition demo_pair : addr_pair :=
  AddrPair AF_INET 6 1000 (replicate 16 7) 80 (replicate 16 9).

Definition demo_sys : flow_sys :=
  match addr_hash_insert empty_pool addr_hash_create demo_pair 5%positive with
  | Some (_, p, t) => sys_update true p t sys_init
  | None => sys_init
  end.

Lemma demo_sys_reachable : rtc flow_step sys_init demo_sys.
Proof.
  unfold demo_sys.
  destruct (addr_hash_insert_spec empty_pool addr_hash_create [] _ [] demo_pair 5%positive
    addr_create_rep) as (n & p & t & F & C & E & _).
  rewrite E. apply rtc_once. by apply (step_insert sys_init true demo_pair 5%positive).
Qed.

Example flow_tables_share_pool_witness :
  exists F C, let p := sys_pool demo_sys in
    (forall b, hash_iterate (S (length (concat (C b)))) (sys_table demo_sys b) (p_mem p) None =
       Some (concat (C b))) /\
    NoDup (F ++ concat (C true) ++ concat (C false)) /\
    (forall x, is_Some (nodes (p_mem p) !! x) <-> x ∈ F ++ concat (C true) ++ concat (C false)) /\
    Z.of_nat (length F + length (concat (C true)) + length (concat (C false))) =
      POOL_BLOCK_SIZE * Z.of_nat (length (pool_blocks p)) /\
    (forall b k, is_Some (addr_hash_find p (sys_table demo_sys b) k)) /\
    (forall b k r, is_Some (addr_hash_insert p (sys_table demo_sys b) k r)) /\
    (forall b x, x ∈ concat (C b) -> is_Some (addr_hash_delete_node p (sys_table demo_sys b) x)) /\
    (forall b, is_Some (addr_hash_delete_all_free p (sys_table demo_sys b))).
Proof. apply (flow_tables_share_pool demo_sys demo_sys_reachable). Defined.

(** The inlined lookup of addr_hash.c, with its own hash, comparison and
    loop, gives the same answer as the generic [hash_find] on every flow
    table: the record of the first node with that key, in iteration order. *)
Theorem addr_hash_find_is_hash_find (p : node_pool) (t : hash_type addr_pair) (F : list positive)
    (C : list (list positive)) (X : list positive) (key : addr_pair) :
  ah_rep p t F C X ->
  addr_hash_find p t key = hash_find t (p_mem p) key /\
  addr_hash_find p t key =
    Some match first_match key (contents (nodes (p_mem p)) (concat C)) with
         | Some r => (HASH_STATUS_OK, Some r)
         | None => (HASH_STATUS_KEY_NOT_FOUND, None)
         end.
Proof.
  intros Hr. split; [apply addr_hash_find_generic, Hr|by apply (addr_hash_find_spec p t F C X)].
Qed.

Example addr_hash_find_is_hash_find_witness :
  addr_hash_find empty_pool addr_hash_create demo_pair =
    hash_find addr_hash_create (p_mem empty_pool) demo_pair /\
  addr_hash_find empty_pool addr_hash_create demo_pair =
    Some match first_match demo_pair (contents (nodes (p_mem empty_pool))
                 (concat (replicate (Z.to_nat hash_table_size) []))) with
         | Some r => (HASH_STATUS_OK, Some r)
         | None => (HASH_STATUS_KEY_NOT_FOUND, None)
         end.
Proof. apply (addr_hash_find_is_hash_find _ _ _ _ _ demo_pair addr_create_rep). Defined.
