(* ===== verification/History.v ===== *)
(** * Traffic history (src/entry/iftop.c, src/include/iftop.h)

    Each flow of the table [history] owns a [history_type]: two rings of
    [HISTORY_LENGTH] one-second byte counters, from a second block pool.
    [capture] holds the globals; [flow_record] and [account] are the two
    halves of the end of [handle_ip_packet]; [history_rotate] is called once
    per second.  The abstract state [flows] is a map from flows to histories;
    [cap_rep] relates the two and the run of the program refines the run of
    the specification. *)

From S2P Require Import Prelude Records Chain Hash Pool AddrHash.

Local Open Scope Z_scope.

Definition HISTORY_LENGTH : Z := 40.
Definition HISTORY_POOL_BLOCK : Z := 256.
Definition PROCINFO_NAME_MAX : Z := 64.

Abbreviation s64 := (swrap 64).

Record history_type := History {
  recv : list Z;
  sent : list Z;
  total_sent : Z;
  total_recv : Z;
  last_write : Z;
  proc_resolved : Z;
  proc_pid : Z;
  proc_name : string
}.

(** After [memset(hist, 0, sizeof *hist)]. *)
Definition zero_history : history_type :=
  let z := replicate (Z.to_nat HISTORY_LENGTH) 0 in History z z 0 0 0 0 0 "".

(** An item of the history pool: a history, or a word that links free items. *)
Inductive hcell :=
  | HLive (h : history_type)
  | HFree (next : option positive).

Definition hcell_next (c : hcell) : option positive :=
  match c with HFree q => q | HLive _ => None end.

Definition hcell_link (q : option positive) (c : hcell) : hcell := HFree q.

#[export] Instance hist_pool_item : PoolItem hcell_next hcell_link HFree HISTORY_POOL_BLOCK.
Proof. by split. Qed.

Record capture := Capture {
  nkp_pool : node_pool;
  history : hash_type addr_pair;
  hist_pool : pool hcell;
  history_totals : history_type;
  history_pos : Z;
  history_len : Z
}.

Definition with_cells (p : pool hcell) (cells : gmap positive hcell) : pool hcell :=
  Pool cells (p_brk p) (free_list p) (pool_blocks p).

Definition with_hist_pool (c : capture) (hp : pool hcell) : capture :=
  Capture (nkp_pool c) (history c) hp (history_totals c) (history_pos c) (history_len c).

Definition with_table_pool (c : capture) (p : node_pool)
    (t : hash_type addr_pair) : capture :=
  Capture p t (hist_pool c) (history_totals c) (history_pos c) (history_len c).

Definition init_history (p : node_pool) (hp : pool hcell) : capture :=
  Capture p addr_hash_create hp zero_history 0 1.

(** ** The pool of histories *)
Definition history_create (hp : pool hcell) : option (positive * pool hcell) :=
  '(hist, hp) ← item_alloc hcell_next HFree HISTORY_POOL_BLOCK hp;
  Some (hist, with_cells hp (<[hist := HLive zero_history]> (p_cells hp))).

Definition history_free (hp : pool hcell) (hist : positive) : option (pool hcell) :=
  item_free hcell_link hp hist.

Definition get_hist (hp : pool hcell) (hist : positive) : option history_type :=
  match p_cells hp !! hist with Some (HLive h) => Some h | _ => None end.

Definition set_hist (hp : pool hcell) (hist : positive) (h : history_type) : pool hcell :=
  with_cells hp (<[hist := HLive h]> (p_cells hp)).

(** ** Accounting a packet *)
Definition add_slot (l : list Z) (i len : Z) : option (list Z) :=
  x ← l !!z i; store_z l i (s64 (x + len)).

(** Add [len] bytes to slot [pos], as sent or received, with the totals. *)
Definition hist_add (h : history_type) (as_sent : bool) (pos len : Z) : option history_type :=
  if as_sent then
    l ← add_slot (sent h) pos len;
    Some (History (recv h) l (u64 (total_sent h + len)) (total_recv h) (last_write h)
            (proc_resolved h) (proc_pid h) (proc_name h))
  else
    l ← add_slot (recv h) pos len;
    Some (History l (sent h) (total_sent h) (u64 (total_recv h + len)) (last_write h)
            (proc_resolved h) (proc_pid h) (proc_name h)).

Definition set_last_write (h : history_type) (pos : Z) : history_type :=
  History (recv h) (sent h) (total_sent h) (total_recv h) pos
    (proc_resolved h) (proc_pid h) (proc_name h).

(** The owning process, when the lookup at flow creation found one. *)
Definition set_proc (h : history_type) (proc : option (Z * string)) : history_type :=
  match proc with
  | None => h
  | Some (pid, name) =>
      History (recv h) (sent h) (total_sent h) (total_recv h) (last_write h) 1 pid
        (String.substring 0 (Z.to_nat (PROCINFO_NAME_MAX - 1)) name)
  end.

(** The record of a flow, created on its first packet. *)
Definition flow_record (c : capture) (ap : addr_pair) (proc : option (Z * string)) :
    option (positive * capture) :=
  '(st, r) ← addr_hash_find (nkp_pool c) (history c) ap;
  match st, r with
  | HASH_STATUS_OK, Some hist => Some (hist, c)
  | _, _ =>
      '(hist, hp) ← history_create (hist_pool c);
      '(_, p, t) ← addr_hash_insert (nkp_pool c) (history c) ap hist;
      h ← get_hist hp hist;
      Some (hist, with_table_pool (with_hist_pool c (set_hist hp hist (set_proc h proc))) p t)
  end.

(** "Update record" and "Update totals" of handle_ip_packet. *)
Definition account (c : capture) (hist : positive) (len : Z) (as_sent direction : bool) :
    option capture :=
  h ← get_hist (hist_pool c) hist;
  h ← hist_add (set_last_write h (history_pos c)) as_sent (history_pos c) len;
  tot ← hist_add (history_totals c) direction (history_pos c) len;
  Some (Capture (nkp_pool c) (history c) (set_hist (hist_pool c) hist h) tot
          (history_pos c) (history_len c)).

Definition packet_seen (c : capture) (ap : addr_pair) (proc : option (Z * string)) (len : Z)
    (as_sent direction : bool) : option capture :=
  '(hist, c) ← flow_record c ap proc;
  account c hist len as_sent direction.

(** ** Rotation *)
Definition zero_slot (h : history_type) (pos : Z) : option history_type :=
  r ← store_z (recv h) pos 0;
  s ← store_z (sent h) pos 0;
  Some (History r s (total_sent h) (total_recv h) (last_write h)
          (proc_resolved h) (proc_pid h) (proc_name h)).

Fixpoint rotate_loop (fuel : nat) (c : capture) (node : option positive) : option capture :=
  match fuel with
  | O => None
  | S fuel =>
      match node with
      | None => Some c
      | Some n =>
          nd ← nodes (p_mem (nkp_pool c)) !! n;
          h ← get_hist (hist_pool c) (n_record nd);
          '(_, next) ← hash_next_item (history c) (p_mem (nkp_pool c)) (Some n);
          if last_write h =? history_pos c then
            '(p, t) ← addr_hash_delete_node (nkp_pool c) (history c) n;
            hp ← history_free (hist_pool c) (n_record nd);
            rotate_loop fuel (with_table_pool (with_hist_pool c hp) p t) next
          else
            h ← zero_slot h (history_pos c);
            rotate_loop fuel (with_hist_pool c (set_hist (hist_pool c) (n_record nd) h)) next
      end
  end.

Definition history_rotate (c : capture) : option capture :=
  let pos := Z.rem (history_pos c + 1) HISTORY_LENGTH in
  let c := Capture (nkp_pool c) (history c) (hist_pool c) (history_totals c) pos (history_len c) in
  '(_, node) ← hash_next_item (history c) (p_mem (nkp_pool c)) None;
  c ← rotate_loop (S (size (nodes (p_mem (nkp_pool c))))) c node;
  tot ← zero_slot (history_totals c) pos;
  Some (Capture (nkp_pool c) (history c) (hist_pool c) tot pos
          (if history_len c <? HISTORY_LENGTH then history_len c + 1 else history_len c)).

(** ** The loop of a reader of the table: the flows and their histories *)
Fixpoint read_nodes (c : capture) (l : list positive) : option (list (addr_pair * history_type)) :=
  match l with
  | [] => Some []
  | n :: l =>
      nd ← nodes (p_mem (nkp_pool c)) !! n;
      h ← get_hist (hist_pool c) (n_record nd);
      rest ← read_nodes c l;
      Some ((n_key nd, h) :: rest)
  end.

Definition flow_list (c : capture) : option (list (addr_pair * history_type)) :=
  l ← hash_iterate (S (size (nodes (p_mem (nkp_pool c))))) (history c) (p_mem (nkp_pool c)) None;
  read_nodes c l.

(** ** Specification: a map from flows to histories *)
Record flows := Flows {
  f_map : gmap addr_pair history_type;
  f_totals : history_type;
  f_pos : Z;
  f_len : Z
}.

Definition abs_add (h : history_type) (as_sent : bool) (pos len : Z) : history_type :=
  let bump := alter (fun x => s64 (x + len)) (Z.to_nat pos) in
  if as_sent then
    History (recv h) (bump (sent h)) (u64 (total_sent h + len)) (total_recv h) (last_write h)
      (proc_resolved h) (proc_pid h) (proc_name h)
  else
    History (bump (recv h)) (sent h) (total_sent h) (u64 (total_recv h + len)) (last_write h)
      (proc_resolved h) (proc_pid h) (proc_name h).

Definition abs_zero (h : history_type) (pos : Z) : history_type :=
  History (<[Z.to_nat pos := 0]> (recv h)) (<[Z.to_nat pos := 0]> (sent h))
    (total_sent h) (total_recv h) (last_write h) (proc_resolved h) (proc_pid h) (proc_name h).

Definition abs_packet (f : flows) (ap : addr_pair) (proc : option (Z * string)) (len : Z)
    (as_sent direction : bool) : flows :=
  let h := default (set_proc zero_history proc) (f_map f !! ap) in
  Flows (<[ap := abs_add (set_last_write h (f_pos f)) as_sent (f_pos f) len]> (f_map f))
    (abs_add (f_totals f) direction (f_pos f) len) (f_pos f) (f_len f).

(** A flow last written [HISTORY_LENGTH] rotations ago is dropped; the others
    lose their oldest slot. *)
Definition expire (pos : Z) (h : history_type) : option history_type :=
  if last_write h =? pos then None else Some (abs_zero h pos).

Definition abs_rotate (f : flows) : flows :=
  let pos := (f_pos f + 1) mod HISTORY_LENGTH in
  Flows (omap (expire pos) (f_map f)) (abs_zero (f_totals f) pos) pos
    (Z.min (f_len f + 1) HISTORY_LENGTH).

Definition abs_init : flows := Flows ∅ zero_history 0 1.

(** ** Histories keep their shape *)
Definition hist_wf (h : history_type) : Prop :=
  Z.of_nat (length (recv h)) = HISTORY_LENGTH /\ Z.of_nat (length (sent h)) = HISTORY_LENGTH.

Definition slot_ok (pos : Z) : Prop := 0 <= pos < HISTORY_LENGTH.

Record flows_wf (f : flows) : Prop := FlowsWf {
  fw_map k h : f_map f !! k = Some h -> hist_wf h;
  fw_totals : hist_wf (f_totals f);
  fw_pos : slot_ok (f_pos f);
  fw_len : 1 <= f_len f <= HISTORY_LENGTH
}.

Lemma zero_history_wf : hist_wf zero_history.
Proof. done. Qed.

Lemma set_proc_wf h proc : hist_wf h -> hist_wf (set_proc h proc).
Proof. by destruct proc as [[]|]. Qed.

Lemma set_last_write_wf h pos : hist_wf h -> hist_wf (set_last_write h pos).
Proof. done. Qed.

Lemma abs_add_wf h b pos len : hist_wf h -> hist_wf (abs_add h b pos len).
Proof. intros []. destruct b; split; simpl; by rewrite ?length_alter. Qed.

Lemma abs_zero_wf h pos : hist_wf h -> hist_wf (abs_zero h pos).
Proof. intros []. split; simpl; by rewrite length_insert. Qed.

#[export] Hint Resolve zero_history_wf set_proc_wf set_last_write_wf abs_add_wf abs_zero_wf : iftop_db.

Lemma add_slot_spec l i len :
  0 <= i < Z.of_nat (length l) ->
  add_slot l i len = Some (alter (fun x => s64 (x + len)) (Z.to_nat i) l).
Proof.
  intros Hi. unfold add_slot. destruct (proj2 (lookup_z_lt_is_Some l i) Hi) as [x Hx].
  rewrite Hx. simpl. apply store_z_Some. split; [done|].
  apply lookup_z_Some in Hx as [_ Hx]. apply list_eq. intros j.
  destruct (decide (j = Z.to_nat i)) as [->|].
  - rewrite list_lookup_alter_eq, Hx. simpl.
    rewrite list_lookup_insert_eq; [done|by eapply lookup_lt_Some].
  - by rewrite list_lookup_alter_ne, list_lookup_insert_ne by done.
Qed.

Lemma hist_add_spec h b pos len :
  hist_wf h -> slot_ok pos -> hist_add h b pos len = Some (abs_add h b pos len).
Proof.
  intros [Hr Hs] Hp. unfold slot_ok in Hp. unfold hist_add, abs_add.
  destruct b; rewrite add_slot_spec by lia; done.
Qed.

Lemma zero_slot_spec h pos :
  hist_wf h -> slot_ok pos -> zero_slot h pos = Some (abs_zero h pos).
Proof.
  intros [Hr Hs] Hp. unfold slot_ok in Hp. unfold zero_slot.
  assert (forall l, Z.of_nat (length l) = HISTORY_LENGTH ->
    store_z l pos 0 = Some (<[Z.to_nat pos := 0]> l)) as E.
  { intros l Hl. apply store_z_Some. split; [lia|done]. }
  rewrite !E by done. done.
Qed.

Lemma next_pos_ok pos : slot_ok ((pos + 1) mod HISTORY_LENGTH).
Proof. apply Z.mod_pos_bound. done. Qed.

Lemma abs_packet_wf f ap proc len b d : flows_wf f -> flows_wf (abs_packet f ap proc len b d).
Proof.
  intros [Hm Ht Hp Hl]. split; simpl; [|by auto with iftop_db|done|done].
  intros k h. rewrite lookup_insert. case_decide; [|apply Hm]. intros [= <-].
  apply abs_add_wf, set_last_write_wf.
  destruct (f_map f !! ap) eqn:E; simpl; [eauto|auto with iftop_db].
Qed.

Lemma abs_rotate_wf f : flows_wf f -> flows_wf (abs_rotate f).
Proof.
  intros [Hm Ht Hp Hl]. split; simpl; [|by auto with iftop_db|apply next_pos_ok|lia].
  intros k h. rewrite lookup_omap. intros (h0 & E & Hh)%bind_Some.
  unfold expire in Hh. destruct (_ =? _); simplify_eq. eauto with iftop_db.
Qed.

Lemma abs_init_wf : flows_wf abs_init.
Proof. split; simpl; [|done..]. intros k h. by rewrite lookup_empty. Qed.

(** ** Representation *)

(** [X] lists the live nodes of the other tables on the node pool. *)
Definition bindings (c : capture) (C : list (list positive)) : list (addr_pair * positive) :=
  contents (nodes (p_mem (nkp_pool c))) (concat C).

Record cap_rep (c : capture) (f : flows) (F : list positive) (C : list (list positive))
    (HF X : list positive) : Prop := CapRep {
  cr_ah : ah_rep (nkp_pool c) (history c) F C X;
  cr_hp : Pool.pool_ok hcell_next HISTORY_POOL_BLOCK (hist_pool c) HF (bindings c C).*2;
  cr_cells : cells_rep HLive (bindings c C) (p_cells (hist_pool c)) (f_map f);
  cr_totals : history_totals c = f_totals f;
  cr_pos : history_pos c = f_pos f;
  cr_len : history_len c = f_len f
}.

Lemma get_hist_live hp r h : p_cells hp !! r = Some (HLive h) -> get_hist hp r = Some h.
Proof. intros E. unfold get_hist. by rewrite E. Qed.

(** Writing a live history keeps the pool well formed. *)
Lemma set_hist_pool hp HF live r h :
  Pool.pool_ok hcell_next HISTORY_POOL_BLOCK hp HF live -> r ∈ live ->
  Pool.pool_ok hcell_next HISTORY_POOL_BLOCK (set_hist hp r h) HF live.
Proof.
  intros Hp Hr. pose proof (pool_nodup _ _ _ _ _ Hp) as Hnd.
  apply NoDup_app in Hnd as (_ & Hd & _). apply (pool_ok_eq _ _ hp); [done..| |].
  - intros x Hx. simpl. rewrite lookup_insert_ne; [done|]. intros <-. by apply (Hd r).
  - intros x. simpl. rewrite lookup_insert_is_Some, (pool_part _ _ _ _ _ Hp).
    destruct (decide (r = x)) as [<-|]; [|naive_solver]. clear -Hr. set_solver.
Qed.

Lemma history_create_spec hp HF live :
  Pool.pool_ok hcell_next HISTORY_POOL_BLOCK hp HF live ->
  exists r hp' HF', history_create hp = Some (r, hp') /\
    Pool.pool_ok hcell_next HISTORY_POOL_BLOCK hp' HF' (r :: live) /\ r ∉ live /\
    get_hist hp' r = Some zero_history /\
    (forall x, x ∈ live -> p_cells hp' !! x = p_cells hp !! x).
Proof.
  intros Hp. unfold history_create.
  destruct (item_alloc_spec hcell_next hcell_link HFree HISTORY_POOL_BLOCK hp HF live Hp)
    as (r & hp1 & HF1 & -> & Hp1 & _ & Hs). cbn [mbind option_bind].
  assert (r ∉ live) as Hr.
  { pose proof (pool_nodup _ _ _ _ _ Hp1) as Hnd. apply NoDup_app in Hnd as (_ & _ & Hnd).
    by apply NoDup_cons in Hnd as [? _]. }
  eexists r, _, HF1. split; [done|]. split_and!; [|done|..].
  - apply set_hist_pool; [done|set_solver].
  - apply get_hist_live, lookup_insert_eq.
  - intros x Hx. simpl. rewrite lookup_insert_ne by (intros <-; done). by apply Hs.
Qed.

Lemma history_free_spec hp HF r live :
  Pool.pool_ok hcell_next HISTORY_POOL_BLOCK hp HF (r :: live) ->
  exists hp', history_free hp r = Some hp' /\
    Pool.pool_ok hcell_next HISTORY_POOL_BLOCK hp' (r :: HF) live /\
    (forall x, x <> r -> p_cells hp' !! x = p_cells hp !! x).
Proof.
  intros Hp.
  destruct (item_free_spec hcell_next hcell_link HFree HISTORY_POOL_BLOCK hp HF r live Hp)
    as (hp' & nd & _ & Hf & Hp' & _ & _ & Hs). by exists hp'.
Qed.

(** ** A packet *)

(** Looking a flow up gives its binding; a missing flow gets one. *)
Lemma flow_record_spec c f F C HF X ap proc :
  cap_rep c f F C HF X ->
  exists r c' F' C' HF' h,
    flow_record c ap proc = Some (r, c') /\ (ap, r) ∈ bindings c' C' /\
    h = default (set_proc zero_history proc) (f_map f !! ap) /\
    cap_rep c' (Flows (<[ap := h]> (f_map f)) (f_totals f) (f_pos f) (f_len f)) F' C' HF' X /\
    (forall x, x ∈ X -> nodes (p_mem (nkp_pool c')) !! x = nodes (p_mem (nkp_pool c)) !! x).
Proof.
  intros Hc. pose proof Hc as [Ha Hp Hm Ht Hpos Hlen]. unfold flow_record.
  rewrite (addr_hash_find_spec _ _ _ _ _ ap Ha). cbn [mbind option_bind].
  fold (bindings c C). destruct (first_match ap (bindings c C)) as [r|] eqn:Hf.
  - apply first_match_elem in Hf; [|apply Hm].
    destruct (cl_live _ _ _ Hm _ _ Hf) as (h & Hh & Hmh).
    exists r, c, F, C, HF, h. split_and!; [done|done|by rewrite Hmh| |done].
    destruct f as [fm ft fp fl]. simpl in *. by rewrite insert_id.
  - apply first_match_None in Hf.
    destruct (history_create_spec _ _ _ Hp) as (r & hp & HF' & -> & Hp' & Hr & Hg & Hs).
    cbn [mbind option_bind].
    destruct (addr_hash_insert_spec _ _ _ _ _ ap r Ha)
      as (n & p & t & F' & C' & -> & Ha' & _ & _ & _ & Hpush & HX). cbn [mbind option_bind].
    rewrite Hg. cbn [mbind option_bind].
    set (h := set_proc zero_history proc). apply pushed_perm in Hpush. fold (bindings c C) in Hpush.
    assert (bindings (with_table_pool (with_hist_pool c (set_hist hp r h)) p t) C'
      ≡ₚ (ap, r) :: bindings c C) as Hb by done.
    eexists r, _, F', C', HF', h. split; [done|]. split_and!.
    + rewrite Hb. set_solver.
    + unfold h. by rewrite (cells_rep_absent _ _ _ _ Hm Hf).
    + constructor; try done.
      * apply pool_ok_perm with ((ap, r) :: bindings c C).*2; [by rewrite Hb|].
        apply set_hist_pool; [done|set_solver].
      * apply (cells_rep_perm ((ap, r) :: bindings c C)); [done|].
        apply (cells_rep_insert _ (p_cells hp)); [|done|done].
        by apply (cells_rep_frame _ (p_cells (hist_pool c))).
    + intros x Hx. apply HX. set_solver.
Qed.

Lemma account_spec c f F C HF X k r h len b d :
  cap_rep c f F C HF X -> flows_wf f -> (k, r) ∈ bindings c C -> f_map f !! k = Some h ->
  exists c', account c r len b d = Some c' /\
    cap_rep c' (Flows (<[k := abs_add (set_last_write h (f_pos f)) b (f_pos f) len]> (f_map f))
                  (abs_add (f_totals f) d (f_pos f) len) (f_pos f) (f_len f)) F C HF X /\
    nkp_pool c' = nkp_pool c.
Proof.
  intros [Ha Hp Hm Ht Hpos Hlen] Hw Hin Hk. unfold account.
  destruct (cl_live _ _ _ Hm _ _ Hin) as (h' & Hh & Hk'). simplify_eq.
  rewrite (get_hist_live _ _ _ Hh). cbn [mbind option_bind]. rewrite Hpos, Ht.
  rewrite (hist_add_spec (set_last_write h (f_pos f)));
    [|exact (fw_map f Hw k h Hk)|apply Hw]. cbn [mbind option_bind].
  rewrite hist_add_spec by apply Hw. cbn [mbind option_bind].
  eexists. split; [done|]. split; [|done]. constructor; simpl; try done.
  - apply set_hist_pool; [done|by eapply elem_of_recs].
  - by apply cells_rep_update.
Qed.

Lemma packet_seen_spec c f F C HF X ap proc len b d :
  cap_rep c f F C HF X -> flows_wf f ->
  exists c' F' C' HF', packet_seen c ap proc len b d = Some c' /\
    cap_rep c' (abs_packet f ap proc len b d) F' C' HF' X /\
    (forall x, x ∈ X -> nodes (p_mem (nkp_pool c')) !! x = nodes (p_mem (nkp_pool c)) !! x).
Proof.
  intros Hc Hw. unfold packet_seen.
  destruct (flow_record_spec _ _ _ _ _ _ ap proc Hc)
    as (r & c1 & F1 & C1 & HF1 & h & -> & Hin & Eh & Hc1 & HX). cbn [mbind option_bind].
  edestruct (account_spec c1 _ F1 C1 HF1 X ap r h len b d Hc1) as (c2 & E2 & Hc2 & En).
  - destruct Hw as [Hwm Hwt Hwp Hwl]. split; simpl; [|done..].
    intros k h'. rewrite lookup_insert. case_decide; [|apply Hwm]. intros [= <-]. subst h.
    destruct (f_map f !! ap) eqn:E; simpl; [eauto|auto with iftop_db].
  - done.
  - simpl. by rewrite lookup_insert_eq.
  - exists c2, F1, C1, HF1. split; [done|]. simpl in Hc2. rewrite insert_insert_eq in Hc2.
    unfold abs_packet. rewrite <- Eh. split; [done|]. by rewrite En.
Qed.

(** ** Rotation *)
Definition expire_key (pos : Z) (m : gmap addr_pair history_type) (k : addr_pair) :
    gmap addr_pair history_type :=
  partial_alter (fun o => o ≫= expire pos) k m.

Lemma expire_keys pos ks m :
  NoDup ks -> (forall k, is_Some (m !! k) -> k ∈ ks) -> foldl (expire_key pos) m ks = omap (expire pos) m.
Proof.
  intros Hnd Hdom.
  assert (forall m j, foldl (expire_key pos) m ks !! j =
    if decide (j ∈ ks) then m !! j ≫= expire pos else m !! j) as E.
  { clear m Hdom. induction Hnd as [|k ks Hk Hnd IH]; intros m j.
    { by rewrite decide_False by set_solver. }
    simpl. rewrite IH. unfold expire_key. destruct (decide (j = k)) as [->|Hne].
    - rewrite decide_False, lookup_partial_alter_eq by done. by rewrite decide_True by set_solver.
    - rewrite lookup_partial_alter_ne by done.
      destruct (decide (j ∈ ks)), (decide (j ∈ k :: ks)); set_solver. }
  apply map_eq. intros j. rewrite E, lookup_omap. case_decide as Hj; [done|].
  destruct (m !! j) eqn:Em; [|done]. destruct Hj. eauto.
Qed.

Lemma expire_wf pos h h' : hist_wf h -> expire pos h = Some h' -> hist_wf h'.
Proof. unfold expire. destruct (_ =? _); intros Hw [= <-]. by apply abs_zero_wf. Qed.

Lemma bindings_split c C L1 x L2 nd :
  concat C = L1 ++ x :: L2 -> nodes (p_mem (nkp_pool c)) !! x = Some nd ->
  bindings c C ≡ₚ (n_key nd, n_record nd) ::
    contents (nodes (p_mem (nkp_pool c))) (L1 ++ L2).
Proof.
  intros E Hx. unfold bindings. rewrite E, !contents_app, (contents_cons _ x nd) by done.
  symmetry. apply Permutation_middle.
Qed.

(** One node of the loop: kept with its slot cleared, or dropped. *)
Definition map_ok (f : flows) : Prop :=
  slot_ok (f_pos f) /\ forall k h, f_map f !! k = Some h -> hist_wf h.

Definition with_map (f : flows) (m : gmap addr_pair history_type) : flows :=
  Flows m (f_totals f) (f_pos f) (f_len f).

Definition rotate_node (c : capture) (n : positive) : option capture :=
  nd ← nodes (p_mem (nkp_pool c)) !! n;
  h ← get_hist (hist_pool c) (n_record nd);
  if last_write h =? history_pos c then
    '(p, t) ← addr_hash_delete_node (nkp_pool c) (history c) n;
    hp ← history_free (hist_pool c) (n_record nd);
    Some (with_table_pool (with_hist_pool c hp) p t)
  else
    h ← zero_slot h (history_pos c);
    Some (with_hist_pool c (set_hist (hist_pool c) (n_record nd) h)).

Lemma rotate_loop_step fuel c n st next :
  hash_next_item (history c) (p_mem (nkp_pool c)) (Some n) = Some (st, next) ->
  rotate_loop (S fuel) c (Some n) = c' ← rotate_node c n; rotate_loop fuel c' next.
Proof.
  intros Hn. cbn [rotate_loop]. unfold rotate_node. rewrite Hn.
  destruct (nodes (p_mem (nkp_pool c)) !! n) as [nd|]; cbn [mbind option_bind]; [|done].
  destruct (get_hist _ _) as [h|]; cbn [mbind option_bind]; [|done].
  destruct (_ =? _).
  - destruct (addr_hash_delete_node _ _ _) as [[p t]|]; cbn [mbind option_bind]; [|done].
    by destruct (history_free _ _).
  - by destruct (zero_slot _ _).
Qed.

Lemma rotate_node_spec c f F C HF X L1 x L2 :
  cap_rep c f F C HF X -> map_ok f -> concat C = L1 ++ x :: L2 ->
  exists nd c' F' C' HF' L1', nodes (p_mem (nkp_pool c)) !! x = Some nd /\
    rotate_node c x = Some c' /\ concat C' = L1' ++ L2 /\
    cap_rep c' (with_map f (expire_key (f_pos f) (f_map f) (n_key nd))) F' C' HF' X /\
    (forall z, payload <$> nodes (p_mem (nkp_pool c')) !! z =
               payload <$> nodes (p_mem (nkp_pool c)) !! z) /\
    (forall z, z ∈ X -> nodes (p_mem (nkp_pool c')) !! z = nodes (p_mem (nkp_pool c)) !! z) /\
    bindings c' C' ⊆ bindings c C.
Proof.
  intros Hc [Hpok Hw] E. pose proof Hc as [Ha Hp Hm Ht Hpos Hlen].
  destruct (rep_position (fun _ => True) _ _ C L1 x L2 (ah_hash _ _ _ _ _ Ha) E)
    as (_ & _ & _ & nd & _ & Hx & _).
  pose proof (bindings_split c C L1 x L2 nd E Hx) as Hb.
  assert ((n_key nd, n_record nd) ∈ bindings c C) as Hin by (rewrite Hb; set_solver).
  destruct (cl_live _ _ _ Hm _ _ Hin) as (h & Hh & Hmh).
  exists nd. unfold rotate_node. rewrite Hx. cbn [mbind option_bind].
  rewrite (get_hist_live _ _ _ Hh). cbn [mbind option_bind]. rewrite Hpos.
  destruct (Z.eqb_spec (last_write h) (f_pos f)) as [El|El].
  - destruct (addr_hash_delete_node_spec _ _ _ _ _ L1 x L2 Ha E)
      as (p & t & C' & -> & Ha' & E' & Hpay & HX). cbn [mbind option_bind].
    set (L' := contents (nodes (p_mem (nkp_pool c))) (L1 ++ L2)) in Hb.
    apply (pool_ok_perm _ _ _ _ _ ((n_key nd, n_record nd) :: L').*2) in Hp; [|by rewrite Hb].
    csimpl in Hp.
    destruct (history_free_spec _ _ _ _ Hp) as (hp & -> & Hp' & Hs). cbn [mbind option_bind].
    assert (bindings (with_table_pool (with_hist_pool c hp) p t) C' = L') as Hb'.
    { unfold bindings, L'. simpl. rewrite E'. by apply (contents_payload (fun _ => True)). }
    eexists _, (x :: F), C', _, L1. split_and!; [done|done|done| |done|done|rewrite Hb', Hb; set_solver].
    apply (cells_rep_perm _ _ _ _ Hb) in Hm. pose proof (cl_recs _ _ _ Hm) as Hnd.
    csimpl in Hnd. apply NoDup_cons in Hnd as [Hnr _].
    constructor; simpl; [done|by rewrite Hb'| |done..]. rewrite Hb'.
    replace (expire_key _ _ _) with (delete (n_key nd) (f_map f)).
    { apply (cells_rep_delete _ (p_cells (hist_pool c)) _ _ _ (n_record nd)); [done|].
      intros r' Hr'. apply Hs. intros ->. done. }
    apply map_eq. intros j. unfold expire_key. destruct (decide (j = n_key nd)) as [->|].
    + rewrite lookup_delete_eq, lookup_partial_alter_eq, Hmh. simpl. unfold expire.
      by rewrite (proj2 (Z.eqb_eq _ _) El).
    + by rewrite lookup_delete_ne, lookup_partial_alter_ne by done.
  - rewrite zero_slot_spec by eauto. cbn [mbind option_bind].
    eexists _, F, C, HF, (L1 ++ [x]). split_and!; [done|done|by rewrite <- app_assoc| |done..].
    constructor; simpl; [done|apply set_hist_pool; [done|by eapply elem_of_recs]| |done..].
    replace (expire_key _ _ _) with (<[n_key nd := abs_zero h (f_pos f)]> (f_map f)).
    { by apply cells_rep_update. }
    apply map_eq. intros j. unfold expire_key. destruct (decide (j = n_key nd)) as [->|].
    + rewrite lookup_insert_eq, lookup_partial_alter_eq, Hmh. simpl. unfold expire.
      by rewrite (proj2 (Z.eqb_neq _ _) El).
    + by rewrite lookup_insert_ne, lookup_partial_alter_ne by done.
Qed.

Lemma rotate_loop_spec X L2 L1 c f F C HF fuel :
  cap_rep c f F C HF X -> map_ok f -> concat C = L1 ++ L2 -> (length L2 < fuel)%nat ->
  exists c' F' C' HF', rotate_loop fuel c (head L2) = Some c' /\
    cap_rep c' (with_map f (foldl (expire_key (f_pos f)) (f_map f)
                              (contents (nodes (p_mem (nkp_pool c))) L2).*1)) F' C' HF' X /\
    (forall z, z ∈ X -> nodes (p_mem (nkp_pool c')) !! z = nodes (p_mem (nkp_pool c)) !! z) /\
    bindings c' C' ⊆ bindings c C.
Proof.
  revert L1 c f F C HF fuel. induction L2 as [|x L2 IH]; intros L1 c f F C HF [|fuel] Hc Hok E Hf;
    try (simpl in Hf; lia).
  { exists c, F, C, HF. split_and!; [done| |done..]. by destruct f. }
  destruct (rotate_node_spec c f F C HF X L1 x L2 Hc Hok E)
    as (nd & c1 & F1 & C1 & HF1 & L1' & Hx & Hn & E1 & Hc1 & Hpay & HX1 & Hb1).
  change (head (x :: L2)) with (Some x). erewrite rotate_loop_step.
  2:{ rewrite (hash_next_item_next (fun _ => True) _ _ C L1 x L2); [|apply Hc|done].
      apply f_equal, surjective_pairing. }
  rewrite Hn. cbn [mbind option_bind].
  replace (next_result L2).2 with (head L2) by (by destruct L2).
  destruct (IH L1' c1 _ F1 C1 HF1 fuel Hc1) as (c2 & F2 & C2 & HF2 & Hr & Hc2 & HX2 & Hb2).
  - destruct Hok as [Hpok Hw]. split; [done|]. intros k h. simpl. unfold expire_key.
    rewrite lookup_partial_alter. case_decide; [|apply Hw]. subst k.
    intros (h0 & Hh0 & Hex)%bind_Some. eapply expire_wf; [|done]. by eapply Hw.
  - done.
  - simpl in Hf. lia.
  - exists c2, F2, C2, HF2. split; [done|]. split.
    + rewrite (contents_cons _ _ _ _ Hx). csimpl.
      rewrite (contents_payload (fun _ => True) (nodes (p_mem (nkp_pool c)))
        (nodes (p_mem (nkp_pool c1)))) in Hc2; done.
    + split; [intros z Hz; rewrite HX2 by done; by apply HX1|]. by etransitivity.
Qed.

Lemma history_rotate_spec c f F C HF X :
  cap_rep c f F C HF X -> flows_wf f ->
  exists c' F' C' HF', history_rotate c = Some c' /\ cap_rep c' (abs_rotate f) F' C' HF' X /\
    (forall z, z ∈ X -> nodes (p_mem (nkp_pool c')) !! z = nodes (p_mem (nkp_pool c)) !! z) /\
    bindings c' C' ⊆ bindings c C.
Proof.
  intros [Ha Hp Hm Ht Hpos Hlen] Hw. unfold history_rotate. rewrite Hpos.
  pose proof (fw_pos _ Hw) as Hpo. unfold slot_ok in Hpo.
  rewrite Z.rem_mod_nonneg by (unfold HISTORY_LENGTH in *; lia).
  set (pos := (f_pos f + 1) mod HISTORY_LENGTH).
  set (c0 := Capture _ _ _ _ pos _). cbv zeta.
  assert (cap_rep c0 (Flows (f_map f) (f_totals f) pos (f_len f)) F C HF X) as Hc0 by done.
  rewrite (hash_next_item_first (fun _ => True) _ _ C) by apply Hc0.
  replace (next_result (concat C)) with ((next_result (concat C)).1, head (concat C))
    by (by destruct (concat C)). cbn [mbind option_bind].
  destruct (rotate_loop_spec X (concat C) [] c0 _ F C HF (S (size (nodes (p_mem (nkp_pool c0)))))
    Hc0) as (c1 & F1 & C1 & HF1 & -> & Hc1 & HX & Hb).
  - split; [apply next_pos_ok|apply Hw].
  - done.
  - apply Nat.lt_succ_r, NoDup_length_le_size; [apply (ah_hash _ _ _ _ _ Ha)|].
    intros x (i & l & Hi & Hx)%elem_of_concat. eapply (rep_in (fun _ => True)); [|done|done]. apply Ha.
  - cbn [mbind option_bind]. destruct Hc1 as [Ha1 Hp1 Hm1 Ht1 Hpos1 Hlen1]. simpl in *. rewrite Ht1.
    rewrite zero_slot_spec by (apply next_pos_ok || apply Hw). cbn [mbind option_bind].
    eexists _, F1, C1, HF1. split; [done|]. split; [|done].
    rewrite expire_keys in Hm1; [|apply Hm|apply Hm].
    constructor; simpl; [done..| |done|].
    + done.
    + rewrite Hlen1. pose proof (fw_len _ Hw). destruct (Z.ltb_spec (f_len f) HISTORY_LENGTH); lia.
Qed.

(** ** Runs *)
Inductive event :=
  | EPacket (ap : addr_pair) (proc : option (Z * string)) (len : Z) (as_sent direction : bool)
  | ERotate.

Definition cap_step (e : event) (c : capture) : option capture :=
  match e with
  | EPacket ap proc len b d => packet_seen c ap proc len b d
  | ERotate => history_rotate c
  end.

Fixpoint cap_run (es : list event) (c : capture) : option capture :=
  match es with
  | [] => Some c
  | e :: es => c ← cap_step e c; cap_run es c
  end.

Definition abs_step (f : flows) (e : event) : flows :=
  match e with
  | EPacket ap proc len b d => abs_packet f ap proc len b d
  | ERotate => abs_rotate f
  end.

Definition abs_run (es : list event) (f : flows) : flows := foldl abs_step f es.

Definition cap_init : capture := init_history empty_pool empty_pool.

Lemma cap_init_rep : cap_rep cap_init abs_init [] (replicate (Z.to_nat hash_table_size) []) [] [].
Proof.
  pose proof addr_create_rep as Hr.
  assert (bindings cap_init (replicate (Z.to_nat hash_table_size) []) = []) as E
    by (unfold bindings; by rewrite concat_replicate_nil).
  constructor; [done|rewrite E|rewrite E|done..].
  - exact (empty_pool_ok hcell_next hcell_link HFree HISTORY_POOL_BLOCK).
  - apply CellsRep; [apply NoDup_nil_2|apply NoDup_nil_2| |].
    + intros k r Hin. by apply not_elem_of_nil in Hin.
    + intros k. change (f_map abs_init) with (∅ : gmap addr_pair history_type).
      rewrite lookup_empty. by intros [? ?].
Qed.

Lemma abs_step_wf f e : flows_wf f -> flows_wf (abs_step f e).
Proof. destruct e; [apply abs_packet_wf|apply abs_rotate_wf]. Qed.

Lemma cap_step_spec e c f F C HF X :
  cap_rep c f F C HF X -> flows_wf f ->
  exists c' F' C' HF', cap_step e c = Some c' /\ cap_rep c' (abs_step f e) F' C' HF' X.
Proof.
  intros Hc Hw. destruct e as [ap proc len b d|]; simpl.
  - destruct (packet_seen_spec c f F C HF X ap proc len b d Hc Hw)
      as (c' & F' & C' & HF' & ? & ? & _). eauto 6.
  - destruct (history_rotate_spec c f F C HF X Hc Hw) as (c' & F' & C' & HF' & ? & ? & _). eauto 6.
Qed.

Lemma cap_run_spec es c f F C HF X :
  cap_rep c f F C HF X -> flows_wf f ->
  exists c' F' C' HF', cap_run es c = Some c' /\ cap_rep c' (abs_run es f) F' C' HF' X /\
    flows_wf (abs_run es f).
Proof.
  revert c f F C HF. induction es as [|e es IH]; intros c f F C HF Hc Hw; simpl; [by eauto 8|].
  destruct (cap_step_spec e c f F C HF X Hc Hw) as (c1 & F1 & C1 & HF1 & -> & Hc1).
  simpl. eapply IH; [done|]. by apply abs_step_wf.
Qed.

Lemma read_nodes_spec c l m :
  cells_rep HLive (contents (nodes (p_mem (nkp_pool c))) l) (p_cells (hist_pool c)) m ->
  (forall x, x ∈ l -> is_Some (nodes (p_mem (nkp_pool c)) !! x)) ->
  exists r, read_nodes c l = Some r /\ r.*1 = (contents (nodes (p_mem (nkp_pool c))) l).*1 /\
    forall k h, (k, h) ∈ r -> m !! k = Some h.
Proof.
  intros Hm. assert (forall k r, (k, r) ∈ contents (nodes (p_mem (nkp_pool c))) l ->
    exists h, p_cells (hist_pool c) !! r = Some (HLive h) /\ m !! k = Some h) as Hl by apply Hm.
  clear Hm. induction l as [|x l IH]; intros Hx.
  { exists []. split_and!; [done|done|set_solver]. }
  destruct (Hx x) as [nd Hn]; [set_solver|]. rewrite (contents_cons _ _ _ _ Hn) in Hl |- *.
  cbn [read_nodes]. rewrite Hn. cbn [mbind option_bind].
  destruct (Hl (n_key nd) (n_record nd)) as (h & Hh & Hm); [set_solver|].
  rewrite (get_hist_live _ _ _ Hh). cbn [mbind option_bind].
  destruct IH as (r & -> & Hk & Hr); [set_solver|set_solver|].
  exists ((n_key nd, h) :: r). split_and!; [done|csimpl; by rewrite Hk|].
  intros k' h' [[= -> ->]|Hin]%elem_of_cons; auto.
Qed.

(** What a reader of the table sees is the abstract map. *)
Lemma flow_list_spec c f F C HF X :
  cap_rep c f F C HF X ->
  exists l, flow_list c = Some l /\ NoDup l.*1 /\ list_to_map l = f_map f.
Proof.
  intros [Ha Hp Hm Ht Hpos Hlen]. unfold flow_list.
  assert (forall x, x ∈ concat C -> is_Some (nodes (p_mem (nkp_pool c)) !! x)) as Halive.
  { intros x (i & l & Hi & Hx)%elem_of_concat.
    eapply (rep_in (fun _ => True)); [|done|done]. apply Ha. }
  rewrite (hash_iterate_spec (fun _ => True) _ _ C).
  2:{ apply Ha. }
  2:{ apply Nat.lt_succ_r, NoDup_length_le_size; [apply (ah_hash _ _ _ _ _ Ha)|done]. }
  cbn [mbind option_bind].
  destruct (read_nodes_spec c (concat C) (f_map f) Hm Halive) as (r & Hr & Hk & Hrm).
  fold (bindings c C) in Hk.
  assert (NoDup r.*1) as Hnd by (rewrite Hk; apply Hm).
  exists r. split_and!; [done|done|]. apply map_eq. intros k.
  destruct (f_map f !! k) as [h|] eqn:E.
  - apply elem_of_list_to_map; [done|].
    assert (k ∈ r.*1) as ([k' h'] & -> & Hin)%list_elem_of_fmap
      by (rewrite Hk; apply (cl_dom _ _ _ Hm); eauto).
    simpl in *. pose proof (Hrm _ _ Hin). by simplify_eq.
  - apply not_elem_of_list_to_map. rewrite Hk. intros Hin.
    apply list_elem_of_fmap in Hin as ([k' r'] & -> & Hin).
    destruct (cl_live _ _ _ Hm _ _ Hin) as (h & _ & ?). simpl in *. congruence.
Qed.

Lemma cap_run_init es :
  exists c l, cap_run es cap_init = Some c /\ flow_list c = Some l /\ NoDup l.*1 /\
    list_to_map l = f_map (abs_run es abs_init) /\
    history_totals c = f_totals (abs_run es abs_init) /\
    history_pos c = f_pos (abs_run es abs_init) /\ history_len c = f_len (abs_run es abs_init) /\
    flows_wf (abs_run es abs_init).
Proof.
  destruct (cap_run_spec es _ _ _ _ _ _ cap_init_rep abs_init_wf)
    as (c & F & C & HF & Hrun & Hc & Hw).
  destruct (flow_list_spec _ _ _ _ _ _ Hc) as (l & Hl & Hnd & Hm).
  exists c, l. split_and!; [done..| | | |done]; apply Hc.
Qed.

(** ** Conservation of bytes *)
Definition zget (l : list Z) (i : Z) : Z := default 0 (l !! Z.to_nat i).

(** Bytes in both directions in slot [i]. *)
Definition slot_bytes (i : Z) (h : history_type) : Z := zget (recv h) i + zget (sent h) i.

(** Rotations since slot [i] was current. *)
Definition age (pos i : Z) : Z := (pos - i) mod HISTORY_LENGTH.

Record balanced (f : flows) : Prop := Balanced {
  bal_last k h : f_map f !! k = Some h -> slot_ok (last_write h);
  bal_fresh k h i : f_map f !! k = Some h -> slot_ok i ->
    age (f_pos f) i < age (f_pos f) (last_write h) -> slot_bytes i h = 0;
  bal_sum i : slot_ok i ->
    u64 (msum (slot_bytes i) (f_map f)) = u64 (slot_bytes i (f_totals f))
}.

Lemma u64_s64 x : u64 (s64 x) = u64 x.
Proof.
  unfold uwrap, swrap. replace (64 - 1) with 63 by lia.
  rewrite Zminus_mod_idemp_l. f_equal. lia.
Qed.

Lemma u64_add a b : u64 (u64 a + u64 b) = u64 (a + b).
Proof. unfold uwrap. by rewrite <- Zplus_mod. Qed.

Lemma zget_alter l i pos len :
  Z.of_nat (length l) = HISTORY_LENGTH -> slot_ok pos -> slot_ok i ->
  zget (alter (fun x => s64 (x + len)) (Z.to_nat pos) l) i =
    if decide (i = pos) then s64 (zget l i + len) else zget l i.
Proof.
  unfold slot_ok, zget. intros Hl Hp Hi. case_decide; subst.
  - rewrite list_lookup_alter_eq. destruct (lookup_lt_is_Some_2 l (Z.to_nat pos)) as [x ->]; [lia|done].
  - by rewrite list_lookup_alter_ne by lia.
Qed.

Lemma slot_bytes_add i h b pos len :
  hist_wf h -> slot_ok pos -> slot_ok i ->
  u64 (slot_bytes i (abs_add h b pos len)) =
  u64 (slot_bytes i h + if decide (i = pos) then len else 0).
Proof.
  intros [Hr Hs] Hp Hi. unfold slot_bytes. destruct b; simpl; rewrite zget_alter by done;
    case_decide; rewrite ?Z.add_0_r; try done.
  - rewrite <- u64_add, u64_s64, u64_add. f_equal. lia.
  - rewrite <- u64_add, u64_s64, u64_add. f_equal. lia.
Qed.

Lemma slot_bytes_other i h b pos len :
  hist_wf h -> slot_ok pos -> slot_ok i -> i <> pos ->
  slot_bytes i (abs_add h b pos len) = slot_bytes i h.
Proof.
  intros [Hr Hs] Hp Hi Hne. unfold slot_bytes.
  destruct b; simpl; rewrite zget_alter by done; by rewrite decide_False.
Qed.

Lemma slot_bytes_zero i h pos :
  hist_wf h -> slot_ok pos -> slot_ok i ->
  slot_bytes i (abs_zero h pos) = if decide (i = pos) then 0 else slot_bytes i h.
Proof.
  intros [Hr Hs] Hp Hi. unfold slot_ok in *. unfold slot_bytes, zget. simpl. case_decide; subst.
  - rewrite !list_lookup_insert_eq by lia. done.
  - by rewrite !list_lookup_insert_ne by lia.
Qed.

Lemma slot_bytes_new i proc : slot_bytes i (set_proc zero_history proc) = 0.
Proof.
  assert (slot_bytes i (set_proc zero_history proc) = slot_bytes i zero_history) as ->
    by (by destruct proc as [[]|]).
  unfold slot_bytes, zget, zero_history. cbn [recv sent].
  destruct (replicate _ 0 !! Z.to_nat i) as [x|] eqn:E; [|done].
  by apply lookup_replicate in E as [-> _].
Qed.

Lemma age_self p : age p p = 0.
Proof. unfold age. by rewrite Z.sub_diag. Qed.

Lemma age_range p i : 0 <= age p i < HISTORY_LENGTH.
Proof. apply Z.mod_pos_bound. done. Qed.

Lemma age_zero p i : slot_ok p -> slot_ok i -> age p i = 0 -> i = p.
Proof.
  unfold slot_ok, age, HISTORY_LENGTH. intros Hp Hi Ha.
  apply Z.mod_divide in Ha as [q Hq]; [|done]. lia.
Qed.

(** A rotation makes every slot one older, and the oldest one current. *)
Lemma age_next p i :
  slot_ok p -> slot_ok i ->
  age ((p + 1) mod HISTORY_LENGTH) i =
    if decide (i = (p + 1) mod HISTORY_LENGTH) then 0 else age p i + 1.
Proof.
  intros Hp Hi. case_decide as E; [rewrite E; apply age_self|].
  unfold age in *. rewrite Zminus_mod_idemp_l.
  unfold slot_ok, HISTORY_LENGTH in *.
  replace (p + 1 - i) with ((p - i) + 1) by lia.
  rewrite <- Zplus_mod_idemp_l. apply Z.mod_small.
  pose proof (Z.mod_pos_bound (p - i) 40 ltac:(lia)).
  enough ((p - i) mod 40 <> 39) by lia. intros Eq. apply E.
  rewrite <- (Z.mod_small i 40) at 1 by lia.
  pose proof (Z.div_mod (p - i) 40 ltac:(lia)) as D. rewrite Eq in D.
  replace (p + 1) with (i + ((p - i) / 40 + 1) * 40) by lia. by rewrite Z_mod_plus_full.
Qed.

Lemma age_oldest p : slot_ok p -> age p ((p + 1) mod HISTORY_LENGTH) = HISTORY_LENGTH - 1.
Proof.
  intros Hp. unfold age. rewrite Zminus_mod_idemp_r.
  replace (p - (p + 1)) with (-1) by lia. done.
Qed.

Lemma u64_sub_add a b c : u64 (a - b + c) = u64 (u64 a + u64 (c - b)).
Proof. rewrite u64_add. f_equal. lia. Qed.

Lemma balanced_init : balanced abs_init.
Proof.
  split; simpl.
  - intros k h. by rewrite lookup_empty.
  - intros k h i. by rewrite lookup_empty.
  - intros i Hi. rewrite msum_empty. change zero_history with (set_proc zero_history None).
    by rewrite slot_bytes_new.
Qed.

Lemma balanced_packet f ap proc len b d :
  flows_wf f -> balanced f -> balanced (abs_packet f ap proc len b d).
Proof.
  intros Hw [Hl Hf Hs]. pose proof (fw_pos _ Hw) as Hp.
  set (h0 := default (set_proc zero_history proc) (f_map f !! ap)).
  assert (hist_wf h0 /\ forall i, slot_bytes i h0 = from_option (slot_bytes i) 0 (f_map f !! ap))
    as [Hw0 H0].
  { unfold h0. destruct (f_map f !! ap) as [h|] eqn:E; simpl; [split; [by eapply fw_map|done]|].
    split; [auto with iftop_db|intros i; apply slot_bytes_new]. }
  split; simpl; fold h0.
  - intros k h. rewrite lookup_insert. case_decide; [|apply Hl]. intros [= <-].
    by destruct b.
  - intros k h i. rewrite lookup_insert. case_decide; [|apply Hf]. intros [= <-] Hi Ha.
    assert (last_write (abs_add (set_last_write h0 (f_pos f)) b (f_pos f) len) = f_pos f) as E
      by (by destruct b).
    rewrite E, age_self in Ha. pose proof (age_range (f_pos f) i). lia.
  - intros i Hi. rewrite msum_upsert, <- H0.
    rewrite (slot_bytes_add i (f_totals f)) by (done || apply Hw).
    rewrite <- (u64_add (slot_bytes i (f_totals f))), <- Hs, u64_add by done.
    rewrite <- u64_add, slot_bytes_add, u64_add by done.
    change (slot_bytes i (set_last_write h0 (f_pos f))) with (slot_bytes i h0).
    f_equal. lia.
Qed.

Lemma expire_Some pos h h' : expire pos h = Some h' <-> last_write h <> pos /\ h' = abs_zero h pos.
Proof. unfold expire. destruct (Z.eqb_spec (last_write h) pos); naive_solver. Qed.

Lemma balanced_rotate f : flows_wf f -> balanced f -> balanced (abs_rotate f).
Proof.
  intros Hw [Hl Hf Hs]. pose proof (fw_pos _ Hw) as Hp.
  set (pos := (f_pos f + 1) mod HISTORY_LENGTH).
  assert (slot_ok pos) as Hp' by apply next_pos_ok.
  split; simpl; fold pos.
  - intros k h. rewrite lookup_omap. intros (h0 & E & [_ ->]%expire_Some)%bind_Some. exact (Hl k h0 E).
  - intros k h i. rewrite lookup_omap. intros (h0 & E & [Hne ->]%expire_Some)%bind_Some Hi Ha.
    rewrite slot_bytes_zero by (done || by eapply fw_map). case_decide; [done|].
    apply (Hf k h0 i E Hi). simpl in Ha. unfold pos in Ha.
    rewrite !age_next in Ha by (done || exact (Hl k h0 E)). fold pos in Ha.
    rewrite !decide_False in Ha by done. lia.
  - intros i Hi. rewrite msum_omap, slot_bytes_zero by (done || apply Hw). case_decide as Hip.
    + rewrite (msum_ext _ (fun _ => 0)).
      * unfold msum. by rewrite zsum_fmap_zero.
      * intros k h E. destruct (expire pos h) as [h'|] eqn:Hx; simpl; [|done].
        apply expire_Some in Hx as [_ ->]. rewrite slot_bytes_zero by (done || by eapply fw_map).
        by rewrite decide_True.
    + rewrite <- Hs by done. f_equal. apply msum_ext. intros k h E.
      destruct (expire pos h) as [h'|] eqn:Hx; simpl.
      * apply expire_Some in Hx as [_ ->]. rewrite slot_bytes_zero by (done || by eapply fw_map).
        by rewrite decide_False.
      * symmetry. apply (Hf k h i E Hi). unfold expire in Hx.
        destruct (Z.eqb_spec (last_write h) pos) as [->|]; [|done].
        unfold pos. rewrite age_oldest by done.
        pose proof (age_next (f_pos f) i Hp Hi) as Hn. fold pos in Hn.
        rewrite decide_False in Hn by done. pose proof (age_range pos i). lia.
Qed.

Lemma abs_run_balanced es f : flows_wf f -> balanced f -> balanced (abs_run es f).
Proof.
  revert f. induction es as [|e es IH]; intros f Hw Hb; simpl; [done|].
  apply IH; [by apply abs_step_wf|].
  destruct e; [by apply balanced_packet|by apply balanced_rotate].
Qed.

Lemma zsum_list_msum (g : history_type -> Z) (l : list (addr_pair * history_type)) m :
  NoDup l.*1 -> list_to_map l = m -> zsum (g ∘ snd <$> l) = msum g m.
Proof. intros Hnd <-. unfold msum. by rewrite map_to_list_to_map. Qed.

(** ** Retention *)
Definition is_packet_of (ap : addr_pair) (e : event) : bool :=
  match e with EPacket ap' _ _ _ _ => bool_decide (ap' = ap) | ERotate => false end.

Definition is_rotation (e : event) : bool := match e with ERotate => true | _ => false end.

Fixpoint rotations (es : list event) : Z :=
  match es with [] => 0 | e :: es => (if is_rotation e then 1 else 0) + rotations es end.

(** The flow [ap], last seen at position [p0], after [n] rotations. *)
Definition retained (ap : addr_pair) (p0 n : Z) (f : flows) : Prop :=
  if decide (n < HISTORY_LENGTH)
  then (exists h, f_map f !! ap = Some h /\ last_write h = p0) /\
       f_pos f = (p0 + n) mod HISTORY_LENGTH
  else f_map f !! ap = None.

Lemma retained_packet ap p0 n f ap' proc len b d :
  ap' <> ap -> retained ap p0 n f -> retained ap p0 n (abs_packet f ap' proc len b d).
Proof. intros Hne. unfold retained. simpl. by rewrite lookup_insert_ne. Qed.

Lemma mod_shift_self p0 n :
  slot_ok p0 -> 0 <= n < HISTORY_LENGTH ->
  (p0 + n + 1) mod HISTORY_LENGTH = p0 <-> n + 1 = HISTORY_LENGTH.
Proof.
  unfold slot_ok, HISTORY_LENGTH. intros Hp Hn. split.
  - intros E. pose proof (Z.div_mod (p0 + n + 1) 40 ltac:(lia)) as D. rewrite E in D. lia.
  - intros E. replace (p0 + n + 1) with (p0 + 1 * 40) by lia.
    rewrite Z_mod_plus_full. apply Z.mod_small. lia.
Qed.

Lemma retained_rotate ap p0 n f :
  slot_ok p0 -> 0 <= n -> retained ap p0 n f -> retained ap p0 (n + 1) (abs_rotate f).
Proof.
  intros Hp Hn. unfold retained. simpl. rewrite lookup_omap. destruct (decide (n < _)) as [Hlt|Hge].
  - intros [(h & -> & Hl) ->]. rewrite Zplus_mod_idemp_l. cbn [mbind option_bind].
    unfold expire. rewrite Hl. pose proof (mod_shift_self p0 n Hp ltac:(lia)) as Hm.
    destruct (Z.eqb_spec p0 ((p0 + n + 1) mod HISTORY_LENGTH)) as [E|E]; case_decide; try done.
    + exfalso. assert (n + 1 = HISTORY_LENGTH) by (by apply Hm). lia.
    + split; [by eexists|]. f_equal. lia.
    + exfalso. apply E. symmetry. apply Hm. lia.
  - intros ->. rewrite decide_False by lia. done.
Qed.

Lemma rotations_nonneg es : 0 <= rotations es.
Proof. induction es as [|[] es IH]; simpl; lia. Qed.

Lemma retained_run ap p0 n es f :
  slot_ok p0 -> 0 <= n -> retained ap p0 n f -> Forall (fun e => is_packet_of ap e = false) es ->
  retained ap p0 (n + rotations es) (abs_run es f).
Proof.
  intros Hp. revert n f. induction es as [|e es IH]; intros n f Hn Hr Hes; simpl.
  { by rewrite Z.add_0_r. }
  apply Forall_cons in Hes as [He Hes]. rewrite Z.add_assoc. apply IH; [|..|done].
  - destruct (is_rotation e); lia.
  - destruct e as [ap' ? ? ? ?|]; simpl in *.
    + rewrite Z.add_0_r. apply retained_packet; [|done].
      by apply bool_decide_eq_false in He.
    + by apply retained_rotate.
Qed.

Lemma retained_packet_self f ap proc len b d :
  flows_wf f -> retained ap (f_pos f) 0 (abs_packet f ap proc len b d).
Proof.
  intros Hw. unfold retained. rewrite decide_True by done. simpl.
  rewrite lookup_insert_eq, Z.add_0_r. split.
  - eexists. split; [done|]. by destruct b.
  - symmetry. apply Z.mod_small, Hw.
Qed.

(** ** Properties *)

(** C10: the flow table of the running program is the specified map: after any
    interleaving of packets and rotations, with both pools, every memory
    access valid, iterating over the table gives each flow once with exactly
    the history the specification computes, and the totals agree. *)
Theorem history_refines_map (es : list event) :
  exists c l, cap_run es cap_init = Some c /\ flow_list c = Some l /\ NoDup l.*1 /\
    list_to_map l = f_map (abs_run es abs_init) /\
    history_totals c = f_totals (abs_run es abs_init) /\
    history_pos c = f_pos (abs_run es abs_init) /\ history_len c = f_len (abs_run es abs_init).
Proof.
  destruct (cap_run_init es) as (c & l & H1 & H2 & H3 & H4 & H5 & H6 & H7 & _).
  exists c, l. by split_and!.
Qed.

(** Bytes are conserved: after any interleaving of packets and rotations,
    in each of the 40 one-second slots the bytes of all flows in the table,
    both directions together, add up to the bytes of the totals (modulo the
    64-bit width of the counters); flows dropped by the rotation take nothing
    with them. *)
Theorem history_conserves_bytes (es : list event) (i : Z) :
  0 <= i < HISTORY_LENGTH ->
  exists c l, cap_run es cap_init = Some c /\ flow_list c = Some l /\
    u64 (zsum (slot_bytes i ∘ snd <$> l)) = u64 (slot_bytes i (history_totals c)).
Proof.
  intros Hi. destruct (cap_run_init es) as (c & l & H1 & H2 & H3 & H4 & H5 & _ & _ & _).
  exists c, l. split_and!; [done|done|]. rewrite (zsum_list_msum _ _ _ H3 H4), H5.
  apply abs_run_balanced; [apply abs_init_wf|apply balanced_init|done].
Qed.

(** C26: a flow stays in the table through 39 rotations after its last packet
    and is dropped by the 40th, whatever packets other flows have. *)
Theorem history_retention (pre es : list event) (ap : addr_pair) (proc : option (Z * string))
    (len : Z) (b d : bool) :
  Forall (fun e => is_packet_of ap e = false) es ->
  exists c l, cap_run (pre ++ EPacket ap proc len b d :: es) cap_init = Some c /\
    flow_list c = Some l /\ (ap ∈ l.*1 <-> rotations es < HISTORY_LENGTH).
Proof.
  intros Hes.
  destruct (cap_run_init (pre ++ EPacket ap proc len b d :: es))
    as (c & l & H1 & H2 & H3 & H4 & _). exists c, l. split_and!; [done|done|].
  assert (retained ap (f_pos (abs_run pre abs_init)) (0 + rotations es)
    (abs_run (pre ++ EPacket ap proc len b d :: es) abs_init)) as Hr.
  { unfold abs_run. rewrite foldl_app. simpl.
    destruct (cap_run_init pre) as (_ & _ & _ & _ & _ & _ & _ & _ & _ & Hw).
    apply retained_run; [apply Hw|done| |done]. by apply retained_packet_self. }
  assert (ap ∈ l.*1 <-> is_Some (f_map (abs_run (pre ++ EPacket ap proc len b d :: es) abs_init) !! ap))
    as ->.
  { rewrite <- H4, <- elem_of_dom, dom_list_to_map_L, elem_of_list_to_set. done. }
  unfold retained in Hr. rewrite Z.add_0_l in Hr. case_decide.
  - destruct Hr as [(h & -> & _) _]. split; [done|by eexists].
  - rewrite Hr. split; [by intros [? ?]|done].
Qed.

Definition demo_events : list event :=
  [EPacket demo_pair None 100 true true; ERotate; EPacket demo_pair None 60 false false; ERotate].

Example history_conserves_bytes_witness :
  exists c l, cap_run demo_events cap_init = Some c /\ flow_list c = Some l /\
    u64 (zsum (slot_bytes 1 ∘ snd <$> l)) = u64 (slot_bytes 1 (history_totals c)).
Proof. apply (history_conserves_bytes demo_events 1). unfold HISTORY_LENGTH. lia. Defined.

Example history_retention_witness :
  exists c l, cap_run (demo_events ++ EPacket demo_pair None 1 true true :: replicate 40 ERotate)
      cap_init = Some c /\
    flow_list c = Some l /\ (demo_pair ∈ l.*1 <-> rotations (replicate 40 ERotate) < HISTORY_LENGTH).
Proof.
  apply (history_retention demo_events (replicate 40 ERotate) demo_pair None 1 true true).
  by apply (bool_decide_unpack _).
Defined.
