(* ===== verification/Race.v ===== *)
(** * The capture thread and the rotation (src/entry/iftop.c)

    handle_ip_packet runs on the capture thread and does not take the mutex
    under which tick rotates the histories on the main thread.  The two meet
    between the lookup of a flow and the update of its record, which are steps
    of their own here; the variant [true] is the program with the mutex held
    over both. *)

From S2P Require Import Prelude Records Chain Hash Pool AddrHash History.

Local Open Scope Z_scope.

(** ** The two threads *)

(** What handle_ip_packet holds between its two steps: [ht] and the packet. *)
Record in_flight := InFlight {
  ht : positive;
  ht_len : Z;
  ht_sent : bool;
  ht_direction : bool
}.

Record threads := Threads { t_capture : capture; t_packet : option in_flight }.

Inductive thread_event :=
  | TFind (ap : addr_pair) (proc : option (Z * string)) (len : Z) (as_sent direction : bool)
  | TAccount
  | TRotate.

(** Whether the thread can take the step; with the mutex tick waits for the packet. *)
Definition enabled (mutex : bool) (e : thread_event) (t : threads) : bool :=
  match e, t_packet t with
  | TFind _ _ _ _ _, None => true
  | TAccount, Some _ => true
  | TRotate, None => true
  | TRotate, Some _ => negb mutex
  | _, _ => false
  end.

Definition thread_step (e : thread_event) (t : threads) : option threads :=
  match e, t_packet t with
  | TFind ap proc len b d, _ => '(h, c) ← flow_record (t_capture t) ap proc; Some (Threads c (Some (InFlight h len b d)))
  | TAccount, Some p =>
      c ← account (t_capture t) (ht p) (ht_len p) (ht_sent p) (ht_direction p); Some (Threads c None)
  | TAccount, None => Some t
  | TRotate, _ => c ← history_rotate (t_capture t); Some (Threads c (t_packet t))
  end.

(** A schedule: a step that is not enabled is not taken. *)
Fixpoint thread_run (mutex : bool) (es : list thread_event) (t : threads) : option threads :=
  match es with
  | [] => Some t
  | e :: es => if enabled mutex e t then t ← thread_step e t; thread_run mutex es t else thread_run mutex es t
  end.

Definition threads_init : threads := Threads cap_init None.

(** ** With the mutex *)

(** A packet that is looked up but not accounted yet. *)
Record begun := Begun {
  b_pair : addr_pair;
  b_proc : option (Z * string);
  b_len : Z;
  b_sent : bool;
  b_direction : bool
}.

Definition whole_packet (p : begun) : event := EPacket (b_pair p) (b_proc p) (b_len p) (b_sent p) (b_direction p).

(** The packets that a schedule completes and its rotations, in order, and the
    packet that it leaves begun; [p] is the one begun before it. *)
Fixpoint committed (evs : list thread_event) (p : option begun) : list event * option begun :=
  match evs, p with
  | [], _ => ([], p)
  | TFind ap proc len b d :: evs, None => committed evs (Some (Begun ap proc len b d))
  | TAccount :: evs, Some q => let r := committed evs None in (whole_packet q :: r.1, r.2)
  | TRotate :: evs, None => let r := committed evs None in (ERotate :: r.1, r.2)
  | _ :: evs, _ => committed evs p
  end.

(** The threads after a sequential run that ends with [c] and begins [p]. *)
Definition stands_for (c : capture) (p : option begun) (t : threads) : Prop :=
  match p with
  | None => t = Threads c None
  | Some q => exists h c', flow_record c (b_pair q) (b_proc q) = Some (h, c') /\
      t = Threads c' (Some (InFlight h (b_len q) (b_sent q) (b_direction q)))
  end.

Lemma cap_run_snoc es e c : cap_run (es ++ [e]) c = c ← cap_run es c; cap_step e c.
Proof.
  revert c. induction es as [|e' es IH]; intros c; simpl; [by destruct (cap_step e c)|].
  destruct (cap_step e' c); [|done]. apply IH.
Qed.

Lemma cap_run_some es : is_Some (cap_run es cap_init).
Proof. destruct (cap_run_init es) as (c & _ & H & _). by exists c. Qed.

Lemma cap_run_step es e c : cap_run es cap_init = Some c -> exists c', cap_step e c = Some c' /\ cap_run (es ++ [e]) cap_init = Some c'.
Proof.
  intros E. destruct (cap_run_some (es ++ [e])) as [c' E']. exists c'. split; [|done].
  rewrite cap_run_snoc, E in E'. exact E'.
Qed.

Lemma thread_run_sequential evs : forall es c p t, cap_run es cap_init = Some c -> stands_for c p t ->
  exists t' c', thread_run true evs t = Some t' /\ cap_run (es ++ (committed evs p).1) cap_init = Some c' /\
    stands_for c' (committed evs p).2 t'.
Proof.
  induction evs as [|e evs IH]; intros es c p t Ec Ht.
  { exists t, c. cbn [committed thread_run fst snd]. by rewrite app_nil_r. }
  destruct p as [q|]; cbn [stands_for] in Ht.
  - pose proof Ht as Hq. destruct Ht as (h & c1 & Ef & ->).
    destruct e as [ap proc len b d| |]; cbn [thread_run enabled t_packet negb committed]; try by eapply IH.
    destruct (cap_run_step es (whole_packet q) c Ec) as (c2 & Es & Ec2). cbn [cap_step whole_packet] in Es.
    unfold packet_seen in Es. rewrite Ef in Es. cbn [mbind option_bind] in Es.
    cbn [thread_step t_packet t_capture ht ht_len ht_sent ht_direction]. rewrite Es. cbn [mbind option_bind].
    destruct (IH (es ++ [whole_packet q]) c2 None (Threads c2 None) Ec2 eq_refl) as (t' & c' & H1 & H2 & H3).
    exists t', c'. cbn [fst snd]. by rewrite <- app_assoc in H2.
  - subst t. destruct e as [ap proc len b d| |]; cbn [thread_run enabled t_packet negb committed].
    + destruct (cap_run_step es (EPacket ap proc len b d) c Ec) as (c2 & Es & _). cbn [cap_step] in Es.
      unfold packet_seen in Es. cbn [thread_step t_packet t_capture].
      destruct (flow_record c ap proc) as [[h c1]|] eqn:Ef; [|done]. cbn [mbind option_bind].
      apply (IH es c); [done|]. by exists h, c1.
    + by eapply IH.
    + destruct (cap_run_step es ERotate c Ec) as (c2 & Es & Ec2). cbn [cap_step] in Es.
      cbn [thread_step t_packet t_capture]. rewrite Es. cbn [mbind option_bind].
      destruct (IH (es ++ [ERotate]) c2 None (Threads c2 None) Ec2 eq_refl) as (t' & c' & H1 & H2 & H3).
      exists t', c'. cbn [fst snd]. by rewrite <- app_assoc in H2.
Qed.

(** ** Between the two steps *)
Lemma get_hist_insert hp r r' cell : r <> r' -> get_hist (with_cells hp (<[r' := cell]> (p_cells hp))) r = get_hist hp r.
Proof. intros Hr. unfold get_hist. simpl. by rewrite lookup_insert_ne by done. Qed.

Lemma history_free_hist hp r hp' :
  history_free hp r = Some hp' ->
  get_hist hp' r = None /\ forall r', r' <> r -> get_hist hp' r' = get_hist hp r'.
Proof.
  unfold history_free, item_free. intros (cell & _ & [= <-])%bind_Some. unfold get_hist. cbn [p_cells]. split.
  - by rewrite lookup_insert_eq.
  - intros r' Hr. by rewrite lookup_insert_ne by done.
Qed.

(** A node of the loop: its record is alive before, other records stay as they
    are, and a record that expires is freed. *)
Lemma rotate_node_hist c n c' nd :
  nodes (p_mem (nkp_pool c)) !! n = Some nd -> rotate_node c n = Some c' ->
  exists h, get_hist (hist_pool c) (n_record nd) = Some h /\
    (last_write h = history_pos c -> get_hist (hist_pool c') (n_record nd) = None) /\
    (forall r, r <> n_record nd -> get_hist (hist_pool c') r = get_hist (hist_pool c) r) /\
    history_pos c' = history_pos c.
Proof.
  intros Hn. unfold rotate_node. rewrite Hn. cbn [mbind option_bind].
  destruct (get_hist _ _) as [h|] eqn:Eh; [|done]. cbn [mbind option_bind]. intros H. exists h. split; [done|].
  destruct (Z.eqb_spec (last_write h) (history_pos c)) as [El|El].
  - apply bind_Some in H as ([p t] & _ & (hp & Ef & [= <-])%bind_Some).
    destruct (history_free_hist _ _ _ Ef) as [H1 H2]. split_and!; [by intros|by intros; apply H2|done].
  - apply bind_Some in H as (h' & _ & [= <-]). split_and!; [done| |done].
    intros r Hr. by apply get_hist_insert.
Qed.

(** A freed record stays freed. *)
Lemma rotate_loop_dead fuel c node c' r :
  rotate_loop fuel c node = Some c' -> get_hist (hist_pool c) r = None -> get_hist (hist_pool c') r = None.
Proof.
  revert c node. induction fuel as [|fuel IH]; intros c node; [done|]. destruct node as [n|]; [|by intros [= ->]].
  intros H Hd. destruct (hash_next_item (history c) (p_mem (nkp_pool c)) (Some n)) as [[st next]|] eqn:En.
  - rewrite (rotate_loop_step _ _ _ _ _ En) in H. apply bind_Some in H as (c1 & H1 & H2).
    apply (IH _ _ H2). destruct (nodes (p_mem (nkp_pool c)) !! n) as [nd|] eqn:Hn;
      [|unfold rotate_node in H1; by rewrite Hn in H1].
    destruct (rotate_node_hist c n c1 nd Hn H1) as (h & Hh & _ & Hs & _). rewrite Hs; [done|].
    intros ->. congruence.
  - cbn [rotate_loop] in H. apply bind_Some in H as (nd & _ & (h & _ & H)%bind_Some). by rewrite En in H.
Qed.

Lemma rotate_loop_frees X L2 L1 c f F C HF fuel c' k r h :
  cap_rep c f F C HF X -> map_ok f -> concat C = L1 ++ L2 -> rotate_loop fuel c (head L2) = Some c' ->
  (k, r) ∈ contents (nodes (p_mem (nkp_pool c))) L2 -> f_map f !! k = Some h -> last_write h = f_pos f ->
  get_hist (hist_pool c') r = None.
Proof.
  revert L1 c f F C HF fuel. induction L2 as [|x L2 IH]; intros L1 c f F C HF [|fuel] Hc Hok E Hrun Hin Hk Hlw;
    try done; [by apply not_elem_of_nil in Hin|].
  destruct (rotate_node_spec c f F C HF X L1 x L2 Hc Hok E)
    as (nd & c1 & F1 & C1 & HF1 & L1' & Hx & Hn & E1 & Hc1 & Hpay & _ & _).
  change (head (x :: L2)) with (Some x) in Hrun. erewrite rotate_loop_step in Hrun.
  2:{ rewrite (hash_next_item_next (fun _ => True) _ _ C L1 x L2); [|apply Hc|done].
      apply f_equal, surjective_pairing. }
  rewrite Hn in Hrun. cbn [mbind option_bind] in Hrun. replace (next_result L2).2 with (head L2) in Hrun by (by destruct L2).
  destruct (rotate_node_hist c x c1 nd Hx Hn) as (h0 & Hh0 & Hfree & Hsame & Hpos).
  pose proof (bindings_split c C L1 x L2 nd E Hx) as Hb. pose proof (cr_cells _ _ _ _ _ _ Hc) as Hm.
  rewrite (contents_cons _ _ _ _ Hx) in Hin. apply elem_of_cons in Hin as [[= -> ->]|Hin].
  - assert (h0 = h) as ->.
    { destruct (cl_live _ _ _ Hm (n_key nd) (n_record nd)) as (h1 & Hc1' & Hk1); [rewrite Hb; by left|].
      apply get_hist_live in Hc1'. congruence. }
    eapply rotate_loop_dead; [exact Hrun|]. apply Hfree. by rewrite (cr_pos _ _ _ _ _ _ Hc).
  - pose proof (cl_keys _ _ _ Hm) as Hnd. rewrite Hb in Hnd. csimpl in Hnd. apply NoDup_cons in Hnd as [Hnot _].
    assert (k <> n_key nd) as Hne.
    { intros ->. apply Hnot. rewrite contents_app, fmap_app. apply elem_of_app. right. by eapply elem_of_keys. }
    eapply (IH L1' c1 _ F1 C1 HF1 fuel Hc1); [|done|exact Hrun| | |done].
    + destruct Hok as [Hpok Hw]. split; [done|]. intros k' h'. simpl. unfold expire_key.
      rewrite lookup_partial_alter. case_decide; [|apply Hw]. subst k'.
      intros (h1 & Hh1 & Hex)%bind_Some. eapply expire_wf; [|done]. by eapply Hw.
    + by rewrite (contents_payload (fun _ => True) (nodes (p_mem (nkp_pool c)))).
    + simpl. unfold expire_key. by rewrite lookup_partial_alter_ne by done.
Qed.

(** ** Properties *)

(** The rotation between the two steps, from any capture that represents flows. *)
Lemma rotation_between c f F C HF X ap proc len b d :
  cap_rep c f F C HF X -> flows_wf f ->
  exists r c1 c2 h, flow_record c ap proc = Some (r, c1) /\ history_rotate c1 = Some c2 /\
    h = default (set_proc zero_history proc) (f_map f !! ap) /\
    if last_write h =? (f_pos f + 1) mod HISTORY_LENGTH then account c2 r len b d = None
    else exists c3 F' C' HF', account c2 r len b d = Some c3 /\
      cap_rep c3 (abs_packet (abs_rotate (Flows (<[ap := h]> (f_map f)) (f_totals f) (f_pos f) (f_len f))) ap proc len b d)
        F' C' HF' X.
Proof.
  intros Hc Hw. destruct (flow_record_spec c f F C HF X ap proc Hc) as (r & c1 & F1 & C1 & HF1 & h & Ef & Hin & Eh & Hc1 & _).
  set (f1 := Flows (<[ap := h]> (f_map f)) (f_totals f) (f_pos f) (f_len f)) in *.
  assert (flows_wf f1) as Hw1.
  { destruct Hw as [Hm Ht Hp Hl]. split; [|done..]. intros k h'. simpl. rewrite lookup_insert. case_decide; [|apply Hm].
    intros [= <-]. rewrite Eh. destruct (f_map f !! ap) eqn:E; simpl; [eauto|auto with iftop_db]. }
  destruct (history_rotate_spec c1 f1 F1 C1 HF1 X Hc1 Hw1) as (c2 & F2 & C2 & HF2 & Er & Hc2 & _ & Hb).
  exists r, c1, c2, h. split_and!; [done..|]. set (pos := (f_pos f + 1) mod HISTORY_LENGTH).
  assert (f_map f1 !! ap = Some h) as Hk by apply lookup_insert_eq.
  destruct (Z.eqb_spec (last_write h) pos) as [El|El].
  - unfold account. enough (get_hist (hist_pool c2) r = None) as -> by done.
    revert Er. unfold history_rotate. rewrite (cr_pos _ _ _ _ _ _ Hc1). cbn [f_pos f1].
    pose proof (fw_pos _ Hw) as Hpo. unfold slot_ok in Hpo. rewrite Z.rem_mod_nonneg by (unfold HISTORY_LENGTH in *; lia).
    fold pos. set (c0 := Capture _ _ _ _ pos _). cbv zeta.
    assert (cap_rep c0 (Flows (f_map f1) (f_totals f1) pos (f_len f1)) F1 C1 HF1 X) as Hc0 by (destruct Hc1; by split).
    rewrite (hash_next_item_first (fun _ => True) _ _ C1) by apply Hc0.
    replace (next_result (concat C1)) with ((next_result (concat C1)).1, head (concat C1)) by (by destruct (concat C1)).
    cbn [mbind option_bind]. intros (c' & Hrun & (tot & _ & [= <-])%bind_Some)%bind_Some. cbn [hist_pool].
    eapply (rotate_loop_frees X (concat C1) [] c0 _ F1 C1 HF1 _ c' ap r h Hc0); [|done|exact Hrun|exact Hin|exact Hk|exact El].
    split; [apply next_pos_ok|apply Hw1].
  - assert (f_map (abs_rotate f1) !! ap = Some (abs_zero h pos)) as Hk2.
    { cbn [abs_rotate f_map]. rewrite lookup_omap, Hk. simpl. unfold expire. fold pos. by rewrite (proj2 (Z.eqb_neq _ _) El). }
    pose proof (abs_rotate_wf _ Hw1) as Hw2. pose proof (cr_cells _ _ _ _ _ _ Hc2) as Hm2.
    assert ((ap, r) ∈ bindings c2 C2) as Hin2.
    { assert (ap ∈ (bindings c2 C2).*1) as ([k r'] & Ek & Hr')%list_elem_of_fmap by (apply (cl_dom _ _ _ Hm2); by eexists).
      simpl in Ek. subst k. replace r with r'; [done|].
      eapply (NoDup_keys_inj (bindings c1 C1)); [apply (cr_cells _ _ _ _ _ _ Hc1)|by apply Hb|done]. }
    destruct (account_spec c2 _ F2 C2 HF2 X ap r _ len b d Hc2 Hw2 Hin2 Hk2) as (c3 & E3 & Hc3 & _).
    exists c3, F2, C2, HF2. split; [done|]. unfold abs_packet. fold f1. by rewrite Hk2.
Qed.

(** With the mutex held over both steps of a packet, every schedule of the
    capture thread and the rotations runs to its end, in the state that its
    whole packets and its rotations reach one after the other, with at most
    one more packet looked up. *)
Theorem locked_threads_sequential (evs : list thread_event) :
  exists t c, thread_run true evs threads_init = Some t /\ cap_run (committed evs None).1 cap_init = Some c /\
    stands_for c (committed evs None).2 t.
Proof. by apply (thread_run_sequential evs [] cap_init). Qed.

Lemma rotation_outcome (es : list event) (ap : addr_pair) (proc : option (Z * string)) (len : Z) (b d : bool) :
  let f := abs_run es abs_init in let h := default (set_proc zero_history proc) (f_map f !! ap) in
  exists c t, cap_run es cap_init = Some c /\
    thread_run false [TFind ap proc len b d; TRotate] (Threads c None) = Some t /\
    if last_write h =? (f_pos f + 1) mod HISTORY_LENGTH then thread_step TAccount t = None
    else exists t' l, thread_step TAccount t = Some t' /\ t_packet t' = None /\ flow_list (t_capture t') = Some l /\
      list_to_map l = f_map (abs_packet (abs_rotate (Flows (<[ap := h]> (f_map f)) (f_totals f) (f_pos f) (f_len f)))
        ap proc len b d).
Proof.
  intros f h. destruct (cap_run_spec es _ _ _ _ _ _ cap_init_rep abs_init_wf) as (c & F & C & HF & Hrun & Hc & Hw).
  destruct (rotation_between c f F C HF [] ap proc len b d Hc Hw) as (r & c1 & c2 & h' & Ef & Er & -> & H).
  exists c, (Threads c2 (Some (InFlight r len b d))). split; [done|].
  cbn [thread_run enabled t_packet negb thread_step t_capture]. rewrite Ef. cbn [mbind option_bind t_packet t_capture].
  rewrite Er. split; [done|]. fold h in H |- *. destruct (_ =? _).
  - cbn [thread_step t_packet t_capture ht ht_len ht_sent ht_direction]. by rewrite H.
  - destruct H as (c3 & F' & C' & HF' & E3 & Hc3). destruct (flow_list_spec _ _ _ _ _ _ Hc3) as (l & Hl & _ & Hm).
    exists (Threads c3 None), l. split_and!; try done.
    cbn [thread_step t_packet t_capture ht ht_len ht_sent ht_direction]. by rewrite E3.
Qed.

(** C28: as the code is, a rotation that falls between the lookup of a flow and
    the update of its record is harmless exactly when the flow (as it was last
    written, a new one in slot 0) does not expire in that rotation: the update
    then does what the whole packet would do after the rotation; otherwise it
    writes to a record that has been freed.  This holds after any run. *)
Theorem rotation_race (es : list event) (ap : addr_pair) (proc : option (Z * string)) (len : Z) (b d : bool) :
  let f := abs_run es abs_init in let h := default (set_proc zero_history proc) (f_map f !! ap) in
  exists c t, cap_run es cap_init = Some c /\
    thread_run false [TFind ap proc len b d; TRotate] (Threads c None) = Some t /\
    if last_write h =? (f_pos f + 1) mod HISTORY_LENGTH then thread_step TAccount t = None
    else exists t' l, thread_step TAccount t = Some t' /\ t_packet t' = None /\ flow_list (t_capture t') = Some l /\
      list_to_map l = f_map (abs_packet (abs_rotate (Flows (<[ap := h]> (f_map f)) (f_totals f) (f_pos f) (f_len f)))
        ap proc len b d).
Proof. apply rotation_outcome. Qed.

(** A flow that no packet has reached for 39 rotations: the 40th frees its
    record under the packet.  A flow that is new when the slot before the
    first one is current is lost in the same way. *)
Lemma freed_under_packet es ap len b d :
  last_write (default zero_history (f_map (abs_run es abs_init) !! ap)) =? (f_pos (abs_run es abs_init) + 1) mod HISTORY_LENGTH = true ->
  exists c, cap_run es cap_init = Some c /\ thread_run false [TFind ap None len b d; TRotate; TAccount] (Threads c None) = None.
Proof.
  intros E. destruct (rotation_outcome es ap None len b d) as (c & t & Hc & Ht & H).
  assert (set_proc zero_history None = zero_history) as Ez by done. rewrite Ez, E in H.
  exists c. split; [done|]. cbn [thread_run] in *.
  change (enabled false (TFind ap None len b d) (Threads c None)) with true in *. cbv beta iota in *.
  destruct (thread_step (TFind ap None len b d) (Threads c None)) as [t1|]; cbn [mbind option_bind] in *; [|done].
  replace (enabled false TRotate t1) with true in * by (unfold enabled; by destruct (t_packet t1)).
  destruct (thread_step TRotate t1) as [t2|]; cbn [mbind option_bind] in *; [|done]. injection Ht as ->.
  destruct (t_packet t) eqn:Ep; unfold thread_step in H; rewrite Ep in H; [|done].
  unfold enabled, thread_step. rewrite Ep, H. done.
Qed.

Example idle_flow_freed_under_packet :
  exists c, cap_run (EPacket demo_pair None 100 true true :: replicate 39 ERotate) cap_init = Some c /\
    thread_run false [TFind demo_pair None 60 true true; TRotate; TAccount] (Threads c None) = None.
Proof. apply freed_under_packet. vm_compute. reflexivity. Qed.

Example new_flow_freed_under_packet :
  exists c, cap_run (replicate 39 ERotate) cap_init = Some c /\
    thread_run false [TFind demo_pair None 60 true true; TRotate; TAccount] (Threads c None) = None.
Proof. apply freed_under_packet. vm_compute. reflexivity. Qed.
