(* ===== verification/CStr.v ===== *)
(** * C strings

    The functions of <string.h>, <stdlib.h> and <stdio.h> that the program
    calls on NUL-terminated strings.  A C string is a [string]; a buffer that
    may hold NUL bytes is cut at the first one by [cstr]. *)

From S2P Require Import Prelude.
From stdpp Require Export pretty.
From Stdlib Require Export Ascii.

Local Open Scope Z_scope.

Abbreviation strlen := String.length.

Definition NUL : ascii := "000".
Definition NL : ascii := "010".
Definition TAB : ascii := "009".

Definition aeq (a b : ascii) : bool := bool_decide (a = b).

(** ** Spans: strspn, strcspn, strchr, strpbrk *)

(** The longest prefix whose characters satisfy [p], and the rest. *)
Fixpoint span (p : ascii -> bool) (s : string) : string * string :=
  match s with
  | EmptyString => (EmptyString, EmptyString)
  | String c s' => if p c then let r := span p s' in (String c r.1, r.2) else (EmptyString, s)
  end.

Definition take_while (p : ascii -> bool) (s : string) : string := (span p s).1.
Definition drop_while (p : ascii -> bool) (s : string) : string := (span p s).2.

Fixpoint one_of (set : string) (c : ascii) : bool :=
  match set with
  | EmptyString => false
  | String a set => aeq c a || one_of set c
  end.

(** [s + strspn(s, set)] and the prefix before [s + strcspn(s, set)]. *)
Definition skip_set (set s : string) : string := drop_while (one_of set) s.
Definition until_set (set s : string) : string := take_while (fun c => negb (one_of set c)) s.

(** The part of the string after the first [c], when there is one. *)
Definition after_char (c : ascii) (s : string) : option string :=
  match drop_while (fun a => negb (aeq a c)) s with
  | EmptyString => None
  | String _ rest => Some rest
  end.

Definition before_char (c : ascii) (s : string) : string := take_while (fun a => negb (aeq a c)) s.

Definition has_char (c : ascii) (s : string) : bool :=
  match after_char c s with Some _ => true | None => false end.

(** A buffer read as a C string. *)
Definition cstr (s : string) : string := before_char NUL s.

(** ** Ends of strings *)
Fixpoint last_char (s : string) : option ascii :=
  match s with
  | EmptyString => None
  | String c EmptyString => Some c
  | String _ s => last_char s
  end.

(** Drop the characters at the end that satisfy [p]. *)
Fixpoint rtrim (p : ascii -> bool) (s : string) : string :=
  match s with
  | EmptyString => EmptyString
  | String c s =>
      match rtrim p s with
      | EmptyString => if p c then EmptyString else String c EmptyString
      | s' => String c s'
      end
  end.

(** All but the last character. *)
Fixpoint but_last (s : string) : string :=
  match s with
  | EmptyString | String _ EmptyString => EmptyString
  | String c s => String c (but_last s)
  end.

Fixpoint str_take (n : nat) (s : string) : string :=
  match n, s with
  | S n, String c s => String c (str_take n s)
  | _, _ => EmptyString
  end.

Fixpoint str_drop (n : nat) (s : string) : string :=
  match n, s with
  | S n, String _ s => str_drop n s
  | _, _ => s
  end.

(** [strncpy(d, s, n)] into a buffer that is then read as a string, when the
    terminator is written at or before [d[n]]. *)
Definition strncpy (n : Z) (s : string) : string := str_take (Z.to_nat n) s.

Definition repeat_char (c : ascii) (n : nat) : string := Nat.iter n (String c) EmptyString.

(** ** Numbers *)
Definition digit_val (c : ascii) : Z := Z.of_N (N_of_ascii c) - 48.
Definition is_digit (c : ascii) : bool := (0 <=? digit_val c) && (digit_val c <=? 9).
Definition is_space (c : ascii) : bool :=
  one_of (String " " (String "009" (String "010" (String "011" (String "012" (String "013" EmptyString)))))) c.

Fixpoint dec_value (acc : Z) (s : string) : Z :=
  match s with
  | EmptyString => acc
  | String c s => dec_value (10 * acc + digit_val c) s
  end.

Definition clamp64 (z : Z) : Z := Z.max (- 2 ^ 63) (Z.min z (2 ^ 63 - 1)).

(** [strtol(s, &end, 10)]: the value, the rest, and whether ERANGE is set; with
    no digits the rest is the whole string. *)
Definition strtol (s : string) : Z * string * bool :=
  let s0 := drop_while is_space s in
  let '(neg, s1) :=
    match s0 with
    | String "-" s' => (true, s')
    | String "+" s' => (false, s')
    | _ => (false, s0)
    end in
  let ds := take_while is_digit s1 in
  if bool_decide (ds = EmptyString) then (0, s, false)
  else
    let v := dec_value 0 ds in
    let v := if neg then - v else v in
    (clamp64 v, drop_while is_digit s1, bool_decide (clamp64 v <> v)).

Definition atoi (s : string) : Z := s32 (strtol s).1.1.

(** [%d]: stdpp's decimal printer. *)
Definition dec (z : Z) : string := pretty z.

(** ** Laws *)
Lemma aeq_true a b : aeq a b = true <-> a = b.
Proof. apply bool_decide_eq_true. Qed.

Lemma aeq_refl a : aeq a a = true.
Proof. by apply aeq_true. Qed.

Lemma span_app p s : take_while p s +:+ drop_while p s = s.
Proof.
  unfold take_while, drop_while. induction s as [|c s IH]; [done|].
  simpl span. destruct (p c); [|done]. exact (f_equal (String c) IH).
Qed.

Fixpoint all_chars (p : ascii -> bool) (s : string) : bool :=
  match s with EmptyString => true | String c s => p c && all_chars p s end.

Lemma take_while_all p s : all_chars p (take_while p s) = true.
Proof. unfold take_while. induction s as [|c s IH]; simpl; [done|]. by destruct (p c) eqn:E; simpl; rewrite ?E. Qed.

Lemma span_all p s : all_chars p s = true -> span p s = (s, EmptyString).
Proof.
  induction s as [|c s IH]; simpl; [done|]. intros [-> Hs]%andb_true_iff. by rewrite (IH Hs).
Qed.

Lemma span_stop p s c t :
  all_chars p s = true -> p c = false -> span p (s +:+ String c t) = (s, String c t).
Proof.
  intros Hs Hc. induction s as [|a s IH]; simpl in *; [by rewrite Hc|].
  apply andb_true_iff in Hs as [-> Hs]. by rewrite (IH Hs).
Qed.

Lemma drop_while_length p s : (strlen (drop_while p s) <= strlen s)%nat.
Proof. unfold drop_while. induction s as [|c s IH]; simpl; [lia|]. destruct (p c); simpl; lia. Qed.

Lemma strncpy_length n s : 0 <= n -> Z.of_nat (strlen (strncpy n s)) <= n.
Proof.
  intros Hn. unfold strncpy. rewrite <- (Z2Nat.id n Hn) at 2. generalize (Z.to_nat n). clear.
  intros m. revert s. induction m as [|m IH]; intros [|c s]; simpl; try lia. specialize (IH s). lia.
Qed.

Lemma rtrim_id p s c : last_char s = Some c -> p c = false -> rtrim p s = s.
Proof.
  induction s as [|a s IH]; [done|]. intros Hl Hp.
  destruct s as [|b s]; simpl in Hl; [simplify_eq; simpl; by rewrite Hp|].
  change (rtrim p (String a (String b s))) with
    (match rtrim p (String b s) with
     | EmptyString => if p a then EmptyString else String a EmptyString
     | s' => String a s' end).
  by rewrite (IH Hl Hp).
Qed.

(** *** Characters of the results *)
Lemma all_chars_app p s t : all_chars p (s +:+ t) = all_chars p s && all_chars p t.
Proof. induction s as [|c s IH]; simpl; [done|]. rewrite IH. by destruct (p c). Qed.

Lemma all_chars_impl (p q : ascii -> bool) s :
  (forall c, p c = true -> q c = true) -> all_chars p s = true -> all_chars q s = true.
Proof.
  intros H. induction s as [|c s IH]; simpl; [done|]. intros [Hc Hs]%andb_true_iff.
  by rewrite (H c Hc), (IH Hs).
Qed.

Lemma all_chars_rtrim p q s : all_chars p s = true -> all_chars p (rtrim q s) = true.
Proof.
  induction s as [|c s IH]; simpl; [done|]. intros [Hc Hs]%andb_true_iff. specialize (IH Hs).
  destruct (rtrim q s); [destruct (q c); simpl; by rewrite ?Hc|]. simpl in *. by rewrite Hc.
Qed.

Lemma all_chars_but_last p s : all_chars p s = true -> all_chars p (but_last s) = true.
Proof.
  induction s as [|c s IH]; [done|]. intros [Hc Hs]%andb_true_iff.
  destruct s as [|d s]; [done|]. cbn [but_last all_chars]. rewrite Hc. by apply IH.
Qed.

Lemma all_chars_drop p q s : all_chars p s = true -> all_chars p (drop_while q s) = true.
Proof.
  unfold drop_while. induction s as [|c s IH]; [done|]. intros Hs. simpl.
  destruct (q c); [|done]. apply andb_true_iff in Hs as [_ Hs]. by apply IH.
Qed.

Lemma str_drop_app s t : str_drop (strlen s) (s +:+ t) = t.
Proof. induction s as [|c s IH]; [by destruct t|exact IH]. Qed.

Lemma all_chars_take p q s : all_chars p s = true -> all_chars p (take_while q s) = true.
Proof. intros H. rewrite <- (span_app q s), all_chars_app in H. by apply andb_true_iff in H as [H _]. Qed.

Lemma all_chars_after p c s t : all_chars p s = true -> after_char c s = Some t -> all_chars p t = true.
Proof.
  unfold after_char. intros H. pose proof (all_chars_drop p (fun a => negb (aeq a c)) s H) as Hd.
  destruct (drop_while _ s) as [|a r]; [done|]. intros [= <-]. by apply andb_true_iff in Hd as [_ Hd].
Qed.

Lemma rtrim_length p s : (strlen (rtrim p s) <= strlen s)%nat.
Proof.
  induction s as [|c s IH]; simpl; [lia|].
  destruct (rtrim p s); [destruct (p c)|]; simpl in *; lia.
Qed.

Lemma but_last_length s : strlen (but_last s) = pred (strlen s).
Proof. induction s as [|c [|d s] IH]; [done..|]. cbn [but_last String.length pred] in *. by rewrite IH. Qed.

Lemma strlen_app s t : strlen (s +:+ t) = (strlen s + strlen t)%nat.
Proof. induction s as [|c s IH]; [done|]. exact (f_equal S IH). Qed.

Lemma last_char_Some s : s <> EmptyString -> is_Some (last_char s).
Proof. induction s as [|c [|d s] IH]; [done|by eexists|]. intros _. by apply IH. Qed.

Lemma last_char_app s c t : last_char (s +:+ String c t) = last_char (String c t).
Proof.
  induction s as [|a s IH]; [done|]. rewrite <- IH.
  destruct s as [|b s]; [done|]. done.
Qed.

Lemma app_empty_r s : s +:+ "" = s.
Proof. induction s as [|c s IH]; [done|]. exact (f_equal (String c) IH). Qed.

Lemma cstr_id s : all_chars (fun c => negb (aeq c NUL)) s = true -> cstr s = s.
Proof.
  intros Hs. unfold cstr, before_char, take_while. by rewrite span_all.
Qed.

Lemma str_app_assoc (s t u : string) : s +:+ (t +:+ u) = (s +:+ t) +:+ u.
Proof. induction s as [|c s IH]; [done|]. exact (f_equal (String c) IH). Qed.

(** ** Decimal printing is read back *)
Lemma dec_value_app acc s c :
  dec_value acc (s +:+ String c EmptyString) = 10 * dec_value acc s + digit_val c.
Proof. revert acc. induction s as [|a s IH]; intros acc; [done|]. exact (IH _). Qed.

Lemma digit_of x : (x < 10)%N -> digit_val (pretty_N_char x) = Z.of_N x /\ is_digit (pretty_N_char x) = true.
Proof.
  intros Hx. assert (x = 0 \/ x = 1 \/ x = 2 \/ x = 3 \/ x = 4 \/ x = 5 \/ x = 6 \/ x = 7 \/ x = 8
    \/ x = 9)%N as Hc by lia.
  repeat destruct Hc as [->|Hc]; try done. by subst.
Qed.

Lemma pretty_N_go_app x s : pretty_N_go x s = pretty_N_go x "" +:+ s.
Proof.
  revert s. induction (N.lt_wf_0 x) as [x _ IH]; intros s.
  destruct (decide (x = 0)%N) as [->|Hx]; [done|].
  rewrite !(pretty_N_go_step x) by lia.
  assert (x `div` 10 < x)%N as Hlt by (apply N.div_lt; lia).
  rewrite (IH _ Hlt), (IH _ Hlt (String _ "")), <- str_app_assoc. done.
Qed.

Lemma pretty_N_go_value x :
  dec_value 0 (pretty_N_go x "") = Z.of_N x /\ all_chars is_digit (pretty_N_go x "") = true.
Proof.
  induction (N.lt_wf_0 x) as [x _ IH].
  destruct (decide (x = 0)%N) as [->|Hx]; [done|].
  rewrite (pretty_N_go_step x) by lia. rewrite pretty_N_go_app.
  assert (x `div` 10 < x)%N as Hlt by (apply N.div_lt; lia).
  destruct (IH _ Hlt) as [Hv Hd]. destruct (digit_of (x `mod` 10)%N) as [Dv Dd].
  { by apply N.mod_lt. }
  rewrite dec_value_app, Hv, Dv, all_chars_app, Hd. simpl. rewrite Dd. split; [|done].
  rewrite (N.div_mod x 10) at 3 by done. lia.
Qed.

Lemma dec_digits n : 0 <= n -> dec_value 0 (dec n) = n /\ all_chars is_digit (dec n) = true /\ dec n <> "".
Proof.
  intros Hn. unfold dec, pretty, pretty_Z. destruct n as [|p|p]; [done| |lia].
  unfold pretty, pretty_positive, pretty, pretty_N. rewrite decide_False by done.
  destruct (pretty_N_go_value (N.pos p)) as [Hv Hd]. split_and!; [done|done|].
  intros E. rewrite E in Hv. done.
Qed.

(** ** Lines of a file: fgets *)
Fixpoint fgets_take (n : nat) (f : string) : string * string :=
  match n, f with
  | S n, String c f =>
      if aeq c NL then (String c EmptyString, f)
      else let '(l, rest) := fgets_take n f in (String c l, rest)
  | _, _ => (EmptyString, f)
  end.

(** [fgets(buf, n, fp)]: the bytes stored and the rest of the file. *)
Definition fgets (n : Z) (f : string) : option (string * string) :=
  if n <=? 0 then None
  else if n =? 1 then Some (EmptyString, f)
  else match f with
       | EmptyString => None
       | _ => Some (fgets_take (Z.to_nat (n - 1)) f)
       end.


Lemma fgets_take_length n f :
  (strlen (fgets_take n f).1 + strlen (fgets_take n f).2 = strlen f)%nat.
Proof.
  revert f. induction n as [|n IH]; intros [|c f]; simpl; try done.
  destruct (aeq c NL); simpl; [done|]. specialize (IH f).
  destruct (fgets_take n f) as [l r]. simpl in *. lia.
Qed.

Lemma fgets_take_pos n c f : (0 < strlen (fgets_take (S n) (String c f)).1)%nat.
Proof. simpl. destruct (aeq c NL); simpl; [lia|]. destruct (fgets_take n f). simpl. lia. Qed.

Lemma fgets_rest n f buf rest :
  1 < n -> fgets n f = Some (buf, rest) ->
  (strlen buf + strlen rest = strlen f)%nat /\ (0 < strlen buf)%nat /\ (strlen rest < strlen f)%nat.
Proof.
  intros Hn. unfold fgets. destruct (Z.leb_spec n 0), (Z.eqb_spec n 1); try lia.
  destruct f as [|c f]; [done|]. intros E. injection E as E.
  pose proof (fgets_take_length (Z.to_nat (n - 1)) (String c f)) as H1. rewrite E in H1. simpl in H1.
  destruct (Z.to_nat (n - 1)) eqn:En; [lia|].
  pose proof (fgets_take_pos n1 c f) as H2. rewrite E in H2. simpl in H2 |- *. lia.
Qed.

Definition nul_free (s : string) : bool := all_chars (fun c => negb (aeq c NUL)) s.

Lemma fgets_take_chars p n f :
  all_chars p f = true ->
  all_chars p (fgets_take n f).1 = true /\ all_chars p (fgets_take n f).2 = true.
Proof.
  revert f. induction n as [|n IH]; intros [|c f]; simpl; try done.
  intros [Hc Hf]%andb_true_iff. destruct (aeq c NL); simpl; [by rewrite Hc|].
  specialize (IH f Hf). destruct (fgets_take n f). simpl in *. by rewrite Hc.
Qed.

Lemma fgets_take_bound n f : (strlen (fgets_take n f).1 <= n)%nat.
Proof.
  revert f. induction n as [|n IH]; intros [|c f]; simpl; try lia.
  destruct (aeq c NL); simpl; [lia|]. specialize (IH f). destruct (fgets_take n f). simpl in *. lia.
Qed.

Lemma fgets_chars n f buf rest :
  nul_free f = true -> fgets n f = Some (buf, rest) ->
  nul_free buf = true /\ nul_free rest = true /\ Z.of_nat (strlen buf) <= Z.max 0 (n - 1).
Proof.
  intros Hf. unfold fgets. destruct (Z.leb_spec n 0), (Z.eqb_spec n 1); try lia; try done.
  - intros [= <- <-]. split_and!; [done|done|simpl; lia].
  - destruct f as [|c f]; [done|]. intros E. injection E as E.
    destruct (fgets_take_chars (fun c => negb (aeq c NUL)) (Z.to_nat (n - 1)) (String c f) Hf) as [H1 H2].
    pose proof (fgets_take_bound (Z.to_nat (n - 1)) (String c f)) as H3.
    rewrite E in H1, H2, H3. simpl in *. split_and!; [done|done|lia].
Qed.
