(* ===== verification/StringMap.v ===== *)
(** * String maps (src/data/map/stringmap.c, src/include/stringmap.h)

    An unbalanced binary search tree of C strings.  A node owns its key, its
    data and its two children, so a tree is a value; the key of the root of a
    new map is [NULL].  [KeyedStore] is what the configuration (cfgfile.c)
    relies on. *)

From S2P Require Import Prelude CStr.

Local Open Scope Z_scope.

Inductive stringmap (A : Type) :=
  | Null
  | Node (key : option string) (data : A) (lesser greater : stringmap A).
Arguments Null {A}.
Arguments Node {A}.

Section stringmap.
Context {A : Type} (null_item : A).
Implicit Types (map : stringmap A) (key : string) (data : A).

Definition stringmap_new : stringmap A := Node None null_item Null Null.

(** strcmp *)
Definition strcmp (a b : string) : comparison := String.compare a b.

(** The insertion loop below a node that has a key; [None] is strcmp on a
    [NULL] key. *)
Fixpoint insert_loop map key data : option (option A * stringmap A) :=
  match map with
  | Null | Node None _ _ _ => None
  | Node (Some k) d lesser greater =>
      match strcmp key k with
      | Eq => Some (Some d, map)
      | Lt =>
          match lesser with
          | Null => Some (None, Node (Some k) d (Node (Some key) data Null Null) greater)
          | _ =>
              '(existing, l) ← insert_loop lesser key data;
              Some (existing, Node (Some k) d l greater)
          end
      | Gt =>
          match greater with
          | Null => Some (None, Node (Some k) d lesser (Node (Some key) data Null Null))
          | _ =>
              '(existing, g) ← insert_loop greater key data;
              Some (existing, Node (Some k) d lesser g)
          end
      end
  end.

(** The item that was there already, or nothing after a new node was made. *)
Definition stringmap_insert map key data : option (option A * stringmap A) :=
  match map with
  | Null => Some (None, Null)
  | Node None _ lesser greater => Some (None, Node (Some key) data lesser greater)
  | _ => insert_loop map key data
  end.

Fixpoint find_loop map key : option (option A) :=
  match map with
  | Null | Node None _ _ _ => None
  | Node (Some k) d lesser greater =>
      match strcmp key k with
      | Eq => Some (Some d)
      | Lt => match lesser with Null => Some None | _ => find_loop lesser key end
      | Gt => match greater with Null => Some None | _ => find_loop greater key end
      end
  end.

Definition stringmap_find map key : option (option A) :=
  match map with
  | Null | Node None _ _ _ => Some None
  | _ => find_loop map key
  end.

(** [entry = stringmap_find(map, key); entry->data = data;] *)
Fixpoint stringmap_store map key data : stringmap A :=
  match map with
  | Node (Some k) d lesser greater =>
      match strcmp key k with
      | Eq => Node (Some k) data lesser greater
      | Lt => Node (Some k) d (stringmap_store lesser key data) greater
      | Gt => Node (Some k) d lesser (stringmap_store greater key data)
      end
  | _ => map
  end.

(** The keys and the data freed by stringmap_delete_free, in order. *)
Fixpoint stringmap_delete_free map : list (option string * A) :=
  match map with
  | Null => []
  | Node key data lesser greater =>
      stringmap_delete_free lesser ++ stringmap_delete_free greater ++ [(key, data)]
  end.

(** stringmap_delete frees the keys only. *)
Fixpoint stringmap_delete map : list (option string) :=
  match map with
  | Null => []
  | Node key _ lesser greater =>
      stringmap_delete lesser ++ stringmap_delete greater ++ [key]
  end.
End stringmap.

(** ** What the configuration needs of a store of strings *)
Class KeyedStore (T A : Type) (empty : T) (find : T -> string -> option (option A))
    (insert : T -> string -> A -> option (option A * T)) (store : T -> string -> A -> T)
    (rep : T -> gmap string A -> Prop) : Prop := {
  ks_empty : rep empty ∅;
  ks_find t m k : rep t m -> find t k = Some (m !! k);
  ks_insert t m k a : rep t m ->
    exists t', insert t k a = Some (m !! k, t') /\
      rep t' (match m !! k with Some _ => m | None => <[k := a]> m end);
  ks_store t m k a b : rep t m -> m !! k = Some b -> rep (store t k a) (<[k := a]> m)
}.

(** ** Search trees *)
Definition slt (a b : string) : Prop := strcmp a b = Lt.

Lemma strcmp_eq a b : strcmp a b = Eq <-> a = b.
Proof.
  split; [apply String.compare_eq_iff|]. intros ->. unfold strcmp.
  pose proof (String.compare_antisym b b) as E. by destruct (String.compare b b).
Qed.

Lemma strcmp_gt a b : strcmp a b = Gt <-> slt b a.
Proof. unfold slt, strcmp. rewrite (String.compare_antisym b a). by destruct (String.compare a b). Qed.

Lemma strcmp_refl a : strcmp a a = Eq.
Proof. by apply strcmp_eq. Qed.

Lemma slt_irrefl a : ~ slt a a.
Proof. unfold slt. by rewrite strcmp_refl. Qed.

Section trees.
Context {A : Type} (null_item : A).
Implicit Types (t : stringmap A) (m : gmap string A).

(** Every key of the tree satisfies [P], and the tree is ordered. *)
Fixpoint bst (P : string -> Prop) t : Prop :=
  match t with
  | Null => True
  | Node None _ _ _ => False
  | Node (Some k) _ l g => P k /\ bst (fun j => P j /\ slt j k) l /\ bst (fun j => P j /\ slt k j) g
  end.

Fixpoint tree_map t : gmap string A :=
  match t with
  | Null => ∅
  | Node None _ _ _ => ∅
  | Node (Some k) d l g => <[k := d]> (tree_map l ∪ tree_map g)
  end.

Lemma bst_mono (P Q : string -> Prop) t : (forall k, P k -> Q k) -> bst P t -> bst Q t.
Proof.
  revert P Q. induction t as [|[k|] d l IHl g IHg]; intros P Q HPQ; simpl; [done| |done].
  intros (Hk & Hl & Hg). split_and!; [auto|..]; [eapply IHl|eapply IHg]; eauto; naive_solver.
Qed.

Lemma bst_keys P t k : bst P t -> is_Some (tree_map t !! k) -> P k.
Proof.
  revert P. induction t as [|[k'|] d l IHl g IHg]; intros P; simpl;
    [rewrite lookup_empty; by intros _ [? ?]| |done].
  intros (Hk & Hl & Hg). rewrite lookup_insert_is_Some. intros [<-|[_ Hs]]; [done|].
  apply lookup_union_is_Some in Hs as [Hs|Hs];
    [by destruct (IHl _ Hl Hs)|by destruct (IHg _ Hg Hs)].
Qed.

Lemma bst_absent P t k : bst P t -> ~ P k -> tree_map t !! k = None.
Proof. intros Ht Hk. apply eq_None_not_Some. intros Hs. by eapply bst_keys in Hs. Qed.

(** Where the lookup of a key goes on. *)
Lemma tree_map_lookup P k d l g j :
  bst P (Node (Some k) d l g) ->
  tree_map (Node (Some k) d l g) !! j =
    match strcmp j k with Eq => Some d | Lt => tree_map l !! j | Gt => tree_map g !! j end.
Proof.
  simpl. intros (_ & Hl & Hg). destruct (strcmp j k) eqn:E.
  - apply strcmp_eq in E as ->. apply lookup_insert_eq.
  - rewrite lookup_insert_ne by (intros ->; rewrite strcmp_refl in E; done).
    rewrite lookup_union_l; [done|]. eapply bst_absent; [done|]. intros [_ H].
    apply strcmp_gt in H. congruence.
  - rewrite lookup_insert_ne by (intros ->; rewrite strcmp_refl in E; done).
    rewrite lookup_union_r; [done|]. eapply bst_absent; [done|]. intros [_ H].
    unfold slt in H. congruence.
Qed.

Lemma find_loop_spec P t k : bst P t -> t <> Null -> find_loop t k = Some (tree_map t !! k).
Proof.
  revert P. induction t as [|[k'|] d l IHl g IHg]; intros P Ht Hn; [done| |done].
  rewrite (tree_map_lookup P) by done. cbn [find_loop]. destruct Ht as (_ & Hl & Hg).
  destruct (strcmp k k'); [done|..].
  - destruct l; [done|]. by eapply IHl.
  - destruct g; [done|]. by eapply IHg.
Qed.

Lemma tree_map_ext P t k a m' :
  bst P t -> (forall j, tree_map t !! j = (<[k := a]> m') !! j) -> tree_map t = <[k := a]> m'.
Proof. intros _ H. by apply map_eq. Qed.

Lemma insert_loop_spec (P : string -> Prop) t k a :
  bst P t -> t <> Null -> P k ->
  exists t', insert_loop t k a = Some (tree_map t !! k, t') /\ bst P t' /\ t' <> Null /\
    forall j, tree_map t' !! j =
      match tree_map t !! k with Some _ => tree_map t !! j | None => (<[k := a]> (tree_map t)) !! j end.
Proof.
  revert P. induction t as [|[k'|] d l IHl g IHg]; intros P Ht Hn Hk; [done| |done].
  pose proof (tree_map_lookup P k' d l g) as Hlook.
  rewrite (Hlook k Ht). cbn [insert_loop]. pose proof Ht as (Hk' & Hl & Hg).
  destruct (strcmp k k') eqn:E.
  - eexists. by split_and!.
  - assert (forall l', bst (fun j => P j /\ slt j k') l' ->
      (forall j, tree_map l' !! j = match tree_map l !! k with
         Some _ => tree_map l !! j | None => (<[k := a]> (tree_map l)) !! j end) ->
      bst P (Node (Some k') d l' g) /\ Node (Some k') d l' g <> Null /\
      forall j, tree_map (Node (Some k') d l' g) !! j =
        match tree_map l !! k with Some _ => tree_map (Node (Some k') d l g) !! j
        | None => (<[k := a]> (tree_map (Node (Some k') d l g))) !! j end) as Hgo.
    { intros l' Hl' Hj. assert (bst P (Node (Some k') d l' g)) as Hb by done.
      split_and!; [done|done|]. intros j. rewrite (tree_map_lookup P _ _ _ _ _ Hb).
      rewrite (Hlook j Ht). specialize (Hj j). destruct (tree_map l !! k).
      - by rewrite Hj.
      - rewrite lookup_insert in Hj |- *. case_decide as Ejk; [subst; by rewrite E|].
        rewrite (Hlook j Ht). by rewrite Hj. }
    destruct l as [|kl dl ll gl].
    + eexists. split; [done|]. apply Hgo; [simpl; naive_solver|]. simpl. intros j.
      rewrite lookup_empty. by rewrite (left_id_L ∅ (∪)).
    + destruct (IHl _ Hl ltac:(done) (conj Hk E)) as (l' & -> & Hl' & _ & Hj).
      eexists. split; [done|]. by apply Hgo.
  - apply strcmp_gt in E as E'. 
    assert (forall g', bst (fun j => P j /\ slt k' j) g' ->
      (forall j, tree_map g' !! j = match tree_map g !! k with
         Some _ => tree_map g !! j | None => (<[k := a]> (tree_map g)) !! j end) ->
      bst P (Node (Some k') d l g') /\ Node (Some k') d l g' <> Null /\
      forall j, tree_map (Node (Some k') d l g') !! j =
        match tree_map g !! k with Some _ => tree_map (Node (Some k') d l g) !! j
        | None => (<[k := a]> (tree_map (Node (Some k') d l g))) !! j end) as Hgo.
    { intros g' Hg' Hj. assert (bst P (Node (Some k') d l g')) as Hb by done.
      split_and!; [done|done|]. intros j. rewrite (tree_map_lookup P _ _ _ _ _ Hb).
      rewrite (Hlook j Ht). specialize (Hj j). destruct (tree_map g !! k).
      - by rewrite Hj.
      - rewrite lookup_insert in Hj |- *. case_decide as Ejk; [subst; by rewrite E|].
        rewrite (Hlook j Ht). by rewrite Hj. }
    destruct g as [|kg dg lg gg].
    + eexists. split; [done|]. apply Hgo; [simpl; naive_solver|]. simpl. intros j.
      rewrite lookup_empty. by rewrite (left_id_L ∅ (∪)).
    + destruct (IHg _ Hg ltac:(done) (conj Hk E')) as (g' & -> & Hg' & _ & Hj).
      eexists. split; [done|]. by apply Hgo.
Qed.

Lemma store_spec P t k a b :
  bst P t -> tree_map t !! k = Some b ->
  bst P (stringmap_store t k a) /\
  forall j, tree_map (stringmap_store t k a) !! j = (<[k := a]> (tree_map t)) !! j.
Proof.
  revert P. induction t as [|[k'|] d l IHl g IHg]; intros P Ht Hk;
    [simpl in Hk; by rewrite lookup_empty in Hk| |done].
  pose proof (tree_map_lookup P k' d l g) as Hlook. rewrite (Hlook k Ht) in Hk.
  pose proof Ht as (Hk' & Hl & Hg). cbn [stringmap_store]. destruct (strcmp k k') eqn:E.
  - apply strcmp_eq in E as ->. split; [done|]. intros j. simpl. by rewrite insert_insert_eq.
  - destruct (IHl _ Hl Hk) as [Hb Hj].
    assert (bst P (Node (Some k') d (stringmap_store l k a) g)) as Hb' by done.
    split; [done|]. intros j. rewrite (tree_map_lookup P _ _ _ _ _ Hb'), Hj, !lookup_insert.
    rewrite (Hlook j Ht). case_decide; [subst; by rewrite E|done].
  - destruct (IHg _ Hg Hk) as [Hb Hj].
    assert (bst P (Node (Some k') d l (stringmap_store g k a))) as Hb' by done.
    split; [done|]. intros j. rewrite (tree_map_lookup P _ _ _ _ _ Hb'), Hj, !lookup_insert.
    rewrite (Hlook j Ht). case_decide; [subst; by rewrite E|done].
Qed.

(** ** A map as the callers hold it: new and empty, or a search tree *)
Definition sm_rep t m : Prop :=
  (exists d, t = Node None d Null Null /\ m = ∅) \/
  (t <> Null /\ bst (fun _ => True) t /\ forall j, tree_map t !! j = m !! j).

#[export] Instance stringmap_store_laws :
  KeyedStore (stringmap A) A (stringmap_new null_item) stringmap_find stringmap_insert
    stringmap_store sm_rep.
Proof.
  split.
  - left. eauto.
  - intros t m k [(d & -> & ->)|(Hn & Hb & Hm)]; [done|]. destruct t as [|[k'|] d l g]; try done.
    rewrite <- Hm. by apply (find_loop_spec (fun _ => True)).
  - intros t m k a [(d & -> & ->)|(Hn & Hb & Hm)].
    + eexists. split; [done|]. right. split_and!; [done|by simpl|]. intros j. simpl.
      by rewrite (left_id_L ∅ (∪)), lookup_empty.
    + destruct t as [|[k'|] d l g]; try done.
      destruct (insert_loop_spec (fun _ => True) _ k a Hb Hn I) as (t' & Hi & Hb' & Hn' & Hj).
      exists t'. rewrite <- Hm. split; [exact Hi|]. right. split_and!; [done|done|].
      intros j. rewrite Hj. destruct (tree_map _ !! k); [apply Hm|].
      rewrite !lookup_insert. by case_decide.
  - intros t m k a b [(d & -> & ->)|(Hn & Hb & Hm)] Hk; [by rewrite lookup_empty in Hk|].
    rewrite <- Hm in Hk. destruct (store_spec _ _ k a b Hb Hk) as [Hb' Hj]. right.
    split_and!; [|done|].
    + destruct t as [|[k'|] d l g]; try done. simpl. by destruct (strcmp k k').
    + intros j. rewrite Hj, !lookup_insert. by case_decide.
Qed.
End trees.

(** ** Runs *)
Inductive sm_op (A : Type) := SmInsert (k : string) (a : A) | SmFind (k : string).
Arguments SmInsert {A}.
Arguments SmFind {A}.

Fixpoint sm_run {A} (os : list (sm_op A)) (t : stringmap A) : option (list (option A)) :=
  match os with
  | [] => Some []
  | SmInsert k a :: os => '(e, t) ← stringmap_insert t k a; r ← sm_run os t; Some (e :: r)
  | SmFind k :: os => e ← stringmap_find t k; r ← sm_run os t; Some (e :: r)
  end.

Fixpoint sm_spec {A} (os : list (sm_op A)) (m : gmap string A) : list (option A) :=
  match os with
  | [] => []
  | SmInsert k a :: os =>
      m !! k :: sm_spec os (match m !! k with Some _ => m | None => <[k := a]> m end)
  | SmFind k :: os => m !! k :: sm_spec os m
  end.

Lemma sm_run_spec {A} (null_item : A) (os : list (sm_op A)) (t : stringmap A) m : sm_rep t m -> sm_run os t = Some (sm_spec os m).
Proof.
  pose proof (stringmap_store_laws null_item) as L.
  revert t m. induction os as [|[k a|k] os IH]; intros t m Hr; [done|..]; cbn [sm_run sm_spec].
  - destruct (ks_insert t m k a Hr) as (t' & -> & Hr'). cbn [mbind option_bind].
    by rewrite (IH t' _ Hr').
  - rewrite (ks_find t m k Hr). cbn [mbind option_bind]. by rewrite (IH t m Hr).
Qed.

(** C39: starting from [stringmap_new], any sequence of insertions and lookups
    runs (strcmp never meets a NULL key) and answers as a finite map in which
    the first insertion of a key wins and later ones return its item. *)
Theorem stringmap_refines_gmap {A} (null_item : A) (os : list (sm_op A)) :
  sm_run os (stringmap_new null_item) = Some (sm_spec os ∅).
Proof. apply (sm_run_spec null_item), (ks_empty (KeyedStore := stringmap_store_laws null_item)). Qed.
