(* ===== verification/CfgFile.v ===== *)
(** * Configuration file (src/config/cfgfile.c)

    [config] is a string map from directives to values.  The command line
    writes it first ([config_set_string]), then the file is read and never
    overrides a value.  The text of the file is the argument of
    [read_config_file]; lines are read into a buffer of [MAX_CONFIG_LINE]
    bytes. *)

From S2P Require Import Prelude CStr StringMap.

Local Open Scope Z_scope.

Definition MAX_CONFIG_LINE : Z := 2048.

Definition config_directives : list string :=
  ["interface"; "dns-resolution"; "port-resolution"; "filter-code"; "show-bars"; "promiscuous";
   "hide-source"; "hide-destination"; "use-bytes"; "sort"; "line-display"; "show-totals";
   "log-scale"; "max-bandwidth"; "net-filter"; "net-filter6"; "link-local"; "port-display";
   "show-processes"].

Definition is_cfgdirective_valid (directive : string) : bool :=
  existsb (String.eqb directive) config_directives.

Abbreviation config := (stringmap string).

Definition config_init : config := stringmap_new "".

(** ** Lines *)

(** [for (end = line + strlen(line) - 1; end > line && *end == '\n'; *(end--) = 0);] *)
Definition strip_newlines (line : string) : string :=
  match line with
  | EmptyString => EmptyString
  | String c s => String c (rtrim (fun a => aeq a NL) s)
  end.

Definition BACKSLASH : ascii := "\"%char.

(** Continuation lines; [None] is the read of [line[-1]] when a NUL byte made
    the line empty. *)
Fixpoint continuation (fuel : nat) (line f : string) : option (string * string) :=
  match fuel with
  | O => None
  | S fuel =>
      c ← last_char line;
      if aeq c BACKSLASH then
        match fgets (MAX_CONFIG_LINE - Z.of_nat (strlen line)) f with
        | None => Some (line, f)
        | Some (more, f) => continuation fuel (strip_newlines (cstr (but_last line +:+ more))) f
        end
      else Some (line, f)
  end.

Definition blanks : string := String " " (String TAB EmptyString).

Definition key_end : string := String " " (String TAB (String ":" EmptyString)).

(** The key and the value of a logical line, if it has both. *)
Definition parse_line (line : string) : option (string * string) :=
  let line := until_set (String "#" (String NL EmptyString)) line in
  let key := skip_set blanks line in
  value ← after_char ":" line;
  let key := until_set key_end key in
  if bool_decide (key = EmptyString) then None
  else Some (key, rtrim (one_of blanks) (skip_set blanks value)).

(** What one logical line does to the configuration; an unknown directive is
    reported on stderr with its line number. *)
Definition read_line (cfg : config) (line_num : Z) (line : string) :
    option (config * list (Z * string)) :=
  match parse_line line with
  | None => Some (cfg, [])
  | Some (key, value) =>
      if is_cfgdirective_valid key then
        '(_, cfg) ← stringmap_insert cfg key value; Some (cfg, [])
      else Some (cfg, [(line_num, key)])
  end.

Definition cont_fuel (line f : string) : nat := S (2 * strlen f + strlen line).

Fixpoint read_lines (fuel : nat) (cfg : config) (line_num : Z) (f : string) :
    option (config * list (Z * string)) :=
  match fuel with
  | O => None
  | S fuel =>
      match fgets MAX_CONFIG_LINE f with
      | None => Some (cfg, [])
      | Some (buf, f) =>
          let line := strip_newlines (cstr buf) in
          '(line, f) ← continuation (cont_fuel line f) line f;
          '(cfg, w) ← read_line cfg line_num line;
          '(cfg, ws) ← read_lines fuel cfg (line_num + 1) f;
          Some (cfg, w ++ ws)
      end
  end.

(** [contents] is [None] when the file cannot be opened. *)
Definition read_config_file (cfg : config) (contents : option string) :
    option (Z * config * list (Z * string)) :=
  match contents with
  | None => Some (0, cfg, [])
  | Some f => '(cfg, ws) ← read_lines (S (strlen f)) cfg 1 f; Some (1, cfg, ws)
  end.

(** ** Reading and writing values *)
Definition config_get_string (cfg : config) (directive : string) : option (option string) :=
  stringmap_find cfg directive.

(** The status and, for a value, the number written to [*value]. *)
Definition config_get_int (cfg : config) (directive : string) : option (Z * option Z) :=
  entry ← stringmap_find cfg directive;
  match entry with
  | None => Some (0, None)
  | Some EmptyString => Some (-1, None)
  | Some str =>
      let '(v, rest, erange) := strtol str in
      Some (if bool_decide (rest <> EmptyString) then -1 else if erange : bool then -1 else 1,
            Some (s32 v))
  end.

Definition config_get_bool (cfg : config) (directive : string) : option bool :=
  str ← config_get_string cfg directive;
  Some (match str with
        | Some s => String.eqb s "yes" || String.eqb s "true"
        | None => false
        end).

(** An enumeration, up to its [{NULL, -1}] entry. *)
Definition config_enumeration_type : Type := list (string * Z).

Fixpoint enum_value (enumeration : config_enumeration_type) (str : string) : option Z :=
  match enumeration with
  | [] => None
  | (name, value) :: entries => if String.eqb str name then Some value else enum_value entries str
  end.

Definition config_get_enum (cfg : config) (directive : string)
    (enumeration : config_enumeration_type) : option (option Z) :=
  str ← config_get_string cfg directive;
  Some (match str with Some s => enum_value enumeration s | None => None end).

Definition config_set_string (cfg : config) (directive str : string) : option config :=
  entry ← stringmap_find cfg directive;
  match entry with
  | Some _ => Some (stringmap_store cfg directive str)
  | None => '(_, cfg) ← stringmap_insert cfg directive str; Some cfg
  end.

(** ** Reading always ends *)
Lemma strip_newlines_ok line :
  nul_free line = true -> nul_free (strip_newlines line) = true /\
  (strlen (strip_newlines line) <= strlen line)%nat /\
  (line <> EmptyString -> strip_newlines line <> EmptyString).
Proof.
  destruct line as [|c s]; [done|]. intros [Hc Hs]%andb_true_iff. split_and!; [|simpl|done].
  - unfold nul_free. simpl. rewrite Hc. by apply all_chars_rtrim.
  - pose proof (rtrim_length (fun a => aeq a NL) s). lia.
Qed.

Lemma strlen_pos s : (0 < strlen s)%nat <-> s <> EmptyString.
Proof. destruct s; simpl; [split; [lia|done]|split; [done|lia]]. Qed.

Lemma continuation_ends fuel line f :
  nul_free line = true -> nul_free f = true -> line <> EmptyString ->
  Z.of_nat (strlen line) < MAX_CONFIG_LINE -> (2 * strlen f + strlen line < fuel)%nat ->
  exists line' f', continuation fuel line f = Some (line', f') /\ nul_free f' = true /\
    (strlen f' <= strlen f)%nat /\ nul_free line' = true.
Proof.
  revert line f. induction fuel as [|fuel IH]; intros line f Hl Hf Hne Hlen Hfu; [lia|].
  cbn [continuation]. destruct (last_char_Some line Hne) as [c Hc]. rewrite Hc.
  cbn [mbind option_bind]. destruct (aeq c BACKSLASH); [|eauto 8].
  destruct (fgets _ f) as [[more f1]|] eqn:Hg; [|eauto 8].
  destruct (fgets_chars _ _ _ _ Hf Hg) as (Hm & Hf1 & Hml). unfold MAX_CONFIG_LINE in *.
  set (line1 := but_last line +:+ more).
  assert (nul_free line1 = true) as Hl1.
  { unfold nul_free, line1. rewrite all_chars_app.
    apply andb_true_iff. split; [by apply all_chars_but_last|done]. }
  rewrite cstr_id by done. destruct (strip_newlines_ok line1 Hl1) as (Hs1 & Hs2 & Hs3).
  assert (strlen line1 = (pred (strlen line) + strlen more)%nat) as El
    by (unfold line1; by rewrite strlen_app, but_last_length).
  apply strlen_pos in Hne.
  destruct (decide (2048 - Z.of_nat (strlen line) = 1)) as [E1|E1].
  - unfold fgets in Hg. rewrite E1 in Hg. simpl in Hg. simplify_eq. simpl in El.
    apply IH; try done; [|lia|lia]. apply Hs3, strlen_pos. lia.
  - assert (1 < 2048 - Z.of_nat (strlen line)) as Hn by lia.
    destruct (fgets_rest _ _ _ _ Hn Hg) as (E & Hp & Hr).
    destruct (IH (strip_newlines line1) f1) as (l' & f' & Hi & Hf' & Hle & Hl'); try done; [|lia|lia|].
    + apply Hs3, strlen_pos. lia.
    + exists l', f'. split_and!; [done|done|lia|done].
Qed.

(** ** First bindings win *)
Section reading.
Implicit Types (m : gmap string string) (cfg : config).

Definition extends m m' : Prop :=
  m ⊆ m' /\ forall k, is_Some (m' !! k) -> is_Some (m !! k) \/ is_cfgdirective_valid k = true.

Lemma extends_refl m : extends m m.
Proof. split; [done|auto]. Qed.

Lemma extends_trans m1 m2 m3 : extends m1 m2 -> extends m2 m3 -> extends m1 m3.
Proof.
  intros [H1 K1] [H2 K2]. split; [by transitivity m2|]. intros k [Hk|Hk]%K2; [|by right].
  by apply K1.
Qed.

(** The map after the logical line [line]. *)
Definition line_map m (line : string) : gmap string string :=
  match parse_line line with
  | Some (k, v) =>
      if is_cfgdirective_valid k then match m !! k with Some _ => m | None => <[k := v]> m end else m
  | None => m
  end.

Lemma line_map_extends m line : extends m (line_map m line).
Proof.
  unfold line_map. destruct (parse_line line) as [[k v]|]; [|apply extends_refl].
  destruct (is_cfgdirective_valid k) eqn:Hv; [|apply extends_refl].
  destruct (m !! k) eqn:E; [apply extends_refl|]. split; [by apply insert_subseteq|].
  intros j [<-|[_ Hj]]%lookup_insert_is_Some; [by right|by left].
Qed.

(** Every value can be read as a C string. *)
Definition nul_free_values m : Prop := map_Forall (fun _ v => nul_free v = true) m.

Lemma parse_line_value line k v : nul_free line = true -> parse_line line = Some (k, v) -> nul_free v = true.
Proof.
  unfold parse_line. intros Hl (value & Hv & H)%bind_Some. case_bool_decide; [done|]. injection H as _ <-.
  apply all_chars_rtrim, all_chars_drop. eapply all_chars_after; [|exact Hv]. by apply all_chars_take.
Qed.

Lemma line_map_values m line : nul_free line = true -> nul_free_values m -> nul_free_values (line_map m line).
Proof.
  intros Hl Hm. unfold line_map. destruct (parse_line line) as [[k v]|] eqn:E; [|done].
  destruct (is_cfgdirective_valid k); [|done]. destruct (m !! k); [done|].
  apply map_Forall_insert_2; [by eapply parse_line_value|done].
Qed.

Lemma read_line_spec cfg m n line :
  sm_rep cfg m -> exists cfg' ws, read_line cfg n line = Some (cfg', ws) /\
    sm_rep cfg' (line_map m line).
Proof.
  pose proof (stringmap_store_laws ("" : string)) as L.
  intros Hr. unfold read_line, line_map. destruct (parse_line line) as [[k v]|]; [|eauto].
  destruct (is_cfgdirective_valid k); [|eauto].
  destruct (ks_insert cfg m k v Hr) as (cfg' & -> & Hr'). cbn [mbind option_bind]. eauto.
Qed.

(** The logical lines of a file, whatever is done with them. *)
Lemma read_logical fuel f :
  nul_free f = true -> (strlen f < fuel)%nat ->
  exists ls, Forall (fun line => nul_free line = true) ls /\ forall cfg m n, sm_rep cfg m ->
    exists cfg' ws, read_lines fuel cfg n f = Some (cfg', ws) /\ sm_rep cfg' (foldl line_map m ls).
Proof.
  revert f. induction fuel as [|fuel IH]; intros f Hf Hfu; [lia|].
  cbn [read_lines]. destruct (fgets _ f) as [[buf f1]|] eqn:Hg.
  2:{ exists []. split; [done|]. intros cfg m n Hr. by exists cfg, []. }
  destruct (fgets_chars _ _ _ _ Hf Hg) as (Hb & Hf1 & Hbl).
  destruct (fgets_rest _ _ _ _ (eq_refl : 1 < MAX_CONFIG_LINE) Hg) as (E & Hp & Hlt).
  rewrite cstr_id by done. destruct (strip_newlines_ok buf Hb) as (Hs1 & Hs2 & Hs3).
  destruct (continuation_ends (cont_fuel (strip_newlines buf) f1) (strip_newlines buf) f1)
    as (line & f2 & -> & Hf2 & Hle & Hline); [done|done|by apply Hs3, strlen_pos|..].
  { unfold MAX_CONFIG_LINE in *. lia. }
  { unfold cont_fuel. lia. }
  cbn [mbind option_bind]. destruct (IH f2 Hf2) as (ls & Hls & Hread); [lia|].
  exists (line :: ls). split; [by constructor|]. intros cfg m n Hr.
  destruct (read_line_spec cfg m n line Hr) as (cfg1 & w & -> & Hr1). cbn [mbind option_bind].
  destruct (Hread cfg1 _ (n + 1) Hr1) as (cfg' & ws & -> & Hr'). by exists cfg', (w ++ ws).
Qed.

Lemma lines_map_extends ls : forall m, extends m (foldl line_map m ls).
Proof.
  induction ls as [|line ls IH]; intros m; [apply extends_refl|].
  eapply extends_trans; [apply line_map_extends|apply IH].
Qed.

Lemma lines_map_values ls : forall m,
  Forall (fun line => nul_free line = true) ls -> nul_free_values m -> nul_free_values (foldl line_map m ls).
Proof.
  induction ls as [|line ls IH]; intros m Hls Hm; [done|]. apply Forall_cons in Hls as [Hl Hls].
  by apply IH, line_map_values.
Qed.

(** The lines read after others, and the lines read alone. *)
Lemma line_map_union a m line : line_map (a ∪ m) line = a ∪ line_map m line.
Proof.
  unfold line_map. destruct (parse_line line) as [[k v]|]; [|done].
  destruct (is_cfgdirective_valid k); [|done]. rewrite lookup_union.
  assert (forall j, j <> k -> (a ∪ m) !! j = (a ∪ <[k := v]> m) !! j) as Hne
    by (intros j Hj; rewrite !lookup_union, lookup_insert_ne; done).
  destruct (m !! k) as [y|] eqn:Em; [by destruct (a !! k)|]. destruct (a !! k) as [x|] eqn:Ea; simpl;
    apply map_eq; intros j; (destruct (decide (j = k)) as [->|Hj];
      [|try rewrite lookup_insert_ne by done; by apply Hne]).
  - by rewrite !lookup_union, Ea, Em, lookup_insert_eq.
  - by rewrite lookup_union, !lookup_insert_eq, Ea.
Qed.

Lemma lines_map_union a ls : forall m, foldl line_map (a ∪ m) ls = a ∪ foldl line_map m ls.
Proof. induction ls as [|line ls IH]; intros m; [done|]. cbn [foldl]. by rewrite line_map_union, IH. Qed.

End reading.

(** ** What a line says *)
Definition blank_text (s : string) : Prop := all_chars (one_of blanks) s = true.

(** No character of [s] is one of [set]. *)
Definition without (set s : string) : Prop := all_chars (fun c => negb (one_of set c)) s = true.

Definition opens_with (p : ascii -> bool) (s : string) : bool := match s with String c _ => p c | EmptyString => true end.
Definition ends_with (p : ascii -> bool) (s : string) : bool := match last_char s with Some c => p c | None => true end.

Definition comment_text (s : string) : Prop := opens_with (fun c => aeq c "#") s = true.

Definition key_stops : string := String " " (String TAB ":#").

(** [line] says nothing, or gives a value to a key:
<<
      key  junk :  value   # comment
>>
    The key ends at the first blank or colon and the value is what is between
    the colon and the comment, without the blanks at its ends. *)
Inductive says (line : string) : option (string * string) -> Prop :=
  | says_binding lead key gap pad value trail comment :
      line = lead +:+ key +:+ gap +:+ ":" +:+ pad +:+ value +:+ trail +:+ comment ->
      blank_text lead -> key <> "" -> without key_stops key ->
      opens_with (one_of blanks) gap = true -> without ":#" gap ->
      blank_text pad -> without "#" value ->
      opens_with (fun c => negb (one_of blanks c)) value = true ->
      ends_with (fun c => negb (one_of blanks c)) value = true ->
      blank_text trail -> comment_text comment -> says line (Some (key, value))
  | says_no_key lead rest :
      line = lead +:+ ":" +:+ rest -> blank_text lead -> says line None
  | says_nothing text comment :
      line = text +:+ comment -> without ":#" text -> comment_text comment -> says line None.

(** The line is read in one piece: it has no newline, fits the buffer and does
    not go on in the next one. *)
Definition whole_line (line : string) : Prop :=
  without (String NL (String NUL EmptyString)) line /\ ends_with (fun c => negb (aeq c BACKSLASH)) line = true /\
  Z.of_nat (strlen line) + 1 < MAX_CONFIG_LINE.

(** The file that has these lines. *)
Definition file_of (lines : list string) : string :=
  foldr (fun line f => line +:+ String NL f) EmptyString lines.

(** *** Every part of such a line is found *)
Lemma without_all set s p : without set s -> (forall c, p c = true -> one_of set c = true) ->
  all_chars (fun c => negb (p c)) s = true.
Proof.
  intros Hs Hp. eapply all_chars_impl; [|exact Hs]. intros c. cbn beta. rewrite !negb_true_iff.
  intros Hc. apply not_true_iff_false. intros H%Hp. congruence.
Qed.

Lemma span_opens p s t :
  all_chars p s = true -> opens_with (fun c => negb (p c)) t = true -> span p (s +:+ t) = (s, t).
Proof.
  intros Hs Ht. destruct t as [|c t]; [by rewrite app_empty_r, span_all|].
  apply span_stop; [done|]. by apply negb_true_iff.
Qed.

Lemma opens_with_app p s t : s <> "" -> opens_with p (s +:+ t) = opens_with p s.
Proof. by destruct s. Qed.

Lemma after_colon s t : all_chars (fun c => negb (aeq c ":")) s = true -> after_char ":" (s +:+ String ":" t) = Some t.
Proof. intros Hs. unfold after_char, drop_while. by rewrite span_stop. Qed.

Lemma rtrim_all p s : all_chars p s = true -> rtrim p s = "".
Proof. induction s as [|c s IH]; [done|]. intros [Hc Hs]%andb_true_iff. cbn [rtrim]. by rewrite (IH Hs), Hc. Qed.

Lemma rtrim_app p s t : all_chars p t = true -> rtrim p (s +:+ t) = rtrim p s.
Proof.
  intros Ht. induction s as [|c s IH]; [by apply rtrim_all|].
  change (String c s +:+ t) with (String c (s +:+ t)). cbn [rtrim]. by rewrite IH.
Qed.

Lemma rtrim_ends p s : ends_with (fun c => negb (p c)) s = true -> rtrim p s = s.
Proof.
  unfold ends_with. destruct s as [|c s]; [done|]. destruct (last_char_Some (String c s)) as [d Hd]; [done|].
  rewrite Hd. intros H%negb_true_iff. by eapply rtrim_id.
Qed.

(** The comment is cut, and the newline of an empty line. *)
Lemma until_comment text comment :
  without "#" text -> without (String NL EmptyString) text -> comment_text comment ->
  until_set (String "#" (String NL EmptyString)) (text +:+ comment) = text.
Proof.
  intros H1 H2 Hc. unfold until_set, take_while. rewrite span_opens; [done| |].
  - unfold without in *. clear Hc. induction text as [|c text IH]; [done|]. cbn [all_chars] in *.
    apply andb_true_iff in H1 as [A1 B1], H2 as [A2 B2]. rewrite (IH B1 B2), andb_true_r. cbn [one_of] in *.
    rewrite orb_false_r in *. by destruct (aeq c "#"), (aeq c NL).
  - destruct comment as [|c comment]; [done|]. cbn in *. by rewrite Hc.
Qed.

Lemma without_app set s t : without set (s +:+ t) <-> without set s /\ without set t.
Proof. unfold without. by rewrite all_chars_app, andb_true_iff. Qed.

Lemma blank_without set s : (forall c, one_of blanks c = true -> one_of set c = false) -> blank_text s -> without set s.
Proof. intros H. apply all_chars_impl. intros c Hc. by rewrite (H c Hc). Qed.

Lemma blank_not c d : one_of blanks c = true -> d <> " "%char -> d <> TAB -> aeq c d = false.
Proof.
  unfold blanks. cbn [one_of]. intros H Hs Ht. apply bool_decide_eq_false. intros ->. revert H.
  rewrite orb_false_r, orb_true_iff, !aeq_true. by intros [?|?].
Qed.

Lemma parse_binding line lead key gap pad value trail comment :
  line = lead +:+ key +:+ gap +:+ ":" +:+ pad +:+ value +:+ trail +:+ comment ->
  without (String NL EmptyString) line ->
  blank_text lead -> key <> "" -> without key_stops key ->
  opens_with (one_of blanks) gap = true -> without ":#" gap ->
  blank_text pad -> without "#" value ->
  opens_with (fun c => negb (one_of blanks c)) value = true ->
  ends_with (fun c => negb (one_of blanks c)) value = true ->
  blank_text trail -> comment_text comment -> parse_line line = Some (key, value).
Proof.
  intros -> Hnl Hlead Hne Hkey Hgap Hgap' Hpad Hv Hvo Hve Htrail Hcom.
  assert (forall c d, one_of blanks c = true -> d ∈ [":"; "#"; NL]%char -> aeq c d = false) as Hbl.
  { intros c d Hc Hd. apply blank_not; [done|..]; intros ->; revert Hd; by rewrite !elem_of_cons, elem_of_nil; intuition. }
  assert (forall s, blank_text s -> without "#" s /\ without ":" s) as Hblank.
  { intros s Hs. split; (eapply blank_without; [|exact Hs]); intros c Hc; cbn [one_of]; rewrite orb_false_r;
      apply (Hbl c); [done|set_solver|done|set_solver]. }
  assert (without "#" key /\ without ":" key /\ without blanks key /\ without key_end key) as (K1 & K2 & K3 & K4).
  { split_and!; apply (without_all _ _ _ Hkey); intros c; unfold key_stops, blanks, key_end; cbn [one_of];
      destruct (aeq c " "), (aeq c TAB), (aeq c ":"), (aeq c "#"); done. }
  assert (without "#" gap /\ without ":" gap) as [G1 G2].
  { split; apply (without_all _ _ _ Hgap'); intros c; cbn [one_of]; destruct (aeq c ":"), (aeq c "#"); done. }
  set (body := lead +:+ key +:+ gap +:+ String ":" (pad +:+ value +:+ trail)).
  assert (lead +:+ key +:+ gap +:+ ":" +:+ pad +:+ value +:+ trail +:+ comment = body +:+ comment) as Eb.
  { unfold body. change (String ":" ?x) with (":" +:+ x). by rewrite <- !str_app_assoc. }
  rewrite Eb in *. apply without_app in Hnl as [Hnl _]. unfold parse_line. rewrite until_comment; [|clear Hnl|done..].
  2:{ unfold body. rewrite !without_app. split_and!; [apply Hblank, Hlead|done|done|].
      change (without "#" (":" +:+ (pad +:+ value +:+ trail))). rewrite !without_app.
      split_and!; [done|apply Hblank, Hpad|done|apply Hblank, Htrail]. }
  cbv zeta. unfold body.
  assert (after_char ":" (lead +:+ key +:+ gap +:+ String ":" (pad +:+ value +:+ trail)) = Some (pad +:+ value +:+ trail)) as ->.
  { rewrite !str_app_assoc. rewrite <- (str_app_assoc pad). apply after_colon. rewrite !all_chars_app.
    destruct (Hblank _ Hlead) as [_ L2]. unfold without in *. cbn [one_of] in L2, K2, G2.
    assert (forall s, all_chars (fun c => negb (aeq c ":" || false)) s = true -> all_chars (fun c => negb (aeq c ":")) s = true) as Hx
      by (intros s; apply all_chars_impl; intros c; by rewrite orb_false_r).
    by rewrite (Hx _ L2), (Hx _ K2), (Hx _ G2). }
  cbn [mbind option_bind].
  assert (skip_set blanks (lead +:+ key +:+ gap +:+ String ":" (pad +:+ value +:+ trail)) =
    key +:+ gap +:+ String ":" (pad +:+ value +:+ trail)) as ->.
  { unfold skip_set, drop_while. rewrite span_opens; [done..|]. rewrite opens_with_app by done.
    destruct key as [|c key]; [done|]. by apply andb_true_iff in K3 as [K3 _]. }
  assert (until_set key_end (key +:+ gap +:+ String ":" (pad +:+ value +:+ trail)) = key) as ->.
  { unfold until_set, take_while. rewrite span_opens; [done..|]. destruct gap as [|c gap]; [done|].
    cbn [opens_with String.append] in *. unfold key_end, blanks in *. cbn [one_of] in *.
    change (String c gap +:+ ?x) with (String c (gap +:+ x)). cbn [opens_with]. by destruct (aeq c " "), (aeq c TAB). }
  rewrite bool_decide_false by done. do 2 f_equal. destruct value as [|c value].
  - change (pad +:+ "" +:+ trail) with (pad +:+ trail). unfold skip_set, drop_while. rewrite span_all; [done|].
    unfold blank_text in *. by rewrite all_chars_app, Hpad, Htrail.
  - unfold skip_set, drop_while. rewrite span_opens; [|done|by rewrite opens_with_app].
    cbn [snd]. rewrite rtrim_app by done. by apply rtrim_ends.
Qed.

Lemma parse_says line r : says line r -> without (String NL EmptyString) line -> parse_line line = r.
Proof.
  intros Hs Hnl. destruct Hs as [lead key gap pad value trail comment E|lead rest E Hl|text comment E Ht Hc].
  - by eapply parse_binding.
  - subst line. unfold parse_line. set (u := until_set (String "#" _) _).
    assert (exists t, u = lead +:+ String ":" t) as [t ->].
    { unfold u, until_set, take_while. clear -Hl. induction lead as [|c lead IH]; [eexists; reflexivity|].
      apply andb_true_iff in Hl as [Hc Hl]. destruct (IH Hl) as [t E]. exists t.
      change (String c lead +:+ ?x) with (String c (lead +:+ x)). rewrite <- E. cbn [span one_of].
      rewrite (blank_not c "#"), (blank_not c NL) by done. done. }
    cbv zeta. destruct (after_char ":" (lead +:+ String ":" t)); cbn [mbind option_bind]; [|done].
    assert (skip_set blanks (lead +:+ String ":" t) = String ":" t) as ->
      by (unfold skip_set, drop_while; rewrite (span_stop (one_of blanks) lead ":"); done).
    by rewrite bool_decide_true.
  - subst line. unfold parse_line. apply without_app in Hnl as [Hnl _].
    assert (without "#" text) as H1.
    { apply (without_all _ _ _ Ht). intros c. cbn [one_of]. by destruct (aeq c ":"), (aeq c "#"). }
    rewrite until_comment by done. cbv zeta. unfold after_char, drop_while. rewrite span_all; [done|].
    apply (without_all _ _ _ Ht). intros c. cbn [one_of]. by destruct (aeq c ":").
Qed.

(** *** A line goes through the buffer *)
Lemma fgets_line n line rest :
  all_chars (fun c => negb (aeq c NL)) line = true -> (strlen line + 1 <= n)%nat ->
  fgets_take n (line +:+ String NL rest) = (line +:+ String NL EmptyString, rest).
Proof.
  revert n. induction line as [|c s IH]; intros [|n] Hn Hl; try (simpl in Hl; lia); [done|].
  change ((String c s +:+ String NL rest)) with (String c (s +:+ String NL rest)).
  apply andb_true_iff in Hn as [Hc Hn]. cbn [fgets_take].
  destruct (aeq c NL); [done|]. rewrite (IH n Hn); [done|]. simpl in Hl. lia.
Qed.

(** What strip_newlines leaves of it: all, or the newline when it was empty. *)
Definition stripped (line : string) : string := match line with EmptyString => String NL EmptyString | _ => line end.

Lemma strip_line line :
  all_chars (fun c => negb (aeq c NL)) line = true -> strip_newlines (line +:+ String NL EmptyString) = stripped line.
Proof.
  assert (forall s, all_chars (fun c => negb (aeq c NL)) s = true -> rtrim (fun a => aeq a NL) s = s) as Hr.
  { induction s as [|c s IH]; [done|]. intros [Hc%negb_true_iff Hs]%andb_true_iff. cbn [rtrim]. rewrite (IH Hs), Hc. by destruct s. }
  destruct line as [|c s]; [done|]. intros [Hc Hs]%andb_true_iff.
  change (String c s +:+ ?x) with (String c (s +:+ x)). cbn [strip_newlines stripped]. f_equal.
  rewrite rtrim_app by done. by apply Hr.
Qed.

Lemma parse_stripped line : parse_line (stripped line) = parse_line line.
Proof. by destruct line. Qed.

(** The bindings and the warnings of lines that say [rs], from line [n] on. *)
Definition bind_said (m : gmap string string) (r : option (string * string)) : gmap string string :=
  match r with
  | Some (k, v) => if decide (k ∈ config_directives) then (if m !! k then m else <[k := v]> m) else m
  | None => m
  end.

Fixpoint unknown_said (n : Z) (rs : list (option (string * string))) : list (Z * string) :=
  match rs with
  | [] => []
  | Some (k, _) :: rs => if decide (k ∈ config_directives) then unknown_said (n + 1) rs else (n, k) :: unknown_said (n + 1) rs
  | None :: rs => unknown_said (n + 1) rs
  end.

Lemma is_valid_spec k : is_cfgdirective_valid k = bool_decide (k ∈ config_directives).
Proof.
  unfold is_cfgdirective_valid. apply eq_true_iff_eq. rewrite bool_decide_eq_true, existsb_exists.
  split; [intros (d & Hd & ->%String.eqb_eq); by apply list_elem_of_In|].
  intros Hk. exists k. split; [by apply list_elem_of_In|apply String.eqb_refl].
Qed.

Lemma read_said fuel cfg m n line r lines :
  sm_rep cfg m -> whole_line line -> says line r ->
  exists cfg', sm_rep cfg' (bind_said m r) /\
    read_lines (S fuel) cfg n (file_of (line :: lines)) =
      ('(cfg'', ws) ← read_lines fuel cfg' (n + 1) (file_of lines); Some (cfg'', unknown_said n [r] ++ ws)).
Proof.
  pose proof (stringmap_store_laws ("" : string)) as L. intros Hr (Hc & Hb & Hl) Hs. cbn [file_of foldr read_lines].
  fold (file_of lines).
  assert (forall c, c ∈ [NL; NUL] -> all_chars (fun a => negb (aeq a c)) line = true) as Hn.
  { intros c Hin. apply (without_all _ _ _ Hc). intros a ->%aeq_true. revert Hin. rewrite !elem_of_cons, elem_of_nil.
    by intros [->|[->|[]]]. }
  pose proof (Hn NL ltac:(set_solver)) as HNL. pose proof (Hn NUL ltac:(set_solver)) as HNUL.
  assert (fgets MAX_CONFIG_LINE (line +:+ String NL (file_of lines)) = Some (line +:+ String NL EmptyString, file_of lines)) as ->.
  { unfold fgets. change (MAX_CONFIG_LINE <=? 0) with false. change (MAX_CONFIG_LINE =? 1) with false.
    unfold MAX_CONFIG_LINE in *. rewrite fgets_line by (done || lia). by destruct line. }
  rewrite cstr_id by (rewrite all_chars_app, HNUL; done). rewrite strip_line by done.
  assert (continuation (cont_fuel (stripped line) (file_of lines)) (stripped line) (file_of lines) =
    Some (stripped line, file_of lines)) as ->.
  { unfold cont_fuel. cbn [continuation]. unfold ends_with in Hb. destruct line as [|c s]; [done|].
    cbn [stripped]. destruct (last_char_Some (String c s)) as [d Hd]; [done|]. rewrite Hd in *. cbn [mbind option_bind].
    apply negb_true_iff in Hb. by rewrite Hb. }
  cbn [mbind option_bind]. unfold read_line. rewrite parse_stripped.
  rewrite (parse_says line r Hs) by (apply (without_all _ _ (fun c => one_of (String NL EmptyString) c) Hc); intros a;
    cbn [one_of]; by destruct (aeq a NL)).
  destruct r as [[k v]|]; cbn [bind_said unknown_said app]; [|by exists cfg; split;
    [|cbn [mbind option_bind]; destruct (read_lines fuel cfg (n + 1) (file_of lines)) as [[]|]]].
  rewrite is_valid_spec. destruct (decide (k ∈ config_directives)) as [Hk|Hk].
  - rewrite bool_decide_true by done. destruct (ks_insert cfg m k v Hr) as (cfg' & -> & Hr'). cbn [mbind option_bind].
    exists cfg'. split; [by destruct (m !! k)|]. by destruct (read_lines fuel cfg' (n + 1) (file_of lines)) as [[]|].
  - rewrite bool_decide_false by done. cbn [mbind option_bind]. exists cfg. split; [done|].
    by destruct (read_lines fuel cfg (n + 1) (file_of lines)) as [[]|].
Qed.

Lemma unknown_said_cons n r rs : unknown_said n (r :: rs) = unknown_said n [r] ++ unknown_said (n + 1) rs.
Proof. destruct r as [[k v]|]; [|done]. cbn [unknown_said]. by destruct (decide _). Qed.

Lemma read_all_said lines rs :
  Forall2 (fun line r => whole_line line /\ says line r) lines rs -> forall fuel cfg m n,
  sm_rep cfg m -> (length lines < fuel)%nat ->
  exists cfg', read_lines fuel cfg n (file_of lines) = Some (cfg', unknown_said n rs) /\ sm_rep cfg' (foldl bind_said m rs).
Proof.
  induction 1 as [|line r lines rs [Hw Hs] _ IH]; intros [|fuel] cfg m n Hr Hf; cbn [length] in *; try lia.
  - by exists cfg.
  - destruct (read_said fuel cfg m n line r lines Hr Hw Hs) as (cfg1 & Hr1 & ->).
    destruct (IH fuel cfg1 _ (n + 1) Hr1) as (cfg' & -> & Hr'); [lia|]. cbn [mbind option_bind foldl].
    exists cfg'. split; [|done]. by rewrite (unknown_said_cons n r rs).
Qed.

Lemma file_of_length lines : (length lines <= strlen (file_of lines))%nat.
Proof.
  induction lines as [|line lines IH]; [done|]. cbn [file_of foldr length]. fold (file_of lines).
  rewrite strlen_app. cbn [String.length]. lia.
Qed.

(** ** Properties *)

(** C23: reading any file without NUL bytes ends with success, whatever its
    lines, continuations and comments: every value that was set before (the
    command line) is kept, only known directives are added, and the
    configuration remains a search tree. *)
Theorem read_config_keeps_bindings (cfg : config) (m : gmap string string) (text : string) :
  sm_rep cfg m -> nul_free text = true ->
  exists cfg' ws m', read_config_file cfg (Some text) = Some (1, cfg', ws) /\ sm_rep cfg' m' /\
    m ⊆ m' /\ (forall k, is_Some (m' !! k) -> is_Some (m !! k) \/ is_cfgdirective_valid k = true).
Proof.
  intros Hr Hn. unfold read_config_file.
  destruct (read_logical (S (strlen text)) text Hn) as (ls & _ & Hread); [lia|].
  destruct (Hread cfg m 1 Hr) as (cfg' & ws & -> & Hr'). cbn [mbind option_bind].
  destruct (lines_map_extends ls m) as [Hs Hk]. eauto 10.
Qed.

Lemma config_init_rep : sm_rep config_init ∅.
Proof. apply (ks_empty (KeyedStore := stringmap_store_laws ("" : string))). Qed.

Example read_config_keeps_bindings_witness :
  exists cfg' ws m', read_config_file config_init (Some "sort: 2s # comment") = Some (1, cfg', ws) /\
    sm_rep cfg' m' /\ ∅ ⊆ m' /\
    (forall k, is_Some (m' !! k) -> is_Some ((∅ : gmap string string) !! k) \/
       is_cfgdirective_valid k = true).
Proof. apply (read_config_keeps_bindings config_init ∅); [apply config_init_rep|reflexivity]. Defined.

(** C32: what a configuration file says is what is read from it.  For a file of
    lines that each fit the buffer and do not end in a backslash, with any
    blanks around the key and the value and any comment: the first value that a
    known directive is given is bound, unless the directive was bound before
    (the command line), and the unknown directives, no others, are reported
    with the numbers of their lines. *)
Theorem config_lines_read (cfg : config) (m : gmap string string) (lines : list string)
    (rs : list (option (string * string))) :
  sm_rep cfg m -> Forall2 (fun line r => whole_line line /\ says line r) lines rs ->
  exists cfg', read_config_file cfg (Some (file_of lines)) = Some (1, cfg', unknown_said 1 rs) /\
    sm_rep cfg' (foldl bind_said m rs).
Proof.
  intros Hr Hl. pose proof (file_of_length lines) as Hlen. unfold read_config_file.
  destruct (read_all_said lines rs Hl (S (strlen (file_of lines))) cfg m 1 Hr) as (cfg' & -> & Hr'); [lia|].
  by exists cfg'.
Qed.

Definition demo_lines : list string :=
  ["# the interface"; ""; "  sort :10s   # by the second column"; "filter-code: port 80 or host ::1"; "sort:2s"; "colour: red"].

Definition demo_said : list (option (string * string)) :=
  [None; None; Some ("sort", "10s"); Some ("filter-code", "port 80 or host ::1"); Some ("sort", "2s"); Some ("colour", "red")].

Lemma demo_lines_say : Forall2 (fun line r => whole_line line /\ says line r) demo_lines demo_said.
Proof.
  unfold demo_lines, demo_said.
  repeat (apply Forall2_cons; split; [split; [by split_and!|]|]); try apply Forall2_nil_2.
  - by apply (says_nothing _ "" "# the interface").
  - by apply (says_nothing _ "" "").
  - by apply (says_binding _ "  " "sort" " " "" "10s" "   " "# by the second column").
  - by apply (says_binding _ "" "filter-code" "" " " "port 80 or host ::1" "" "").
  - by apply (says_binding _ "" "sort" "" "" "2s" "" "").
  - by apply (says_binding _ "" "colour" "" " " "red" "" "").
Qed.

Example config_lines_read_witness :
  exists cfg', read_config_file config_init (Some (file_of demo_lines)) = Some (1, cfg', [(6, "colour")]) /\
    sm_rep cfg' (foldl bind_said ∅ demo_said).
Proof. exact (config_lines_read config_init ∅ demo_lines demo_said config_init_rep demo_lines_say). Defined.
