(* ===== verification/OptionsT.v ===== *)
(** * Options (src/include/options.h)

    The global [options], with one setter per field that the program assigns.
    Addresses are their bytes in memory order. *)

From S2P Require Import Prelude.

Local Open Scope Z_scope.

(** ** Enumerations, as the integers the program computes with *)
Definition OPTION_PORTS_OFF : Z := 0.
Definition OPTION_PORTS_SRC : Z := 1.
Definition OPTION_PORTS_DEST : Z := 2.
Definition OPTION_PORTS_ON : Z := 3.

Definition OPTION_SORT_DIV1 : Z := 0.
Definition OPTION_SORT_DIV2 : Z := 1.
Definition OPTION_SORT_DIV3 : Z := 2.
Definition OPTION_SORT_SRC : Z := 3.
Definition OPTION_SORT_DEST : Z := 4.

Definition OPTION_LINEDISPLAY_TWO_LINE : Z := 0.
Definition OPTION_LINEDISPLAY_ONE_LINE_BOTH : Z := 1.
Definition OPTION_LINEDISPLAY_ONE_LINE_RECV : Z := 2.
Definition OPTION_LINEDISPLAY_ONE_LINE_SENT : Z := 3.

Record options_t := Options {
  interface : string;
  dnsresolution : Z;
  portresolution : Z;
  filtercode : option string;
  showbars : Z;
  showports : Z;
  promiscuous : Z;
  promiscuous_but_choosy : Z;
  aggregate_src : Z;
  aggregate_dest : Z;
  paused : Z;
  showhelp : Z;
  bandwidth_in_bytes : Z;
  sort : Z;
  bar_interval : Z;
  screenfilter : option string;
  freezeorder : Z;
  screen_offset : Z;
  linedisplay : Z;
  show_totals : Z;
  max_bandwidth : Z;
  log_scale : Z;
  netfilter : Z;
  netfilternet : list Z;
  netfiltermask : list Z;
  netfilter6 : Z;
  netfilter6net : list Z;
  netfilter6mask : list Z;
  link_local : Z;
  config_file : string;
  config_file_specified : Z;
  export_mode : Z;
  export_duration : Z;
  show_processes : Z
}.

(** ** Assignments *)
Definition set_interface (v : string) (o : options_t) : options_t :=
  Options v (dnsresolution o) (portresolution o) (filtercode o) (showbars o) (showports o)
    (promiscuous o) (promiscuous_but_choosy o) (aggregate_src o) (aggregate_dest o) (paused o)
    (showhelp o) (bandwidth_in_bytes o) (sort o) (bar_interval o) (screenfilter o) (freezeorder o)
    (screen_offset o) (linedisplay o) (show_totals o) (max_bandwidth o) (log_scale o)
    (netfilter o) (netfilternet o) (netfiltermask o) (netfilter6 o) (netfilter6net o)
    (netfilter6mask o) (link_local o) (config_file o) (config_file_specified o) (export_mode o)
    (export_duration o) (show_processes o).

Definition set_dnsresolution (v : Z) (o : options_t) : options_t :=
  Options (interface o) v (portresolution o) (filtercode o) (showbars o) (showports o)
    (promiscuous o) (promiscuous_but_choosy o) (aggregate_src o) (aggregate_dest o) (paused o)
    (showhelp o) (bandwidth_in_bytes o) (sort o) (bar_interval o) (screenfilter o) (freezeorder o)
    (screen_offset o) (linedisplay o) (show_totals o) (max_bandwidth o) (log_scale o)
    (netfilter o) (netfilternet o) (netfiltermask o) (netfilter6 o) (netfilter6net o)
    (netfilter6mask o) (link_local o) (config_file o) (config_file_specified o) (export_mode o)
    (export_duration o) (show_processes o).

Definition set_portresolution (v : Z) (o : options_t) : options_t :=
  Options (interface o) (dnsresolution o) v (filtercode o) (showbars o) (showports o)
    (promiscuous o) (promiscuous_but_choosy o) (aggregate_src o) (aggregate_dest o) (paused o)
    (showhelp o) (bandwidth_in_bytes o) (sort o) (bar_interval o) (screenfilter o) (freezeorder o)
    (screen_offset o) (linedisplay o) (show_totals o) (max_bandwidth o) (log_scale o)
    (netfilter o) (netfilternet o) (netfiltermask o) (netfilter6 o) (netfilter6net o)
    (netfilter6mask o) (link_local o) (config_file o) (config_file_specified o) (export_mode o)
    (export_duration o) (show_processes o).

Definition set_filtercode (v : option string) (o : options_t) : options_t :=
  Options (interface o) (dnsresolution o) (portresolution o) v (showbars o) (showports o)
    (promiscuous o) (promiscuous_but_choosy o) (aggregate_src o) (aggregate_dest o) (paused o)
    (showhelp o) (bandwidth_in_bytes o) (sort o) (bar_interval o) (screenfilter o) (freezeorder o)
    (screen_offset o) (linedisplay o) (show_totals o) (max_bandwidth o) (log_scale o)
    (netfilter o) (netfilternet o) (netfiltermask o) (netfilter6 o) (netfilter6net o)
    (netfilter6mask o) (link_local o) (config_file o) (config_file_specified o) (export_mode o)
    (export_duration o) (show_processes o).

Definition set_showbars (v : Z) (o : options_t) : options_t :=
  Options (interface o) (dnsresolution o) (portresolution o) (filtercode o) v (showports o)
    (promiscuous o) (promiscuous_but_choosy o) (aggregate_src o) (aggregate_dest o) (paused o)
    (showhelp o) (bandwidth_in_bytes o) (sort o) (bar_interval o) (screenfilter o) (freezeorder o)
    (screen_offset o) (linedisplay o) (show_totals o) (max_bandwidth o) (log_scale o)
    (netfilter o) (netfilternet o) (netfiltermask o) (netfilter6 o) (netfilter6net o)
    (netfilter6mask o) (link_local o) (config_file o) (config_file_specified o) (export_mode o)
    (export_duration o) (show_processes o).

Definition set_showports (v : Z) (o : options_t) : options_t :=
  Options (interface o) (dnsresolution o) (portresolution o) (filtercode o) (showbars o) v
    (promiscuous o) (promiscuous_but_choosy o) (aggregate_src o) (aggregate_dest o) (paused o)
    (showhelp o) (bandwidth_in_bytes o) (sort o) (bar_interval o) (screenfilter o) (freezeorder o)
    (screen_offset o) (linedisplay o) (show_totals o) (max_bandwidth o) (log_scale o)
    (netfilter o) (netfilternet o) (netfiltermask o) (netfilter6 o) (netfilter6net o)
    (netfilter6mask o) (link_local o) (config_file o) (config_file_specified o) (export_mode o)
    (export_duration o) (show_processes o).

Definition set_promiscuous (v : Z) (o : options_t) : options_t :=
  Options (interface o) (dnsresolution o) (portresolution o) (filtercode o) (showbars o)
    (showports o) v (promiscuous_but_choosy o) (aggregate_src o) (aggregate_dest o) (paused o)
    (showhelp o) (bandwidth_in_bytes o) (sort o) (bar_interval o) (screenfilter o) (freezeorder o)
    (screen_offset o) (linedisplay o) (show_totals o) (max_bandwidth o) (log_scale o)
    (netfilter o) (netfilternet o) (netfiltermask o) (netfilter6 o) (netfilter6net o)
    (netfilter6mask o) (link_local o) (config_file o) (config_file_specified o) (export_mode o)
    (export_duration o) (show_processes o).

Definition set_promiscuous_but_choosy (v : Z) (o : options_t) : options_t :=
  Options (interface o) (dnsresolution o) (portresolution o) (filtercode o) (showbars o)
    (showports o) (promiscuous o) v (aggregate_src o) (aggregate_dest o) (paused o) (showhelp o)
    (bandwidth_in_bytes o) (sort o) (bar_interval o) (screenfilter o) (freezeorder o)
    (screen_offset o) (linedisplay o) (show_totals o) (max_bandwidth o) (log_scale o)
    (netfilter o) (netfilternet o) (netfiltermask o) (netfilter6 o) (netfilter6net o)
    (netfilter6mask o) (link_local o) (config_file o) (config_file_specified o) (export_mode o)
    (export_duration o) (show_processes o).

Definition set_aggregate_src (v : Z) (o : options_t) : options_t :=
  Options (interface o) (dnsresolution o) (portresolution o) (filtercode o) (showbars o)
    (showports o) (promiscuous o) (promiscuous_but_choosy o) v (aggregate_dest o) (paused o)
    (showhelp o) (bandwidth_in_bytes o) (sort o) (bar_interval o) (screenfilter o) (freezeorder o)
    (screen_offset o) (linedisplay o) (show_totals o) (max_bandwidth o) (log_scale o)
    (netfilter o) (netfilternet o) (netfiltermask o) (netfilter6 o) (netfilter6net o)
    (netfilter6mask o) (link_local o) (config_file o) (config_file_specified o) (export_mode o)
    (export_duration o) (show_processes o).

Definition set_aggregate_dest (v : Z) (o : options_t) : options_t :=
  Options (interface o) (dnsresolution o) (portresolution o) (filtercode o) (showbars o)
    (showports o) (promiscuous o) (promiscuous_but_choosy o) (aggregate_src o) v (paused o)
    (showhelp o) (bandwidth_in_bytes o) (sort o) (bar_interval o) (screenfilter o) (freezeorder o)
    (screen_offset o) (linedisplay o) (show_totals o) (max_bandwidth o) (log_scale o)
    (netfilter o) (netfilternet o) (netfiltermask o) (netfilter6 o) (netfilter6net o)
    (netfilter6mask o) (link_local o) (config_file o) (config_file_specified o) (export_mode o)
    (export_duration o) (show_processes o).

Definition set_paused (v : Z) (o : options_t) : options_t :=
  Options (interface o) (dnsresolution o) (portresolution o) (filtercode o) (showbars o)
    (showports o) (promiscuous o) (promiscuous_but_choosy o) (aggregate_src o) (aggregate_dest o)
    v (showhelp o) (bandwidth_in_bytes o) (sort o) (bar_interval o) (screenfilter o)
    (freezeorder o) (screen_offset o) (linedisplay o) (show_totals o) (max_bandwidth o)
    (log_scale o) (netfilter o) (netfilternet o) (netfiltermask o) (netfilter6 o)
    (netfilter6net o) (netfilter6mask o) (link_local o) (config_file o) (config_file_specified o)
    (export_mode o) (export_duration o) (show_processes o).

Definition set_showhelp (v : Z) (o : options_t) : options_t :=
  Options (interface o) (dnsresolution o) (portresolution o) (filtercode o) (showbars o)
    (showports o) (promiscuous o) (promiscuous_but_choosy o) (aggregate_src o) (aggregate_dest o)
    (paused o) v (bandwidth_in_bytes o) (sort o) (bar_interval o) (screenfilter o) (freezeorder o)
    (screen_offset o) (linedisplay o) (show_totals o) (max_bandwidth o) (log_scale o)
    (netfilter o) (netfilternet o) (netfiltermask o) (netfilter6 o) (netfilter6net o)
    (netfilter6mask o) (link_local o) (config_file o) (config_file_specified o) (export_mode o)
    (export_duration o) (show_processes o).

Definition set_bandwidth_in_bytes (v : Z) (o : options_t) : options_t :=
  Options (interface o) (dnsresolution o) (portresolution o) (filtercode o) (showbars o)
    (showports o) (promiscuous o) (promiscuous_but_choosy o) (aggregate_src o) (aggregate_dest o)
    (paused o) (showhelp o) v (sort o) (bar_interval o) (screenfilter o) (freezeorder o)
    (screen_offset o) (linedisplay o) (show_totals o) (max_bandwidth o) (log_scale o)
    (netfilter o) (netfilternet o) (netfiltermask o) (netfilter6 o) (netfilter6net o)
    (netfilter6mask o) (link_local o) (config_file o) (config_file_specified o) (export_mode o)
    (export_duration o) (show_processes o).

Definition set_sort (v : Z) (o : options_t) : options_t :=
  Options (interface o) (dnsresolution o) (portresolution o) (filtercode o) (showbars o)
    (showports o) (promiscuous o) (promiscuous_but_choosy o) (aggregate_src o) (aggregate_dest o)
    (paused o) (showhelp o) (bandwidth_in_bytes o) v (bar_interval o) (screenfilter o)
    (freezeorder o) (screen_offset o) (linedisplay o) (show_totals o) (max_bandwidth o)
    (log_scale o) (netfilter o) (netfilternet o) (netfiltermask o) (netfilter6 o)
    (netfilter6net o) (netfilter6mask o) (link_local o) (config_file o) (config_file_specified o)
    (export_mode o) (export_duration o) (show_processes o).

Definition set_bar_interval (v : Z) (o : options_t) : options_t :=
  Options (interface o) (dnsresolution o) (portresolution o) (filtercode o) (showbars o)
    (showports o) (promiscuous o) (promiscuous_but_choosy o) (aggregate_src o) (aggregate_dest o)
    (paused o) (showhelp o) (bandwidth_in_bytes o) (sort o) v (screenfilter o) (freezeorder o)
    (screen_offset o) (linedisplay o) (show_totals o) (max_bandwidth o) (log_scale o)
    (netfilter o) (netfilternet o) (netfiltermask o) (netfilter6 o) (netfilter6net o)
    (netfilter6mask o) (link_local o) (config_file o) (config_file_specified o) (export_mode o)
    (export_duration o) (show_processes o).

Definition set_screenfilter (v : option string) (o : options_t) : options_t :=
  Options (interface o) (dnsresolution o) (portresolution o) (filtercode o) (showbars o)
    (showports o) (promiscuous o) (promiscuous_but_choosy o) (aggregate_src o) (aggregate_dest o)
    (paused o) (showhelp o) (bandwidth_in_bytes o) (sort o) (bar_interval o) v (freezeorder o)
    (screen_offset o) (linedisplay o) (show_totals o) (max_bandwidth o) (log_scale o)
    (netfilter o) (netfilternet o) (netfiltermask o) (netfilter6 o) (netfilter6net o)
    (netfilter6mask o) (link_local o) (config_file o) (config_file_specified o) (export_mode o)
    (export_duration o) (show_processes o).

Definition set_freezeorder (v : Z) (o : options_t) : options_t :=
  Options (interface o) (dnsresolution o) (portresolution o) (filtercode o) (showbars o)
    (showports o) (promiscuous o) (promiscuous_but_choosy o) (aggregate_src o) (aggregate_dest o)
    (paused o) (showhelp o) (bandwidth_in_bytes o) (sort o) (bar_interval o) (screenfilter o) v
    (screen_offset o) (linedisplay o) (show_totals o) (max_bandwidth o) (log_scale o)
    (netfilter o) (netfilternet o) (netfiltermask o) (netfilter6 o) (netfilter6net o)
    (netfilter6mask o) (link_local o) (config_file o) (config_file_specified o) (export_mode o)
    (export_duration o) (show_processes o).

Definition set_screen_offset (v : Z) (o : options_t) : options_t :=
  Options (interface o) (dnsresolution o) (portresolution o) (filtercode o) (showbars o)
    (showports o) (promiscuous o) (promiscuous_but_choosy o) (aggregate_src o) (aggregate_dest o)
    (paused o) (showhelp o) (bandwidth_in_bytes o) (sort o) (bar_interval o) (screenfilter o)
    (freezeorder o) v (linedisplay o) (show_totals o) (max_bandwidth o) (log_scale o)
    (netfilter o) (netfilternet o) (netfiltermask o) (netfilter6 o) (netfilter6net o)
    (netfilter6mask o) (link_local o) (config_file o) (config_file_specified o) (export_mode o)
    (export_duration o) (show_processes o).

Definition set_linedisplay (v : Z) (o : options_t) : options_t :=
  Options (interface o) (dnsresolution o) (portresolution o) (filtercode o) (showbars o)
    (showports o) (promiscuous o) (promiscuous_but_choosy o) (aggregate_src o) (aggregate_dest o)
    (paused o) (showhelp o) (bandwidth_in_bytes o) (sort o) (bar_interval o) (screenfilter o)
    (freezeorder o) (screen_offset o) v (show_totals o) (max_bandwidth o) (log_scale o)
    (netfilter o) (netfilternet o) (netfiltermask o) (netfilter6 o) (netfilter6net o)
    (netfilter6mask o) (link_local o) (config_file o) (config_file_specified o) (export_mode o)
    (export_duration o) (show_processes o).

Definition set_show_totals (v : Z) (o : options_t) : options_t :=
  Options (interface o) (dnsresolution o) (portresolution o) (filtercode o) (showbars o)
    (showports o) (promiscuous o) (promiscuous_but_choosy o) (aggregate_src o) (aggregate_dest o)
    (paused o) (showhelp o) (bandwidth_in_bytes o) (sort o) (bar_interval o) (screenfilter o)
    (freezeorder o) (screen_offset o) (linedisplay o) v (max_bandwidth o) (log_scale o)
    (netfilter o) (netfilternet o) (netfiltermask o) (netfilter6 o) (netfilter6net o)
    (netfilter6mask o) (link_local o) (config_file o) (config_file_specified o) (export_mode o)
    (export_duration o) (show_processes o).

Definition set_max_bandwidth (v : Z) (o : options_t) : options_t :=
  Options (interface o) (dnsresolution o) (portresolution o) (filtercode o) (showbars o)
    (showports o) (promiscuous o) (promiscuous_but_choosy o) (aggregate_src o) (aggregate_dest o)
    (paused o) (showhelp o) (bandwidth_in_bytes o) (sort o) (bar_interval o) (screenfilter o)
    (freezeorder o) (screen_offset o) (linedisplay o) (show_totals o) v (log_scale o)
    (netfilter o) (netfilternet o) (netfiltermask o) (netfilter6 o) (netfilter6net o)
    (netfilter6mask o) (link_local o) (config_file o) (config_file_specified o) (export_mode o)
    (export_duration o) (show_processes o).

Definition set_log_scale (v : Z) (o : options_t) : options_t :=
  Options (interface o) (dnsresolution o) (portresolution o) (filtercode o) (showbars o)
    (showports o) (promiscuous o) (promiscuous_but_choosy o) (aggregate_src o) (aggregate_dest o)
    (paused o) (showhelp o) (bandwidth_in_bytes o) (sort o) (bar_interval o) (screenfilter o)
    (freezeorder o) (screen_offset o) (linedisplay o) (show_totals o) (max_bandwidth o) v
    (netfilter o) (netfilternet o) (netfiltermask o) (netfilter6 o) (netfilter6net o)
    (netfilter6mask o) (link_local o) (config_file o) (config_file_specified o) (export_mode o)
    (export_duration o) (show_processes o).

Definition set_netfilter (v : Z) (o : options_t) : options_t :=
  Options (interface o) (dnsresolution o) (portresolution o) (filtercode o) (showbars o)
    (showports o) (promiscuous o) (promiscuous_but_choosy o) (aggregate_src o) (aggregate_dest o)
    (paused o) (showhelp o) (bandwidth_in_bytes o) (sort o) (bar_interval o) (screenfilter o)
    (freezeorder o) (screen_offset o) (linedisplay o) (show_totals o) (max_bandwidth o)
    (log_scale o) v (netfilternet o) (netfiltermask o) (netfilter6 o) (netfilter6net o)
    (netfilter6mask o) (link_local o) (config_file o) (config_file_specified o) (export_mode o)
    (export_duration o) (show_processes o).

Definition set_netfilternet (v : list Z) (o : options_t) : options_t :=
  Options (interface o) (dnsresolution o) (portresolution o) (filtercode o) (showbars o)
    (showports o) (promiscuous o) (promiscuous_but_choosy o) (aggregate_src o) (aggregate_dest o)
    (paused o) (showhelp o) (bandwidth_in_bytes o) (sort o) (bar_interval o) (screenfilter o)
    (freezeorder o) (screen_offset o) (linedisplay o) (show_totals o) (max_bandwidth o)
    (log_scale o) (netfilter o) v (netfiltermask o) (netfilter6 o) (netfilter6net o)
    (netfilter6mask o) (link_local o) (config_file o) (config_file_specified o) (export_mode o)
    (export_duration o) (show_processes o).

Definition set_netfiltermask (v : list Z) (o : options_t) : options_t :=
  Options (interface o) (dnsresolution o) (portresolution o) (filtercode o) (showbars o)
    (showports o) (promiscuous o) (promiscuous_but_choosy o) (aggregate_src o) (aggregate_dest o)
    (paused o) (showhelp o) (bandwidth_in_bytes o) (sort o) (bar_interval o) (screenfilter o)
    (freezeorder o) (screen_offset o) (linedisplay o) (show_totals o) (max_bandwidth o)
    (log_scale o) (netfilter o) (netfilternet o) v (netfilter6 o) (netfilter6net o)
    (netfilter6mask o) (link_local o) (config_file o) (config_file_specified o) (export_mode o)
    (export_duration o) (show_processes o).

Definition set_netfilter6 (v : Z) (o : options_t) : options_t :=
  Options (interface o) (dnsresolution o) (portresolution o) (filtercode o) (showbars o)
    (showports o) (promiscuous o) (promiscuous_but_choosy o) (aggregate_src o) (aggregate_dest o)
    (paused o) (showhelp o) (bandwidth_in_bytes o) (sort o) (bar_interval o) (screenfilter o)
    (freezeorder o) (screen_offset o) (linedisplay o) (show_totals o) (max_bandwidth o)
    (log_scale o) (netfilter o) (netfilternet o) (netfiltermask o) v (netfilter6net o)
    (netfilter6mask o) (link_local o) (config_file o) (config_file_specified o) (export_mode o)
    (export_duration o) (show_processes o).

Definition set_netfilter6net (v : list Z) (o : options_t) : options_t :=
  Options (interface o) (dnsresolution o) (portresolution o) (filtercode o) (showbars o)
    (showports o) (promiscuous o) (promiscuous_but_choosy o) (aggregate_src o) (aggregate_dest o)
    (paused o) (showhelp o) (bandwidth_in_bytes o) (sort o) (bar_interval o) (screenfilter o)
    (freezeorder o) (screen_offset o) (linedisplay o) (show_totals o) (max_bandwidth o)
    (log_scale o) (netfilter o) (netfilternet o) (netfiltermask o) (netfilter6 o) v
    (netfilter6mask o) (link_local o) (config_file o) (config_file_specified o) (export_mode o)
    (export_duration o) (show_processes o).

Definition set_netfilter6mask (v : list Z) (o : options_t) : options_t :=
  Options (interface o) (dnsresolution o) (portresolution o) (filtercode o) (showbars o)
    (showports o) (promiscuous o) (promiscuous_but_choosy o) (aggregate_src o) (aggregate_dest o)
    (paused o) (showhelp o) (bandwidth_in_bytes o) (sort o) (bar_interval o) (screenfilter o)
    (freezeorder o) (screen_offset o) (linedisplay o) (show_totals o) (max_bandwidth o)
    (log_scale o) (netfilter o) (netfilternet o) (netfiltermask o) (netfilter6 o)
    (netfilter6net o) v (link_local o) (config_file o) (config_file_specified o) (export_mode o)
    (export_duration o) (show_processes o).

Definition set_link_local (v : Z) (o : options_t) : options_t :=
  Options (interface o) (dnsresolution o) (portresolution o) (filtercode o) (showbars o)
    (showports o) (promiscuous o) (promiscuous_but_choosy o) (aggregate_src o) (aggregate_dest o)
    (paused o) (showhelp o) (bandwidth_in_bytes o) (sort o) (bar_interval o) (screenfilter o)
    (freezeorder o) (screen_offset o) (linedisplay o) (show_totals o) (max_bandwidth o)
    (log_scale o) (netfilter o) (netfilternet o) (netfiltermask o) (netfilter6 o)
    (netfilter6net o) (netfilter6mask o) v (config_file o) (config_file_specified o)
    (export_mode o) (export_duration o) (show_processes o).

Definition set_config_file (v : string) (o : options_t) : options_t :=
  Options (interface o) (dnsresolution o) (portresolution o) (filtercode o) (showbars o)
    (showports o) (promiscuous o) (promiscuous_but_choosy o) (aggregate_src o) (aggregate_dest o)
    (paused o) (showhelp o) (bandwidth_in_bytes o) (sort o) (bar_interval o) (screenfilter o)
    (freezeorder o) (screen_offset o) (linedisplay o) (show_totals o) (max_bandwidth o)
    (log_scale o) (netfilter o) (netfilternet o) (netfiltermask o) (netfilter6 o)
    (netfilter6net o) (netfilter6mask o) (link_local o) v (config_file_specified o)
    (export_mode o) (export_duration o) (show_processes o).

Definition set_config_file_specified (v : Z) (o : options_t) : options_t :=
  Options (interface o) (dnsresolution o) (portresolution o) (filtercode o) (showbars o)
    (showports o) (promiscuous o) (promiscuous_but_choosy o) (aggregate_src o) (aggregate_dest o)
    (paused o) (showhelp o) (bandwidth_in_bytes o) (sort o) (bar_interval o) (screenfilter o)
    (freezeorder o) (screen_offset o) (linedisplay o) (show_totals o) (max_bandwidth o)
    (log_scale o) (netfilter o) (netfilternet o) (netfiltermask o) (netfilter6 o)
    (netfilter6net o) (netfilter6mask o) (link_local o) (config_file o) v (export_mode o)
    (export_duration o) (show_processes o).

Definition set_export_mode (v : Z) (o : options_t) : options_t :=
  Options (interface o) (dnsresolution o) (portresolution o) (filtercode o) (showbars o)
    (showports o) (promiscuous o) (promiscuous_but_choosy o) (aggregate_src o) (aggregate_dest o)
    (paused o) (showhelp o) (bandwidth_in_bytes o) (sort o) (bar_interval o) (screenfilter o)
    (freezeorder o) (screen_offset o) (linedisplay o) (show_totals o) (max_bandwidth o)
    (log_scale o) (netfilter o) (netfilternet o) (netfiltermask o) (netfilter6 o)
    (netfilter6net o) (netfilter6mask o) (link_local o) (config_file o) (config_file_specified o)
    v (export_duration o) (show_processes o).

Definition set_export_duration (v : Z) (o : options_t) : options_t :=
  Options (interface o) (dnsresolution o) (portresolution o) (filtercode o) (showbars o)
    (showports o) (promiscuous o) (promiscuous_but_choosy o) (aggregate_src o) (aggregate_dest o)
    (paused o) (showhelp o) (bandwidth_in_bytes o) (sort o) (bar_interval o) (screenfilter o)
    (freezeorder o) (screen_offset o) (linedisplay o) (show_totals o) (max_bandwidth o)
    (log_scale o) (netfilter o) (netfilternet o) (netfiltermask o) (netfilter6 o)
    (netfilter6net o) (netfilter6mask o) (link_local o) (config_file o) (config_file_specified o)
    (export_mode o) v (show_processes o).

Definition set_show_processes (v : Z) (o : options_t) : options_t :=
  Options (interface o) (dnsresolution o) (portresolution o) (filtercode o) (showbars o)
    (showports o) (promiscuous o) (promiscuous_but_choosy o) (aggregate_src o) (aggregate_dest o)
    (paused o) (showhelp o) (bandwidth_in_bytes o) (sort o) (bar_interval o) (screenfilter o)
    (freezeorder o) (screen_offset o) (linedisplay o) (show_totals o) (max_bandwidth o)
    (log_scale o) (netfilter o) (netfilternet o) (netfiltermask o) (netfilter6 o)
    (netfilter6net o) (netfilter6mask o) (link_local o) (config_file o) (config_file_specified o)
    (export_mode o) (export_duration o) v.
