(* ===== verification/OptionsCfg.v ===== *)
(** * Reading the options (src/config/options.c, main of src/entry/iftop.c)

    Defaults, the command line (which writes the configuration), the
    configuration file and [options_make] (which reads it).  [inet_aton] and
    [inet_pton(AF_INET6, ...)] are parameters that give the bytes of the
    address; [getopt]'s results are the input of [options_read_args]. *)

From S2P Require Import Prelude Bytes CStr StringMap CfgFile OptionsT.

Local Open Scope Z_scope.

Definition bad_interface_names : list string :=
  ["lo:"; "lo"; "stf"; "gif"; "dummy"; "vmnet"; "wmaster"].

Definition sort_enumeration : config_enumeration_type :=
  [("2s", OPTION_SORT_DIV1); ("10s", OPTION_SORT_DIV2); ("40s", OPTION_SORT_DIV3);
   ("source", OPTION_SORT_SRC); ("destination", OPTION_SORT_DEST)].

Definition linedisplay_enumeration : config_enumeration_type :=
  [("two-line", OPTION_LINEDISPLAY_TWO_LINE);
   ("one-line-both", OPTION_LINEDISPLAY_ONE_LINE_BOTH);
   ("one-line-sent", OPTION_LINEDISPLAY_ONE_LINE_SENT);
   ("one-line-received", OPTION_LINEDISPLAY_ONE_LINE_RECV)].

Definition showports_enumeration : config_enumeration_type :=
  [("off", OPTION_PORTS_OFF); ("source-only", OPTION_PORTS_SRC);
   ("destination-only", OPTION_PORTS_DEST); ("on", OPTION_PORTS_ON)].

(** [strncmp(name, prefix, strlen(prefix)) == 0] for one of the prefixes. *)
Definition is_bad_interface_name (name : string) : bool :=
  existsb (fun p => String.prefix p name) bad_interface_names.

(** [nameindex]: the interfaces of the system, or none; [if_flags_up]: the
    IFF_UP flag, or none when there is no socket or the ioctl fails. *)
Definition get_first_interface (nameindex : option (list string))
    (if_flags_up : string -> option bool) : option string :=
  ifs ← nameindex;
  List.find (fun name =>
    negb (String.eqb name "lo") && negb (is_bad_interface_name name) &&
    match if_flags_up name with None => true | Some up => up end) ifs.

(** Big-endian bytes of a 32-bit value in host order ([htonl]). *)
Definition htonl (v : Z) : list Z :=
  [Z.land (Z.shiftr v 24) 255; Z.land (Z.shiftr v 16) 255; Z.land (Z.shiftr v 8) 255; Z.land v 255].


Definition options_set_defaults (first_interface : option string) (home : option string) : options_t :=
  Options (default "eth0" first_interface) 1 1 None 1 OPTION_PORTS_OFF 0 0 0 0 0 0 0
    OPTION_SORT_DIV2 1 None 0 0 OPTION_LINEDISPLAY_TWO_LINE 0 0 0
    0 [10; 0; 1; 0] [255; 255; 255; 0]
    0 ([254; 128] ++ replicate 14 0) ([255; 255] ++ replicate 14 0)
    0 (match home with Some h => h +:+ "/.iftoprc" | None => "iftoprc" end) 0 0 0 1.

(** ** The command line *)
Inductive args_result :=
  | Exit (status : Z)
  | Args (cfg : config) (o : options_t).

Definition set_cfg (cfg : config) (o : options_t) (directive str : string) : option args_result :=
  cfg ← config_set_string cfg directive str; Some (Args cfg o).

(** One option returned by getopt, with optarg. *)
Definition read_arg (cfg : config) (o : options_t) (opt : ascii) (optarg : string) :
    option args_result :=
  match opt with
  | "h" => Some (Exit 0)
  | "n" => set_cfg cfg o "dns-resolution" "false"
  | "N" => set_cfg cfg o "port-resolution" "false"
  | "i" => set_cfg cfg o "interface" optarg
  | "f" => set_cfg cfg o "filter-code" optarg
  | "l" => set_cfg cfg o "link-local" "true"
  | "p" => set_cfg cfg o "promiscuous" "true"
  | "P" => set_cfg cfg o "port-display" "on"
  | "F" => set_cfg cfg o "net-filter" optarg
  | "G" => set_cfg cfg o "net-filter6" optarg
  | "m" => set_cfg cfg o "max-bandwidth" optarg
  | "b" => set_cfg cfg o "show-bars" "false"
  | "B" => set_cfg cfg o "use-bytes" "true"
  | "c" => Some (Args cfg (set_config_file_specified 1 (set_config_file optarg o)))
  | "o" =>
      if String.eqb optarg "json" then Some (Args cfg (set_export_mode 1 o))
      else if String.eqb optarg "csv" then Some (Args cfg (set_export_mode 2 o))
      else Some (Exit 1)
  | "t" =>
      let d := atoi optarg in
      if (d <=? 0)%Z then Some (Exit 1) else Some (Args cfg (set_export_duration d o))
  | "Z" => set_cfg cfg o "show-processes" "true"
  | "?" => Some (Exit 1)
  | ":" => Some (Exit 1)
  | _ => Some (Args cfg o)
  end%char.

(** [operands] tells whether arguments are left after the options. *)
Fixpoint options_read_args (cfg : config) (o : options_t) (opts : list (ascii * string))
    (operands : bool) : option args_result :=
  match opts with
  | [] => Some (if operands then Exit 1 else Args cfg o)
  | (opt, optarg) :: opts =>
      r ← read_arg cfg o opt optarg;
      match r with
      | Exit s => Some (Exit s)
      | Args cfg o => options_read_args cfg o opts operands
      end
  end.

(** ** Getters: the status and the value written, if any *)
Definition options_config_get_string (cfg : config) (name : string) : option (Z * option string) :=
  str ← config_get_string cfg name;
  Some (match str with Some s => (1, Some s) | None => (0, None) end).

Definition options_config_get_bool (cfg : config) (name : string) : option (Z * option Z) :=
  str ← config_get_string cfg name;
  match str with
  | Some _ => b ← config_get_bool cfg name; Some (1, Some (Z.b2z b))
  | None => Some (0, None)
  end.

Definition options_config_get_int (cfg : config) (name : string) : option (Z * option Z) :=
  str ← config_get_string cfg name;
  match str with
  | Some _ => '(_, v) ← config_get_int cfg name; Some (1, v)
  | None => Some (0, None)
  end.

Definition options_config_get_enum (cfg : config) (name : string)
    (enumeration : config_enumeration_type) : option (Z * option Z) :=
  str ← config_get_string cfg name;
  match str with
  | Some _ =>
      v ← config_get_enum cfg name enumeration;
      Some (match v with Some x => (1, Some x) | None => (0, None) end)
  | None => Some (0, None)
  end.

(** The assignment a getter makes through its pointer. *)
Definition assign {A} (set : A -> options_t -> options_t) (v : option A) (o : options_t) : options_t :=
  match v with Some x => set x o | None => o end.

Definition options_config_get_promiscuous (cfg : config) (o : options_t) : option (Z * options_t) :=
  str ← config_get_string cfg "promiscuous";
  match str with
  | Some _ =>
      b ← config_get_bool cfg "promiscuous";
      let o := set_promiscuous (Z.b2z b) o in
      Some (1, if b : bool then set_promiscuous_but_choosy 0 o else o)
  | None => Some (0, o)
  end.

Definition digits : string := "0123456789".

Definition unit_mult (c : ascii) : option Z :=
  if one_of "kK" c then Some 1024
  else if one_of "mM" c then Some (1024 * 1024)
  else if one_of "gG" c then Some (1024 * 1024 * 1024)
  else if one_of "bB" c then Some 1
  else None.

(** The units are cut off the value in the configuration; [uninit] is the
    value of the local [value] when sscanf finds no number. *)
Definition options_config_get_bw_rate (uninit : Z) (cfg : config) (directive : string) (o : options_t) :
    option (Z * config * options_t) :=
  str ← config_get_string cfg directive;
  match str with
  | None => Some (0, cfg, o)
  | Some s =>
      let units := skip_set digits s in
      let rate mult :=
        let number := take_while (one_of digits) s in
        let value := if bool_decide (number = EmptyString) then uninit
                     else clamp64 (dec_value 0 number) in
        Some (1, stringmap_store cfg directive number, set_max_bandwidth (swrap 64 (value * mult)) o) in
      match units with
      | EmptyString => rate 1
      | String c EmptyString =>
          match unit_mult c with Some mult => rate mult | None => Some (0, cfg, o) end
      | _ => Some (0, cfg, o)
      end
  end.

Section inet.
Context (inet_aton inet_pton6 : string -> option (list Z)).

(** Whole string numeric: [mask[strspn(mask, "0123456789")] == '\0']. *)
Definition is_numeric (s : string) : bool := bool_decide (skip_set digits s = EmptyString).

(** The mask of a prefix length of at most 32; shifting by a negative count is
    undefined. *)
Definition prefix_mask (prefix_len : Z) : option (list Z) :=
  if prefix_len =? 32 then Some (htonl 0xffffffff)
  else if prefix_len <? 0 then None
  else
    let netmask := Z.shiftr 0xffffffff prefix_len in
    Some (htonl (u32 (Z.lnot netmask))).

Definition options_config_get_net_filter (cfg : config) (o : options_t) :
    option (Z * config * options_t) :=
  str ← config_get_string cfg "net-filter";
  match str with
  | None => Some (0, cfg, o)
  | Some str =>
      let o := set_netfilter 0 o in
      match after_char "/" str with
      | None => Some (0, cfg, o)
      | Some mask =>
          let net := before_char "/" str in
          let cfg := stringmap_store cfg "net-filter" net in
          match inet_aton net with
          | None => Some (0, cfg, o)
          | Some a =>
              let o := set_netfilternet a o in
              let finish o :=
                Some (1, cfg, set_netfilternet (and_bytes (netfilternet o) (netfiltermask o)) o) in
              if is_numeric mask then
                let prefix_len := atoi mask in
                if 32 <? prefix_len then finish (set_netfilter 1 o)
                else m ← prefix_mask prefix_len; finish (set_netfilter 1 (set_netfiltermask m o))
              else
                match inet_aton mask with
                | Some m => finish (set_netfilter 1 (set_netfiltermask m o))
                | None => Some (0, cfg, o)
                end
          end
      end
  end.

(** [s6_addr[j] = 0xff] for the full bytes, then the partial byte. *)
Definition prefix_mask6 (old : list Z) (prefix_len : Z) : list Z :=
  let full_bytes := Z.to_nat (prefix_len / 8) in
  let remainder := prefix_len mod 8 in
  let partial := u8 (Z.shiftl 255 (8 - remainder)) in
  let m := replicate full_bytes 255 ++ drop full_bytes old in
  if 0 <? remainder then <[full_bytes := partial]> m else m.

Definition options_config_get_net_filter6 (cfg : config) (o : options_t) :
    option (Z * config * options_t) :=
  str ← config_get_string cfg "net-filter6";
  match str with
  | None => Some (0, cfg, o)
  | Some str =>
      let o := set_netfilter6 0 o in
      match after_char "/" str with
      | None => Some (0, cfg, o)
      | Some mask =>
          let net := before_char "/" str in
          let cfg := stringmap_store cfg "net-filter6" net in
          match inet_pton6 net with
          | None => Some (0, cfg, o)
          | Some a =>
              let o := set_netfilter6net a o in
              let finish o :=
                Some (1, cfg, set_netfilter6net (and_bytes (netfilter6net o) (netfilter6mask o)) o) in
              if is_numeric mask then
                let prefix_len := u32 (atoi mask) in
                if (128 <? prefix_len) || (prefix_len <? 1) then finish o
                else finish (set_netfilter6 1
                               (set_netfilter6mask (prefix_mask6 (netfilter6mask o) prefix_len) o))
              else
                match inet_pton6 mask with
                | Some m => finish (set_netfilter6 1 (set_netfilter6mask m o))
                | None => Some (0, cfg, o)
                end
          end
      end
  end.

Definition options_make (uninit : Z) (first_interface : option string) (cfg : config) (o : options_t) :
    option (config * options_t) :=
  '(_, i) ← options_config_get_string cfg "interface";
  let o := set_interface (match i with Some i => i | None => default "eth0" first_interface end) o in
  '(_, v) ← options_config_get_bool cfg "dns-resolution"; let o := assign set_dnsresolution v o in
  '(_, v) ← options_config_get_bool cfg "port-resolution"; let o := assign set_portresolution v o in
  '(_, f) ← options_config_get_string cfg "filter-code"; let o := set_filtercode f o in
  '(_, v) ← options_config_get_bool cfg "show-bars"; let o := assign set_showbars v o in
  '(_, o) ← options_config_get_promiscuous cfg o;
  '(_, v) ← options_config_get_bool cfg "hide-source"; let o := assign set_aggregate_src v o in
  '(_, v) ← options_config_get_bool cfg "hide-destination"; let o := assign set_aggregate_dest v o in
  '(_, v) ← options_config_get_bool cfg "use-bytes"; let o := assign set_bandwidth_in_bytes v o in
  '(_, v) ← options_config_get_enum cfg "sort" sort_enumeration; let o := assign set_sort v o in
  '(_, v) ← options_config_get_enum cfg "line-display" linedisplay_enumeration;
  let o := assign set_linedisplay v o in
  '(_, v) ← options_config_get_bool cfg "show-totals"; let o := assign set_show_totals v o in
  '(_, v) ← options_config_get_bool cfg "log-scale"; let o := assign set_log_scale v o in
  '(_, cfg, o) ← options_config_get_bw_rate uninit cfg "max-bandwidth" o;
  '(_, v) ← options_config_get_enum cfg "port-display" showports_enumeration;
  let o := assign set_showports v o in
  '(_, f) ← options_config_get_string cfg "screen-filter"; let o := set_screenfilter f o in
  '(_, v) ← options_config_get_bool cfg "link-local"; let o := assign set_link_local v o in
  '(_, v) ← options_config_get_bool cfg "show-processes"; let o := assign set_show_processes v o in
  '(_, cfg, o) ← options_config_get_net_filter cfg o;
  '(_, cfg, o) ← options_config_get_net_filter6 cfg o;
  Some (cfg, o).

(** The start of main: the options the program runs with, or an exit status. *)
Definition read_options (uninit : Z) (first_interface home : option string)
    (opts : list (ascii * string)) (operands : bool) (files : string -> option string) :
    option (Z + options_t) :=
  let o := options_set_defaults first_interface home in
  r ← options_read_args config_init o opts operands;
  match r with
  | Exit s => Some (inl s)
  | Args cfg o =>
      '(_, cfg, _) ← read_config_file cfg (files (config_file o));
      '(_, o) ← options_make uninit first_interface cfg o;
      Some (inr o)
  end.
End inet.

(** ** Net filters *)
Definition is_byteb (x : Z) : bool := (0 <=? x) && (x <? 256).

Lemma is_byteb_ok l : forallb is_byteb l = true -> bytes_ok l.
Proof.
  induction l as [|x l IH]; [constructor|]. simpl.
  intros [[?%Z.leb_le ?%Z.ltb_lt]%andb_true_iff Hl]%andb_true_iff. apply bytes_ok_cons. split; [done|by apply IH].
Qed.

(** The mask [m] has [n] bytes and [p] leading ones. *)
Definition mask_check (n : nat) (p : Z) (m : list Z) : bool :=
  bool_decide (length m = n) && forallb is_byteb m && (be_val m =? prefix_value (8 * Z.of_nat n) p).

Lemma mask_check_ok n p m :
  mask_check n p m = true ->
  length m = n /\ bytes_ok m /\ be_val m = prefix_value (8 * Z.of_nat n) p.
Proof.
  intros [[H1%bool_decide_eq_true H2%is_byteb_ok]%andb_true_iff H3%Z.eqb_eq]%andb_true_iff. done.
Qed.

Lemma check_range (f : Z -> bool) a n p :
  forallb f (seqZ a n) = true -> a <= p < a + n -> f p = true.
Proof. intros Hf Hp. rewrite forallb_forall in Hf. apply Hf, list_elem_of_In, elem_of_seqZ. lia. Qed.

Lemma prefix_mask_ok p :
  0 <= p <= 32 -> exists m, prefix_mask p = Some m /\ mask_check 4 p m = true.
Proof.
  intros Hp. set (f p := match prefix_mask p with Some m => mask_check 4 p m | None => false end).
  assert (f p = true) as Hf by (apply (check_range f 0 33); [vm_compute; reflexivity|lia]).
  unfold f in Hf. destruct (prefix_mask p) as [m|]; [eauto|done].
Qed.

Definition default_mask6 : list Z := [255; 255] ++ replicate 14 0.

Lemma prefix_mask6_ok p :
  9 <= p <= 128 -> mask_check 16 p (prefix_mask6 default_mask6 p) = true.
Proof.
  intros Hp. apply (check_range (fun p => mask_check 16 p (prefix_mask6 default_mask6 p)) 9 120);
    [vm_compute; reflexivity|lia].
Qed.

Section filters.
Context (inet_aton inet_pton6 : string -> option (list Z)) (cfg : config) (m : gmap string string).
Context (Hcfg : sm_rep cfg m).

Lemma get_string_spec d : config_get_string cfg d = Some (m !! d).
Proof. apply (ks_find (KeyedStore := stringmap_store_laws ("" : string))). done. Qed.

Lemma net_filter_prefix o str mask a p :
  m !! "net-filter" = Some str -> after_char "/" str = Some mask -> is_numeric mask = true ->
  atoi mask = p -> 0 <= p <= 32 -> inet_aton (before_char "/" str) = Some a ->
  exists cfg' o' mk, options_config_get_net_filter inet_aton cfg o = Some (1, cfg', o') /\
    netfilter o' = 1 /\ mask_check 4 p mk = true /\ netfiltermask o' = mk /\
    netfilternet o' = and_bytes a mk.
Proof.
  intros Hs Hm Hn Hp Hr Ha. unfold options_config_get_net_filter.
  rewrite get_string_spec, Hs. cbn [mbind option_bind]. rewrite Hm, Ha, Hn, Hp.
  rewrite (proj2 (Z.ltb_ge _ _)) by lia.
  destruct (prefix_mask_ok p Hr) as (mk & -> & Hmk). cbn [mbind option_bind].
  eexists _, _, mk. split; [done|]. by split_and!.
Qed.

Lemma net_filter6_prefix o str mask a p :
  m !! "net-filter6" = Some str -> after_char "/" str = Some mask -> is_numeric mask = true ->
  atoi mask = p -> 1 <= p <= 128 -> inet_pton6 (before_char "/" str) = Some a ->
  exists cfg' o' mk, options_config_get_net_filter6 inet_pton6 cfg o = Some (1, cfg', o') /\
    netfilter6 o' = 1 /\ mk = prefix_mask6 (netfilter6mask o) p /\ netfilter6mask o' = mk /\
    netfilter6net o' = and_bytes a mk.
Proof.
  intros Hs Hm Hn Hp Hr Ha. unfold options_config_get_net_filter6.
  rewrite get_string_spec, Hs. cbn [mbind option_bind]. rewrite Hm, Ha, Hn, Hp.
  rewrite uwrap_small by lia.
  rewrite (proj2 (Z.ltb_ge _ _)), (proj2 (Z.ltb_ge _ _)) by lia. cbn [orb].
  eexists _, _, _. split; [done|]. by split_and!.
Qed.
End filters.

(** A masked address equals the masked net exactly when the leading bits agree. *)
Lemma masked_net_eq n p a b mk :
  mask_check n p mk = true -> 0 <= p <= 8 * Z.of_nat n ->
  bytes_ok a -> length a = n -> bytes_ok b -> length b = n ->
  and_bytes b mk = and_bytes a mk <->
  be_val b / 2 ^ (8 * Z.of_nat n - p) = be_val a / 2 ^ (8 * Z.of_nat n - p).
Proof.
  intros (Hl & Hok & Hv)%mask_check_ok Hp Ha La Hb Lb.
  rewrite <- Hl. apply and_bytes_prefix_eq; try done; rewrite ?Hl; done.
Qed.

(** ** What options_make reads *)
Definition bool_of (m : gmap string string) (d : string) (old : Z) : Z :=
  match m !! d with Some s => Z.b2z (String.eqb s "yes" || String.eqb s "true") | None => old end.

Definition enum_of (m : gmap string string) (d : string) (e : config_enumeration_type) (old : Z) : Z :=
  match m !! d with Some s => default old (enum_value e s) | None => old end.

Section getters.
Context (cfg : config) (m : gmap string string) (Hcfg : sm_rep cfg m).

Lemma get_opt_string d :
  options_config_get_string cfg d = Some (match m !! d with Some s => (1, Some s) | None => (0, None) end).
Proof. unfold options_config_get_string. by rewrite (get_string_spec cfg m Hcfg). Qed.

Lemma get_opt_bool d :
  exists st v, options_config_get_bool cfg d = Some (st, v) /\
    forall old, match v with Some x => x | None => old end = bool_of m d old.
Proof.
  unfold options_config_get_bool, bool_of, config_get_bool.
  rewrite (get_string_spec cfg m Hcfg). cbn [mbind option_bind].
  destruct (m !! d); cbn [mbind option_bind]; eauto.
Qed.

Lemma get_opt_enum d e :
  exists st v, options_config_get_enum cfg d e = Some (st, v) /\
    forall old, match v with Some x => x | None => old end = enum_of m d e old.
Proof.
  unfold options_config_get_enum, enum_of, config_get_enum.
  rewrite (get_string_spec cfg m Hcfg). cbn [mbind option_bind].
  destruct (m !! d); cbn [mbind option_bind]; [|eauto].
  destruct (enum_value e s); eauto.
Qed.

Lemma get_opt_promiscuous o :
  exists st o', options_config_get_promiscuous cfg o = Some (st, o') /\
    let p := bool_of m "promiscuous" (promiscuous o) in
    let c := match m !! "promiscuous" with
             | Some _ => if p =? 1 then 0 else promiscuous_but_choosy o
             | None => promiscuous_but_choosy o end in
    o' = set_promiscuous_but_choosy c (set_promiscuous p o).
Proof.
  unfold options_config_get_promiscuous, bool_of, config_get_bool.
  rewrite (get_string_spec cfg m Hcfg). cbn [mbind option_bind].
  destruct (m !! "promiscuous") as [s|]; cbn [mbind option_bind].
  - eexists _, _. split; [done|]. by destruct (_ || _), o.
  - eexists _, _. split; [done|]. by destruct o.
Qed.

(** The rate option and the filters keep the configuration a search tree and
    change only their own fields. *)
Lemma get_opt_bw_rate uninit o :
  exists st cfg' r m', options_config_get_bw_rate uninit cfg "max-bandwidth" o =
      Some (st, cfg', set_max_bandwidth r o) /\ sm_rep cfg' m' /\
    forall d, d <> "max-bandwidth" -> m' !! d = m !! d.
Proof.
  pose proof (stringmap_store_laws ("" : string)) as L.
  assert (exists cfg' r m', (cfg' = cfg \/ True) /\ sm_rep cfg' m' /\ o = set_max_bandwidth r o /\
    (forall d, d <> "max-bandwidth" -> m' !! d = m !! d) /\ cfg' = cfg) as Hid.
  { exists cfg, (max_bandwidth o), m. split_and!; auto. by destruct o. }
  destruct Hid as (_ & r0 & m0 & _ & Hr0 & Eo & Hm0 & ->).
  unfold options_config_get_bw_rate. rewrite (get_string_spec cfg m Hcfg). cbn [mbind option_bind].
  destruct (m !! "max-bandwidth") as [s|] eqn:E.
  2:{ exists 0, cfg, r0, m0. rewrite <- Eo. by split_and!. }
  assert (forall n, exists m', sm_rep (stringmap_store cfg "max-bandwidth" n) m' /\
    forall d, d <> "max-bandwidth" -> m' !! d = m !! d) as Hst.
  { intros n. eexists. split; [by apply (ks_store cfg m "max-bandwidth" n s)|].
    intros d Hd. by rewrite lookup_insert_ne. }
  destruct (Hst (take_while (one_of digits) s)) as (m' & Hr' & Hm').
  destruct (skip_set digits s) as [|c [|]]; [|destruct (unit_mult c)|];
    try (eexists 1, _, _, m'; by split_and!);
    exists 0, cfg, r0, m0; rewrite <- Eo; by split_and!.
Qed.
End getters.

(** The options without the fields of the net filters. *)
Definition reset_filters (o : options_t) : options_t :=
  set_netfilter 0 (set_netfilternet [] (set_netfiltermask []
    (set_netfilter6 0 (set_netfilter6net [] (set_netfilter6mask [] o))))).

Section filters_frame.
Context (inet_aton inet_pton6 : string -> option (list Z)).
Context (cfg : config) (m : gmap string string) (Hcfg : sm_rep cfg m).

(** The configuration afterwards: cut at the slash, or as it was. *)
Lemma store_cut d s v : m !! d = Some s -> exists m', sm_rep (stringmap_store cfg d v) m'.
Proof.
  intros E. eexists. by apply (ks_store (KeyedStore := stringmap_store_laws ("" : string)) cfg m d v s).
Qed.

Lemma net_filter_frame o st cfg' o' :
  options_config_get_net_filter inet_aton cfg o = Some (st, cfg', o') ->
  reset_filters o' = reset_filters o /\ exists m', sm_rep cfg' m' /\
    forall d, d <> "net-filter" -> m' !! d = m !! d.
Proof.
  unfold options_config_get_net_filter. rewrite (get_string_spec cfg m Hcfg). cbn [mbind option_bind].
  destruct (m !! "net-filter") as [s|] eqn:E; [|intros [= <- <- <-]; eauto].
  assert (forall v, exists m', sm_rep (stringmap_store cfg "net-filter" v) m' /\
    forall d, d <> "net-filter" -> m' !! d = m !! d) as Hst.
  { intros v. eexists. split.
    - by apply (ks_store (KeyedStore := stringmap_store_laws ("" : string)) cfg m "net-filter" v s).
    - intros d Hd. by rewrite lookup_insert_ne. }
  destruct (after_char "/" s) as [mask|]; [|intros [= <- <- <-]; eauto].
  destruct (inet_aton (before_char "/" s)) as [a|]; [|intros [= <- <- <-]; eauto].
  destruct (is_numeric mask).
  - destruct (32 <? atoi mask); [intros [= <- <- <-]; eauto|].
    destruct (prefix_mask (atoi mask)); cbn [mbind option_bind]; [|done]. intros [= <- <- <-]. eauto.
  - destruct (inet_aton mask); intros [= <- <- <-]; eauto.
Qed.

(** The net filter of the configuration has, after the slash, digits whose
    number no [int] holds and that atoi makes negative: the only undefined step. *)
Definition prefix_overflow (m : gmap string string) : Prop := exists net mask,
  m !! "net-filter" = Some (net +:+ "/" +:+ mask) /\ all_chars is_digit mask = true /\
  2 ^ 31 <= dec_value 0 mask /\ atoi mask < 0.

Lemma numeric_digits s : is_numeric s = true -> all_chars is_digit s = true.
Proof.
  unfold is_numeric. intros H%bool_decide_eq_true. unfold skip_set in H.
  pose proof (span_app (one_of digits) s) as E. rewrite H, app_empty_r in E. rewrite <- E.
  eapply all_chars_impl; [|apply take_while_all]. intros c. by destruct c as [[] [] [] [] [] [] [] []].
Qed.

Lemma dec_value_nonneg s : forall acc, 0 <= acc -> all_chars is_digit s = true -> 0 <= dec_value acc s.
Proof.
  induction s as [|c s IH]; intros acc Ha; [done|]. intros [Hc Hs]%andb_true_iff. cbn [dec_value]. apply IH; [|done].
  assert (0 <= digit_val c) by (by destruct c as [[] [] [] [] [] [] [] []]). lia.
Qed.

(** atoi of digits. *)
Lemma atoi_digits s : s <> "" -> all_chars is_digit s = true -> atoi s = s32 (clamp64 (dec_value 0 s)).
Proof.
  intros Hne Hs. unfold atoi, strtol. unfold drop_while, take_while.
  assert (span is_space s = ("", s)) as ->.
  { destruct s as [|c s]; [done|]. apply andb_true_iff in Hs as [Hc _]. cbn [span].
    by destruct c as [[] [] [] [] [] [] [] []]. }
  cbn [snd]. assert (match s with String "-" s' => (true, s') | String "+" s' => (false, s') | _ => (false, s) end = (false, s)) as ->.
  { destruct s as [|c s]; [done|]. apply andb_true_iff in Hs as [Hc _]. by destruct c as [[] [] [] [] [] [] [] []]. }
  rewrite (span_all _ _ Hs). cbn [fst]. by rewrite bool_decide_false.
Qed.

Lemma negative_prefix mask :
  is_numeric mask = true -> atoi mask < 0 -> all_chars is_digit mask = true /\ 2 ^ 31 <= dec_value 0 mask.
Proof.
  intros Hm Hn. pose proof (numeric_digits mask Hm) as Hd. split; [done|].
  destruct mask as [|c mask]; [by vm_compute in Hn|]. rewrite atoi_digits in Hn by done.
  pose proof (dec_value_nonneg (String c mask) 0 ltac:(lia) Hd).
  destruct (Z.le_gt_cases (2 ^ 31) (dec_value 0 (String c mask))) as [|Hlt]; [done|]. exfalso. revert Hn.
  unfold clamp64. rewrite Z.min_l, Z.max_r by lia. unfold swrap. rewrite Z.mod_small; lia.
Qed.

Lemma split_at_slash s mask : after_char "/" s = Some mask -> s = before_char "/" s +:+ "/" +:+ mask.
Proof.
  unfold after_char, before_char. intros H. pose proof (span_app (fun a => negb (aeq a "/")) s) as E.
  assert (forall t c r, drop_while (fun a => negb (aeq a "/")) t = String c r -> c = "/"%char) as Hc.
  { clear. unfold drop_while. induction t as [|a t IH]; [done|]. intros c r. cbn [span].
    destruct (aeq a "/") eqn:Ea; cbn [negb]; [|exact (IH c r)]. intros [= <- _]. by apply aeq_true. }
  destruct (drop_while _ s) as [|c r] eqn:Ed; [done|]. injection H as ->. rewrite (Hc _ _ _ Ed) in E. by rewrite <- E at 1.
Qed.

Lemma net_filter_none o : options_config_get_net_filter inet_aton cfg o = None -> prefix_overflow m.
Proof.
  unfold options_config_get_net_filter. rewrite (get_string_spec cfg m Hcfg). cbn [mbind option_bind].
  destruct (m !! "net-filter") as [s|] eqn:Es; [|done]. destruct (after_char "/" s) as [mask|] eqn:Em; [|done].
  destruct (inet_aton _) as [a|]; [|done]. destruct (is_numeric mask) eqn:En; [|by destruct (inet_aton mask)].
  destruct (32 <? _); [done|]. unfold prefix_mask. destruct (_ =? 32); [done|].
  destruct (Z.ltb_spec (atoi mask) 0) as [Hlt|]; [|done]. destruct (negative_prefix mask En Hlt).
  exists (before_char "/" s), mask. by rewrite <- (split_at_slash s mask Em).
Qed.

Lemma net_filter6_total o : is_Some (options_config_get_net_filter6 inet_pton6 cfg o).
Proof.
  unfold options_config_get_net_filter6. rewrite (get_string_spec cfg m Hcfg). cbn [mbind option_bind].
  repeat (case_match; try by eexists).
Qed.

Lemma net_filter6_frame o st cfg' o' :
  options_config_get_net_filter6 inet_pton6 cfg o = Some (st, cfg', o') ->
  reset_filters o' = reset_filters o.
Proof.
  unfold options_config_get_net_filter6. rewrite (get_string_spec cfg m Hcfg). cbn [mbind option_bind].
  destruct (m !! "net-filter6") as [s|] eqn:E; [|by intros [= <- <- <-]].
  destruct (after_char "/" s) as [mask|]; [|by intros [= <- <- <-]].
  destruct (inet_pton6 (before_char "/" s)) as [a|]; [|by intros [= <- <- <-]].
  destruct (is_numeric mask).
  - destruct (_ || _); by intros [= <- <- <-].
  - destruct (inet_pton6 mask); by intros [= <- <- <-].
Qed.
End filters_frame.

(** The fields of the options that are a function of the configuration. *)
Record configured (m : gmap string string) (first : option string) (o o' : options_t) : Prop := Configured {
  cf_interface : interface o' = default (default "eth0" first) (m !! "interface");
  cf_dns : dnsresolution o' = bool_of m "dns-resolution" (dnsresolution o);
  cf_port : portresolution o' = bool_of m "port-resolution" (portresolution o);
  cf_filter : filtercode o' = m !! "filter-code";
  cf_bars : showbars o' = bool_of m "show-bars" (showbars o);
  cf_promisc : promiscuous o' = bool_of m "promiscuous" (promiscuous o);
  cf_src : aggregate_src o' = bool_of m "hide-source" (aggregate_src o);
  cf_dest : aggregate_dest o' = bool_of m "hide-destination" (aggregate_dest o);
  cf_bytes : bandwidth_in_bytes o' = bool_of m "use-bytes" (bandwidth_in_bytes o);
  cf_sort : sort o' = enum_of m "sort" sort_enumeration (sort o);
  cf_line : linedisplay o' = enum_of m "line-display" linedisplay_enumeration (linedisplay o);
  cf_totals : show_totals o' = bool_of m "show-totals" (show_totals o);
  cf_log : log_scale o' = bool_of m "log-scale" (log_scale o);
  cf_ports : showports o' = enum_of m "port-display" showports_enumeration (showports o);
  cf_screen : screenfilter o' = m !! "screen-filter";
  cf_local : link_local o' = bool_of m "link-local" (link_local o);
  cf_proc : show_processes o' = bool_of m "show-processes" (show_processes o);
  cf_view : (paused o', OptionsT.showhelp o', bar_interval o', freezeorder o', screen_offset o') =
    (paused o, OptionsT.showhelp o, bar_interval o, freezeorder o, screen_offset o)
}.

Lemma configured_reset m first o o1 o2 :
  reset_filters o2 = reset_filters o1 -> configured m first o o1 -> configured m first o o2.
Proof.
  intros E []. destruct o1, o2. unfold reset_filters in E. simpl in E. injection E as E.
  intros. subst. by constructor.
Qed.

Lemma assign_eq {A} (set : A -> options_t -> options_t) (get : options_t -> A) v w :
  (forall old, match v with Some x => x | None => old end = w old) ->
  (forall o, set (get o) o = o) -> forall o, assign set v o = set (w (get o)) o.
Proof. intros Hv Hs o. rewrite <- Hv. destruct v; [done|]. simpl. by rewrite Hs. Qed.

(** Fields of an explicit record. *)
Ltac flat :=
  cbn [interface dnsresolution portresolution filtercode showbars showports promiscuous
    promiscuous_but_choosy aggregate_src aggregate_dest paused showhelp bandwidth_in_bytes sort
    bar_interval screenfilter freezeorder screen_offset linedisplay show_totals max_bandwidth
    log_scale netfilter netfilternet netfiltermask netfilter6 netfilter6net netfilter6mask
    link_local config_file config_file_specified export_mode export_duration show_processes].

(** One read of a directive, with the assignment it makes. *)
Ltac read_directive spec set get :=
  let st := fresh "st" in let v := fresh "v" in let E := fresh "E" in let Hv := fresh "Hv" in
  destruct spec as (st & v & E & Hv); rewrite E; cbn [mbind option_bind]; clear E;
  rewrite (assign_eq set get v _ Hv ltac:(by intros [])); unfold set; flat; clear st v Hv.

Lemma bool_of_ext m m' d old : m' !! d = m !! d -> bool_of m' d old = bool_of m d old.
Proof. unfold bool_of. by intros ->. Qed.

Lemma enum_of_ext m m' d e old : m' !! d = m !! d -> enum_of m' d e old = enum_of m d e old.
Proof. unfold enum_of. by intros ->. Qed.

Lemma options_make_configured inet_aton inet_pton6 uninit first cfg m o :
  sm_rep cfg m ->
  match options_make inet_aton inet_pton6 uninit first cfg o with
  | Some (_, o') => configured m first o o'
  | None => prefix_overflow m
  end.
Proof.
  intros H.
  destruct o as [x1 x2 x3 x4 x5 x6 x7 x8 x9 x10 x11 x12 x13 x14 x15 x16 x17 x18 x19 x20 x21 x22
    x23 x24 x25 x26 x27 x28 x29 x30 x31 x32 x33 x34].
  unfold options_make. rewrite (get_opt_string cfg m H "interface"). cbn [mbind option_bind].
  destruct (match m !! "interface" with Some s => (1, Some s) | None => (0, None) end)
    as [st0 i] eqn:Ei.
  assert (i = m !! "interface") as -> by (destruct (m !! "interface"); congruence). clear Ei st0.
  cbv zeta. unfold set_interface; flat.
  read_directive (get_opt_bool cfg m H "dns-resolution") set_dnsresolution dnsresolution.
  read_directive (get_opt_bool cfg m H "port-resolution") set_portresolution portresolution.
  rewrite (get_opt_string cfg m H "filter-code"). cbn [mbind option_bind].
  destruct (match m !! "filter-code" with Some s => (1, Some s) | None => (0, None) end)
    as [st0 i] eqn:Ei.
  assert (i = m !! "filter-code") as -> by (destruct (m !! "filter-code"); congruence). clear Ei st0.
  unfold set_filtercode; flat.
  read_directive (get_opt_bool cfg m H "show-bars") set_showbars showbars.
  match goal with |- context [options_config_get_promiscuous cfg ?o1] =>
    destruct (get_opt_promiscuous cfg m H o1) as (st & o2 & -> & Eo2) end.
  cbn [mbind option_bind]. cbv zeta in Eo2. subst o2. clear st.
  unfold set_promiscuous, set_promiscuous_but_choosy; flat.
  read_directive (get_opt_bool cfg m H "hide-source") set_aggregate_src aggregate_src.
  read_directive (get_opt_bool cfg m H "hide-destination") set_aggregate_dest aggregate_dest.
  read_directive (get_opt_bool cfg m H "use-bytes") set_bandwidth_in_bytes bandwidth_in_bytes.
  read_directive (get_opt_enum cfg m H "sort" sort_enumeration) set_sort sort.
  read_directive (get_opt_enum cfg m H "line-display" linedisplay_enumeration) set_linedisplay linedisplay.
  read_directive (get_opt_bool cfg m H "show-totals") set_show_totals show_totals.
  read_directive (get_opt_bool cfg m H "log-scale") set_log_scale log_scale.
  match goal with |- context [options_config_get_bw_rate _ cfg _ ?o1] =>
    destruct (get_opt_bw_rate cfg m H uninit o1) as (st & cfg1 & r & m1 & -> & H1 & Hm1) end.
  cbn [mbind option_bind]. clear st. unfold set_max_bandwidth; flat.
  read_directive (get_opt_enum cfg1 m1 H1 "port-display" showports_enumeration) set_showports showports.
  rewrite (get_opt_string cfg1 m1 H1 "screen-filter"). cbn [mbind option_bind].
  destruct (match m1 !! "screen-filter" with Some s => (1, Some s) | None => (0, None) end)
    as [st0 i] eqn:Ei.
  assert (i = m1 !! "screen-filter") as -> by (destruct (m1 !! "screen-filter"); congruence).
  clear Ei st0. unfold set_screenfilter; flat.
  read_directive (get_opt_bool cfg1 m1 H1 "link-local") set_link_local link_local.
  read_directive (get_opt_bool cfg1 m1 H1 "show-processes") set_show_processes show_processes.
  match goal with |- context [options_config_get_net_filter _ cfg1 ?o1] => set (of1 := o1) end.
  destruct (options_config_get_net_filter inet_aton cfg1 of1) as [[[st cfg2] o2]|] eqn:E2;
    cbn [mbind option_bind]; [|destruct (net_filter_none _ _ _ H1 _ E2) as (net & mask & E & Hm); exists net, mask; by rewrite <- Hm1].
  destruct (net_filter_frame _ _ _ H1 _ _ _ _ E2) as (R2 & m2 & H2 & _).
  destruct (net_filter6_total inet_pton6 cfg2 m2 H2 o2) as [[[st' cfg3] o3] E3].
  rewrite E3. cbn [mbind option_bind]. apply (net_filter6_frame _ _ _ H2) in E3.
  apply (configured_reset _ _ _ of1); [congruence|]. clear R2 E3 E2.
  unfold of1. constructor; flat;
    rewrite ?(bool_of_ext m m1), ?(enum_of_ext m m1), ?Hm1 by (by rewrite ?Hm1);
    reflexivity || by destruct (m !! "interface").
Qed.

(** ** What the command line writes *)
Definition arg_binding (opt : ascii) (optarg : string) : option (string * string) :=
  match opt with
  | "n"%char => Some ("dns-resolution", "false")
  | "N"%char => Some ("port-resolution", "false")
  | "i"%char => Some ("interface", optarg)
  | "f"%char => Some ("filter-code", optarg)
  | "l"%char => Some ("link-local", "true")
  | "p"%char => Some ("promiscuous", "true")
  | "P"%char => Some ("port-display", "on")
  | "F"%char => Some ("net-filter", optarg)
  | "G"%char => Some ("net-filter6", optarg)
  | "m"%char => Some ("max-bandwidth", optarg)
  | "b"%char => Some ("show-bars", "false")
  | "B"%char => Some ("use-bytes", "true")
  | "Z"%char => Some ("show-processes", "true")
  | _ => None
  end.

(** The last occurrence of an option wins. *)
Definition args_map (opts : list (ascii * string)) : gmap string string :=
  foldl (fun m '(opt, optarg) =>
    match arg_binding opt optarg with Some (k, v) => <[k := v]> m | None => m end) ∅ opts.

Definition reset_args (o : options_t) : options_t :=
  set_config_file "" (set_config_file_specified 0 (set_export_mode 0 (set_export_duration 0 o))).

Lemma config_set_string_spec cfg m d v :
  sm_rep cfg m -> exists cfg', config_set_string cfg d v = Some cfg' /\ sm_rep cfg' (<[d := v]> m).
Proof.
  pose proof (stringmap_store_laws ("" : string)) as L.
  intros Hr. unfold config_set_string. rewrite (ks_find cfg m d Hr). cbn [mbind option_bind].
  destruct (m !! d) as [w|] eqn:E.
  - eexists. split; [done|]. by apply (ks_store cfg m d v w).
  - destruct (ks_insert cfg m d v Hr) as (cfg' & -> & Hr'). rewrite E in Hr'.
    cbn [mbind option_bind]. eauto.
Qed.

Lemma read_arg_spec cfg m o opt optarg :
  sm_rep cfg m ->
  match read_arg cfg o opt optarg with
  | Some (Exit s) => s = 0 \/ s = 1
  | Some (Args cfg' o') =>
      sm_rep cfg' (match arg_binding opt optarg with Some (k, v) => <[k := v]> m | None => m end) /\
      reset_args o' = reset_args o
  | None => False
  end.
Proof.
  intros Hr.
  assert (forall d v, match set_cfg cfg o d v with
    | Some (Args cfg' o') => sm_rep cfg' (<[d := v]> m) /\ reset_args o' = reset_args o
    | _ => False end) as Hset.
  { intros d v. unfold set_cfg. destruct (config_set_string_spec cfg m d v Hr) as (cfg' & -> & Hr').
    by cbn [mbind option_bind]. }
  unfold read_arg, arg_binding.
  destruct opt as [[] [] [] [] [] [] [] []]; try done; try (by left); try (by right);
    try (match goal with |- context [set_cfg cfg o ?d ?v] =>
           specialize (Hset d v); by destruct (set_cfg cfg o d v) as [[]|] end).
  - destruct (String.eqb optarg "json"); [done|]. destruct (String.eqb optarg "csv"); [done|by right].
  - destruct (atoi optarg <=? 0); [by right|done].
Qed.

Lemma options_read_args_spec cfg m o opts operands :
  sm_rep cfg m ->
  match options_read_args cfg o opts operands with
  | Some (Exit s) => s = 0 \/ s = 1
  | Some (Args cfg' o') =>
      sm_rep cfg' (foldl (fun m '(opt, optarg) =>
        match arg_binding opt optarg with Some (k, v) => <[k := v]> m | None => m end) m opts) /\
      reset_args o' = reset_args o
  | None => False
  end.
Proof.
  revert cfg m o. induction opts as [|[opt optarg] opts IH]; intros cfg m o Hr;
    cbn [options_read_args foldl].
  - destruct operands; [by right|done].
  - pose proof (read_arg_spec cfg m o opt optarg Hr) as Ha.
    destruct (read_arg cfg o opt optarg) as [[s|cfg1 o1]|]; cbn [mbind option_bind]; [done| |done].
    destruct Ha as [Hr1 E1]. specialize (IH cfg1 _ o1 Hr1).
    destruct (options_read_args cfg1 o1 opts operands) as [[]|]; try done.
    destruct IH as [? ?]. split; [done|congruence].
Qed.

Lemma configured_args m first o o1 o2 :
  reset_args o1 = reset_args o -> configured m first o1 o2 -> configured m first o o2.
Proof.
  intros E []. destruct o, o1. unfold reset_args in E. cbn in E. injection E as E. intros. subst.
  by constructor.
Qed.

(** *** The configuration of a run *)

(** The file that is read: the last one given by -c. *)
Definition config_path (home : option string) (opts : list (ascii * string)) : string :=
  foldl (fun path '(opt, optarg) => if decide (opt = "c"%char) then optarg else path)
    (match home with Some h => h +:+ "/.iftoprc" | None => "iftoprc" end) opts.

(** What the file says when it is read on its own; nothing when there is none. *)
Definition file_config (contents : option string) (fm : gmap string string) : Prop :=
  match contents with
  | Some text => exists cfg ws, read_config_file config_init (Some text) = Some (1, cfg, ws) /\ sm_rep cfg fm
  | None => fm = ∅
  end.

(** The command line and, for the directives that it leaves, the file. *)
Definition run_config (home : option string) (opts : list (ascii * string)) (files : string -> option string)
    (m : gmap string string) : Prop :=
  exists fm, file_config (files (config_path home opts)) fm /\ m = args_map opts ∪ fm.

Lemma options_read_args_path opts : forall cfg o operands cfg' o',
  options_read_args cfg o opts operands = Some (Args cfg' o') ->
  config_file o' = foldl (fun path '(opt, optarg) => if decide (opt = "c"%char) then optarg else path) (config_file o) opts.
Proof.
  induction opts as [|[opt optarg] opts IH]; intros cfg o operands cfg' o'; cbn [options_read_args foldl].
  - destruct operands; [done|by intros [= _ <-]].
  - intros (r & Hr & H)%bind_Some. destruct r as [s|cfg1 o1]; [done|]. rewrite (IH _ _ _ _ _ H). f_equal.
    revert Hr. unfold read_arg, set_cfg.
    destruct opt as [[] [] [] [] [] [] [] []]; try (by intros [= _ <-]);
      try (intros (c & _ & [= _ <-])%bind_Some; done); try done.
    + destruct (String.eqb optarg "json"); [by intros [= _ <-]|]. by destruct (String.eqb optarg "csv"); [intros [= _ <-]|].
    + by destruct (atoi optarg <=? 0); [|intros [= _ <-]].
Qed.

(** A tree stands for one map. *)
Lemma sm_rep_map (t : config) m m' : sm_rep t m -> sm_rep t m' -> m = m'.
Proof.
  pose proof (stringmap_store_laws ("" : string)) as L. intros H H'. apply map_eq. intros k.
  pose proof (ks_find t m k H). pose proof (ks_find t m' k H'). congruence.
Qed.

Lemma file_config_valid files home opts fm k :
  (forall path text, files path = Some text -> nul_free text = true) ->
  file_config (files (config_path home opts)) fm -> is_Some (fm !! k) -> is_cfgdirective_valid k = true.
Proof.
  intros Hf Hfm Hk. unfold file_config in Hfm.
  destruct (files _) as [text|] eqn:E; [|subst fm; rewrite lookup_empty in Hk; by destruct Hk].
  destruct Hfm as (cfg & ws & Hread & Hr).
  destruct (read_logical (S (strlen text)) text (Hf _ _ E)) as (ls & _ & H); [lia|].
  destruct (H config_init ∅ 1 config_init_rep) as (cfg1 & ws1 & E1 & Hr1).
  unfold read_config_file in Hread. rewrite E1 in Hread. cbn [mbind option_bind] in Hread. simplify_eq.
  rewrite (sm_rep_map _ _ _ Hr Hr1) in Hk. destruct (lines_map_extends ls ∅) as [_ Hv].
  destruct (Hv k Hk) as [H0|]; [|done]. rewrite lookup_empty in H0. by destruct H0.
Qed.

Lemma run_config_extends home opts files m :
  (forall path text, files path = Some text -> nul_free text = true) -> run_config home opts files m ->
  extends (args_map opts) m.
Proof.
  intros Hf (fm & Hfm & ->). split; [apply map_union_subseteq_l|]. intros k Hk. rewrite lookup_union in Hk.
  destruct (args_map opts !! k); [by left; eexists|]. right. eapply file_config_valid; [done..|].
  by destruct (fm !! k); [|destruct Hk].
Qed.

Lemma read_options_spec inet_aton inet_pton6 uninit first home opts operands files :
  (forall path text, files path = Some text -> nul_free text = true) ->
  match read_options inet_aton inet_pton6 uninit first home opts operands files with
  | Some (inr o) => exists m, run_config home opts files m /\
      (nul_free_values (args_map opts) -> nul_free_values m) /\
      configured m first (options_set_defaults first home) o
  | Some (inl status) => status = 0 \/ status = 1
  | None => exists m, run_config home opts files m /\ prefix_overflow m
  end.
Proof.
  intros Hfiles. unfold read_options.
  pose proof (options_read_args_spec config_init ∅ (options_set_defaults first home) opts operands
    config_init_rep) as Ha.
  pose proof (options_read_args_path opts config_init (options_set_defaults first home) operands) as Hpath.
  destruct (options_read_args _ _ opts operands) as [[s|cfg o1]|]; cbn [mbind option_bind]; try done.
  destruct Ha as [Hr E1]. fold (args_map opts) in Hr. specialize (Hpath _ _ eq_refl).
  change (config_file o1 = config_path home opts) in Hpath. rewrite Hpath.
  assert (exists st cfg' ws m', read_config_file cfg (files (config_path home opts)) = Some (st, cfg', ws) /\
    sm_rep cfg' m' /\ run_config home opts files m' /\ (nul_free_values (args_map opts) -> nul_free_values m'))
    as (st & cfg' & ws & m' & -> & Hr' & Hx & Hv).
  { unfold run_config, file_config. destruct (files (config_path home opts)) as [text|] eqn:Ef; unfold read_config_file.
    - destruct (read_logical (S (strlen text)) text (Hfiles _ _ Ef)) as (ls & Hls & Hread); [lia|].
      destruct (Hread cfg (args_map opts) 1 Hr) as (cfg' & ws & -> & Hr').
      destruct (Hread config_init ∅ 1 config_init_rep) as (cfg0 & ws0 & -> & Hr0). cbn [mbind option_bind].
      eexists _, _, _, _. split; [done|]. split; [exact Hr'|]. split; [|by apply lines_map_values].
      exists (foldl line_map ∅ ls). split; [by eexists _, _|].
      rewrite <- lines_map_union. f_equal. symmetry. apply (right_id_L ∅ (∪)).
    - eexists _, _, _, _. split; [done|]. split; [exact Hr|]. split; [|done]. exists ∅. split; [done|].
      symmetry. apply (right_id_L ∅ (∪)). }
  cbn [mbind option_bind].
  pose proof (options_make_configured inet_aton inet_pton6 uninit first cfg' m' o1 Hr') as Hmake.
  destruct (options_make _ _ _ _ cfg' o1) as [[cfg2 o2]|]; cbn [mbind option_bind]; [|by exists m'].
  exists m'. split_and!; [done..|]. by apply (configured_args _ _ _ o1).
Qed.

(** ** Rates *)
Lemma span_digits_app s t c :
  all_chars is_digit s = true -> one_of digits c = false ->
  span (one_of digits) (s +:+ String c t) = (s, String c t).
Proof.
  intros Hs Hc. apply span_stop; [|done]. apply (all_chars_impl is_digit); [|done].
  intros a. destruct a as [[] [] [] [] [] [] [] []]; done.
Qed.

Lemma span_digits s : all_chars is_digit s = true -> span (one_of digits) s = (s, EmptyString).
Proof.
  intros Hs. apply span_all. apply (all_chars_impl is_digit); [|done].
  intros a. destruct a as [[] [] [] [] [] [] [] []]; done.
Qed.

(** ** Findings *)

(** "screen-filter" is read by options_make but is not a directive of the
    file: whatever the file says, the option stays unset. *)
Lemma screen_filter_directive_ignored inet_aton inet_pton6 uninit first home opts operands files o :
  (forall path text, files path = Some text -> nul_free text = true) ->
  read_options inet_aton inet_pton6 uninit first home opts operands files = Some (inr o) ->
  screenfilter o = None.
Proof.
  intros Hf Hr. pose proof (read_options_spec inet_aton inet_pton6 uninit first home opts operands files Hf) as H.
  rewrite Hr in H. destruct H as (m & Hm & _ & Hc). destruct (run_config_extends _ _ _ _ Hf Hm) as [_ Hk].
  rewrite (cf_screen _ _ _ _ Hc). apply eq_None_not_Some. intros [Hs|Hs]%Hk; [|done].
  assert (forall m, ~ is_Some (m !! "screen-filter") ->
    ~ is_Some (foldl (fun (m : gmap string string) '(opt, optarg) =>
      match arg_binding opt optarg with Some (k, v) => <[k := v]> m | None => m end) m opts
      !! "screen-filter")) as Hgen.
  { clear. induction opts as [|[c a] opts IH]; intros m Hm; [done|]. simpl. apply IH.
    destruct (arg_binding c a) as [[k v]|] eqn:E; [|done].
    rewrite lookup_insert_ne; [done|]. intros ->. revert E. unfold arg_binding.
    by destruct c as [[] [] [] [] [] [] [] []]. }
  revert Hs. apply Hgen. rewrite lookup_empty. by intros [? ?].
Qed.

(** A unit without a number leaves the rate to whatever the stack held. *)
Lemma bw_rate_without_number uninit cfg m o :
  sm_rep cfg m -> m !! "max-bandwidth" = Some "K" ->
  exists cfg', options_config_get_bw_rate uninit cfg "max-bandwidth" o =
    Some (1, cfg', set_max_bandwidth (swrap 64 (uninit * 1024)) o).
Proof.
  intros Hr E. unfold options_config_get_bw_rate. rewrite (get_string_spec cfg m Hr), E.
  cbn [mbind option_bind]. change (skip_set digits "K") with "K".
  change (unit_mult "K"%char) with (Some 1024).
  change (take_while (one_of digits) "K") with "". cbv beta iota zeta.
  rewrite bool_decide_true by done. by eexists.
Qed.

(** An IPv4 prefix length above 32 is reported, but the filter is on with the
    mask that was there before. *)
Lemma net_filter_bad_length inet_aton cfg m o str mask a :
  sm_rep cfg m -> m !! "net-filter" = Some str -> after_char "/" str = Some mask ->
  is_numeric mask = true -> 32 < atoi mask -> inet_aton (before_char "/" str) = Some a ->
  exists cfg' o', options_config_get_net_filter inet_aton cfg o = Some (1, cfg', o') /\
    netfilter o' = 1 /\ netfiltermask o' = netfiltermask o.
Proof.
  intros Hr Hs Hm Hn Hp Ha. unfold options_config_get_net_filter.
  rewrite (get_string_spec cfg m Hr), Hs. cbn [mbind option_bind]. rewrite Hm, Ha, Hn.
  rewrite (proj2 (Z.ltb_lt _ _) Hp). eexists _, _. by split_and!.
Qed.

(** An IPv6 prefix of at most 8 bits keeps the second byte of the default
    mask, so that the mask is not the prefix asked for. *)
Lemma net_filter6_short_prefix p :
  1 <= p <= 8 -> mask_check 16 p (prefix_mask6 default_mask6 p) = false.
Proof.
  intros Hp. apply negb_true_iff.
  apply (check_range (fun p => negb (mask_check 16 p (prefix_mask6 default_mask6 p))) 1 8);
    [vm_compute; reflexivity|lia].
Qed.

(** ** Properties *)


Definition demo_opts : list (ascii * string) :=
  [("n"%char, ""); ("i"%char, "eth1"); ("F"%char, "10.1.0.0/16")].

Definition demo_files (path : string) : option string :=
  Some "dns-resolution: true
sort: 40s
max-bandwidth: 10M".

(** A stand-in for the library function, on the addresses of the examples. *)
Definition demo_aton (s : string) : option (list Z) :=
  if String.eqb s "10.1.0.0" then Some [10; 1; 0; 0] else None.

Definition demo_options : options_t :=
  match read_options demo_aton demo_aton 0 None None demo_opts false demo_files with
  | Some (inr o) => o
  | _ => options_set_defaults None None
  end.


(** [max-bandwidth: n], [nK], [nM] or [nG] (either case; [nb] for bits)
    sets the maximum to [n] times 1, 2^10, 2^20 or 2^30, for every value that
    fits a signed 64-bit integer, and is printed and read back in decimal. *)
Theorem max_bandwidth_units (uninit : Z) (cfg : config) (m : gmap string string) (o : options_t)
    (n : Z) (u : string) (mult : Z) :
  sm_rep cfg m -> m !! "max-bandwidth" = Some (dec n +:+ u) -> 0 <= n ->
  (u = "" /\ mult = 1) \/ (exists c, u = String c "" /\ unit_mult c = Some mult) ->
  n * mult < 2 ^ 63 ->
  exists cfg', options_config_get_bw_rate uninit cfg "max-bandwidth" o =
    Some (1, cfg', set_max_bandwidth (n * mult) o).
Proof.
  intros Hr E Hn Hu Hb. destruct (dec_digits n Hn) as (Hv & Hd & Hne).
  unfold options_config_get_bw_rate. rewrite (get_string_spec cfg m Hr), E. cbn [mbind option_bind].
  assert (1 <= mult) as Hmult.
  { destruct Hu as [[_ ->]|(c & _ & Hc)]; [done|]. revert Hc. unfold unit_mult.
    repeat case_match; intros [= <-]; lia. }
  assert (swrap 64 (clamp64 n * mult) = n * mult) as Hval.
  { unfold clamp64. rewrite Z.min_l, Z.max_r by nia. apply swrap_small; lia. }
  assert (span (one_of digits) (dec n +:+ u) = (dec n, u)) as Hs.
  { destruct Hu as [[-> _]|(c & -> & Hc)].
    - rewrite app_empty_r. by apply span_digits.
    - apply span_digits_app; [done|]. revert Hc. by destruct c as [[] [] [] [] [] [] [] []]. }
  unfold skip_set, drop_while, take_while. rewrite Hs. cbn [fst snd].
  cbv zeta. rewrite bool_decide_false, Hv by done.
  destruct Hu as [[-> ->]|(c & -> & Hc)]; rewrite ?Hc, Hval; eauto.
Qed.

Example max_bandwidth_units_witness :
  exists cfg', options_config_get_bw_rate 0 (Node (Some "max-bandwidth") "10M" Null Null)
      "max-bandwidth" (options_set_defaults None None) =
    Some (1, cfg', set_max_bandwidth (10 * 1048576) (options_set_defaults None None)).
Proof.
  apply (max_bandwidth_units 0 _ {["max-bandwidth" := "10M"]} _ 10 "M" 1048576);
    [|reflexivity|lia| |lia].
  - right. split_and!; [done|by vm_compute|]. intros j. simpl. by rewrite (left_id_L ∅ (∪)).
  - right. by exists "M"%char.
Defined.
