(* ===== verification/OptionsOld.v ===== *)
(** * The parsers that options_make replaced (src/config/options.c)

    [set_max_bandwidth] and [set_net_filter] parsed the arguments of -m and -F;
    nothing calls them now, and the directives of the configuration took their
    place.  They stop the program at an error ([die]) where the getters report
    and go on; where the getters succeed, both set the same options. *)

From S2P Require Import Prelude Bytes CStr StringMap CfgFile OptionsT OptionsCfg.

Local Open Scope Z_scope.

Inductive parsed := Died (msg : string) | Parsed (o : options_t).

(** The factor of a unit; any other character counts as 1. *)
Definition old_mult (units : string) : Z :=
  match units with
  | String c EmptyString =>
      if one_of "kK" c then 1024 else if one_of "mM" c then 1024 * 1024
      else if one_of "gG" c then 1024 * 1024 * 1024 else 1
  | _ => 1
  end.

Definition die (msg : string) : option parsed := Some (Died msg).

Definition set_max_bandwidth (arg : string) (o : options_t) : option parsed :=
  let units := skip_set digits arg in
  if 1 <? Z.of_nat (strlen units) then die ("Invalid units" +:+ String NL "")
  else
    let number := take_while (one_of digits) arg in
    if bool_decide (number = EmptyString) then die ("Error reading max bandwidth" +:+ String NL "")
    else Some (Parsed (OptionsT.set_max_bandwidth (swrap 64 (clamp64 (dec_value 0 number) * old_mult units)) o)).

Section inet.
Context (inet_aton : string -> option (list Z)).

Definition set_net_filter (arg : string) (o : options_t) : option parsed :=
  match after_char "/" arg with
  | None => die ("Could not parse net/mask" +:+ String NL "")
  | Some mask =>
      match inet_aton (before_char "/" arg) with
      | None => die ("Invalid network address" +:+ String NL "")
      | Some a =>
          let o := set_netfilternet a o in
          let finish o :=
            Some (Parsed (set_netfilter 1 (set_netfilternet (and_bytes (netfilternet o) (netfiltermask o)) o))) in
          if is_numeric mask then
            let prefix_len := atoi mask in
            if 32 <? prefix_len then die "Invalid netmask"
            else m ← prefix_mask prefix_len; finish (set_netfiltermask m o)
          else
            match inet_aton mask with
            | None => die ("Invalid netmask" +:+ String NL "")
            | Some m => finish (set_netfiltermask m o)
            end
      end
  end.

Lemma old_mult_unit c v : unit_mult c = Some v -> old_mult (String c "") = v.
Proof.
  unfold unit_mult, old_mult. repeat (destruct (one_of _ c); [by intros [= <-]|]).
  destruct (one_of "bB" c); [by intros [= <-]|done].
Qed.

(** The two generations of parsers agree: whenever the directive
    [max-bandwidth] or [net-filter] is accepted (with digits in the rate, and a
    prefix length of at most 32 bits), the old parser of the same text accepts
    it and sets exactly the same options. *)
Theorem old_parsers_agree (uninit : Z) (cfg : config) (m : gmap string string) (o : options_t)
    (rate filter : string) (cfg1 cfg2 : config) (o1 o2 : options_t) :
  sm_rep cfg m -> m !! "max-bandwidth" = Some rate -> m !! "net-filter" = Some filter ->
  options_config_get_bw_rate uninit cfg "max-bandwidth" o = Some (1, cfg1, o1) ->
  take_while (one_of digits) rate <> "" ->
  options_config_get_net_filter inet_aton cfg o = Some (1, cfg2, o2) ->
  (forall mask, after_char "/" filter = Some mask -> is_numeric mask = true -> atoi mask <= 32) ->
  set_max_bandwidth rate o = Some (Parsed o1) /\ set_net_filter filter o = Some (Parsed o2).
Proof.
  intros Hr Hrate Hfilter Hb Hnum Hf Hlen. split.
  - unfold options_config_get_bw_rate in Hb. rewrite (get_string_spec cfg m Hr), Hrate in Hb. cbn [mbind option_bind] in Hb.
    rewrite bool_decide_false in Hb by done. unfold set_max_bandwidth. rewrite (bool_decide_false _ Hnum).
    destruct (skip_set digits rate) as [|c [|]] eqn:Eu; [| |done].
    + by injection Hb as _ <-.
    + destruct (unit_mult c) as [v|] eqn:Ec; [|done]. rewrite (old_mult_unit c v Ec). by injection Hb as _ <-.
  - unfold options_config_get_net_filter in Hf. rewrite (get_string_spec cfg m Hr), Hfilter in Hf.
    cbn [mbind option_bind] in Hf. unfold set_net_filter.
    destruct (after_char "/" filter) as [mask|]; [|done]. destruct (inet_aton (before_char "/" filter)) as [a|]; [|done].
    destruct (is_numeric mask) eqn:En.
    + rewrite (proj2 (Z.ltb_ge _ _) (Hlen mask eq_refl En)) in Hf |- *.
      destruct (prefix_mask (atoi mask)); cbn [mbind option_bind] in *; [|done]. injection Hf as _ <-. by destruct o.
    + destruct (inet_aton mask); [|done]. injection Hf as _ <-. by destruct o.
Qed.
End inet.

Definition demo_old_cfg : config :=
  match config_set_string config_init "max-bandwidth" "10M" with
  | Some cfg => default config_init (config_set_string cfg "net-filter" "10.1.0.0/16")
  | None => config_init
  end.

Definition demo_old_map : gmap string string := <["net-filter" := "10.1.0.0/16"]> (<["max-bandwidth" := "10M"]> ∅).

Lemma demo_old_rep : sm_rep demo_old_cfg demo_old_map.
Proof.
  unfold demo_old_cfg, demo_old_map.
  destruct (config_set_string_spec config_init ∅ "max-bandwidth" "10M" config_init_rep) as (c1 & -> & H1).
  by destruct (config_set_string_spec c1 _ "net-filter" "10.1.0.0/16" H1) as (c2 & -> & H2).
Qed.

Example old_parsers_agree_witness :
  exists o1 o2, set_max_bandwidth "10M" (options_set_defaults None None) = Some (Parsed o1) /\
    set_net_filter demo_aton "10.1.0.0/16" (options_set_defaults None None) = Some (Parsed o2).
Proof.
  do 2 eexists.
  eapply (old_parsers_agree demo_aton 0 demo_old_cfg demo_old_map (options_set_defaults None None) "10M" "10.1.0.0/16").
  - exact demo_old_rep.
  - reflexivity.
  - reflexivity.
  - vm_compute. reflexivity.
  - vm_compute. discriminate.
  - vm_compute. reflexivity.
  - intros mask [= <-] _. vm_compute. discriminate.
Defined.

(** Where they differ: a unit the directive refuses counts as 1 here. *)
Example unknown_unit_accepted :
  set_max_bandwidth "10x" (options_set_defaults None None) =
    Some (Parsed (OptionsT.set_max_bandwidth 10 (options_set_defaults None None))).
Proof. reflexivity. Qed.
