(* ===== verification/ProcInfo.v ===== *)
(** * Owning processes of sockets (src/util/procinfo.c, the Linux part)

    [procinfo_refresh] reads the socket tables of /proc/net and the file
    descriptors of every process and builds a table of local endpoints;
    [procinfo_lookup] searches it.  The contents of /proc are the argument
    [sys]; sscanf is an interpreter of the conversions the two formats use. *)

From S2P Require Import Prelude Bytes CStr AddrHash History.

Local Open Scope Z_scope.

(** ** sscanf *)
Inductive directive :=
  | DSpace                          (* white space: any amount *)
  | DLit (c : ascii)
  | DHex (store : bool)             (* %x, %*x: unsigned int *)
  | DInt (store : bool)             (* %d, %u *)
  | DULong                          (* %lu *)
  | DHexStr (n : nat).              (* %n[0-9A-Fa-f] *)

Inductive scanned := SNum (v : Z) | SStr (s : string).

Definition hex_val (c : ascii) : Z :=
  let n := Z.of_N (N_of_ascii c) in
  if is_digit c then n - 48 else if 97 <=? n then n - 87 else n - 55.

Definition is_hex (c : ascii) : bool :=
  is_digit c || one_of "abcdefABCDEF" c.

Fixpoint hex_value (acc : Z) (s : string) : Z :=
  match s with EmptyString => acc | String c s => hex_value (16 * acc + hex_val c) s end.

Definition drop_sign (s : string) : bool * string :=
  match s with
  | String "-" s' => (true, s')
  | String "+" s' => (false, s')
  | _ => (false, s)
  end.

Definition drop_0x (s : string) : string :=
  match s with
  | String "0" (String "x" (String c s')) => if is_hex c then String c s' else s
  | String "0" (String "X" (String c s')) => if is_hex c then String c s' else s
  | _ => s
  end.

(** [strtoul]: white space, sign, digits; the wrapped value and the rest. *)
Definition scan_number (p : ascii -> bool) (value : string -> Z) (prefix : string -> string)
    (width : Z) (s : string) : option (Z * string) :=
  let '(neg, s) := drop_sign (drop_while is_space s) in
  let s := prefix s in
  let ds := take_while p s in
  if bool_decide (ds = EmptyString) then None
  else
    let v := Z.min (value ds) (2 ^ 64 - 1) in
    Some (uwrap width (if neg : bool then - v else v), drop_while p s).

Definition scan_hex := scan_number is_hex (hex_value 0) drop_0x 32.
Definition scan_int := scan_number is_digit (dec_value 0) id 32.
Definition scan_ulong := scan_number is_digit (dec_value 0) id 64.

(** The values assigned before the first mismatch. *)
Fixpoint sscanf (fmt : list directive) (s : string) : list scanned :=
  match fmt with
  | [] => []
  | DSpace :: fmt => sscanf fmt (drop_while is_space s)
  | DLit c :: fmt =>
      match s with String a s' => if aeq a c then sscanf fmt s' else [] | EmptyString => [] end
  | DHex store :: fmt =>
      match scan_hex s with
      | Some (v, s) => if store then SNum v :: sscanf fmt s else sscanf fmt s
      | None => []
      end
  | DInt store :: fmt =>
      match scan_int s with
      | Some (v, s) => if store then SNum v :: sscanf fmt s else sscanf fmt s
      | None => []
      end
  | DULong :: fmt =>
      match scan_ulong s with Some (v, s) => SNum v :: sscanf fmt s | None => [] end
  | DHexStr n :: fmt =>
      let w := take_while is_hex (str_take n s) in
      if bool_decide (w = EmptyString) then [] else SStr w :: sscanf fmt (str_drop (strlen w) s)
  end.

Definition colon : directive := DLit ":".

(** [" %*d: %x:%x %x:%x %x %*x:%*x %*x:%*x %*x %*u %*d %lu"] *)
Definition fmt_rest : list directive :=
  [DSpace; DHex true; DSpace; DHex false; colon; DHex false; DSpace; DHex false; colon; DHex false;
   DSpace; DHex false; DSpace; DInt false; DSpace; DInt false; DSpace; DULong].

Definition fmt_v4 : list directive :=
  [DSpace; DInt false; colon; DSpace; DHex true; colon; DHex true; DSpace; DHex true; colon; DHex true]
  ++ fmt_rest.

(** [" %*d: %32[0-9A-Fa-f]:%x %32[0-9A-Fa-f]:%x %x ..."] *)
Definition fmt_v6 : list directive :=
  [DSpace; DInt false; colon; DSpace; DHexStr 32; colon; DHex true; DSpace; DHexStr 32; colon; DHex true]
  ++ fmt_rest.

(** ** Socket table *)
Record sock_entry := SockEntry {
  se_af : Z; se_protocol : Z; se_port : Z; se_addr : list Z; se_pid : Z; se_name : string
}.

Record sock_table_t := SockTable { entries : list sock_entry; count : Z; cap : Z }.

Definition table_create : sock_table_t := SockTable [] 0 0.

(** The bytes of the address that are copied. *)
Definition addr_copy (af : Z) (addr : list Z) : list Z :=
  if af =? AF_INET then take 4 addr else take 16 addr.

(** [realloc_ok]: whether the reallocation, when one is needed, succeeds. *)
Definition table_add (realloc_ok : bool) (t : sock_table_t) (af protocol port : Z) (addr : list Z)
    (pid : Z) (name : string) : sock_table_t :=
  let full := cap t <=? count t in
  let cap' := if full then (if truth (cap t) then s32 (cap t * 2) else 512) else cap t in
  if full && negb realloc_ok then SockTable [] 0 0
  else
    let e := SockEntry af protocol port (addr_copy af addr) pid (strncpy (PROCINFO_NAME_MAX - 1) name) in
    SockTable (take (Z.to_nat (count t)) (entries t) ++ [e]) (count t + 1) cap'.

Definition v4mapped_prefix : list Z := replicate 10 0 ++ [255; 255].

Definition all_zero (l : list Z) : bool := forallb (Z.eqb 0) l.

(** One turn of the search: does the entry answer the lookup? *)
Definition sock_match (e : sock_entry) (af : Z) (addr : list Z) (port protocol : Z) : bool :=
  if negb (se_port e =? port) || negb (se_protocol e =? protocol) then false
  else
    ((se_af e =? af) &&
      (((af =? AF_INET) && (bool_decide (take 4 (se_addr e) = take 4 addr) || (s_addr (se_addr e) =? 0)))
       || ((af =? AF_INET6) && (bool_decide (take 16 (se_addr e) = take 16 addr)
                                || all_zero (take 16 (se_addr e))))))
    || ((af =? AF_INET) && (se_af e =? AF_INET6) &&
        bool_decide (take 12 (se_addr e) = v4mapped_prefix) &&
        bool_decide (take 4 (drop 12 (se_addr e)) = take 4 addr)).

(** The pid and name of the first match, in the order of the array. *)
Fixpoint find_entry (es : list sock_entry) (af : Z) (addr : list Z) (port protocol : Z) :
    option (Z * string) :=
  match es with
  | [] => None
  | e :: es =>
      if sock_match e af addr port protocol then Some (se_pid e, se_name e)
      else find_entry es af addr port protocol
  end.

Definition table_find (t : option sock_table_t) (af : Z) (addr : list Z) (port protocol : Z) :
    option (Z * string) :=
  match t with
  | None => None
  | Some t => find_entry (take (Z.to_nat (count t)) (entries t)) af addr port protocol
  end.

(** ** Inodes of the sockets *)
Record inode_entry := InodeEntry {
  ie_inode : Z; ie_af : Z; ie_protocol : Z; ie_port : Z; ie_addr : list Z
}.

Definition inode_table_add (t : list inode_entry) (inode af protocol port : Z) (addr : list Z) :
    list inode_entry :=
  t ++ [InodeEntry inode af protocol (u16 port) (addr_copy af addr)].

Definition inode_table_find (t : list inode_entry) (inode : Z) : option inode_entry :=
  List.find (fun e => ie_inode e =? inode) t.

(** The bytes of an [unsigned int] in memory, on a little-endian host. *)
Definition le_bytes (v : Z) : list Z :=
  [Z.land v 255; Z.land (Z.shiftr v 8) 255; Z.land (Z.shiftr v 16) 255; Z.land (Z.shiftr v 24) 255].

(** The 16 bytes of an IPv6 address printed as four words; [None] when the
    string has not 32 digits, since the words are then read past it. *)
Definition parse_addr6 (s : string) : option (list Z) :=
  if Z.of_nat (strlen s) =? 32 then
    Some (le_bytes (hex_value 0 (str_take 8 s)) ++
          le_bytes (hex_value 0 (str_take 8 (str_drop 8 s))) ++
          le_bytes (hex_value 0 (str_take 8 (str_drop 16 s))) ++
          le_bytes (hex_value 0 (str_take 8 (str_drop 24 s))))
  else None.

(** One line of /proc/net/tcp or its like. *)
Definition parse_row (t : list inode_entry) (af protocol : Z) (line : string) :
    option (list inode_entry) :=
  if af =? AF_INET then
    match sscanf fmt_v4 line with
    | [SNum local_addr_hex; SNum local_port; SNum _; SNum _; SNum _; SNum inode] =>
        if inode =? 0 then Some t
        else Some (inode_table_add t inode AF_INET protocol local_port (le_bytes local_addr_hex))
    | _ => Some t
    end
  else
    match sscanf fmt_v6 line with
    | [SStr local_addr_str; SNum local_port; SStr _; SNum _; SNum _; SNum inode] =>
        if inode =? 0 then Some t
        else addr ← parse_addr6 local_addr_str;
             Some (inode_table_add t inode AF_INET6 protocol local_port addr)
    | _ => Some t
    end.

(** [while (fgets(line, 512, fp)) ...] *)
Fixpoint parse_rows (fuel : nat) (t : list inode_entry) (af protocol : Z) (f : string) :
    option (list inode_entry) :=
  match fuel with
  | O => None
  | S fuel =>
      match fgets 512 f with
      | None => Some t
      | Some (line, f) => t ← parse_row t af protocol (cstr line); parse_rows fuel t af protocol f
      end
  end.

(** The first line is a header. *)
Definition parse_proc_net (t : list inode_entry) (contents : option string) (af protocol : Z) :
    option (list inode_entry) :=
  match contents with
  | None => Some t
  | Some f =>
      match fgets 512 f with
      | None => Some t
      | Some (_, f) => parse_rows (S (strlen f)) t af protocol f
      end
  end.

(** ** The system as procinfo_refresh reads it *)
Record proc_dir := ProcDir {
  d_name : string;
  fd_links : option (list (option string));   (* targets; none: cannot be opened or read *)
  comm : option (option string)               (* /proc/pid/comm: no file, or its first line *)
}.

Record proc_sys := ProcSys {
  proc_net : string -> option string;
  proc_dirs : option (list proc_dir)
}.

(** Up to 63 bytes of the name, without its newline. *)
Definition get_proc_name (pid : Z) (c : option (option string)) : string :=
  match c with
  | Some (Some line) => before_char NL (str_take (Z.to_nat (PROCINFO_NAME_MAX - 1)) line)
  | _ => str_take (Z.to_nat (PROCINFO_NAME_MAX - 1)) ("pid:" +:+ dec pid)
  end.

Definition IPPROTO_TCP : Z := 6.
Definition IPPROTO_UDP : Z := 17.

(** ["socket:[%lu]"] *)
Definition fmt_socket : list directive :=
  [DLit "s"; DLit "o"; DLit "c"; DLit "k"; DLit "e"; DLit "t"; colon; DLit "["; DULong].

Fixpoint refresh_fds (t : sock_table_t) (inodes : list inode_entry) (pid : Z) (name : string)
    (links : list (option string)) : sock_table_t :=
  match links with
  | [] => t
  | link :: links =>
      let t :=
        match link with
        | None | Some EmptyString => t
        | Some target =>
            match sscanf fmt_socket (str_take 127 target) with
            | [SNum inode] =>
                match inode_table_find inodes inode with
                | Some ie =>
                    table_add true t (ie_af ie) (ie_protocol ie) (ie_port ie) (ie_addr ie) pid name
                | None => t
                end
            | _ => t
            end
        end in
      refresh_fds t inodes pid name links
  end.

(** The pid of a directory entry whose whole name is a positive number. *)
Definition dir_pid (d : proc_dir) : option Z :=
  let '(pid, rest, _) := strtol (d_name d) in
  if negb (bool_decide (rest = EmptyString)) || (pid <=? 0) then None else Some pid.

Fixpoint refresh_dirs (t : sock_table_t) (inodes : list inode_entry) (dirs : list proc_dir) :
    sock_table_t :=
  match dirs with
  | [] => t
  | d :: dirs =>
      let t :=
        match dir_pid d, fd_links d with
        | Some pid, Some links => refresh_fds t inodes (s32 pid) (get_proc_name (s32 pid) (comm d)) links
        | _, _ => t
        end in
      refresh_dirs t inodes dirs
  end.

(** The table that is published. *)
Definition procinfo_refresh (sys : proc_sys) : option sock_table_t :=
  inodes ← parse_proc_net [] (proc_net sys "/proc/net/tcp") AF_INET IPPROTO_TCP;
  inodes ← parse_proc_net inodes (proc_net sys "/proc/net/tcp6") AF_INET6 IPPROTO_TCP;
  inodes ← parse_proc_net inodes (proc_net sys "/proc/net/udp") AF_INET IPPROTO_UDP;
  inodes ← parse_proc_net inodes (proc_net sys "/proc/net/udp6") AF_INET6 IPPROTO_UDP;
  match inodes, proc_dirs sys with
  | [], _ | _, None => Some table_create
  | _, Some dirs => Some (refresh_dirs table_create inodes dirs)
  end.

Definition procinfo_lookup (live_table : option sock_table_t) (address_family : Z)
    (local_addr : list Z) (local_port protocol : Z) : option (Z * string) :=
  table_find live_table address_family local_addr local_port protocol.

(** A listening socket of /proc/net/tcp. *)
Definition demo_row : string :=
  "   0: 0100007F:1F90 00000000:0000 0A 00000000:00000000 00:00000000 00000000  1000        0 12345 1".

Example parse_row_demo :
  parse_row [] AF_INET IPPROTO_TCP demo_row =
    Some [InodeEntry 12345 AF_INET IPPROTO_TCP 8080 [127; 0; 0; 1]].
Proof. vm_compute. reflexivity. Qed.

Definition demo_row6 : string :=
  "   1: 0000000000000000FFFF00000100007F:0050 00000000000000000000000000000000:0000 0A 00000000:00000000 00:00000000 00000000     0        0 777 1".

Example parse_row6_demo :
  parse_row [] AF_INET6 IPPROTO_TCP demo_row6 =
    Some [InodeEntry 777 AF_INET6 IPPROTO_TCP 80 (v4mapped_prefix ++ [127; 0; 0; 1])].
Proof. vm_compute. reflexivity. Qed.

Definition demo_sys_proc : proc_sys := ProcSys
  (fun path => if String.eqb path "/proc/net/tcp" then Some ("header" +:+ String NL demo_row) else None)
  (Some [ProcDir "self" None None;
         ProcDir "42" (Some [Some "/dev/null"; Some "socket:[12345]"; None]) (Some (Some ("nginx" +:+ String NL "")))]).

Definition demo_live : option sock_table_t := procinfo_refresh demo_sys_proc.

Example procinfo_demo :
  procinfo_lookup demo_live AF_INET ([127; 0; 0; 1] ++ replicate 12 0) 8080 IPPROTO_TCP = Some (42, "nginx").
Proof. vm_compute. reflexivity. Qed.

(** ** Tables *)
Record table_ok (t : sock_table_t) : Prop := TableOk {
  to_count : count t = Z.of_nat (length (entries t));
  to_cap : count t <= cap t
}.

Lemma table_create_ok : table_ok table_create.
Proof. by split. Qed.

(** As long as the capacity does not overflow an [int]. *)
Definition table_fits (t : sock_table_t) : Prop :=
  table_ok t /\ (cap t = 0 \/ 512 <= cap t) /\ cap t <= Z.max 512 (2 * count t).

Lemma table_add_spec t af protocol port addr pid name :
  table_fits t -> count t < 2 ^ 29 ->
  let t' := table_add true t af protocol port addr pid name in
  table_fits t' /\ count t' = count t + 1 /\
  entries t' = entries t ++
    [SockEntry af protocol port (addr_copy af addr) pid (strncpy (PROCINFO_NAME_MAX - 1) name)].
Proof.
  intros ([Hc Hk] & H0 & Hm) Hlt. unfold table_add. cbn zeta. rewrite andb_false_r, Hc, Nat2Z.id, take_ge by lia.
  split; [|done]. unfold table_fits. cbn [count cap entries].
  assert (0 <= count t) by lia. rewrite Hc in *.
  set (n := Z.of_nat (length (entries t))) in *.
  assert (n + 1 <= (if cap t <=? n then (if truth (cap t) then s32 (cap t * 2) else 512) else cap t) /\
    ((if cap t <=? n then (if truth (cap t) then s32 (cap t * 2) else 512) else cap t) = 0 \/
     512 <= (if cap t <=? n then (if truth (cap t) then s32 (cap t * 2) else 512) else cap t)) /\
    (if cap t <=? n then (if truth (cap t) then s32 (cap t * 2) else 512) else cap t)
      <= Z.max 512 (2 * (n + 1))) as (A1 & A2 & A3).
  { destruct (Z.leb_spec (cap t) n); [|lia].
    unfold truth. destruct (Z.eqb_spec (cap t) 0); simpl negb; cbv iota; [lia|].
    rewrite swrap_small; lia. }
  split_and!; [|done|done]. split; cbn [count cap entries]; [|done]. rewrite length_app. simpl. lia.
Qed.

(** ** What a refresh publishes *)

(** The first row with the inode. *)
Definition row_of (inodes : list inode_entry) (inode : Z) : option inode_entry :=
  head (filter (fun ie => ie_inode ie = inode) inodes).

Lemma inode_table_find_row inodes inode : inode_table_find inodes inode = row_of inodes inode.
Proof.
  unfold inode_table_find, row_of. induction inodes as [|ie inodes IH]; [done|]. cbn [List.find].
  rewrite filter_cons. destruct (Z.eqb_spec (ie_inode ie) inode); [by rewrite decide_True|by rewrite decide_False].
Qed.

(** The entries of one file descriptor. *)
Definition fd_entries (inodes : list inode_entry) (pid : Z) (name : string) (link : option string) :
    list sock_entry :=
  match link with
  | None | Some EmptyString => []
  | Some target =>
      match sscanf fmt_socket (str_take 127 target) with
      | [SNum inode] =>
          match row_of inodes inode with
          | Some ie => [SockEntry (ie_af ie) (ie_protocol ie) (ie_port ie) (addr_copy (ie_af ie) (ie_addr ie))
                          pid (strncpy (PROCINFO_NAME_MAX - 1) name)]
          | None => []
          end
      | _ => []
      end
  end.

(** The entries of one process, then of all of them in directory order. *)
Definition dir_entries (inodes : list inode_entry) (d : proc_dir) : list sock_entry :=
  match dir_pid d, fd_links d with
  | Some pid, Some links =>
      links ≫= fd_entries inodes (s32 pid) (get_proc_name (s32 pid) (comm d))
  | _, _ => []
  end.

Lemma refresh_fds_spec inodes pid name links t :
  table_fits t ->
  count t + Z.of_nat (length (links ≫= fd_entries inodes pid name)) < 2 ^ 29 ->
  let t' := refresh_fds t inodes pid name links in
  table_fits t' /\ entries t' = entries t ++ (links ≫= fd_entries inodes pid name).
Proof.
  revert t. induction links as [|l links IH]; intros t Ht Hlen; cbn [refresh_fds].
  { by rewrite app_nil_r. }
  cbn [mbind list_bind] in *. rewrite length_app in Hlen.
  assert (exists t1, (match l with
     | None | Some EmptyString => t
     | Some target =>
         match sscanf fmt_socket (str_take 127 target) with
         | [SNum inode] =>
             match inode_table_find inodes inode with
             | Some ie => table_add true t (ie_af ie) (ie_protocol ie) (ie_port ie) (ie_addr ie) pid name
             | None => t
             end
         | _ => t
         end
     end) = t1 /\ table_fits t1 /\ entries t1 = entries t ++ fd_entries inodes pid name l /\
     count t1 = count t + Z.of_nat (length (fd_entries inodes pid name l)))
    as (t1 & -> & Ht1 & He1 & Hc1).
  { assert (table_fits t /\ entries t = entries t ++ [] /\ count t = count t + 0)
      as Hid by (rewrite app_nil_r, Z.add_0_r; done).
    destruct l as [[|c target]|]; [eauto| |eauto]. cbn [fd_entries] in *.
    destruct (sscanf fmt_socket (str_take 127 (String c target))) as [|[inode|s] [|? ?]]; [eauto| |eauto..].
    rewrite <- inode_table_find_row in *. destruct (inode_table_find inodes inode) as [ie|]; [|eauto].
    destruct (table_add_spec t (ie_af ie) (ie_protocol ie) (ie_port ie) (ie_addr ie) pid name Ht)
      as (A & B & D); [simpl in Hlen; lia|]. eexists. split; [done|]. split_and!; done. }
  destruct (IH t1 Ht1) as [Ht' He']; [rewrite Hc1; lia|].
  split; [done|]. by rewrite He', He1, <- app_assoc.
Qed.

Lemma refresh_dirs_spec inodes dirs t :
  table_fits t ->
  count t + Z.of_nat (length (dirs ≫= dir_entries inodes)) < 2 ^ 29 ->
  let t' := refresh_dirs t inodes dirs in
  table_fits t' /\ entries t' = entries t ++ (dirs ≫= dir_entries inodes).
Proof.
  revert t. induction dirs as [|d dirs IH]; intros t Ht Hlen; cbn [refresh_dirs].
  { by rewrite app_nil_r. }
  cbn [mbind list_bind] in *. rewrite length_app in Hlen.
  assert (let t1 := match dir_pid d, fd_links d with
     | Some pid, Some links => refresh_fds t inodes (s32 pid) (get_proc_name (s32 pid) (comm d)) links
     | _, _ => t end in
     table_fits t1 /\ entries t1 = entries t ++ dir_entries inodes d) as [Ht1 He1].
  { unfold dir_entries in *. destruct (dir_pid d), (fd_links d); rewrite ?app_nil_r; try done.
    apply refresh_fds_spec; [done|lia]. }
  destruct (IH _ Ht1) as [Ht' He'].
  - destruct Ht1 as [[Hc1 _] _]. destruct Ht as [[Hc _] _].
    rewrite Hc1, He1, length_app. lia.
  - split; [done|]. by rewrite He', He1, <- app_assoc.
Qed.

Definition inodes_of (sys : proc_sys) : option (list inode_entry) :=
  inodes ← parse_proc_net [] (proc_net sys "/proc/net/tcp") AF_INET IPPROTO_TCP;
  inodes ← parse_proc_net inodes (proc_net sys "/proc/net/tcp6") AF_INET6 IPPROTO_TCP;
  inodes ← parse_proc_net inodes (proc_net sys "/proc/net/udp") AF_INET IPPROTO_UDP;
  parse_proc_net inodes (proc_net sys "/proc/net/udp6") AF_INET6 IPPROTO_UDP.

Lemma fd_entries_nil pid name links : links ≫= fd_entries [] pid name = [].
Proof.
  induction links as [|l links IH]; [done|]. cbn [mbind list_bind] in *. rewrite IH, app_nil_r.
  destruct l as [[|c s]|]; [done| |done]. cbn [fd_entries].
  by destruct (sscanf _ _) as [|[] []].
Qed.

Lemma dir_entries_nil dirs : dirs ≫= dir_entries [] = [].
Proof.
  induction dirs as [|d dirs IH]; [done|]. cbn [mbind list_bind] in *. rewrite IH, app_nil_r.
  unfold dir_entries. destruct (dir_pid d), (fd_links d); try done. apply fd_entries_nil.
Qed.

(** ** Publishing while a lookup runs

    The live table is exchanged atomically and the old one is freed at once,
    by the thread that ticks; the thread that captures packets loads the
    pointer and then reads the entries.  Tables are named by their address. *)
Record shared := Shared {
  live : option positive;
  allocated : gset positive;
  reading : option positive     (* the table the lookup is walking *)
}.

Inductive thread_step (s : shared) : shared -> Prop :=
  | step_load p :
      live s = Some p -> reading s = None -> thread_step s (Shared (live s) (allocated s) (Some p))
  | step_done : thread_step s (Shared (live s) (allocated s) None)
  | step_publish p :
      p ∉ allocated s ->
      thread_step s (Shared (Some p)
        (match live s with Some old => ({[p]} ∪ allocated s) ∖ {[old]} | None => {[p]} ∪ allocated s end)
        (reading s)).

(** "We use a double-buffer: refresh builds a new table, then swaps the live
    pointer atomically": the swap does not keep a lookup from reading the
    table that was freed. *)
Lemma lookup_may_read_freed_table :
  exists s p, rtc thread_step (Shared None ∅ None) s /\ reading s = Some p /\ p ∉ allocated s.
Proof.
  eexists (Shared (Some 2%positive) _ (Some 1%positive)), 1%positive. split_and!; [|done|].
  - eapply rtc_l; [by apply (step_publish _ 1%positive)|].
    eapply rtc_l; [by apply (step_load _ 1%positive)|].
    eapply rtc_l; [by apply (step_publish _ 2%positive)|]. apply rtc_refl.
  - simpl. set_solver.
Qed.

Lemma refresh_lookup (sys : proc_sys) (inodes : list inode_entry) (dirs : list proc_dir)
    (af : Z) (addr : list Z) (port protocol : Z) :
  inodes_of sys = Some inodes -> proc_dirs sys = Some dirs ->
  Z.of_nat (length (dirs ≫= dir_entries inodes)) < 2 ^ 29 ->
  exists t, procinfo_refresh sys = Some t /\
    procinfo_lookup (Some t) af addr port protocol =
      find_entry (dirs ≫= dir_entries inodes) af addr port protocol.
Proof.
  intros Hi Hd Hlen. unfold procinfo_refresh, inodes_of in *.
  do 3 (apply bind_Some in Hi as (? & E & Hi); rewrite E; cbn [mbind option_bind]; clear E).
  rewrite Hi, Hd. cbn [mbind option_bind].
  destruct inodes as [|ie inodes].
  { eexists. split; [done|]. by rewrite dir_entries_nil. }
  eexists. split; [done|].
  destruct (refresh_dirs_spec (ie :: inodes) dirs table_create) as [[[Hc _] _] He];
    [by split; [apply table_create_ok|split; [left|]]|done|].
  unfold procinfo_lookup, table_find. rewrite Hc, Nat2Z.id, take_ge by lia. by rewrite He.
Qed.

(** ** What a lookup answers *)

(** The socket of the entry answers for the address: it has the protocol and
    the port, and is bound to the address, to any address of the family, or to
    the v4-mapped form of an IPv4 address. *)
Definition answers (af : Z) (addr : list Z) (port protocol : Z) (e : sock_entry) : Prop :=
  se_protocol e = protocol /\ se_port e = port /\
  ((af = AF_INET /\ se_af e = AF_INET /\ (take 4 (se_addr e) = take 4 addr \/ s_addr (se_addr e) = 0)) \/
   (af = AF_INET6 /\ se_af e = AF_INET6 /\
     (take 16 (se_addr e) = take 16 addr \/ Forall (fun b => b = 0) (take 16 (se_addr e)))) \/
   (af = AF_INET /\ se_af e = AF_INET6 /\ take 12 (se_addr e) = replicate 10 0 ++ [255; 255] /\
     take 4 (drop 12 (se_addr e)) = take 4 addr)).

(** The pid and name of the first entry that answers, or none when none does. *)
Definition first_answer (af : Z) (addr : list Z) (port protocol : Z) (es : list sock_entry)
    (r : option (Z * string)) : Prop :=
  match r with
  | Some (pid, name) => exists before e after, es = before ++ e :: after /\ answers af addr port protocol e /\
      Forall (fun e' => ~ answers af addr port protocol e') before /\ pid = se_pid e /\ name = se_name e
  | None => Forall (fun e => ~ answers af addr port protocol e) es
  end.

Lemma all_zero_spec l : all_zero l = true <-> Forall (fun b => b = 0) l.
Proof.
  unfold all_zero. rewrite <- Is_true_true, forallb_True, !Forall_forall. split; intros H b Hb.
  - by specialize (H b Hb) as H0%Is_true_true%Z.eqb_eq.
  - apply Is_true_true, Z.eqb_eq. by rewrite (H b Hb).
Qed.

Lemma sock_match_answers e af addr port protocol :
  sock_match e af addr port protocol = true <-> answers af addr port protocol e.
Proof.
  unfold sock_match, answers. destruct (Z.eqb_spec (se_port e) port), (Z.eqb_spec (se_protocol e) protocol);
    cbn [negb orb]; [|by split; [|intros (? & ? & _)]..].
  rewrite !orb_true_iff, !andb_true_iff, !orb_true_iff, !andb_true_iff, !orb_true_iff, all_zero_spec,
    !bool_decide_eq_true, !Z.eqb_eq. unfold v4mapped_prefix.
  split; [intros [(? & [[? ?]|[? ?]])|[[[? ?] ?] ?]]|intros (_ & _ & [(? & ? & ?)|[(? & ? & ?)|(? & ? & ? & ?)]])];
    (split_and!; [done..|]) || idtac; subst; naive_solver.
Qed.

Lemma find_entry_first es af addr port protocol :
  first_answer af addr port protocol es (find_entry es af addr port protocol).
Proof.
  induction es as [|e es IH]; [constructor|]. cbn [find_entry].
  pose proof (sock_match_answers e af addr port protocol) as He.
  destruct (sock_match e af addr port protocol).
  - exists [], e, es. split_and!; try done. by apply He.
  - assert (~ answers af addr port protocol e) as Hn by (intros H; by apply He in H).
    destruct (find_entry es af addr port protocol) as [[pid name]|]; cbn [first_answer] in *; [|by constructor].
    destruct IH as (before & e1 & after & -> & H1 & H2 & H3). exists (e :: before), e1, after.
    split_and!; try done; [by constructor|apply H3..].
Qed.

(** ** Properties *)

(** C24: after a refresh, a lookup answers with the first process, in the order
    of /proc and of its descriptors, that has open a socket whose row in
    /proc/net has the protocol and the port and matches the address (equal,
    any, or v4-mapped), and with none only when no entry does, for any contents
    of /proc that are read without an error and name less than 2^29 sockets;
    the array grows as it must and no entry is lost. *)
Theorem procinfo_refresh_lookup (sys : proc_sys) (inodes : list inode_entry) (dirs : list proc_dir)
    (af : Z) (addr : list Z) (port protocol : Z) :
  inodes_of sys = Some inodes -> proc_dirs sys = Some dirs ->
  Z.of_nat (length (dirs ≫= dir_entries inodes)) < 2 ^ 29 ->
  exists t, procinfo_refresh sys = Some t /\
    first_answer af addr port protocol (dirs ≫= dir_entries inodes)
      (procinfo_lookup (Some t) af addr port protocol).
Proof.
  intros Hi Hd Hl. destruct (refresh_lookup sys inodes dirs af addr port protocol Hi Hd Hl) as (t & E & E').
  exists t. rewrite E'. split; [done|apply find_entry_first].
Qed.

Example procinfo_refresh_lookup_witness :
  exists t, procinfo_refresh demo_sys_proc = Some t /\
    first_answer AF_INET ([127; 0; 0; 1] ++ replicate 12 0) 8080 IPPROTO_TCP
      ([ProcDir "self" None None;
        ProcDir "42" (Some [Some "/dev/null"; Some "socket:[12345]"; None])
          (Some (Some ("nginx" +:+ String NL "")))]
       ≫= dir_entries [InodeEntry 12345 AF_INET IPPROTO_TCP 8080 [127; 0; 0; 1]])
      (procinfo_lookup (Some t) AF_INET ([127; 0; 0; 1] ++ replicate 12 0) 8080 IPPROTO_TCP).
Proof.
  apply (procinfo_refresh_lookup demo_sys_proc);
    [vm_compute; reflexivity|reflexivity|vm_compute; reflexivity].
Defined.
