(* ===== verification/ProcMac.v ===== *)
(** * Process attribution: macOS, other platforms, and the life of the tables
    (src/util/procinfo.c)

    The refresh that reads libproc, with what libproc answers as an argument,
    and the same promise as the Linux one: a lookup answers from the sockets
    the system lists, in its order.  Then the tables as memory: created,
    published, destroyed. *)

From S2P Require Import Prelude Bytes Chain Hash Pool AddrHash History CStr ProcInfo.

Local Open Scope Z_scope.

(** ** What libproc answers *)

(** proc_pidfdinfo on a socket: the family, the protocol, the local port (an
    int that holds a short in network order) and the local address. *)
Record socket_fdinfo := SocketFdinfo {
  soi_family : Z;
  soi_protocol : Z;
  insi_lport : Z;
  insi_laddr : list Z
}.

Record proc_fdinfo := ProcFdinfo {
  is_socket : bool;
  socket_info : option socket_fdinfo   (* none: the call fails *)
}.

(** A process: its descriptors (none when a call or an allocation fails) and its
    name (none when proc_name fails). *)
Record libproc_process := LibprocProcess {
  lp_pid : Z;
  lp_fds : option (list proc_fdinfo);
  lp_name : option string
}.

(** ntohs on a little-endian host, of the low half of an int. *)
Definition ntohs (v : Z) : Z := let v := u16 v in Z.lor (Z.shiftl (Z.land v 255) 8) (Z.shiftr v 8).

Definition libproc_name (p : libproc_process) : string :=
  match lp_name p with
  | Some name => name
  | None => str_take (Z.to_nat (PROCINFO_NAME_MAX - 1)) ("pid:" +:+ dec (lp_pid p))
  end.

(** One descriptor. *)
Definition refresh_socket (t : sock_table_t) (pid : Z) (name : string) (fd : proc_fdinfo) : sock_table_t :=
  if negb (is_socket fd) then t
  else match socket_info fd with
  | None => t
  | Some si =>
      if negb (soi_family si =? AF_INET) && negb (soi_family si =? AF_INET6) then t
      else if negb (soi_protocol si =? IPPROTO_TCP) && negb (soi_protocol si =? IPPROTO_UDP) then t
      else
        let lport := ntohs (insi_lport si) in
        if lport =? 0 then t
        else table_add true t (soi_family si) (soi_protocol si) lport (insi_laddr si) pid name
  end.

Fixpoint refresh_sockets (t : sock_table_t) (pid : Z) (name : string) (fds : list proc_fdinfo) : sock_table_t :=
  match fds with [] => t | fd :: fds => refresh_sockets (refresh_socket t pid name fd) pid name fds end.

Definition has_socket (fds : list proc_fdinfo) : bool := existsb is_socket fds.

Definition refresh_process (t : sock_table_t) (p : libproc_process) : sock_table_t :=
  match lp_fds p with
  | None => t
  | Some fds => if has_socket fds then refresh_sockets t (lp_pid p) (libproc_name p) fds else t
  end.

Fixpoint refresh_processes (t : sock_table_t) (ps : list libproc_process) : sock_table_t :=
  match ps with [] => t | p :: ps => refresh_processes (refresh_process t p) ps end.

(** [ps]: none when the list of processes cannot be read. *)
Definition procinfo_refresh_libproc (ps : option (list libproc_process)) : sock_table_t :=
  match ps with None => table_create | Some ps => refresh_processes table_create ps end.

(** ** The promise of a refresh *)

(** A platform: the table it publishes answers every lookup with the first entry
    of the sockets that the system lists. *)
Class ProcSource (S : Type) (refresh : S -> option sock_table_t) (sockets : S -> option (list sock_entry)) :=
  source_lookup : forall s es af addr port protocol,
    sockets s = Some es -> Z.of_nat (length es) < 2 ^ 29 ->
    exists t, refresh s = Some t /\
      procinfo_lookup (Some t) af addr port protocol = find_entry es af addr port protocol.

Definition linux_sockets (sys : proc_sys) : option (list sock_entry) :=
  inodes ← inodes_of sys; dirs ← proc_dirs sys; Some (dirs ≫= dir_entries inodes).

#[export] Instance linux_source : ProcSource proc_sys procinfo_refresh linux_sockets.
Proof.
  intros sys es af addr port protocol (inodes & Hi & (dirs & Hd & [= <-])%bind_Some)%bind_Some Hl.
  by apply (refresh_lookup sys inodes dirs).
Qed.

(** The entries of a descriptor, of a process and of all. *)
Definition socket_entry (pid : Z) (name : string) (fd : proc_fdinfo) : list sock_entry :=
  match is_socket fd, socket_info fd with
  | true, Some si =>
      if ((soi_family si =? AF_INET) || (soi_family si =? AF_INET6)) &&
         ((soi_protocol si =? IPPROTO_TCP) || (soi_protocol si =? IPPROTO_UDP)) && negb (ntohs (insi_lport si) =? 0)
      then [SockEntry (soi_family si) (soi_protocol si) (ntohs (insi_lport si))
              (addr_copy (soi_family si) (insi_laddr si)) pid (strncpy (PROCINFO_NAME_MAX - 1) name)]
      else []
  | _, _ => []
  end.

Definition process_entries (p : libproc_process) : list sock_entry :=
  default [] (lp_fds p) ≫= socket_entry (lp_pid p) (libproc_name p).

Definition libproc_sockets (ps : option (list libproc_process)) : option (list sock_entry) :=
  Some (default [] ps ≫= process_entries).

(** The table holds the entries [es] more. *)
Definition grown (t t' : sock_table_t) (es : list sock_entry) : Prop :=
  table_fits t' /\ entries t' = entries t ++ es.

Lemma grown_refl t : table_fits t -> grown t t [].
Proof. intros H. split; [done|]. by rewrite app_nil_r. Qed.

Lemma grown_trans t1 t2 t3 es es' : grown t1 t2 es -> grown t2 t3 es' -> grown t1 t3 (es ++ es').
Proof. intros [_ E1] [H E2]. split; [done|]. by rewrite E2, E1, app_assoc. Qed.

Lemma grown_count t t' es : table_fits t -> grown t t' es -> count t' = count t + Z.of_nat (length es).
Proof. intros [[Hc _] _] [[[Hc' _] _] E]. rewrite Hc', E, length_app. lia. Qed.

Lemma refresh_socket_grown pid name t fd :
  table_fits t -> count t + Z.of_nat (length (socket_entry pid name fd)) <= 2 ^ 29 ->
  grown t (refresh_socket t pid name fd) (socket_entry pid name fd).
Proof.
  intros Ht. unfold refresh_socket, socket_entry. destruct (is_socket fd); cbn [negb]; [|by intros; apply grown_refl].
  destruct (socket_info fd) as [si|]; [|by intros; apply grown_refl].
  destruct (soi_family si =? AF_INET) eqn:?, (soi_family si =? AF_INET6) eqn:?,
    (soi_protocol si =? IPPROTO_TCP), (soi_protocol si =? IPPROTO_UDP); cbn [negb andb orb]; try by intros; apply grown_refl.
  all: destruct (ntohs (insi_lport si) =? 0); cbn [negb length]; intros Hc; [by apply grown_refl|].
  all: destruct (table_add_spec t (soi_family si) (soi_protocol si) (ntohs (insi_lport si)) (insi_laddr si) pid name Ht)
    as (H1 & _ & H2); [lia|by split].
Qed.

(** Folding a step that grows the table. *)
Lemma fold_grown {A} (step : sock_table_t -> A -> sock_table_t) (listed : A -> list sock_entry)
    (loop : sock_table_t -> list A -> sock_table_t) :
  (forall t, loop t [] = t) -> (forall t a l, loop t (a :: l) = loop (step t a) l) ->
  (forall t a, table_fits t -> count t + Z.of_nat (length (listed a)) <= 2 ^ 29 -> grown t (step t a) (listed a)) ->
  forall l t, table_fits t -> count t + Z.of_nat (length (l ≫= listed)) <= 2 ^ 29 -> grown t (loop t l) (l ≫= listed).
Proof.
  intros H0 H1 Hs. induction l as [|a l IH]; intros t Ht Hl; [rewrite H0; by apply grown_refl|].
  rewrite H1. cbn [mbind list_bind] in *. rewrite length_app in Hl.
  pose proof (Hs t a Ht ltac:(lia)) as Hg. eapply grown_trans; [exact Hg|].
  apply IH; [apply Hg|]. rewrite (grown_count _ _ _ Ht Hg). lia.
Qed.

Lemma refresh_process_grown t p :
  table_fits t -> count t + Z.of_nat (length (process_entries p)) <= 2 ^ 29 ->
  grown t (refresh_process t p) (process_entries p).
Proof.
  intros Ht. unfold refresh_process, process_entries. destruct (lp_fds p) as [fds|]; [|by intros; apply grown_refl].
  cbn [default from_option id]. destruct (has_socket fds) eqn:Eh.
  - by apply (fold_grown (fun t fd => refresh_socket t (lp_pid p) (libproc_name p) fd) (socket_entry (lp_pid p) (libproc_name p))
      (fun t fds => refresh_sockets t (lp_pid p) (libproc_name p) fds)); [..|intros; apply refresh_socket_grown|].
  - assert (fds ≫= socket_entry (lp_pid p) (libproc_name p) = []) as ->; [|by intros; apply grown_refl].
    unfold has_socket in Eh. induction fds as [|fd fds IH]; [done|]. cbn [existsb] in Eh.
    apply orb_false_iff in Eh as [E1 E2]. cbn [mbind list_bind] in *. rewrite (IH E2). unfold socket_entry. by rewrite E1.
Qed.

#[export] Instance libproc_source :
  ProcSource (option (list libproc_process)) (fun ps => Some (procinfo_refresh_libproc ps)) libproc_sockets.
Proof.
  intros ps es af addr port protocol [= <-] Hl. eexists. split; [done|].
  assert (table_fits table_create) as H0 by (split; [apply table_create_ok|by split; [left|]]).
  assert (grown table_create (procinfo_refresh_libproc ps) (default [] ps ≫= process_entries)) as [[[Hc _] _] E].
  { destruct ps as [ps|]; cbn [default from_option id procinfo_refresh_libproc] in *; [|by apply grown_refl].
    apply (fold_grown refresh_process process_entries refresh_processes); [done|done|apply refresh_process_grown|done|].
    cbn [count table_create]. lia. }
  unfold procinfo_lookup, table_find. rewrite Hc, Nat2Z.id, take_ge, E by lia. done.
Qed.

(** ** The life of the tables *)
Record tables := Tables {
  live_table : option positive;
  staging_table : option positive;
  tables_heap : gset positive      (* the tables allocated *)
}.

Definition tables_init : tables := Tables None None ∅.

(** free of a table that is not allocated has no result. *)
Definition table_free (t : option positive) (h : gset positive) : option (gset positive) :=
  match t with
  | None => Some h
  | Some p => if decide (p ∈ h) then Some (h ∖ {[p]}) else None
  end.

(** [memory]: whether calloc succeeds. *)
Definition table_alloc (memory : bool) (s : tables) : tables :=
  if memory then let p := fresh (tables_heap s) in Tables (live_table s) (Some p) ({[p]} ∪ tables_heap s)
  else Tables (live_table s) None (tables_heap s).

Definition table_publish (s : tables) : option tables :=
  h ← table_free (live_table s) (tables_heap s); Some (Tables (staging_table s) None h).

(** The tables of procinfo_refresh: every path after the first allocation
    publishes the staging table. *)
Definition refresh_tables (memory : bool) (s : tables) : option tables :=
  let s := table_alloc memory s in
  match staging_table s with None => Some s | Some _ => table_publish s end.

Definition procinfo_destroy (s : tables) : option tables :=
  h ← table_free (live_table s) (tables_heap s);
  h ← table_free (staging_table s) h;
  Some (Tables None None h).

Inductive tables_op := TRefresh (memory : bool) | TDestroy.

Fixpoint tables_run (ops : list tables_op) (s : tables) : option tables :=
  match ops with
  | [] => Some s
  | TRefresh memory :: ops => s ← refresh_tables memory s; tables_run ops s
  | TDestroy :: ops => s ← procinfo_destroy s; tables_run ops s
  end.

(** Between two calls only the live table is allocated. *)
Definition tables_ok (s : tables) : Prop :=
  staging_table s = None /\ tables_heap s = match live_table s with Some p => {[p]} | None => ∅ end.

Lemma refresh_tables_ok memory s : tables_ok s -> exists s', refresh_tables memory s = Some s' /\ tables_ok s'.
Proof.
  intros [E1 E2]. unfold refresh_tables, table_alloc, table_publish, table_free.
  destruct memory; cbn [staging_table live_table tables_heap]; [|eexists; split; [done|by split]].
  pose proof (is_fresh (tables_heap s)) as Hf. set (p := fresh (tables_heap s)) in *. rewrite E2 in *.
  destruct (live_table s) as [q|]; cbn [mbind option_bind].
  - rewrite decide_True by set_solver. cbn [mbind option_bind]. eexists. split; [done|]. split; [done|].
    cbn [tables_heap live_table]. set_solver.
  - eexists. split; [done|]. split; [done|]. cbn [tables_heap live_table]. set_solver.
Qed.

Lemma procinfo_destroy_ok s : tables_ok s -> procinfo_destroy s = Some tables_init.
Proof.
  intros [E1 E2]. unfold procinfo_destroy, table_free, tables_init. rewrite E1, E2. destruct (live_table s) as [p|]; [|done].
  rewrite decide_True by set_solver. cbn [mbind option_bind]. do 2 f_equal. set_solver.
Qed.

(** For one thread, no refresh and no destruction frees a table twice or loses
    one, whatever allocation fails; a destruction leaves none. *)
Lemma tables_run_ok ops s : tables_ok s -> exists s', tables_run ops s = Some s' /\ tables_ok s'.
Proof.
  revert s. induction ops as [|[memory|] ops IH]; intros s Hs; [by exists s|..]; cbn [tables_run].
  - destruct (refresh_tables_ok memory s Hs) as (s1 & -> & H1). cbn [mbind option_bind]. by apply IH.
  - rewrite (procinfo_destroy_ok s Hs). cbn [mbind option_bind]. by apply IH.
Qed.

Lemma tables_run_app ops ops' s : tables_run (ops ++ ops') s = s ← tables_run ops s; tables_run ops' s.
Proof.
  revert s. induction ops as [|[memory|] ops IH]; intros s; [done|..]; cbn [app tables_run].
  - destruct (refresh_tables memory s); [|done]. apply IH.
  - destruct (procinfo_destroy s); [|done]. apply IH.
Qed.

Lemma tables_freed ops : tables_run (ops ++ [TDestroy]) tables_init = Some tables_init.
Proof.
  rewrite tables_run_app. destruct (tables_run_ok ops tables_init) as (s & -> & Hs); [by split|].
  cbn [mbind option_bind tables_run]. by rewrite (procinfo_destroy_ok s Hs).
Qed.

(** ** Properties *)

(** C37: on macOS a refresh promises what it does on Linux: for anything that
    libproc answers, failures included, a lookup gives the first process and
    descriptor, in the order libproc lists them, whose TCP or UDP socket has
    the protocol and the port and matches the address (equal, any, or
    v4-mapped), and none only when none does, for less than 2^29 sockets; and
    the tables of the refreshes are freed, each exactly once, by the later ones and by
    procinfo_destroy, whatever allocation fails. *)
Theorem libproc_refresh_lookup (ps : option (list libproc_process)) (af : Z) (addr : list Z) (port protocol : Z)
    (ops : list tables_op) :
  Z.of_nat (length (default [] ps ≫= process_entries)) < 2 ^ 29 ->
  first_answer af addr port protocol (default [] ps ≫= process_entries)
    (procinfo_lookup (Some (procinfo_refresh_libproc ps)) af addr port protocol) /\
  tables_run (ops ++ [TDestroy]) tables_init = Some tables_init.
Proof.
  intros Hl. split; [|apply tables_freed].
  destruct (source_lookup (refresh := fun ps => Some (procinfo_refresh_libproc ps)) (sockets := libproc_sockets)
    ps _ af addr port protocol eq_refl Hl) as (t & [= <-] & E). rewrite E. apply find_entry_first.
Qed.

Definition demo_libproc : option (list libproc_process) :=
  Some [LibprocProcess 7 None (Some "launchd"%string);
        LibprocProcess 42 (Some [ProcFdinfo false None; ProcFdinfo true (Some (SocketFdinfo AF_INET 6 0x901f [127; 0; 0; 1]))])
          None].

Example libproc_refresh_lookup_witness :
  first_answer AF_INET [127; 0; 0; 1] 8080 6 (default [] demo_libproc ≫= process_entries)
    (procinfo_lookup (Some (procinfo_refresh_libproc demo_libproc)) AF_INET [127; 0; 0; 1] 8080 6) /\
  tables_run ([TRefresh true; TRefresh false; TRefresh true] ++ [TDestroy]) tables_init = Some tables_init.
Proof.
  apply (libproc_refresh_lookup demo_libproc AF_INET [127; 0; 0; 1] 8080 6). vm_compute. reflexivity.
Defined.

Example libproc_demo :
  procinfo_lookup (Some (procinfo_refresh_libproc demo_libproc)) AF_INET [127; 0; 0; 1] 8080 6 = Some (42, "pid:42").
Proof. vm_compute. reflexivity. Qed.

(** A refresh whose first allocation fails keeps the table that was there. *)
Lemma refresh_without_memory s : staging_table s = None -> refresh_tables false s = Some s.
Proof. destruct s. cbn. by intros ->. Qed.
