(* ===== verification/Packet.v ===== *)
(** * Captured packets (src/entry/iftop.c)

    From the bytes handed over by libpcap to the flow tables: the link-layer
    handlers find the IP header and, where they can, the direction;
    [handle_ip_packet] chooses the flow and accounts the length.  A packet is
    the list of its captured bytes; a read past them has no value.  The flow
    is written by [History.packet_seen]; calls of [resolve] are returned. *)

From S2P Require Import Prelude Bytes Chain Hash Pool AddrHash History CStr OptionsT ProcInfo.

Local Open Scope Z_scope.

(** ** Reading captured bytes *)
Abbreviation bytes := (list Z).

Definition rd1 (p : bytes) (i : Z) : option Z := p !!z i.
Definition rd2 (p : bytes) (i : Z) : option Z := a ← rd1 p i; b ← rd1 p (i + 1); Some (a * 256 + b).
Fixpoint rdn (p : bytes) (i : Z) (n : nat) : option bytes :=
  match n with O => Some [] | S n => a ← rd1 p i; l ← rdn p (i + 1) n; Some (a :: l) end.

(** [packet + n] *)
Definition advance (p : bytes) (n : Z) : bytes := drop (Z.to_nat n) p.

Definition IP_V (p : bytes) : option Z := b ← rd1 p 0; Some (Z.shiftr (Z.land b 0xf0) 4).
Definition IP_HL (p : bytes) : option Z := b ← rd1 p 0; Some (Z.land b 0x0f).
Definition ip_len (p : bytes) : option Z := rd2 p 2.
Definition ip_p (p : bytes) : option Z := rd1 p 9.
Definition ip_src (p : bytes) : option bytes := rdn p 12 4.
Definition ip_dst (p : bytes) : option bytes := rdn p 16 4.
Definition ip6_plen (p : bytes) : option Z := rd2 p 4.
Definition ip6_nxt (p : bytes) : option Z := rd1 p 6.
Definition ip6_src (p : bytes) : option bytes := rdn p 8 16.
Definition ip6_dst (p : bytes) : option bytes := rdn p 24 16.

(** The interface (globals set by packet_init). *)
Record iface := Iface {
  have_hw_addr : bool;
  have_ip_addr : bool;
  have_ip6_addr : bool;
  if_hw_addr : bytes;
  if_ip_addr : bytes;
  if_ip6_addr : bytes
}.

Record env := Env { e_options : options_t; e_iface : iface; e_procs : option sock_table_t }.

Definition pad16 (a : bytes) : bytes := a ++ replicate 12 0.

Definition same_bytes (a b : bytes) : bool := bool_decide (a = b).

Definition in_filter_net (o : options_t) (addr : bytes) : bool :=
  Z.land (s_addr addr) (s_addr (netfiltermask o)) =? s_addr (netfilternet o).

Definition ip_addr_match (i : iface) (addr : bytes) : bool := s_addr addr =? s_addr (if_ip_addr i).
Definition ip6_addr_match (i : iface) (addr : bytes) : bool := same_bytes addr (if_ip6_addr i).

Definition has_ports (proto : Z) : bool := (proto =? IPPROTO_TCP) || (proto =? IPPROTO_UDP).

(** Source and destination port at [off], for the protocols that use them. *)
Definition ports (p : bytes) (proto off : Z) : option (Z * Z) :=
  if has_ports proto then s ← rd2 p off; d ← rd2 p (off + 2); Some (s, d) else Some (0, 0).

Definition assign_addr_pair (p : bytes) (flip : bool) : option addr_pair :=
  v ← IP_V p;
  if v =? 4 then
    proto ← ip_p p;
    hl ← IP_HL p;
    '(src_port, dst_port) ← ports p proto (hl * 4);
    s ← ip_src p;
    d ← ip_dst p;
    Some (if flip then AddrPair AF_INET 0 dst_port (pad16 d) src_port (pad16 s)
          else AddrPair AF_INET 0 src_port (pad16 s) dst_port (pad16 d))
  else if v =? 6 then
    proto ← ip6_nxt p;
    '(src_port, dst_port) ← ports p proto 40;
    s ← ip6_src p;
    d ← ip6_dst p;
    Some (if flip then AddrPair AF_INET6 0 dst_port d src_port s
          else AddrPair AF_INET6 0 src_port s dst_port d)
  else Some zero_pair.

(** The flow and the direction (true: outgoing); [None]: the packet is not
    accounted. *)
Abbreviation verdict := (option (addr_pair * bool)).

Definition choose (p : bytes) (flip direction : bool) : option verdict :=
  ap ← assign_addr_pair p flip; Some (Some (ap, direction)).

(** [have && match(address)]: the address is read only when it is compared. *)
Definition guarded (have : bool) (addr : option bytes) (test : bytes -> bool) : option bool :=
  if have then a ← addr; Some (test a) else Some false.

(** Net filter off: by MAC address, then by IP address, then by promiscuity. *)
Definition direction_unfiltered (e : env) (p : bytes) (ip_ver hw_dir : Z) : option verdict :=
  let i := e_iface e in
  if hw_dir =? 1 then choose p false true
  else if hw_dir =? 0 then choose p true false
  else
    src_is_us ← (if ip_ver =? 4 then guarded (have_ip_addr i) (ip_src p) (ip_addr_match i)
                 else guarded (have_ip6_addr i) (ip6_src p) (ip6_addr_match i));
    if src_is_us : bool then choose p false true
    else
      dst_is_us ← (if ip_ver =? 4 then guarded (have_ip_addr i) (ip_dst p) (ip_addr_match i)
                   else guarded (have_ip6_addr i) (ip6_dst p) (ip6_addr_match i));
      if dst_is_us : bool then choose p true false
      else if truth (promiscuous_but_choosy (e_options e)) then Some None
      else if ip_ver =? 4 then
        s ← ip_src p; d ← ip_dst p;
        if s_addr s <? s_addr d then choose p true false else choose p false false
      else Some (Some (zero_pair, false)).

Definition direction_filter4 (e : env) (p : bytes) : option verdict :=
  let o := e_options e in
  s ← ip_src p; d ← ip_dst p;
  if in_filter_net o s && negb (in_filter_net o d) then choose p false true
  else if in_filter_net o d && negb (in_filter_net o s) then choose p true false
  else Some None.

Definition direction_filter6 (e : env) (p : bytes) : option verdict :=
  let o := e_options e in
  s ← ip6_src p; d ← ip6_dst p;
  let scribdst := and_bytes d (netfilter6mask o) in
  let scribsrc := and_bytes s (netfilter6mask o) in
  let src_in := same_bytes scribsrc (netfilter6net o) in
  let dst_in := same_bytes scribdst (netfilter6net o) in
  if src_in && negb dst_in then choose p false true
  else if negb src_in && dst_in then choose p true false
  else Some None.

Definition direction (e : env) (p : bytes) (ip_ver hw_dir : Z) : option verdict :=
  let o := e_options e in
  if ((ip_ver =? 4) && (netfilter o =? 0)) || ((ip_ver =? 6) && (netfilter6 o =? 0)) then
    direction_unfiltered e p ip_ver hw_dir
  else if ip_ver =? 4 then direction_filter4 e p
  else if ip_ver =? 6 then direction_filter6 e p
  else Some (Some (zero_pair, false)).

(** [IN6_IS_ADDR_LINKLOCAL] *)
Definition linklocal6 (a : bytes) : bool :=
  match a with b0 :: b1 :: _ => (b0 =? 0xfe) && (Z.land b1 0xc0 =? 0x80) | _ => false end.

Definition set_protocol (ap : addr_pair) (proto : Z) : addr_pair :=
  AddrPair (address_family ap) proto (src_port ap) (src ap) (dst_port ap) (dst ap).

Definition orelse {A} (a b : option A) : option A := match a with Some _ => a | None => b end.

(** The owning process of a new flow: by its source, then by its destination. *)
Definition flow_proc (e : env) (ap : addr_pair) : option (Z * string) :=
  if truth (show_processes (e_options e)) then
    let by_end af :=
      orelse (procinfo_lookup (e_procs e) af (src ap) (src_port ap) (protocol ap))
             (procinfo_lookup (e_procs e) af (dst ap) (dst_port ap) (protocol ap)) in
    if address_family ap =? AF_INET then by_end AF_INET
    else if address_family ap =? AF_INET6 then by_end AF_INET6
    else None
  else None.

(** A call of [resolve(family, addr, NULL, 0)]. *)
Definition resolve_call : Type := Z * bytes.

(** Protocol and name resolution. *)
Definition finish_pair (e : env) (p : bytes) (ip_ver : Z) (ap : addr_pair) :
    option (addr_pair * list resolve_call) :=
  let dns := truth (dnsresolution (e_options e)) in
  if ip_ver =? 4 then
    proto ← ip_p p;
    if dns then
      s ← ip_src p; d ← ip_dst p;
      Some (set_protocol ap proto, [(address_family ap, pad16 d); (address_family ap, pad16 s)])
    else Some (set_protocol ap proto, [])
  else if ip_ver =? 6 then
    proto ← ip6_nxt p;
    if dns then
      s ← ip6_src p; d ← ip6_dst p;
      Some (set_protocol ap proto, [(address_family ap, d); (address_family ap, s)])
    else Some (set_protocol ap proto, [])
  else Some (ap, []).

(** "Test if link-local IPv6 packets should be dropped." *)
Definition dropped_linklocal (e : env) (p : bytes) (ip_ver : Z) : option bool :=
  if (ip_ver =? 6) && negb (truth (link_local (e_options e))) then
    s ← ip6_src p; d ← ip6_dst p; Some (linklocal6 d || linklocal6 s)
  else Some false.

Definition packet_len (p : bytes) (ip_ver : Z) : option Z :=
  if ip_ver =? 4 then ip_len p else l ← ip6_plen p; Some (l + 40).

(** Does the packet leave from the source of its flow? *)
Definition from_src (p : bytes) (ip_ver : Z) (ap : addr_pair) : option bool :=
  if ip_ver =? 4 then s ← ip_src p; Some (s_addr s =? s_addr (src ap))
  else if ip_ver =? 6 then s ← ip6_src p; Some (same_bytes s (src ap))
  else Some false.

Definition handle_ip_packet (e : env) (c : capture) (p : bytes) (hw_dir : Z) :
    option (capture * list resolve_call) :=
  ip_ver ← IP_V p;
  v ← direction e p ip_ver hw_dir;
  match v with
  | None => Some (c, [])
  | Some (ap, dir) =>
      drop ← dropped_linklocal e p ip_ver;
      if drop : bool then Some (c, [])
      else
        '(ap, calls) ← finish_pair e p ip_ver ap;
        len ← packet_len p ip_ver;
        as_sent ← from_src p ip_ver ap;
        c ← packet_seen c ap (flow_proc e ap) len as_sent dir;
        Some (c, calls)
  end.

(** ** Link layers *)
Definition handle_raw_packet (e : env) (c : capture) (p : bytes) := handle_ip_packet e c p (-1).

(** [bpf_alignment] is libpcap's BPF_ALIGNMENT. *)
Definition BPF_WORDALIGN (bpf_alignment x : Z) : Z :=
  Z.land (x + (bpf_alignment - 1)) (Z.lnot (bpf_alignment - 1)).

Definition handle_pflog_packet (bpf_alignment : Z) (e : env) (c : capture) (p : bytes) :=
  length ← rd1 p 0;
  handle_ip_packet e c (advance p (BPF_WORDALIGN bpf_alignment length)) (-1).

Definition handle_null_packet (e : env) (c : capture) (p : bytes) :=
  handle_ip_packet e c (advance p 4) (-1).

Definition LLCSAP_SNAP : Z := 0xaa.
Definition LLC_UI : Z := 3.
Definition OUI_ENCAP_ETHER : Z := 0.
Definition OUI_CISCO_90 : Z := 0xf8.
Definition OUI_APPLETALK : Z := 0x080007.
Definition ETHERTYPE_ATALK : Z := 0x809b.
Definition ETHERTYPE_IP : Z := 0x0800.
Definition ETHERTYPE_IPV6 : Z := 0x86dd.
Definition ETHERTYPE_8021Q : Z := 0x8100.

Definition handle_llc_packet (e : env) (c : capture) (p : bytes) (dir : Z) :
    option (capture * list resolve_call) :=
  let ip := advance p 8 in
  ssap ← rd1 p 1;
  if negb (ssap =? LLCSAP_SNAP) then Some (c, []) else
  dsap ← rd1 p 0;
  if negb (dsap =? LLCSAP_SNAP) then Some (c, []) else
  llcui ← rd1 p 2;
  if negb (llcui =? LLC_UI) then Some (c, []) else
  o ← rdn p 3 3;
  et ← rd2 p 6;
  let orgcode := be_val o in
  if (orgcode =? OUI_ENCAP_ETHER) || (orgcode =? OUI_CISCO_90) then handle_ip_packet e c ip dir
  else if (orgcode =? OUI_APPLETALK) && (et =? ETHERTYPE_ATALK) then handle_ip_packet e c ip dir
  else Some (c, []).

Definition broadcast_mac : bytes := replicate 6 255.

Definition TOKEN_HDRLEN : Z := 14.
Definition TOKEN_FC_LLC : Z := 1.

Definition handle_tokenring_packet (e : env) (c : capture) (p : bytes) :
    option (capture * list resolve_call) :=
  let hw := if_hw_addr (e_iface e) in
  shost ← rdn p 8 6;
  rif ← (if truth (Z.land (hd 0 shost) 0x80) then
           rcf ← rd2 p 14; Some (Z.shiftr (Z.land rcf 0x1f00) 8)
         else Some 0);
  let payload := advance p (rif + TOKEN_HDRLEN) in
  dhost ← rdn p 2 6;
  let dir :=
    if same_bytes shost hw then 1
    else if same_bytes dhost hw || same_bytes broadcast_mac dhost then 0
    else -1 in
  fc ← rd1 p 1;
  if Z.shiftr (Z.land fc 0xC0) 6 =? TOKEN_FC_LLC then handle_llc_packet e c payload dir
  else Some (c, []).

Definition PPP_ADDRESS : Z := 0xff.
Definition PPP_IP : Z := 0x21.

Definition handle_ppp_packet (e : env) (c : capture) (p : bytes) :
    option (capture * list resolve_call) :=
  let caplen := Z.of_nat (length p) in
  if caplen <? 2 then Some (c, []) else
  b ← rd1 p 0;
  if b =? PPP_ADDRESS then
    if caplen <? 4 then Some (c, []) else
    proto ← rd2 p 2;
    if (proto =? PPP_IP) || (proto =? ETHERTYPE_IP) || (proto =? ETHERTYPE_IPV6) then
      handle_ip_packet e c (advance p 4) (-1)
    else Some (c, [])
  else Some (c, []).

Definition LINUX_SLL_HOST : Z := 0.
Definition LINUX_SLL_OUTGOING : Z := 4.
Definition SLL_HDR_LEN : Z := 16.

Definition handle_cooked_packet (e : env) (c : capture) (p : bytes) :
    option (capture * list resolve_call) :=
  pkttype ← rd2 p 0;
  let dir := if pkttype =? LINUX_SLL_HOST then 0 else if pkttype =? LINUX_SLL_OUTGOING then 1 else -1 in
  handle_ip_packet e c (advance p SLL_HDR_LEN) dir.

(** The call of [tick(0)] comes first: [tick] is the state it leaves. *)
Definition handle_eth_packet (e : env) (c : capture) (tick : capture -> option capture) (p : bytes) :
    option (capture * list resolve_call) :=
  let i := e_iface e in
  ether_type ← rd2 p 12;
  c ← tick c;
  '(ether_type, payload) ←
    (if ether_type =? ETHERTYPE_8021Q then
       t ← rd2 p 16; Some (t, advance p 18)
     else Some (ether_type, advance p 14));
  if (ether_type =? ETHERTYPE_IP) || (ether_type =? ETHERTYPE_IPV6) then
    shost ← rdn p 6 6;
    dhost ← rdn p 0 6;
    let dir :=
      if have_hw_addr i && same_bytes shost (if_hw_addr i) then 1
      else if have_hw_addr i && same_bytes dhost (if_hw_addr i) then 0
      else if same_bytes broadcast_mac dhost then 0
      else -1 in
    handle_ip_packet e c payload dir
  else Some (c, []).

(** [it_len] is loaded on a little-endian host. *)
Definition handle_radiotap_packet (e : env) (c : capture) (p : bytes) :
    option (capture * list resolve_call) :=
  lo ← rd1 p 2; hi ← rd1 p 3;
  handle_ip_packet e c (advance p (lo + 256 * hi + 34)) (-1).

(** ** Starting a capture *)
Inductive packet_handler := EthPacket | PflogPacket | RawPacket | NullPacket | RadiotapPacket
  | TokenringPacket | PppPacket | CookedPacket.

(** Link types by libpcap's number. *)
Definition datalink_handler (datalink_type : Z) : option packet_handler :=
  if datalink_type =? 1 then Some EthPacket            (* DLT_EN10MB *)
  else if datalink_type =? 117 then Some PflogPacket   (* DLT_PFLOG *)
  else if datalink_type =? 12 then Some RawPacket      (* DLT_RAW *)
  else if datalink_type =? 0 then Some NullPacket      (* DLT_NULL *)
  else if datalink_type =? 108 then Some NullPacket    (* DLT_LOOP *)
  else if datalink_type =? 127 then Some RadiotapPacket (* DLT_IEEE802_11_RADIO *)
  else if datalink_type =? 6 then Some TokenringPacket (* DLT_IEEE802 *)
  else if datalink_type =? 9 then Some PppPacket       (* DLT_PPP *)
  else if datalink_type =? 113 then Some CookedPacket  (* DLT_LINUX_SLL *)
  else None.

(** [pcap_compile] and [pcap_setfilter] as the error they report; the result
    is the error message, or none. *)
Definition set_filter_code (pcap_compile pcap_setfilter : string -> option string)
    (filter : option string) : option string :=
  let x := match filter with
           | Some f => "(" +:+ f +:+ ") and (ip or ip6)"
           | None => "ip or ip6"
           end in
  match pcap_compile x with
  | Some err => Some err
  | None => pcap_setfilter x
  end.

(** packet_init: an exit status, or the addresses of the interface and the
    handler of its link type. *)
Definition packet_init (get_addrs : Z * bytes * bytes * bytes) (pcap_open : bool) (datalink_type : Z)
    (filter_error : option string) : Z + (iface * packet_handler) :=
  let '(result, hw, ip, ip6) := get_addrs in
  if result <? 0 then inl 1
  else
    let i := Iface (truth (Z.land result 1)) (truth (Z.land result 2)) (truth (Z.land result 4)) hw ip ip6 in
    if negb pcap_open then inl 1
    else match datalink_handler datalink_type with
         | None => inl 1
         | Some h => match filter_error with Some _ => inl 1 | None => inr (i, h) end
         end.

(** The handler of a link type, with [tick] for the Ethernet one. *)
Definition run_handler (bpf_alignment : Z) (e : env) (tick : capture -> option capture)
    (h : packet_handler) (c : capture) (p : bytes) : option (capture * list resolve_call) :=
  match h with
  | EthPacket => handle_eth_packet e c tick p
  | PflogPacket => handle_pflog_packet bpf_alignment e c p
  | RawPacket => handle_raw_packet e c p
  | NullPacket => handle_null_packet e c p
  | RadiotapPacket => handle_radiotap_packet e c p
  | TokenringPacket => handle_tokenring_packet e c p
  | PppPacket => handle_ppp_packet e c p
  | CookedPacket => handle_cooked_packet e c p
  end.

(** ** A packet is at most one packet of the history *)
Definition seen (c c' : capture) : Prop :=
  c' = c \/ exists ap proc len b d, packet_seen c ap proc len b d = Some c'.

Lemma handle_ip_packet_seen e c p dir c' calls :
  handle_ip_packet e c p dir = Some (c', calls) -> seen c c'.
Proof.
  unfold handle_ip_packet. intros H. apply bind_Some in H as (v & Hv & H).
  apply bind_Some in H as (d & Hd & H). destruct d as [[ap dr]|]; [|left; congruence].
  apply bind_Some in H as (dp & _ & H). destruct dp; [left; congruence|].
  apply bind_Some in H as ([ap' cs] & _ & H). apply bind_Some in H as (len & _ & H).
  apply bind_Some in H as (b & _ & H). apply bind_Some in H as (c1 & Hs & H).
  simplify_eq. right. eauto 8.
Qed.

Lemma handle_llc_packet_seen e c p dir c' calls :
  handle_llc_packet e c p dir = Some (c', calls) -> seen c c'.
Proof.
  unfold handle_llc_packet. intros H.
  apply bind_Some in H as (a & _ & H). destruct (negb _); [left; congruence|].
  apply bind_Some in H as (b & _ & H). destruct (negb _); [left; congruence|].
  apply bind_Some in H as (u & _ & H). destruct (negb _); [left; congruence|].
  apply bind_Some in H as (o & _ & H). apply bind_Some in H as (et & _ & H).
  destruct (_ || _); [by eapply handle_ip_packet_seen|].
  destruct (_ && _); [by eapply handle_ip_packet_seen|left; congruence].
Qed.

Lemma run_handler_seen align e tick h c p c' calls :
  run_handler align e tick h c p = Some (c', calls) ->
  exists c1, (c1 = c \/ tick c = Some c1) /\ seen c1 c'.
Proof.
  destruct h; simpl.
  - unfold handle_eth_packet. intros H. apply bind_Some in H as (et & _ & H).
    apply bind_Some in H as (c1 & Ht & H). apply bind_Some in H as ([et' pl] & _ & H).
    exists c1. split; [by right|]. destruct (_ || _); [|left; congruence].
    apply bind_Some in H as (sh & _ & H). apply bind_Some in H as (dh & _ & H).
    by eapply handle_ip_packet_seen.
  - unfold handle_pflog_packet. intros (l & _ & H)%bind_Some. exists c.
    split; [by left|]. by eapply handle_ip_packet_seen.
  - intros H. exists c. split; [by left|]. by eapply handle_ip_packet_seen.
  - intros H. exists c. split; [by left|]. by eapply handle_ip_packet_seen.
  - unfold handle_radiotap_packet. intros (l & _ & (l' & _ & H)%bind_Some)%bind_Some. exists c.
    split; [by left|]. by eapply handle_ip_packet_seen.
  - unfold handle_tokenring_packet. intros H. exists c. split; [by left|].
    apply bind_Some in H as (sh & _ & H). apply bind_Some in H as (rif & _ & H).
    apply bind_Some in H as (dh & _ & H). apply bind_Some in H as (fc & _ & H).
    destruct (_ =? _); [by eapply handle_llc_packet_seen|left; congruence].
  - unfold handle_ppp_packet. intros H. exists c. split; [by left|].
    destruct (_ <? _); [left; congruence|]. apply bind_Some in H as (b & _ & H).
    destruct (_ =? _); [|left; congruence]. destruct (_ <? _); [left; congruence|].
    apply bind_Some in H as (pr & _ & H). destruct (_ || _); [|left; congruence].
    by eapply handle_ip_packet_seen.
  - unfold handle_cooked_packet. intros (l & _ & H)%bind_Some. exists c.
    split; [by left|]. by eapply handle_ip_packet_seen.
Qed.

(** A capture: frames of some link type, each with the tick that an Ethernet
    frame makes, and the rotations of the other thread. *)
Inductive capture_event :=
  | CFrame (h : packet_handler) (p : bytes) (tick_rotates : bool)
  | CRotate.

Definition capture_step (align : Z) (e : env) (ev : capture_event) (c : capture) : option capture :=
  match ev with
  | CFrame h p rot =>
      '(c, _) ← run_handler align e (fun c => if rot : bool then history_rotate c else Some c) h c p;
      Some c
  | CRotate => history_rotate c
  end.

Fixpoint capture_run (align : Z) (e : env) (evs : list capture_event) (c : capture) : option capture :=
  match evs with
  | [] => Some c
  | ev :: evs => c ← capture_step align e ev c; capture_run align e evs c
  end.

Lemma cap_run_app es1 es2 c : cap_run (es1 ++ es2) c = c ← cap_run es1 c; cap_run es2 c.
Proof.
  revert c. induction es1 as [|ev es1 IH]; intros c; [done|]. cbn [cap_run app].
  destruct (cap_step ev c); cbn [mbind option_bind]; [apply IH|done].
Qed.

Lemma capture_step_events align e ev c c' :
  capture_step align e ev c = Some c' -> exists es, cap_run es c = Some c'.
Proof.
  destruct ev as [h p rot|]; simpl.
  - intros ([c2 calls] & H & [= <-])%bind_Some.
    apply run_handler_seen in H as (c1 & Hc1 & Hs).
    assert (exists es1, cap_run es1 c = Some c1) as [es1 H1].
    { destruct Hc1 as [->|Hc1]; [by exists []|]. destruct rot; [|simplify_eq; by exists []].
      exists [ERotate]. simpl. by rewrite Hc1. }
    destruct Hs as [->|(ap & proc & len & b & d & Hs)]; [by exists es1|].
    exists (es1 ++ [EPacket ap proc len b d]). rewrite cap_run_app, H1. cbn [mbind option_bind cap_run cap_step].
    by rewrite Hs.
  - intros H. exists [ERotate]. simpl. by rewrite H.
Qed.

Lemma capture_run_events align e evs c c' :
  capture_run align e evs c = Some c' -> exists es, cap_run es c = Some c'.
Proof.
  revert c. induction evs as [|ev evs IH]; intros c H; [exists []; done|].
  apply bind_Some in H as (c1 & H1 & H2).
  apply capture_step_events in H1 as [es1 E1]. apply IH in H2 as [es2 E2].
  exists (es1 ++ es2). by rewrite cap_run_app, E1.
Qed.

(** ** Memory safety *)
Lemma rd1_ok p i : 0 <= i < Z.of_nat (length p) -> exists b, rd1 p i = Some b.
Proof. intros Hi. by apply lookup_z_lt_is_Some in Hi. Qed.

Lemma rd2_ok p i : 0 <= i -> i + 2 <= Z.of_nat (length p) -> exists v, rd2 p i = Some v.
Proof.
  intros Hi Hl. unfold rd2. destruct (rd1_ok p i) as [a ->]; [lia|].
  destruct (rd1_ok p (i + 1)) as [b ->]; [lia|]. eauto.
Qed.

Lemma rdn_ok p i n : 0 <= i -> i + Z.of_nat n <= Z.of_nat (length p) -> exists l, rdn p i n = Some l.
Proof.
  revert i. induction n as [|n IH]; intros i Hi Hl; [by eexists|]. simpl.
  destruct (rd1_ok p i) as [a ->]; [lia|]. destruct (IH (i + 1)) as [l ->]; [lia|lia|]. eauto.
Qed.

(** The header of an IP packet, and its ports when it has any, lie within the
    [p] that was captured. *)
Definition ports_within (p : bytes) (proto off : Z) : bool :=
  negb (has_ports proto) || (off + 4 <=? Z.of_nat (length p)).

Definition ip_whole (p : bytes) : bool :=
  match IP_V p with
  | None => false
  | Some v =>
      if v =? 4 then
        (20 <=? Z.of_nat (length p)) && ports_within p (default 0 (ip_p p)) (default 0 (IP_HL p) * 4)
      else if v =? 6 then (40 <=? Z.of_nat (length p)) && ports_within p (default 0 (ip6_nxt p)) 40
      else 6 <=? Z.of_nat (length p)
  end.

Lemma ports_ok p proto off : 0 <= off -> ports_within p proto off = true -> exists v, ports p proto off = Some v.
Proof.
  unfold ports_within, ports. destruct (has_ports proto); [|by eexists]. intros Ho Hw%Z.leb_le.
  destruct (rd2_ok p off) as [a ->]; [lia|lia|]. destruct (rd2_ok p (off + 2)) as [b ->]; [lia|lia|]. by eexists.
Qed.

Lemma IP_HL_range p hl : IP_HL p = Some hl -> 0 <= hl <= 15.
Proof.
  unfold IP_HL. intros (b & _ & [= <-])%bind_Some.
  replace (Z.land b 0x0f) with (b mod 2 ^ 4) by (symmetry; apply (Z.land_ones b 4); lia).
  change (2 ^ 4) with 16. pose proof (Z.mod_pos_bound b 16 ltac:(lia)). lia.
Qed.

(** What a whole packet of each version lets the code read. *)
Record readable4 (p : bytes) : Prop := Readable4 {
  r4_len : exists l, ip_len p = Some l;
  r4_src : exists s, ip_src p = Some s;
  r4_dst : exists d, ip_dst p = Some d;
  r4_ports : exists proto hl v, ip_p p = Some proto /\ IP_HL p = Some hl /\ ports p proto (hl * 4) = Some v
}.

Record readable6 (p : bytes) : Prop := Readable6 {
  r6_src : exists s, ip6_src p = Some s;
  r6_dst : exists d, ip6_dst p = Some d;
  r6_ports : exists proto v, ip6_nxt p = Some proto /\ ports p proto 40 = Some v
}.

Lemma whole_version p :
  ip_whole p = true -> exists v, IP_V p = Some v /\ (exists l, ip6_plen p = Some l) /\
    (v = 4 -> readable4 p) /\ (v = 6 -> readable6 p).
Proof.
  unfold ip_whole. intros Hw. destruct (IP_V p) as [v|] eqn:Ev; [|done]. exists v. split; [done|].
  assert (IP_HL p <> None) as Hhl by (unfold IP_V, IP_HL in *; by destruct (rd1 p 0)).
  destruct (Z.eqb_spec v 4) as [->|N4]; [|destruct (Z.eqb_spec v 6) as [->|N6]].
  - apply andb_true_iff in Hw as [Hl%Z.leb_le Hp]. split_and!; [apply rd2_ok; lia| |done].
    intros _. destruct (rd1_ok p 9) as [proto Ep]; [lia|]. change (rd1 p 9) with (ip_p p) in Ep.
    destruct (IP_HL p) as [hl|] eqn:Eh; [|done]. pose proof (IP_HL_range p hl Eh).
    rewrite Ep in Hp. cbn [default from_option id] in Hp. destruct (ports_ok p proto (hl * 4) ltac:(lia) Hp) as [v Hv].
    split; [apply rd2_ok; lia|apply rdn_ok; simpl; lia|apply rdn_ok; simpl; lia|]. by exists proto, hl, v.
  - apply andb_true_iff in Hw as [Hl%Z.leb_le Hp]. split_and!; [apply rd2_ok; lia|done|].
    intros _. destruct (rd1_ok p 6) as [proto Ep]; [lia|]. change (rd1 p 6) with (ip6_nxt p) in Ep.
    rewrite Ep in Hp. cbn [default from_option id] in Hp. destruct (ports_ok p proto 40 ltac:(lia) Hp) as [v Hv].
    split; [apply rdn_ok; simpl; lia|apply rdn_ok; simpl; lia|]. by exists proto, v.
  - apply Z.leb_le in Hw. split_and!; [apply rd2_ok; lia|done|done].
Qed.

Section safety.
Context (p : bytes) (v : Z) (Hv : IP_V p = Some v) (Hp : exists l, ip6_plen p = Some l).
Context (H4 : v = 4 -> readable4 p) (H6 : v = 6 -> readable6 p).

(** The reads of a packet of version [v], one after the other. *)
Ltac reads :=
  destruct (Z.eqb_spec v 4) as [E4|N4];
  [destruct (Z.eqb_spec v 6) as [E6|_]; [lia|];
   destruct (H4 E4) as [[? R1] [? R2] [? R3] (? & ? & [? ?] & R4 & R5 & R6)];
   rewrite ?R1, ?R2, ?R3, ?R4, ?R5; cbn [mbind option_bind andb orb]; rewrite ?R6
  |destruct (Z.eqb_spec v 6) as [E6|N6];
   [destruct (H6 E6) as [[? R1] [? R2] (? & [? ?] & R3 & R6)];
    rewrite ?R1, ?R2, ?R3; cbn [mbind option_bind andb orb]; rewrite ?R6|]];
  cbn [mbind option_bind andb orb].

Lemma assign_addr_pair_ok flip : exists ap, assign_addr_pair p flip = Some ap.
Proof. unfold assign_addr_pair. rewrite Hv. cbn [mbind option_bind]. reads; by eexists. Qed.

Lemma choose_ok flip dir : exists r, choose p flip dir = Some r.
Proof. unfold choose. destruct (assign_addr_pair_ok flip) as [ap ->]. by eexists. Qed.

Lemma direction_ok e hw_dir : exists r, direction e p v hw_dir = Some r.
Proof.
  unfold direction, direction_unfiltered, direction_filter4, direction_filter6, guarded.
  reads; repeat (case_match; cbn [mbind option_bind]); try apply choose_ok; by eexists.
Qed.

Lemma finish_pair_ok e ap : exists r, finish_pair e p v ap = Some r.
Proof. unfold finish_pair. reads; repeat case_match; by eexists. Qed.

Lemma packet_reads_ok e ap :
  (exists b, dropped_linklocal e p v = Some b) /\ (exists l, packet_len p v = Some l) /\
  (exists b, from_src p v ap = Some b).
Proof.
  unfold dropped_linklocal, packet_len, from_src. destruct Hp as [l ->].
  reads; split_and!; repeat case_match; by eexists.
Qed.
End safety.

Lemma handle_ip_packet_returns e c p dir f F C HF X :
  ip_whole p = true -> cap_rep c f F C HF X -> flows_wf f ->
  exists c' calls, handle_ip_packet e c p dir = Some (c', calls).
Proof.
  intros Hl Hc Hw. unfold handle_ip_packet. destruct (whole_version p Hl) as (v & Ev & Hp & H4 & H6).
  rewrite Ev. cbn [mbind option_bind].
  destruct (direction_ok p v Ev H4 H6 e dir) as [[[ap d]|] ->]; cbn [mbind option_bind]; [|eauto].
  destruct (packet_reads_ok p v Hp H4 H6 e ap) as ((dp & ->) & _).
  cbn [mbind option_bind]. destruct dp; [eauto|].
  destruct (finish_pair_ok p v H4 H6 e ap) as [[ap' cs] ->]. cbn [mbind option_bind].
  destruct (packet_reads_ok p v Hp H4 H6 e ap') as (_ & (l & ->) & (b & ->)). cbn [mbind option_bind].
  destruct (packet_seen_spec c f F C HF X ap' (flow_proc e ap') l b d Hc Hw) as (c' & _ & _ & _ & -> & _).
  cbn [mbind option_bind]. eauto.
Qed.

(** ** Net filters *)
Lemma s_addr_be a : length a = 4%nat -> s_addr a = be_val (rev a).
Proof.
  intros Hl. do 5 (destruct a as [|? a]; try done). unfold s_addr, word32, byte_at. simpl.
  unfold be_val, be_acc. simpl. lia.
Qed.

Lemma and_bytes_rev a b :
  length a = 4%nat -> length b = 4%nat -> and_bytes (rev a) (rev b) = rev (and_bytes a b).
Proof. intros Ha Hb. do 5 (destruct a as [|? a]; try done). by do 5 (destruct b as [|? b]; try done). Qed.

Lemma bytes_ok_rev a : bytes_ok a -> bytes_ok (rev a).
Proof. apply Forall_rev. Qed.

Lemma s_addr_inj a b :
  bytes_ok a -> bytes_ok b -> length a = 4%nat -> length b = 4%nat -> s_addr a = s_addr b -> a = b.
Proof.
  intros Ha Hb La Lb. rewrite !s_addr_be by done. intros E.
  apply be_val_inj in E; [|by apply bytes_ok_rev..|rewrite !length_rev; congruence].
  apply (f_equal (@rev Z)) in E. by rewrite !rev_involutive in E.
Qed.

Lemma in_filter_net_spec o addr :
  bytes_ok addr -> bytes_ok (netfiltermask o) -> bytes_ok (netfilternet o) ->
  length addr = 4%nat -> length (netfiltermask o) = 4%nat -> length (netfilternet o) = 4%nat ->
  in_filter_net o addr = true <-> and_bytes addr (netfiltermask o) = netfilternet o.
Proof.
  intros Ha Hm Hn La Lm Ln. unfold in_filter_net. rewrite Z.eqb_eq.
  rewrite (s_addr_be addr), (s_addr_be (netfiltermask o)) by done.
  rewrite <- be_val_land by (by apply bytes_ok_rev || (rewrite !length_rev; congruence)).
  rewrite and_bytes_rev by done.
  assert (length (and_bytes addr (netfiltermask o)) = 4%nat) as Lam
    by (unfold and_bytes; rewrite length_zip_with; lia).
  rewrite <- s_addr_be by done. split; [|by intros ->].
  apply s_addr_inj; try done. by apply and_bytes_ok.
Qed.

(** ** Replies *)

(** [q] is a packet of the same conversation in the other direction. *)
Record reply (p q : bytes) : Prop := Reply {
  rp_ver : IP_V p = Some 4 /\ IP_V q = Some 4;
  rp_proto : exists proto, ip_p p = Some proto /\ ip_p q = Some proto /\
    exists hp hq sp dp, IP_HL p = Some hp /\ IP_HL q = Some hq /\
      ports p proto (hp * 4) = Some (sp, dp) /\ ports q proto (hq * 4) = Some (dp, sp);
  rp_addr : exists s d, ip_src p = Some s /\ ip_dst p = Some d /\
    ip_src q = Some d /\ ip_dst q = Some s /\ s_addr s <> s_addr d
}.

Lemma reply_sym p q : reply p q -> reply q p.
Proof.
  intros [[? ?] (proto & ? & ? & hp & hq & sp & dp & ? & ? & ? & ?) (s & d & ? & ? & ? & ? & ?)].
  split; [done|exists proto; split_and!; eauto 10|exists d, s; split_and!; auto].
Qed.

Lemma reply_pair p q flip : reply p q -> assign_addr_pair p flip = assign_addr_pair q (negb flip).
Proof.
  intros [[Vp Vq] (proto & Pp & Pq & hp & hq & sp & dp & Lp & Lq & Sp & Sq) (s & d & A & B & D & E & _)].
  unfold assign_addr_pair. rewrite Vp, Vq. cbn [mbind option_bind Z.eqb Pos.eqb].
  rewrite Pp, Pq, Lp, Lq, A, B, D, E. cbn [mbind option_bind]. rewrite Sp, Sq.
  cbn [mbind option_bind]. by destruct flip.
Qed.

Lemma choose_reply p q flip b r :
  reply p q -> choose p flip b = Some r -> exists ap, r = Some (ap, b) /\
    forall b', choose q (negb flip) b' = Some (Some (ap, b')).
Proof.
  intros Hr (ap & Ha & [= <-])%bind_Some. exists ap. split; [done|]. intros b'.
  unfold choose. rewrite (reply_pair p q flip Hr) in Ha. by rewrite Ha.
Qed.

(** ** Properties *)

(** End to end: whatever frames are captured, on any link type and with
    any options, interleaved with rotations, as long as no handler reads past
    the captured bytes, the bytes of the flows in the table add up, slot by
    slot, to the totals shown. *)
Theorem captured_frames_conserve_bytes (align : Z) (e : env) (evs : list capture_event) (c : capture)
    (i : Z) :
  capture_run align e evs cap_init = Some c -> 0 <= i < HISTORY_LENGTH ->
  exists l, flow_list c = Some l /\ NoDup l.*1 /\
    u64 (zsum (slot_bytes i ∘ snd <$> l)) = u64 (slot_bytes i (history_totals c)).
Proof.
  intros [es He]%capture_run_events Hi.
  destruct (cap_run_init es) as (c' & l & H1 & H2 & H3 & H4 & H5 & _ & _ & _).
  assert (c' = c) as -> by congruence. exists l. split_and!; [done|done|].
  rewrite (zsum_list_msum _ _ _ H3 H4), H5.
  apply abs_run_balanced; [apply abs_init_wf|apply balanced_init|done].
Qed.

Definition demo_iface : iface := Iface true true false [2;0;0;0;0;1] [10;0;0;1] (replicate 16 0).

Definition demo_opt_record : options_t :=
  Options "eth0" 1 1 None 1 0 0 0 0 0 0 0 0 1 1 None 0 0 0 0 0 0 0 [10;0;1;0] [255;255;255;0] 0
    (replicate 16 0) (replicate 16 0) 0 "" 0 0 0 0.

Definition demo_env : env := Env demo_opt_record demo_iface None.

(** A TCP packet from 10.0.0.1:1000 to 10.0.0.2:80, and the start of an
    Ethernet frame that carries it out of the interface. *)
Definition demo_ip : bytes :=
  [0x45; 0; 0; 60; 0; 0; 0; 0; 64; 6; 0; 0; 10; 0; 0; 1; 10; 0; 0; 2; 3; 232; 0; 80] ++ replicate 40 0.
Definition demo_frame : bytes := [2;0;0;0;0;2] ++ [2;0;0;0;0;1] ++ [8; 0] ++ demo_ip.

Definition demo_capture : list capture_event :=
  [CFrame EthPacket demo_frame false; CRotate; CFrame RawPacket demo_ip false].

Definition demo_captured : capture := default cap_init (capture_run 4 demo_env demo_capture cap_init).

Lemma demo_captured_run : capture_run 4 demo_env demo_capture cap_init = Some demo_captured.
Proof.
  unfold demo_captured.
  assert (match capture_run 4 demo_env demo_capture cap_init with Some _ => true | None => false end = true)
    as E by (vm_compute; reflexivity).
  by destruct (capture_run 4 demo_env demo_capture cap_init).
Qed.

Example captured_frames_conserve_bytes_witness :
  exists l, flow_list demo_captured = Some l /\ NoDup l.*1 /\
    u64 (zsum (slot_bytes 0 ∘ snd <$> l)) = u64 (slot_bytes 0 (history_totals demo_captured)).
Proof.
  apply (captured_frames_conserve_bytes 4 demo_env demo_capture demo_captured 0 demo_captured_run).
  unfold HISTORY_LENGTH. lia.
Defined.

(** C21: a packet of which the IP header and the ports were captured is handled
    without reading past the buffer, whatever its version, options and
    protocol, in every state a capture can reach. *)
Theorem handle_ip_packet_in_bounds (align : Z) (e : env) (evs : list capture_event) (c : capture)
    (p : bytes) (hw_dir : Z) :
  capture_run align e evs cap_init = Some c -> ip_whole p = true ->
  exists c' calls, handle_ip_packet e c p hw_dir = Some (c', calls).
Proof.
  intros [es He]%capture_run_events Hl.
  destruct (cap_run_spec es _ _ _ _ _ _ cap_init_rep abs_init_wf)
    as (c' & F & C & HF & Hrun & Hc & Hw).
  assert (c' = c) as -> by congruence. by eapply handle_ip_packet_returns.
Qed.

Example handle_ip_packet_in_bounds_witness :
  exists c' calls, handle_ip_packet demo_env demo_captured demo_ip 1 = Some (c', calls).
Proof.
  apply (handle_ip_packet_in_bounds 4 demo_env demo_capture demo_captured demo_ip 1 demo_captured_run).
  vm_compute. reflexivity.
Defined.

(** A captured TCP packet that ends with its IP header is read past its end:
    the handlers do not look at the captured length. *)
Lemma truncated_packet_is_overread e c p :
  netfilter (e_options e) = 0 ->
  p = [0x45; 0; 0; 20; 0; 0; 0; 0; 64; 6; 0; 0; 10; 0; 0; 1; 10; 0; 0; 2] ->
  handle_ip_packet e c p 1 = None.
Proof.
  intros Hn ->. unfold handle_ip_packet. cbn [IP_V rd1 mbind option_bind].
  change (IP_V _) with (Some 4). cbn [mbind option_bind]. unfold direction. rewrite Hn. done.
Qed.

(** C22: the two directions of an IPv4 conversation between two different
    addresses are one flow: if a packet is accounted to a flow, its reply
    (addresses and ports exchanged, arriving with the opposite or no hardware
    direction) is accounted to the same flow, whether the direction comes from the net filter, the MAC address,
    the interface address or the numerical order of the addresses. *)
Theorem reply_joins_flow (e : env) (p q : bytes) (dp dq : Z) (ap : addr_pair) (b : bool) :
  reply p q -> (dp = 1 /\ dq = 0) \/ (dp = 0 /\ dq = 1) \/ (dp = -1 /\ dq = -1) ->
  direction e p 4 dp = Some (Some (ap, b)) ->
  exists b', direction e q 4 dq = Some (Some (ap, b')).
Proof.
  intros Hr Hd. pose proof (rp_addr _ _ Hr) as (s & d & A & B & D & E & Hne).
  assert (forall flip b, choose p flip b = Some (Some (ap, b)) -> forall b',
    choose q (negb flip) b' = Some (Some (ap, b'))) as Hq.
  { intros flip b1 H b'. destruct (choose_reply p q flip b1 _ Hr H) as (ap' & [= <-] & Hc). apply Hc. }
  assert (forall flip b1, choose p flip b1 = Some (Some (ap, b)) -> b1 = b) as Hb.
  { intros flip b1 H. by destruct (choose_reply p q flip b1 _ Hr H) as (ap' & [= _ ->] & _). }
  assert (forall flip b1, choose p flip b1 = Some (Some (ap, b)) -> forall b',
    choose q (negb flip) b' = Some (Some (ap, b'))) as Hc.
  { intros flip b1 H b'. apply (Hq flip b1). by rewrite (Hb _ _ H) in H |- *. }
  unfold direction. cbn [Z.eqb Pos.eqb andb orb]. rewrite orb_false_r.
  destruct (netfilter (e_options e) =? 0).
  - unfold direction_unfiltered, guarded. cbn [Z.eqb Pos.eqb]. rewrite A, B, D, E. cbn [mbind option_bind].
    destruct Hd as [[-> ->]|[[-> ->]|[-> ->]]]; cbn [Z.eqb Pos.eqb].
    + intros H. exists false. apply (Hc false true H).
    + intros H. exists true. apply (Hc true false H).
    + unfold ip_addr_match.
      destruct (have_ip_addr (e_iface e)); cbn [mbind option_bind].
      * destruct (Z.eqb_spec (s_addr s) (s_addr (if_ip_addr (e_iface e)))) as [Es|Es].
        { rewrite (proj2 (Z.eqb_neq (s_addr d) _)) by congruence. intros H. exists false.
          apply (Hc false true H). }
        destruct (Z.eqb_spec (s_addr d) (s_addr (if_ip_addr (e_iface e)))) as [Ed|Ed].
        { intros H. exists true. apply (Hc true false H). }
        destruct (truth _); [done|].
        destruct (Z.ltb_spec (s_addr s) (s_addr d)), (Z.ltb_spec (s_addr d) (s_addr s)); try lia;
          intros H1; exists false; [apply (Hc true false H1)|apply (Hc false false H1)].
      * destruct (truth _); [done|].
        destruct (Z.ltb_spec (s_addr s) (s_addr d)), (Z.ltb_spec (s_addr d) (s_addr s)); try lia;
          intros H1; exists false; [apply (Hc true false H1)|apply (Hc false false H1)].
  - unfold direction_filter4. rewrite A, B, D, E. cbn [mbind option_bind].
    destruct (in_filter_net (e_options e) s), (in_filter_net (e_options e) d); cbn [andb negb]; try done;
      intros H; [exists false; apply (Hc false true H)|exists true; apply (Hc true false H)].
Qed.

(** A host that talks to itself has a flow for each direction: nothing tells the
    two packets apart. *)
Definition self_packet (sp dp : Z) : bytes :=
  [0x45; 0; 0; 60; 0; 0; 0; 0; 64; 6; 0; 0; 127; 0; 0; 1; 127; 0; 0; 1; 0; sp; 0; dp] ++ replicate 40 0.
Example self_conversation_splits :
  direction demo_env (self_packet 200 80) 4 (-1) =
    Some (Some (AddrPair AF_INET 0 200 (pad16 [127;0;0;1]) 80 (pad16 [127;0;0;1]), false)) /\
  direction demo_env (self_packet 80 200) 4 (-1) =
    Some (Some (AddrPair AF_INET 0 80 (pad16 [127;0;0;1]) 200 (pad16 [127;0;0;1]), false)).
Proof. split; vm_compute; reflexivity. Qed.

Definition demo_reply : bytes :=
  [0x45; 0; 0; 60; 0; 0; 0; 0; 64; 6; 0; 0; 10; 0; 0; 2; 10; 0; 0; 1; 0; 80; 3; 232] ++ replicate 40 0.

Example reply_joins_flow_witness :
  exists b', direction demo_env demo_reply 4 0 =
    Some (Some (AddrPair AF_INET 0 1000 (pad16 [10;0;0;1]) 80 (pad16 [10;0;0;2]), b')).
Proof.
  apply (reply_joins_flow demo_env demo_ip demo_reply 1 0 _ true).
  - split; [done|..].
    + exists 6. split_and!; [done|done|]. exists 5, 5, 1000, 80. done.
    + exists [10;0;0;1], [10;0;0;2]. split_and!; [done..|]. vm_compute. discriminate.
  - by left.
  - vm_compute. reflexivity.
Defined.
