(* ===== verification/NetFilter.v ===== *)
(** * Interface addresses and net filters (src/util/addrs_ioctl.c, options.c, iftop.c)

    The addresses packet_init asks for, and what the net-filter options mean
    for the packets: the option parser of [OptionsCfg] composed with the tests
    of [Packet]. *)

From S2P Require Import Prelude Bytes CStr StringMap CfgFile OptionsT OptionsCfg AddrHash Packet.

Local Open Scope Z_scope.

(** ** get_addrs_ioctl, with getifaddrs *)

(** An element of the list: the interface name and, unless it is null, the
    family and the bytes of the socket address. *)
Record ifaddr := Ifaddr { ifa_name : string; ifa_addr : option (Z * bytes) }.

(** [sin_addr] and [sin6_addr] are at bytes 4 and 8 of the socket address. *)
Definition sin_addr (sa : bytes) : option bytes := rdn sa 4 4.
Definition sin6_addr (sa : bytes) : option bytes := rdn sa 8 16.

Definition sitelocal6 (a : bytes) : bool :=
  match a with b0 :: b1 :: _ => (b0 =? 0xfe) && (Z.land b1 0xc0 =? 0xc0) | _ => false end.

Record found := Found { got_ip_addr : Z; got_ip6_addr : Z; f_ip : bytes; f_ip6 : bytes }.

(** The loop over the list; [None] is a read past a socket address. *)
Fixpoint ifaddrs_loop (interface : string) (l : list ifaddr) (f : found) : option found :=
  match l with
  | [] => Some f
  | ifa :: l =>
      if truth (got_ip_addr f) && truth (got_ip6_addr f) then Some f
      else if negb (String.eqb (ifa_name ifa) interface) then ifaddrs_loop interface l f
      else match ifa_addr ifa with
      | None => ifaddrs_loop interface l f
      | Some (family, sa) =>
          if negb (family =? AF_INET) && negb (family =? AF_INET6) then ifaddrs_loop interface l f
          else if (family =? AF_INET) && negb (truth (got_ip_addr f)) then
            a ← sin_addr sa;
            ifaddrs_loop interface l (Found 2 (got_ip6_addr f) a (f_ip6 f))
          else
            (* "Must be a IPv6 address at this point." *)
            a ← sin6_addr sa;
            if linklocal6 a || sitelocal6 a then ifaddrs_loop interface l f
            else ifaddrs_loop interface l (Found (got_ip_addr f) 4 (f_ip f) a)
      end
  end.

(** [hw]: the hardware address, when the ioctl succeeds; [ifas]: the list,
    when getifaddrs succeeds. *)
Definition get_addrs_ioctl (socket_ok : bool) (hw : option bytes) (ifas : option (list ifaddr))
    (interface : string) (old_ip old_ip6 : bytes) : option (Z * bytes * bytes * bytes) :=
  if negb socket_ok then Some (-1, [], old_ip, old_ip6)
  else
    let got_hw := match hw with Some _ => 1 | None => 0 end in
    let mac := default (replicate 6 0) hw in
    match ifas with
    | None => Some (got_hw, mac, old_ip, old_ip6)
    | Some l =>
        f ← ifaddrs_loop interface l (Found 0 0 old_ip old_ip6);
        Some (got_hw + got_ip_addr f + got_ip6_addr f, mac, f_ip f, f_ip6 f)
    end.

(** The other platforms.  On the BSDs and macOS the hardware address comes from
    sysctl: the index of the interface, the size that the first call gives, the
    buffer, and what the second call writes, in which the link-layer address
    (LLADDR) follows the name of [sdl_nlen] bytes after a header of [header]
    bytes.  [None] is a read past the buffer. *)
Definition hw_addr_sysctl (header if_index : Z) (needed : option Z) (memory : bool) (buf : option bytes) :
    option (option bytes) :=
  if if_index =? 0 then Some None
  else match needed with
  | None => Some None
  | Some _ =>
      if negb memory then Some None
      else match buf with
      | None => Some None
      | Some buf => nlen ← rd1 buf (header + 5); a ← rdn buf (header + 8 + nlen) 6; Some (Some a)
      end
  end.

(** Without getifaddrs the IPv4 address comes from the ioctl SIOCGIFADDR, when
    it succeeds, or from nowhere. *)
Inductive ip_query :=
  | Getifaddrs (ifas : option (list ifaddr))
  | Siocgifaddr (ifr_addr : option bytes)
  | NoQuery.

Definition ip_addrs (q : ip_query) (interface : string) (old_ip old_ip6 : bytes) : option found :=
  let unchanged := Found 0 0 old_ip old_ip6 in
  match q with
  | Getifaddrs None | Siocgifaddr None | NoQuery => Some unchanged
  | Getifaddrs (Some l) => ifaddrs_loop interface l unchanged
  | Siocgifaddr (Some sa) => a ← sin_addr sa; Some (Found 2 0 a old_ip6)
  end.

(** get_addrs_ioctl for any platform: the hardware address that was found, and
    the way to the others. *)
Definition get_addrs_any (socket_ok : bool) (hw : option bytes) (q : ip_query) (interface : string)
    (old_ip old_ip6 : bytes) : option (Z * bytes * bytes * bytes) :=
  if negb socket_ok then Some (-1, [], old_ip, old_ip6)
  else
    f ← ip_addrs q interface old_ip old_ip6;
    Some ((match hw with Some _ => 1 | None => 0 end) + got_ip_addr f + got_ip6_addr f,
          default (replicate 6 0) hw, f_ip f, f_ip6 f).

Lemma get_addrs_linux socket_ok hw ifas interface ip ip6 :
  get_addrs_ioctl socket_ok hw ifas interface ip ip6 = get_addrs_any socket_ok hw (Getifaddrs ifas) interface ip ip6.
Proof.
  unfold get_addrs_ioctl, get_addrs_any, ip_addrs. destruct socket_ok; [|done]. cbn [negb].
  destruct ifas as [l|]; [done|]. cbn [mbind option_bind got_ip_addr got_ip6_addr]. by rewrite !Z.add_0_r.
Qed.

(** A second IPv4 address of the interface is read as an IPv6 one, and the
    program believes it has an IPv6 address. *)
Lemma second_ipv4_taken_for_ipv6 a b c :
  length a = 4%nat -> length b = 4%nat -> length c = 8%nat ->
  get_addrs_ioctl true None
    (Some [Ifaddr "eth0" (Some (AF_INET, [2; 0; 0; 0] ++ a ++ replicate 8 0));
           Ifaddr "eth0" (Some (AF_INET, [2; 0; 0; 0] ++ b ++ replicate 8 0 ++ c))])
    "eth0" [] [] = Some (6, replicate 6 0, a, replicate 8 0 ++ c).
Proof.
  intros Ha Hb Hc. do 5 (destruct a as [|? a]; try done). do 5 (destruct b as [|? b]; try done).
  by do 9 (destruct c as [|? c]; try done).
Qed.

(** The result is the sum of the flags that packet_init tests. *)
Lemma ifaddrs_loop_flags interface l f f' :
  ifaddrs_loop interface l f = Some f' ->
  (got_ip_addr f = 0 \/ got_ip_addr f = 2) -> (got_ip6_addr f = 0 \/ got_ip6_addr f = 4) ->
  (got_ip_addr f' = 0 \/ got_ip_addr f' = 2) /\ (got_ip6_addr f' = 0 \/ got_ip6_addr f' = 4) /\
  (got_ip_addr f' = 2 -> got_ip_addr f = 2 \/
     exists ifa sa, ifa ∈ l /\ ifa_name ifa = interface /\ ifa_addr ifa = Some (AF_INET, sa) /\
       sin_addr sa = Some (f_ip f')) /\ (got_ip_addr f = 2 -> got_ip_addr f' = 2 /\ f_ip f' = f_ip f).
Proof.
  revert f. induction l as [|ifa l IH]; intros f; cbn [ifaddrs_loop]; [intros [= <-]; auto 10|].
  assert (forall f1, ifaddrs_loop interface l f1 = Some f' ->
    (got_ip_addr f1 = 0 \/ got_ip_addr f1 = 2) -> (got_ip6_addr f1 = 0 \/ got_ip6_addr f1 = 4) ->
    got_ip_addr f1 = got_ip_addr f -> f_ip f1 = f_ip f ->
    (got_ip_addr f' = 0 \/ got_ip_addr f' = 2) /\ (got_ip6_addr f' = 0 \/ got_ip6_addr f' = 4) /\
    (got_ip_addr f' = 2 -> got_ip_addr f = 2 \/
       exists ifa' sa, ifa' ∈ ifa :: l /\ ifa_name ifa' = interface /\ ifa_addr ifa' = Some (AF_INET, sa) /\
         sin_addr sa = Some (f_ip f')) /\ (got_ip_addr f = 2 -> got_ip_addr f' = 2 /\ f_ip f' = f_ip f))
    as Hgo.
  { intros f1 H1 A B E1 E2. destruct (IH f1 H1 A B) as (C1 & C2 & C3 & C4). rewrite E1, E2 in *.
    split_and!; auto. intros H. destruct (C3 H) as [?|(i & sa & Hi & ?)]; [by left|].
    right. exists i, sa. split; [set_solver|done]. }
  destruct (_ && _); [intros [= <-]; auto 10|].
  destruct (negb (String.eqb (ifa_name ifa) interface)) eqn:En; [intros; by apply (Hgo f)|].
  apply negb_false_iff, String.eqb_eq in En.
  destruct (ifa_addr ifa) as [[family sa]|] eqn:Ea; [|intros; by apply (Hgo f)].
  destruct (_ && _); [intros; by apply (Hgo f)|].
  destruct (Z.eqb_spec family AF_INET) as [->|]; cbn [andb].
  2:{ intros (a & _ & H)%bind_Some A B. destruct (_ || _); [by apply (Hgo f)|].
      apply (Hgo _ H); auto. }
  destruct (truth (got_ip_addr f)) eqn:Et; cbn [negb].
  { intros (a & _ & H)%bind_Some A B. destruct (_ || _); [by apply (Hgo f)|].
    apply (Hgo _ H); auto. }
  intros (a & Hs & H)%bind_Some A B.
  assert (got_ip_addr f <> 2) as Hn2 by (intros E; by rewrite E in Et).
  destruct (IH _ H) as (C1 & C2 & C3 & C4); [by right|done|].
  destruct (C4 eq_refl) as [C5 C6]. cbn [f_ip] in C6. split_and!; try done.
  intros _. right. exists ifa, sa. rewrite C6. split_and!; try done. set_solver.
Qed.

(** Every platform answers -1 or the sum of the flags that packet_init tests,
    and without a flag the address is the one that was there. *)
Lemma ifaddrs_loop_kept interface l f f' :
  ifaddrs_loop interface l f = Some f' ->
  (got_ip_addr f = 0 \/ got_ip_addr f = 2) -> (got_ip6_addr f = 0 \/ got_ip6_addr f = 4) ->
  (got_ip_addr f' = 0 -> f_ip f' = f_ip f) /\ (got_ip6_addr f' = 0 -> f_ip6 f' = f_ip6 f /\ got_ip6_addr f = 0).
Proof.
  revert f. induction l as [|ifa l IH]; intros f; cbn [ifaddrs_loop]; [by intros [= <-]|]. intros H A B.
  destruct (_ && _); [by injection H as <-|]. destruct (negb (String.eqb _ _)); [by apply IH|].
  destruct (ifa_addr ifa) as [[family sa]|]; [|by apply IH]. destruct (_ && _); [by apply IH|].
  destruct ((family =? AF_INET) && _) eqn:E4.
  - apply bind_Some in H as (a & _ & H). destruct (ifaddrs_loop_flags _ _ _ _ H) as (_ & _ & _ & C4); [by right|done|].
    destruct (C4 eq_refl) as [C5 _]. destruct (IH _ H) as [_ K]; [by right|done|]. split; [by rewrite C5|done].
  - apply bind_Some in H as (a & _ & H). destruct (_ || _); [by apply IH|].
    destruct (IH _ H) as [K1 K2]; [done|by right|]. split; [done|]. intros E. by destruct (K2 E).
Qed.

Lemma get_addrs_flags socket_ok hw q interface ip ip6 r mac ip' ip6' :
  get_addrs_any socket_ok hw q interface ip ip6 = Some (r, mac, ip', ip6') ->
  r = -1 /\ socket_ok = false \/
  socket_ok = true /\ 0 <= r <= 7 /\
    (Z.testbit r 0 = true <-> exists a, hw = Some a) /\
    (Z.testbit r 1 = false -> ip' = ip) /\ (Z.testbit r 2 = false -> ip6' = ip6).
Proof.
  unfold get_addrs_any. destruct socket_ok; cbn [negb]; [|by intros [= <- _ _ _]; left].
  intros (f & Hf & [= <- <- <- <-])%bind_Some. right.
  assert ((got_ip_addr f = 0 /\ f_ip f = ip \/ got_ip_addr f = 2) /\ (got_ip6_addr f = 0 /\ f_ip6 f = ip6 \/ got_ip6_addr f = 4))
    as [H4 H6].
  { unfold ip_addrs in Hf. destruct q as [[l|]|[sa|]|]; try (injection Hf as <-; by split; left).
    - destruct (ifaddrs_loop_flags _ _ _ _ Hf) as ([E4|E4] & [E6|E6] & _); try (by left);
        (destruct (ifaddrs_loop_kept _ _ _ _ Hf) as [K4 K6]; [by left|by left|]);
        (split; [first [by right|left; split; [done|by apply K4]]|first [by right|left; split; [done|by apply K6]]]).
    - apply bind_Some in Hf as (a & _ & [= <-]). by split; [right|left]. }
  split; [done|].
  destruct hw as [a|], H4 as [[-> ->]| ->], H6 as [[-> ->]| ->]; cbn;
    (split_and!; try lia; try done; split; try done; by eauto || by intros [? [=]]).
Qed.

(** ** Properties *)

(** C31: the option [net-filter: net/p] with a prefix length of 0 to 32 turns
    the filter on, and an address is inside the filter exactly when its
    leading [p] bits are those of [net]; the shift, the complement and the
    byte order of the mask are right for every length, 0 and 32 included. *)
Theorem net_filter_matches_prefix (inet_aton : string -> option (list Z)) (cfg : config)
    (m : gmap string string) (o : options_t) (str mask : string) (a addr : list Z) (p : Z) :
  sm_rep cfg m -> m !! "net-filter" = Some str -> after_char "/" str = Some mask ->
  is_numeric mask = true -> atoi mask = p -> 0 <= p <= 32 ->
  inet_aton (before_char "/" str) = Some a -> bytes_ok a -> length a = 4%nat ->
  bytes_ok addr -> length addr = 4%nat ->
  exists cfg' o', options_config_get_net_filter inet_aton cfg o = Some (1, cfg', o') /\
    netfilter o' = 1 /\
    (in_filter_net o' addr = true <-> be_val addr / 2 ^ (32 - p) = be_val a / 2 ^ (32 - p)).
Proof.
  intros Hr Hs Hm Hn Hp Hpr Ha Hok Hla Hoka Hladdr.
  destruct (net_filter_prefix inet_aton cfg m Hr o str mask a p Hs Hm Hn Hp Hpr Ha)
    as (cfg' & o' & mk & E & Hon & Hmk & Emk & En).
  exists cfg', o'. split; [done|]. split; [done|].
  pose proof (mask_check_ok 4 p mk Hmk) as (Hl & Hbk & _).
  assert (length (and_bytes a mk) = 4%nat) by (unfold and_bytes; rewrite length_zip_with; lia).
  assert (bytes_ok (and_bytes a mk)) by (by apply and_bytes_ok).
  rewrite in_filter_net_spec by (rewrite ?Emk, ?En; done). rewrite Emk, En.
  apply (masked_net_eq 4 p a addr mk); done.
Qed.

Example net_filter_matches_prefix_witness :
  exists cfg' o', options_config_get_net_filter demo_aton
      (Node (Some "net-filter") "10.1.0.0/16" Null Null) demo_opt_record = Some (1, cfg', o') /\
    netfilter o' = 1 /\
    (in_filter_net o' [10; 1; 9; 9] = true <->
     be_val [10; 1; 9; 9] / 2 ^ (32 - 16) = be_val [10; 1; 0; 0] / 2 ^ (32 - 16)).
Proof.
  apply (net_filter_matches_prefix demo_aton _ {["net-filter" := "10.1.0.0/16"]} _ "10.1.0.0/16" "16");
    try reflexivity; try lia.
  - right. split_and!; [done|by vm_compute|]. intros j. simpl. by rewrite (left_id_L ∅ (∪)).
  - repeat constructor; unfold is_byte; lia.
  - repeat constructor; unfold is_byte; lia.
Defined.

(** With the default IPv6 mask, [net-filter6: net/p] for a prefix length
    of 9 to 128 selects exactly the addresses whose leading [p] bits are
    those of [net]. *)
Theorem net_filter6_matches_prefix (inet_pton6 : string -> option (list Z)) (cfg : config)
    (m : gmap string string) (o : options_t) (str mask : string) (a addr : list Z) (p : Z) :
  sm_rep cfg m -> m !! "net-filter6" = Some str -> after_char "/" str = Some mask ->
  is_numeric mask = true -> atoi mask = p -> 9 <= p <= 128 ->
  inet_pton6 (before_char "/" str) = Some a -> bytes_ok a -> length a = 16%nat ->
  bytes_ok addr -> length addr = 16%nat -> netfilter6mask o = default_mask6 ->
  exists cfg' o', options_config_get_net_filter6 inet_pton6 cfg o = Some (1, cfg', o') /\
    netfilter6 o' = 1 /\
    (same_bytes (and_bytes addr (netfilter6mask o')) (netfilter6net o') = true <->
     be_val addr / 2 ^ (128 - p) = be_val a / 2 ^ (128 - p)).
Proof.
  intros Hr Hs Hm Hn Hp Hpr Ha Hok Hla Hoka Hladdr Hdef.
  destruct (net_filter6_prefix inet_pton6 cfg m Hr o str mask a p Hs Hm Hn Hp ltac:(lia) Ha)
    as (cfg' & o' & mk & E & Hon & Emk' & Emk & En).
  exists cfg', o'. split; [done|]. split; [done|].
  rewrite Hdef in Emk'. pose proof (prefix_mask6_ok p Hpr) as Hmk. rewrite <- Emk' in Hmk.
  unfold same_bytes. rewrite bool_decide_eq_true, Emk, En.
  apply (masked_net_eq 16 p a addr mk); try done. lia.
Qed.

Definition demo_pton6 (s : string) : option (list Z) :=
  if String.eqb s "2001:db8::" then Some ([32; 1; 13; 184] ++ replicate 12 0) else None.

Example net_filter6_matches_prefix_witness :
  exists cfg' o', options_config_get_net_filter6 demo_pton6
      (Node (Some "net-filter6") "2001:db8::/35" Null Null) (options_set_defaults None None)
      = Some (1, cfg', o') /\
    netfilter6 o' = 1 /\
    (same_bytes (and_bytes ([32; 1; 13; 184] ++ replicate 12 7) (netfilter6mask o')) (netfilter6net o')
       = true <->
     be_val ([32; 1; 13; 184] ++ replicate 12 7) / 2 ^ (128 - 35) =
       be_val ([32; 1; 13; 184] ++ replicate 12 0) / 2 ^ (128 - 35)).
Proof.
  apply (net_filter6_matches_prefix demo_pton6 _ {["net-filter6" := "2001:db8::/35"]} _
    "2001:db8::/35" "35"); try reflexivity; try lia.
  - right. split_and!; [done|by vm_compute|]. intros j. simpl. by rewrite (left_id_L ∅ (∪)).
  - repeat constructor; unfold is_byte; lia.
  - repeat constructor; unfold is_byte; lia.
Defined.
