(* ===== verification/Float.v ===== *)
(** * C floating point

    [float], [double] and [long double] as IEEE 754 values of the Standard
    Library's [SpecFloat]; [long double] is the 80-bit format of x86-64.  The
    lemmas show that the sums of byte counters the program keeps in [long
    double] are exact. *)

From S2P Require Import Prelude.
From Stdlib Require Export SpecFloat.

Local Open Scope Z_scope.

(** ** Formats *)
Definition ld_of_Z (z : Z) : spec_float := binary_normalize 64 16384 z 0 false.
Definition d_of_Z (z : Z) : spec_float := binary_normalize 53 1024 z 0 false.
Definition f_of_Z (z : Z) : spec_float := binary_normalize 24 128 z 0 false.

(** [m * 2^e] as a double, for the constants. *)
Definition d_of (m e : Z) : spec_float := binary_normalize 53 1024 m e false.

Abbreviation ld_add := (SFadd 64 16384) (only parsing).
Abbreviation ld_mul := (SFmul 64 16384) (only parsing).
Abbreviation ld_div := (SFdiv 64 16384) (only parsing).
Abbreviation d_add := (SFadd 53 1024) (only parsing).
Abbreviation d_sub := (SFsub 53 1024) (only parsing).
Abbreviation d_div := (SFdiv 53 1024) (only parsing).
Abbreviation f_mul := (SFmul 24 128) (only parsing).
Abbreviation f_div := (SFdiv 24 128) (only parsing).

(** Conversion of a double to [long double]: exact, a renormalisation. *)
Definition ld_of_d (x : spec_float) : spec_float :=
  match x with
  | S754_finite s m e => binary_round 64 16384 s m e
  | _ => x
  end.

(** Rounding to [float], as an assignment does. *)
Definition f_of (x : spec_float) : spec_float :=
  match x with
  | S754_finite s m e => binary_round 24 128 s m e
  | _ => x
  end.

Abbreviation f_add := (SFadd 24 128) (only parsing).
Abbreviation f_sub := (SFsub 24 128) (only parsing).

(** ** Printing and conversion to integers *)

(** [m / 2^k] rounded to the nearest integer, ties to the even one. *)
Definition round_half_even (m k : Z) : Z :=
  let q := m / 2 ^ k in
  let r := m mod 2 ^ k in
  let half := 2 ^ (k - 1) in
  if (r <? half) || ((r =? half) && Z.even q) then q else q + 1.

Definition magnitude (m e : Z) : Z := if 0 <=? e then m * 2 ^ e else round_half_even m (- e).

(** Conversion to [int], towards zero; no value outside its range. *)
Definition int_of (x : spec_float) : option Z :=
  match x with
  | S754_zero _ => Some 0
  | S754_finite s m e =>
      let n := if 0 <=? e then Zpos m * 2 ^ e else Zpos m / 2 ^ (- e) in
      let z := if s then - n else n in
      if (- 2 ^ 31 <=? z) && (z <? 2 ^ 31) then Some z else None
  | _ => None
  end.

Lemma round_half_even_nonneg m k : 0 <= m -> 0 <= k -> 0 <= round_half_even m k.
Proof.
  intros Hm Hk. unfold round_half_even. pose proof (Z.div_pos m (2 ^ k) Hm (Z.pow_pos_nonneg 2 k ltac:(lia) Hk)).
  destruct (_ || _); lia.
Qed.

Lemma magnitude_nonneg m e : 0 <= m -> 0 <= magnitude m e.
Proof.
  intros. unfold magnitude. destruct (Z.leb_spec 0 e).
  - apply Z.mul_nonneg_nonneg; [done|]. by apply Z.pow_nonneg.
  - apply round_half_even_nonneg; lia.
Qed.

(** ** Integers in a 64-bit significand *)
Lemma digits2_bounds p : 2 ^ (Zpos (digits2_pos p) - 1) <= Zpos p < 2 ^ Zpos (digits2_pos p).
Proof.
  assert (forall q, 2 ^ (Zpos (Pos.succ (digits2_pos q)) - 1) = 2 * 2 ^ (Zpos (digits2_pos q) - 1) /\
    2 ^ Zpos (Pos.succ (digits2_pos q)) = 2 * 2 ^ Zpos (digits2_pos q)) as E.
  { intros q. rewrite Pos2Z.inj_succ, <- !Z.pow_succ_r by lia. split; f_equal; lia. }
  induction p as [p IH|p IH|]; cbn [digits2_pos]; [| |done]; destruct (E p) as [-> ->]; lia.
Qed.

Lemma digits2_unique p d : 2 ^ (d - 1) <= Zpos p < 2 ^ d -> Zpos (digits2_pos p) = d.
Proof.
  intros [H1 H2]. pose proof (digits2_bounds p) as [H3 H4].
  assert (d - 1 < Zpos (digits2_pos p)).
  { apply (Z.pow_lt_mono_r_iff 2); lia. }
  assert (0 <= d).
  { destruct (Z.ltb_spec d 0); [rewrite Z.pow_neg_r in H2 by done; lia|done]. }
  assert (Zpos (digits2_pos p) - 1 < d).
  { apply (Z.pow_lt_mono_r_iff 2); lia. }
  lia.
Qed.

(** [p * 2^k] *)
Definition shl_pos (p : positive) (k : Z) : positive := Z.to_pos (Zpos p * 2 ^ k).

Lemma shl_pos_eq p k : 0 <= k -> Zpos (shl_pos p k) = Zpos p * 2 ^ k.
Proof.
  intros Hk. unfold shl_pos. rewrite Z2Pos.id; [done|].
  assert (0 < 2 ^ k) by (by apply Z.pow_pos_nonneg). nia.
Qed.

Lemma digits2_shl p k : 0 <= k -> Zpos (digits2_pos (shl_pos p k)) = Zpos (digits2_pos p) + k.
Proof.
  intros Hk. apply digits2_unique. rewrite shl_pos_eq by done.
  pose proof (digits2_bounds p) as [H1 H2].
  replace (Zpos (digits2_pos p) + k - 1) with (Zpos (digits2_pos p) - 1 + k) by lia.
  rewrite !Z.pow_add_r by lia. assert (0 < 2 ^ k) by (by apply Z.pow_pos_nonneg). nia.
Qed.

Lemma iter_xO p k : Pos.iter xO p k = shl_pos p (Zpos k).
Proof.
  apply (inj Zpos). rewrite shl_pos_eq by done.
  induction k as [|k IH] using Pos.peano_ind; [simpl; lia|].
  rewrite Pos.iter_succ, Pos2Z.inj_succ, Z.pow_succ_r by lia.
  rewrite (Pos2Z.inj_xO (Pos.iter _ _ _)), IH. lia.
Qed.

Lemma shl_align_down p ex ez : ez <= ex -> shl_align p ex ez = (shl_pos p (ex - ez), ez).
Proof.
  intros H. unfold shl_align. destruct (ez - ex) as [|q|q] eqn:E; [|lia|].
  - replace ez with ex by lia. rewrite Z.sub_diag. f_equal. apply (inj Zpos).
    rewrite shl_pos_eq by lia. lia.
  - rewrite iter_xO. replace (ex - ez) with (Zpos q) by lia. done.
Qed.

Lemma shl_align_up p ex ez : ex <= ez -> shl_align p ex ez = (p, ex).
Proof. intros H. unfold shl_align. by destruct (ez - ex) eqn:E; try lia. Qed.

Lemma iter_pos_iter {A} (f : A -> A) k x : SpecFloat.iter_pos f k x = Pos.iter f x k.
Proof.
  revert x. induction k as [k IH|k IH|]; intros x; simpl; [| |done].
  - rewrite !IH. rewrite <- !Pos.iter_swap. done.
  - by rewrite !IH.
Qed.

(** Dropping trailing zeros is exact. *)
Lemma shr_exact p k e :
  0 <= k -> shr (Build_shr_record (Zpos (shl_pos p k)) false false) e k =
            (Build_shr_record (Zpos p) false false, e + k).
Proof.
  intros Hk. unfold shr. destruct k as [|k|k]; [|rewrite iter_pos_iter|lia].
  { rewrite Z.add_0_r, shl_pos_eq, Z.mul_1_r by lia. done. }
  f_equal. induction k as [|k IH] using Pos.peano_ind.
  - replace (shl_pos p 1) with (xO p); [done|]. apply (inj Zpos).
    rewrite shl_pos_eq, Pos2Z.inj_xO by lia. lia.
  - rewrite Pos.iter_succ_r. replace (shl_pos p (Zpos (Pos.succ k))) with (xO (shl_pos p (Zpos k))).
    { apply IH. lia. }
    apply (inj Zpos). rewrite Pos2Z.inj_xO, !shl_pos_eq, Pos2Z.inj_succ, Z.pow_succ_r by lia. lia.
Qed.

Definition d2 (p : positive) : Z := Zpos (digits2_pos p).

(** The value of an integer below [2^64]: 64 significant bits. *)
Definition ld_pos (s : bool) (p : positive) : spec_float :=
  S754_finite s (shl_pos p (64 - d2 p)) (d2 p - 64).

Lemma round_aux_64 s m e :
  d2 m = 64 -> -16000 <= e <= 16000 ->
  binary_round_aux 64 16384 s (Zpos m) e loc_Exact = S754_finite s m e.
Proof.
  intros Hd He. unfold binary_round_aux, shr_fexp, fexp, emin. cbn [shr_record_of_loc Zdigits2].
  fold (d2 m). rewrite Hd.
  replace (Z.max (64 + e - 64) (3 - 16384 - 64) - e) with 0 by lia.
  cbn [shr round_nearest_even shr_m loc_of_shr_record shr_record_of_loc Zdigits2].
  fold (d2 m). rewrite Hd.
  replace (Z.max (64 + e - 64) (3 - 16384 - 64) - e) with 0 by lia.
  cbn [shr shr_m]. by rewrite (proj2 (Z.leb_le _ _)) by lia.
Qed.

Lemma d2_pos p : 1 <= d2 p.
Proof. unfold d2. lia. Qed.

Lemma round_shifted s p k :
  0 <= k <= 64 -> d2 p <= 64 -> binary_round 64 16384 s (shl_pos p k) (- k) = ld_pos s p.
Proof.
  intros Hk Hd. pose proof (d2_pos p) as Hp. unfold binary_round. rewrite digits2_shl by lia. fold (d2 p).
  replace (fexp 64 16384 (d2 p + k + - k)) with (d2 p - 64) by (unfold fexp, emin; lia).
  destruct (Z.le_gt_cases (d2 p - 64) (- k)) as [H|H].
  - rewrite shl_align_down by lia.
    assert (shl_pos (shl_pos p k) (- k - (d2 p - 64)) = shl_pos p (64 - d2 p)) as ->.
    { apply (inj Zpos). rewrite !shl_pos_eq, <- Z.mul_assoc, <- Z.pow_add_r by lia. do 2 f_equal. lia. }
    apply round_aux_64; [|lia]. unfold d2 at 1. rewrite digits2_shl by lia. fold (d2 p). lia.
  - rewrite shl_align_up by lia. unfold binary_round_aux at 1, shr_fexp at 1.
    cbn [shr_record_of_loc Zdigits2]. rewrite digits2_shl by lia. fold (d2 p).
    replace (fexp 64 16384 (d2 p + k + - k)) with (d2 p - 64) by (unfold fexp, emin; lia).
    set (j := d2 p - 64 - - k).
    assert (shl_pos p k = shl_pos (shl_pos p (64 - d2 p)) j) as ->.
    { apply (inj Zpos). rewrite !shl_pos_eq, <- Z.mul_assoc, <- Z.pow_add_r by (subst j; lia).
      do 2 f_equal. subst j. lia. }
    rewrite shr_exact by (subst j; lia). replace (- k + j) with (d2 p - 64) by (subst j; lia).
    assert (d2 (shl_pos p (64 - d2 p)) = 64) as H64
      by (unfold d2 at 1; rewrite digits2_shl by lia; fold (d2 p); lia).
    pose proof (round_aux_64 s _ (d2 p - 64) H64 ltac:(lia)) as E.
    unfold binary_round_aux in E. unfold shr_fexp in E at 1. cbn [shr_record_of_loc Zdigits2] in E.
    fold (d2 (shl_pos p (64 - d2 p))) in E. rewrite H64 in E.
    replace (fexp 64 16384 (64 + (d2 p - 64)) - (d2 p - 64)) with 0 in E by (unfold fexp, emin; lia).
    exact E.
Qed.

Lemma d2_le_64 p : Zpos p < 2 ^ 64 -> d2 p <= 64.
Proof.
  intros Hp. pose proof (digits2_bounds p) as [H _]. fold (d2 p) in H.
  assert (d2 p - 1 < 64); [|lia]. apply (Z.pow_lt_mono_r_iff 2); lia.
Qed.

Definition ld_int (z : Z) : spec_float :=
  match z with Z0 => S754_zero false | Zpos p => ld_pos false p | Zneg p => ld_pos true p end.

Lemma normalize_shifted n k :
  Z.abs n < 2 ^ 64 -> 0 <= k <= 64 ->
  binary_normalize 64 16384 (n * 2 ^ k) (- k) false = ld_int n.
Proof.
  intros Hn Hk. destruct n as [|p|p]; [done|..];
    assert (d2 p <= 64) as Hd by (apply d2_le_64; lia).
  - rewrite <- shl_pos_eq by lia. by apply round_shifted.
  - rewrite <- Pos2Z.opp_pos, Z.mul_opp_l, <- shl_pos_eq by lia. by apply round_shifted.
Qed.

Lemma ld_of_Z_int n : Z.abs n < 2 ^ 64 -> ld_of_Z n = ld_int n.
Proof.
  intros Hn. unfold ld_of_Z. rewrite <- (normalize_shifted n 0) by lia.
  f_equal. lia.
Qed.

Lemma aligned_int s p ez :
  d2 p <= 64 -> -64 <= ez <= d2 p - 64 ->
  cond_Zopp s (Zpos (fst (shl_align (shl_pos p (64 - d2 p)) (d2 p - 64) ez))) =
  cond_Zopp s (Zpos p) * 2 ^ (- ez).
Proof.
  intros Hd He. rewrite shl_align_down by lia. cbn [fst].
  rewrite !shl_pos_eq, <- Z.mul_assoc, <- Z.pow_add_r by lia.
  replace (64 - d2 p + (d2 p - 64 - ez)) with (- ez) by lia.
  destruct s; cbn [cond_Zopp]; [by rewrite Z.mul_opp_l|done].
Qed.

(** The sum of two integers is exact as long as it stays below [2^64]. *)
Lemma ld_add_exact a b :
  Z.abs a < 2 ^ 64 -> Z.abs b < 2 ^ 64 -> Z.abs (a + b) < 2 ^ 64 ->
  ld_add (ld_of_Z a) (ld_of_Z b) = ld_of_Z (a + b).
Proof.
  intros Ha Hb Hab. rewrite !ld_of_Z_int by done.
  assert (forall s p s' q, a = cond_Zopp s (Zpos p) -> b = cond_Zopp s' (Zpos q) ->
    ld_add (ld_pos s p) (ld_pos s' q) = ld_int (a + b)) as Hfin.
  { intros s p s' q -> ->. assert (d2 p <= 64) by (apply d2_le_64; destruct s; simpl in Ha; lia).
    assert (d2 q <= 64) by (apply d2_le_64; destruct s'; simpl in Hb; lia).
    pose proof (d2_pos p). pose proof (d2_pos q). unfold ld_pos, SFadd.
    set (ez := Z.min (d2 p - 64) (d2 q - 64)).
    rewrite !aligned_int by (subst ez; lia). rewrite <- Z.mul_add_distr_r.
    rewrite <- (normalize_shifted _ (- ez)) by (subst ez; lia). f_equal. lia. }
  destruct a as [|p|p], b as [|q|q]; try done.
  - by apply (Hfin false p false q).
  - by apply (Hfin false p true q).
  - by apply (Hfin true p false q).
  - by apply (Hfin true p true q).
Qed.

(** A fold of additions is the value of the sum. *)
Lemma ld_sum_exact (l : list Z) (a : Z) :
  Z.abs a + zsum (Z.abs <$> l) < 2 ^ 64 ->
  foldl (fun x z => ld_add x (ld_of_Z z)) (ld_of_Z a) l = ld_of_Z (a + zsum l).
Proof.
  revert a. induction l as [|z l IH]; intros a Hl; csimpl in *; [by rewrite Z.add_0_r|].
  assert (0 <= zsum (Z.abs <$> l)).
  { clear. induction l; csimpl; lia. }
  rewrite ld_add_exact by lia. rewrite IH by lia. f_equal. lia.
Qed.
