(* ===== verification/FloatBounds.v ===== *)
(** * Ranges of floating point results

    A float lies below [2^k] when its digits and its exponent do.  The lemmas
    give such a bound for the result of each operation from bounds on its
    operands, whatever the format, and show that a result in range is finite. *)

From S2P Require Import Prelude Float.

Local Open Scope Z_scope.

(** ** Digits *)
Lemma Zdigits2_bounds m : 0 < m -> 2 ^ (Zdigits2 m - 1) <= m < 2 ^ Zdigits2 m.
Proof. destruct m as [|p|p]; try lia. intros _. apply digits2_bounds. Qed.

Lemma Zdigits2_pos m : 0 < m -> 1 <= Zdigits2 m.
Proof. destruct m as [|p|p]; try lia. simpl. lia. Qed.

Lemma Zdigits2_le m k : 0 < m -> m < 2 ^ k -> 0 <= k -> Zdigits2 m <= k.
Proof.
  intros Hm Hk H0. pose proof (Zdigits2_bounds m Hm). pose proof (Zdigits2_pos m Hm).
  destruct (Z.leb_spec (Zdigits2 m) k); [done|].
  assert (2 ^ k <= 2 ^ (Zdigits2 m - 1)) by (apply Z.pow_le_mono_r; lia). lia.
Qed.

Lemma Zdigits2_ge m k : 0 < m -> 2 ^ k <= m -> 0 <= k -> k + 1 <= Zdigits2 m.
Proof.
  intros Hm Hk H0. pose proof (Zdigits2_bounds m Hm).
  destruct (Z.leb_spec (k + 1) (Zdigits2 m)); [done|].
  assert (2 ^ Zdigits2 m <= 2 ^ k) by (apply Z.pow_le_mono_r; lia). lia.
Qed.

Lemma Zdigits2_mono m n : 0 < m <= n -> Zdigits2 m <= Zdigits2 n.
Proof.
  intros H. pose proof (Zdigits2_bounds n). pose proof (Zdigits2_pos n). apply Zdigits2_le; lia.
Qed.

Lemma Zdigits2_succ m : 0 < m -> Zdigits2 (m + 1) <= Zdigits2 m + 1.
Proof.
  intros Hm. pose proof (Zdigits2_bounds m Hm). pose proof (Zdigits2_pos m Hm). apply Zdigits2_le; [lia| |lia].
  rewrite Z.pow_add_r by lia. lia.
Qed.

Lemma Zdigits2_mul m n : 0 < m -> 0 < n ->
  Zdigits2 m + Zdigits2 n - 1 <= Zdigits2 (m * n) <= Zdigits2 m + Zdigits2 n.
Proof.
  intros Hm Hn. pose proof (Zdigits2_bounds m Hm). pose proof (Zdigits2_bounds n Hn).
  pose proof (Zdigits2_pos m Hm). pose proof (Zdigits2_pos n Hn). split.
  - replace (Zdigits2 m + Zdigits2 n - 1) with (Zdigits2 m - 1 + (Zdigits2 n - 1) + 1) by lia.
    apply Zdigits2_ge; [nia| |lia]. rewrite Z.pow_add_r by lia. nia.
  - apply Zdigits2_le; [nia| |lia]. rewrite Z.pow_add_r by lia. nia.
Qed.

Lemma Zdigits2_div m n : 0 < m -> 0 <= n < Zdigits2 m -> 0 < m / 2 ^ n /\ Zdigits2 (m / 2 ^ n) = Zdigits2 m - n.
Proof.
  intros Hm Hn. pose proof (Zdigits2_bounds m Hm) as [H1 H2].
  assert (0 < 2 ^ n) as Hp by (apply Z.pow_pos_nonneg; lia).
  assert (2 ^ (Zdigits2 m - n - 1) <= m / 2 ^ n) as H3.
  { apply Z.div_le_lower_bound; [done|]. rewrite <- Z.pow_add_r by lia.
    replace (n + (Zdigits2 m - n - 1)) with (Zdigits2 m - 1) by lia. done. }
  assert (m / 2 ^ n < 2 ^ (Zdigits2 m - n)) as H4.
  { apply Z.div_lt_upper_bound; [done|]. rewrite <- Z.pow_add_r by lia.
    replace (n + (Zdigits2 m - n)) with (Zdigits2 m) by lia. done. }
  assert (0 < 2 ^ (Zdigits2 m - n - 1)) by (apply Z.pow_pos_nonneg; lia).
  split; [lia|]. apply Z.le_antisymm.
  - apply Zdigits2_le; lia.
  - replace (Zdigits2 m - n) with (Zdigits2 m - n - 1 + 1) by lia. apply Zdigits2_ge; lia.
Qed.

(** ** Shifts *)
Lemma shr_1_m mrs : 0 <= shr_m mrs -> shr_m (shr_1 mrs) = shr_m mrs / 2.
Proof.
  destruct mrs as [m r s]. simpl. intros Hm. destruct m as [|[p|p|]|p]; try lia; simpl; try done.
  - rewrite (Pos2Z.inj_xI p). apply Z.div_unique with 1; lia.
  - rewrite (Pos2Z.inj_xO p). apply Z.div_unique with 0; lia.
Qed.

Lemma shr_spec mrs e n :
  0 <= shr_m mrs -> shr_m (shr mrs e n).1 = shr_m mrs / 2 ^ Z.max 0 n /\ (shr mrs e n).2 = e + Z.max 0 n.
Proof.
  intros Hm. unfold shr. destruct n as [|p|p]; cbn [fst snd]; try (rewrite Z.div_1_r; split; [done|lia]).
  rewrite Z.max_r by lia. split; [|done]. rewrite iter_pos_iter.
  assert (0 <= shr_m (Pos.iter shr_1 mrs p) /\ shr_m (Pos.iter shr_1 mrs p) = shr_m mrs / 2 ^ Zpos p) as [_ H]; [|done].
  induction p as [|p [IH1 IH2]] using Pos.peano_ind.
  - simpl Pos.iter. rewrite shr_1_m by done. split; [apply Z.div_pos; lia|done].
  - rewrite Pos.iter_succ, shr_1_m by done. split; [apply Z.div_pos; lia|].
    rewrite IH2, Pos2Z.inj_succ, Z.pow_succ_r by lia. rewrite Z.div_div by (try apply Z.pow_pos_nonneg; lia).
    f_equal. lia.
Qed.

Lemma shr_record_m m l : shr_m (shr_record_of_loc m l) = m.
Proof. by destruct l as [|[]]. Qed.

Lemma round_nearest_even_cases m l : round_nearest_even m l = m \/ round_nearest_even m l = m + 1.
Proof. destruct l as [|[]]; simpl; auto. destruct (Z.even m); auto. Qed.

(** ** Rounding *)
Definition sign (x : spec_float) : bool :=
  match x with S754_zero s | S754_infinity s | S754_finite s _ _ => s | S754_nan => false end.

(** Zero, or a finite float below [2^k] whose exponent is at most [k]. *)
Definition below (k : Z) (x : spec_float) : Prop :=
  match x with
  | S754_zero _ => True
  | S754_finite _ m e => e <= k /\ Zdigits2 (Zpos m) + e <= k
  | _ => False
  end.

(** Finite and at least [2^k]. *)
Definition above (k : Z) (x : spec_float) : Prop :=
  match x with S754_finite _ m e => k < Zdigits2 (Zpos m) + e | _ => False end.

(** A mantissa of at most [prec] digits. *)
Definition precise (prec : Z) (x : spec_float) : Prop :=
  match x with S754_finite _ m _ => Zdigits2 (Zpos m) <= prec | _ => True end.

Lemma below_mono k k' x : k <= k' -> below k x -> below k' x.
Proof. destruct x; simpl; try done. lia. Qed.

Lemma above_mono k k' x : k' <= k -> above k x -> above k' x.
Proof. destruct x; simpl; try done. lia. Qed.

Section rounding.
Context (prec emax : Z) (Hprec : 0 < prec).

Lemma round_aux_range s m e l k :
  0 < m -> e <= k -> Zdigits2 m + e <= k -> k + 1 <= emax - prec -> emin prec emax <= k ->
  let r := binary_round_aux prec emax s m e l in
  below (k + 1) r /\ precise prec r /\ sign r = s /\
  (emin prec emax < Zdigits2 m + e -> above (Zdigits2 m + e - 1) r).
Proof.
  intros Hm He Hd Hk Hmin. unfold binary_round_aux, shr_fexp, fexp.
  set (n := Z.max (Zdigits2 m + e - prec) (emin prec emax) - e).
  pose proof (shr_spec (shr_record_of_loc m l) e n) as Hs. rewrite shr_record_m in Hs. specialize (Hs ltac:(lia)).
  destruct (shr (shr_record_of_loc m l) e n) as [mrs e1]. cbn [fst snd] in Hs. destruct Hs as [Hm1 He1].
  pose proof (Z.div_pos m (2 ^ Z.max 0 n) ltac:(lia) (Z.pow_pos_nonneg 2 (Z.max 0 n) ltac:(lia) ltac:(lia))) as Hpos.
  rewrite <- Hm1 in Hpos. set (m1 := shr_m mrs) in *.
  set (m2 := round_nearest_even m1 (loc_of_shr_record mrs)).
  assert (m1 <= m2 <= m1 + 1) as Hm2 by (unfold m2; destruct (round_nearest_even_cases m1 (loc_of_shr_record mrs)) as [-> | ->]; lia).
  set (n2 := Z.max (Zdigits2 m2 + e1 - prec) (emin prec emax) - e1).
  pose proof (shr_spec (shr_record_of_loc m2 loc_Exact) e1 n2) as Hs. rewrite shr_record_m in Hs. specialize (Hs ltac:(lia)).
  destruct (shr (shr_record_of_loc m2 loc_Exact) e1 n2) as [mrs2 e2]. cbn [fst snd] in Hs. destruct Hs as [Hm3 He2].
  (* the digits after the first shift *)
  assert (m1 = 0 /\ Zdigits2 m + e <= emin prec emax /\ e1 = emin prec emax \/
          0 < m1 /\ Zdigits2 m1 + e1 = Zdigits2 m + e) as H1.
  { destruct (Z.ltb_spec (Z.max 0 n) (Zdigits2 m)) as [Hn|Hn].
    - right. destruct (Zdigits2_div m (Z.max 0 n) Hm ltac:(lia)) as [H2 H3]. rewrite <- Hm1 in H2, H3. split; [done|lia].
    - left. pose proof (Zdigits2_bounds m Hm). pose proof (Zdigits2_pos m Hm).
      assert (2 ^ Zdigits2 m <= 2 ^ Z.max 0 n) by (apply Z.pow_le_mono_r; lia).
      split; [rewrite Hm1; apply Z.div_small; lia|]. lia. }
  destruct (Z.eqb_spec m2 0) as [E0|E0].
  { rewrite E0 in Hm3. rewrite Hm3, Z.div_0_l by (apply Z.pow_nonzero; lia). split_and!; try done. lia. }
  assert (Zdigits2 m2 + e1 <= k + 1 /\ (emin prec emax < Zdigits2 m + e -> Zdigits2 m + e <= Zdigits2 m2 + e1)) as [Hd2 Hlow].
  { destruct H1 as [(E1 & H1 & H2)|[H1 H2]].
    - assert (m2 = 1) as -> by lia. simpl. lia.
    - pose proof (Zdigits2_mono m1 m2 ltac:(lia)). pose proof (Zdigits2_succ m1 H1).
      assert (m2 = m1 \/ m2 = m1 + 1) as [E2|E2] by lia; rewrite E2 in *; lia. }
  pose proof (Zdigits2_pos m2 ltac:(lia)).
  destruct (Z.ltb_spec (Z.max 0 n2) (Zdigits2 m2)) as [Hn2|Hn2].
  - destruct (Zdigits2_div m2 (Z.max 0 n2) ltac:(lia) ltac:(lia)) as [H2 H3]. rewrite <- Hm3 in H2, H3.
    destruct (shr_m mrs2) as [|p|p]; try lia. rewrite (proj2 (Z.leb_le _ _)) by lia. simpl in *. split_and!; [lia..|done|]. intros ?. lia.
  - (* only a number below the format is shifted out *)
    exfalso. lia.
Qed.

Lemma SFmul_below x y j k :
  below j x -> below k y -> emin prec emax <= j + k -> j + k + 1 <= emax - prec ->
  below (j + k + 1) (SFmul prec emax x y).
Proof.
  intros Hx Hy H1 H2. destruct x as [|s| |s m e], y as [|s'| |s' m' e']; try done.
  cbn [SFmul]. destruct Hx as [Hx1 Hx2], Hy as [Hy1 Hy2].
  pose proof (Zdigits2_mul (Zpos m) (Zpos m') ltac:(lia) ltac:(lia)) as Hd.
  refine (proj1 (round_aux_range _ _ _ _ _ _ _ _ _ _)); try lia.
  change (Zpos (m * m')) with (Zpos m * Zpos m'). lia.
Qed.

Lemma SFdiv_core_spec m1 e1 m2 e2 q e l :
  0 < m1 -> 0 < m2 -> emin prec emax < Zdigits2 m1 + e1 - (Zdigits2 m2 + e2) ->
  SFdiv_core_binary prec emax m1 e1 m2 e2 = (q, e, l) ->
  e <= e1 - e2 /\ 0 < q /\
  Zdigits2 m1 + e1 - (Zdigits2 m2 + e2) <= Zdigits2 q + e <= Zdigits2 m1 + e1 - (Zdigits2 m2 + e2) + 1.
Proof.
  intros Hm1 Hm2 Hd. unfold SFdiv_core_binary, fexp.
  set (D := Zdigits2 m1 + e1 - (Zdigits2 m2 + e2)) in *.
  set (e' := Z.min (Z.max (D - prec) (emin prec emax)) (e1 - e2)). set (s := e1 - e2 - e').
  assert ((match s with Z0 => m1 | Zpos _ => Z.shiftl m1 s | Zneg _ => 0 end) = m1 * 2 ^ s) as ->.
  { destruct s as [|p|p] eqn:Es; [simpl; lia|by rewrite Z.shiftl_mul_pow2|lia]. }
  destruct (Z.div_eucl (m1 * 2 ^ s) m2) as [q' r] eqn:Eq. intros [= <- <- _].
  assert (q' = m1 * 2 ^ s / m2) as Hq by (unfold Z.div; by rewrite Eq).
  pose proof (Zdigits2_bounds m1 Hm1) as B1. pose proof (Zdigits2_bounds m2 Hm2) as B2.
  pose proof (Zdigits2_pos m1 Hm1). pose proof (Zdigits2_pos m2 Hm2).
  assert (0 <= s) as Hs by lia. assert (Zdigits2 m2 + 1 <= Zdigits2 m1 + s) as Hds by lia.
  assert (2 ^ (Zdigits2 m1 - 1 + s) <= m1 * 2 ^ s < 2 ^ (Zdigits2 m1 + s)) as B3.
  { rewrite !Z.pow_add_r by lia. assert (0 < 2 ^ s) by (apply Z.pow_pos_nonneg; lia). nia. }
  assert (2 ^ (Zdigits2 m1 + s - Zdigits2 m2 - 1) <= q') as Hlo.
  { rewrite Hq. apply Z.div_le_lower_bound; [done|].
    replace (Zdigits2 m1 - 1 + s) with (Zdigits2 m2 + (Zdigits2 m1 + s - Zdigits2 m2 - 1)) in B3 by lia.
    rewrite Z.pow_add_r in B3 by lia.
    assert (0 < 2 ^ (Zdigits2 m1 + s - Zdigits2 m2 - 1)) by (apply Z.pow_pos_nonneg; lia). nia. }
  assert (q' < 2 ^ (Zdigits2 m1 + s - Zdigits2 m2 + 1)) as Hhi.
  { rewrite Hq. apply Z.div_lt_upper_bound; [done|].
    replace (Zdigits2 m1 + s) with (Zdigits2 m2 - 1 + (Zdigits2 m1 + s - Zdigits2 m2 + 1)) in B3 by lia.
    rewrite (Z.pow_add_r _ (Zdigits2 m2 - 1)) in B3 by lia.
    assert (0 < 2 ^ (Zdigits2 m1 + s - Zdigits2 m2 + 1)) by (apply Z.pow_pos_nonneg; lia). nia. }
  assert (0 < q') as Hpos.
  { assert (0 < 2 ^ (Zdigits2 m1 + s - Zdigits2 m2 - 1)) by (apply Z.pow_pos_nonneg; lia). lia. }
  pose proof (Zdigits2_le q' _ Hpos Hhi ltac:(lia)). pose proof (Zdigits2_ge q' _ Hpos Hlo ltac:(lia)).
  split_and!; [lia|done|lia|lia].
Qed.

(** [x / y], when [x] is below [2^j], [y] at least [2^i], and the quotient of
    the two is not below the format. *)
Lemma SFdiv_range s m e s' m' e' j i :
  let x := S754_finite s m e in let y := S754_finite s' m' e' in
  below j x -> above i y -> e - e' <= j - i -> emin prec emax < Zdigits2 (Zpos m) + e - (Zdigits2 (Zpos m') + e') ->
  emin prec emax <= j - i -> j - i + 2 <= emax - prec ->
  below (j - i + 1) (SFdiv prec emax x y) /\ precise prec (SFdiv prec emax x y) /\
  sign (SFdiv prec emax x y) = xorb s s' /\
  above (Zdigits2 (Zpos m) + e - (Zdigits2 (Zpos m') + e') - 1) (SFdiv prec emax x y).
Proof.
  intros x y [Hx1 Hx2] Hy He Hmin Hk1 Hk2. cbn [SFdiv x y].
  destruct (SFdiv_core_binary _ _ _ _ _ _) as [[q eq] l] eqn:E.
  destruct (SFdiv_core_spec (Zpos m) e (Zpos m') e' q eq l ltac:(lia) ltac:(lia) Hmin E) as (H1 & H2 & H3).
  unfold above, y in Hy.
  destruct (round_aux_range (xorb s s') q eq l (j - i) H2) as (Hb & Hpr & Hs & Ha); [lia..|].
  split_and!; [done..|]. eapply above_mono; [|apply Ha; lia]. lia.
Qed.

(** *** Normalisation *)
Lemma shl_align_spec m e e' :
  Zdigits2 (Zpos (shl_align m e e').1) + (shl_align m e e').2 = Zdigits2 (Zpos m) + e /\ (shl_align m e e').2 = Z.min e e'.
Proof.
  destruct (Z.leb_spec e' e) as [H|H].
  - rewrite shl_align_down by done. cbn [fst snd Zdigits2]. rewrite digits2_shl by lia. lia.
  - rewrite shl_align_up by lia. cbn [fst snd Zdigits2]. lia.
Qed.

Lemma binary_round_range s m e k :
  Zdigits2 (Zpos m) + e <= k -> k + 1 <= emax - prec -> emin prec emax <= k ->
  let r := binary_round prec emax s m e in
  below (k + 1) r /\ precise prec r /\ sign r = s /\
  (emin prec emax < Zdigits2 (Zpos m) + e -> above (Zdigits2 (Zpos m) + e - 1) r).
Proof.
  intros Hd Hk Hmin. unfold binary_round.
  pose proof (shl_align_spec m e (fexp prec emax (Zpos (digits2_pos m) + e))) as Ha.
  destruct (shl_align _ _ _) as [mz ez]. cbn [fst snd] in Ha. destruct Ha as [Hz He]. rewrite <- Hz.
  apply round_aux_range; try lia. unfold fexp in He. change (Zpos (digits2_pos m)) with (Zdigits2 (Zpos m)) in He. lia.
Qed.

(** The sum of two floats that are not negative. *)
Lemma SFadd_range m e m' e' j i :
  let x := S754_finite false m e in let y := S754_finite false m' e' in
  below j x -> below j y -> i < Zdigits2 (Zpos m) + e -> emin prec emax <= i -> j + 2 <= emax - prec ->
  below (j + 2) (SFadd prec emax x y) /\ precise prec (SFadd prec emax x y) /\ sign (SFadd prec emax x y) = false /\
  above i (SFadd prec emax x y).
Proof.
  intros x y [Hx1 Hx2] [Hy1 Hy2] Hi Hmin Hj. cbn [SFadd x y cond_Zopp].
  set (ez := Z.min e e').
  destruct (shl_align_spec m e ez) as [H1 H2], (shl_align_spec m' e' ez) as [H3 H4].
  rewrite H2 in H1. rewrite H4 in H3. replace (Z.min e ez) with ez in * by lia. replace (Z.min e' ez) with ez in * by lia.
  set (a := (shl_align m e ez).1) in *. set (b := (shl_align m' e' ez).1) in *.
  change (Zpos a + Zpos b) with (Zpos (a + b)). cbn [binary_normalize].
  assert (Zdigits2 (Zpos (a + b)) + ez <= j + 1 /\ Zdigits2 (Zpos a) + ez <= Zdigits2 (Zpos (a + b)) + ez) as [Hs1 Hs2].
  { pose proof (Zdigits2_bounds (Zpos a) ltac:(lia)). pose proof (Zdigits2_bounds (Zpos b) ltac:(lia)).
    pose proof (Zdigits2_pos (Zpos a) ltac:(lia)). pose proof (Zdigits2_pos (Zpos b) ltac:(lia)).
    pose proof (Zdigits2_mono (Zpos a) (Zpos (a + b)) ltac:(lia)).
    assert (2 ^ Zdigits2 (Zpos a) <= 2 ^ (j - ez)) by (apply Z.pow_le_mono_r; lia).
    assert (2 ^ Zdigits2 (Zpos b) <= 2 ^ (j - ez)) by (apply Z.pow_le_mono_r; lia).
    assert (2 ^ (j - ez + 1) = 2 * 2 ^ (j - ez)) by (rewrite <- Z.pow_succ_r by lia; f_equal; lia).
    pose proof (Zdigits2_le (Zpos (a + b)) (j - ez + 1) ltac:(lia) ltac:(lia) ltac:(lia)). lia. }
  destruct (binary_round_range false (a + b) ez (j + 1)) as (Hb & Hp & Hs & Ha); [lia..|].
  replace (j + 1 + 1) with (j + 2) in Hb by lia. split_and!; [done..|]. eapply above_mono; [|apply Ha; lia]. lia.
Qed.
End rounding.

(** ** Finite numbers *)
Definition finite (x : spec_float) : bool :=
  match x with S754_zero _ | S754_finite _ _ _ => true | _ => false end.

Lemma below_finite k x : below k x -> finite x = true.
Proof. by destruct x. Qed.

(** ** Conversions *)
Lemma d_of_Z_range n k :
  0 < n -> n < 2 ^ k -> 0 <= k <= 900 ->
  below (k + 1) (d_of_Z n) /\ precise 53 (d_of_Z n) /\ sign (d_of_Z n) = false /\ above 0 (d_of_Z n).
Proof.
  intros Hn Hk H0. unfold d_of_Z. destruct n as [|p|p]; try lia. cbn [binary_normalize].
  pose proof (Zdigits2_le (Zpos p) k ltac:(lia) Hk ltac:(lia)) as Hd. pose proof (Zdigits2_pos (Zpos p) ltac:(lia)).
  destruct (binary_round_range 53 1024 ltac:(lia) false p 0 k) as (H1 & H2 & H3 & H4);
    [lia|lia|unfold emin; lia|]. split_and!; [done..|]. eapply above_mono; [|apply H4; unfold emin; lia]. lia.
Qed.

Lemma ld_of_d_range s m e k :
  Zdigits2 (Zpos m) + e <= k -> -1100 <= k <= 2000 ->
  below (k + 1) (ld_of_d (S754_finite s m e)) /\ precise 64 (ld_of_d (S754_finite s m e)) /\
  sign (ld_of_d (S754_finite s m e)) = s /\
  (-1100 < Zdigits2 (Zpos m) + e -> above (Zdigits2 (Zpos m) + e - 1) (ld_of_d (S754_finite s m e))).
Proof.
  intros Hd Hk. cbn [ld_of_d].
  destruct (binary_round_range 64 16384 ltac:(lia) s m e k) as (H1 & H2 & H3 & H4);
    [lia|lia|unfold emin; lia|]. split_and!; [done..|]. intros ?. apply H4. unfold emin. lia.
Qed.

Lemma ld_of_Z_range n :
  Z.abs n < 2 ^ 64 -> n = 0 /\ ld_of_Z n = S754_zero false \/
  exists s m e, ld_of_Z n = S754_finite s m e /\ Zdigits2 (Zpos m) = 64 /\ -64 < e <= 0.
Proof.
  intros Hn. rewrite ld_of_Z_int by done. unfold ld_int.
  destruct n as [|p|p]; [by left|right..]; unfold ld_pos; eexists _, _, _; (split; [done|]);
    cbn [Zdigits2]; pose proof (d2_pos p); pose proof (d2_le_64 p ltac:(lia)); rewrite digits2_shl by lia;
    fold (d2 p); lia.
Qed.
