(* ===== verification/FloatOrder.v ===== *)
(** * Floats as integers of a common unit, and the order of rounded results

    Every finite float of a format is a multiple of [2^emin].  [valued x v]
    says that [x] is finite and worth [v] units of it.  Rounding to nearest
    keeps a result below a power of two that the exact one does not exceed, and
    at most doubles it, however small it is; sums, products and quotients
    follow.  This is what the smoothing of the bars needs to stay in range. *)

From S2P Require Import Prelude Float FloatBounds.

Local Open Scope Z_scope.

(** ** Powers of two *)
Lemma pow2_pos k : 0 <= k -> 0 < 2 ^ k.
Proof. intros. by apply Z.pow_pos_nonneg. Qed.

Lemma pow2_split i j : 0 <= i <= j -> 2 ^ j = 2 ^ i * 2 ^ (j - i).
Proof. intros. rewrite <- Z.pow_add_r by lia. f_equal. lia. Qed.

(** Scaling by a power of two keeps the order. *)
Lemma scale_le a b k : 0 <= k -> a <= b <-> a * 2 ^ k <= b * 2 ^ k.
Proof. intros Hk. apply Z.mul_le_mono_pos_r, pow2_pos, Hk. Qed.

(** ** One rounding *)
Lemma shr_1_r mrs : 0 <= shr_m mrs -> shr_r (shr_1 mrs) = Z.odd (shr_m mrs).
Proof. destruct mrs as [[|[p|p|]|p] r s]; simpl; try done; lia. Qed.

Lemma shr_odd mrs e n :
  0 <= shr_m mrs -> 0 < n -> shr_r (shr mrs e n).1 = Z.odd (shr_m mrs / 2 ^ (n - 1)).
Proof.
  intros Hm Hn. destruct n as [|p|p]; try lia. cbn [shr fst].
  destruct (Pos.succ_pred_or p) as [->|Hp].
  { simpl. rewrite shr_1_r by done. by rewrite Z.div_1_r. }
  rewrite iter_pos_iter, <- Hp, Pos.iter_succ. destruct (shr_spec mrs e (Zpos (Pos.pred p)) Hm) as [E _].
  cbn [shr fst] in E. rewrite iter_pos_iter in E.
  rewrite shr_1_r, E; [do 2 f_equal; f_equal; lia|].
  rewrite E. apply Z.div_pos; [done|]. apply pow2_pos. lia.
Qed.

Lemma odd_digit_rem m k : 0 <= m -> 0 <= k -> Z.odd (m / 2 ^ k) = true -> 2 ^ (k + 1) <= 2 * (m mod 2 ^ (k + 1)).
Proof.
  intros Hm Hk Ho. rewrite Z.pow_add_r by lia. change (2 ^ 1) with 2.
  pose proof (pow2_pos k Hk). rewrite Z.rem_mul_r by lia. rewrite Zmod_odd, Ho.
  pose proof (Z.mod_pos_bound m (2 ^ k)). lia.
Qed.

(** The mantissa after a shift and the rounding to nearest: a step up is taken
    only for a remainder of half a unit or more. *)
Lemma round_step m l e n :
  0 <= m -> let w := 2 ^ Z.max 0 n in
  let r := (shr (shr_record_of_loc m l) e n).1 in let q := round_nearest_even (shr_m r) (loc_of_shr_record r) in
  q = m / w \/ q = m / w + 1 /\ (w <= 2 * (m mod w) \/ w = 1 /\ l <> loc_Exact).
Proof.
  intros Hm w r q. pose proof (shr_spec (shr_record_of_loc m l) e n) as [Hr _]; rewrite shr_record_m in *; [done|].
  fold r w in Hr. unfold q. rewrite Hr.
  destruct (round_nearest_even_cases (m / w) (loc_of_shr_record r)) as [E|E]; [by left|]. right. split; [done|].
  destruct (Z.ltb_spec 0 n) as [Hn|Hn].
  - left. pose proof (shr_odd (shr_record_of_loc m l) e n) as Ho. rewrite shr_record_m in Ho. specialize (Ho Hm Hn).
    fold r in Ho. unfold w. replace (Z.max 0 n) with (n - 1 + 1) by lia. apply odd_digit_rem; [done|lia|].
    rewrite <- Ho. destruct r as [mr [] []]; try done; cbn [loc_of_shr_record round_nearest_even] in E; lia.
  - right. split; [unfold w; by replace (Z.max 0 n) with 0 by lia|]. intros ->.
    assert (r = shr_record_of_loc m loc_Exact) as Er by (unfold r; destruct n; [done|lia|done]).
    rewrite Er in E. simpl in E. lia.
Qed.

Section order.
Context (prec emax : Z) (Hprec : 0 < prec) (Hemin : emin prec emax <= 0).

Abbreviation E := (emin prec emax) (only parsing).

(** A finite float, in units of [2^E]. *)
Definition valued (x : spec_float) (v : Z) : Prop :=
  match x with
  | S754_zero _ => v = 0
  | S754_finite s m e => E <= e /\ v = cond_Zopp s (Zpos m * 2 ^ (e - E))
  | _ => False
  end.

(** Rounding [m * 2^e], of which [l] locates what is left out, in units of
    [2^F]: the result is below any power of two that the number does not
    exceed, and at most twice the number when that is exact. *)
Lemma round_aux_order s m e l F K :
  0 <= m -> F <= e -> F <= E -> E <= K -> e <= K -> K <= emax - prec ->
  m * 2 ^ (e - F) <= 2 ^ (K - F) -> (l <> loc_Exact -> m * 2 ^ (e - F) < 2 ^ (K - F)) ->
  exists v, valued (binary_round_aux prec emax s m e l) (cond_Zopp s v) /\ 0 <= v <= 2 ^ (K - E) /\
    (l = loc_Exact -> v * 2 ^ (E - F) <= 2 * (m * 2 ^ (e - F))).
Proof.
  intros Hm HFe HFE HEK HeK HK Hle Hlt. unfold binary_round_aux, shr_fexp, fexp.
  set (n := Z.max (Zdigits2 m + e - prec) E - e). set (n0 := Z.max 0 n). set (w := 2 ^ n0).
  assert (0 < w) as Hw by (apply pow2_pos; lia).
  assert (m <= 2 ^ (K - e)) as HmK.
  { apply (scale_le _ _ (e - F)); [lia|]. rewrite <- Z.pow_add_r by lia. by replace (K - e + (e - F)) with (K - F) by lia. }
  assert (l <> loc_Exact -> m < 2 ^ (K - e)) as HmK'.
  { intros Hl. apply Z.nle_gt. intros H. apply (scale_le _ _ (e - F)) in H; [|lia]. rewrite <- Z.pow_add_r in H by lia.
    replace (K - e + (e - F)) with (K - F) in H by lia. specialize (Hlt Hl). lia. }
  assert (n0 <= K - e) as Hn0.
  { destruct (Z.eq_dec m 0) as [->|]; [simpl in n; lia|]. pose proof (Zdigits2_bounds m ltac:(lia)).
    pose proof (Zdigits2_pos m ltac:(lia)).
    assert (Zdigits2 m - 1 <= K - e); [|lia]. apply (Z.pow_le_mono_r_iff 2); lia. }
  pose proof (round_step m l e n Hm) as Hq. cbv zeta in Hq. fold n0 w in Hq.
  pose proof (shr_spec (shr_record_of_loc m l) e n) as Hs. rewrite shr_record_m in Hs. specialize (Hs Hm).
  destruct (shr (shr_record_of_loc m l) e n) as [mrs e1]. cbn [fst snd] in Hs, Hq. destruct Hs as [_ He1].
  set (q := round_nearest_even _ _) in *. fold n0 in He1.
  pose proof (Z.div_mod m w ltac:(lia)) as Hdm. pose proof (Z.mod_pos_bound m w Hw) as Hmod.
  pose proof (Z.div_pos m w Hm Hw) as Hdp.
  assert (2 ^ (K - e) = w * 2 ^ (K - e1)) as HKw by (unfold w; rewrite (pow2_split n0) by lia; do 2 f_equal; lia).
  assert (0 <= q /\ q <= 2 ^ (K - e1) /\ (l = loc_Exact -> q * w <= 2 * m)) as (Hq0 & HqK & Hq2).
  { assert (m / w <= 2 ^ (K - e1)) as Hd by nia.
    destruct Hq as [-> |[-> H]]; [split_and!; [done..|intros _; nia]|].
    assert (0 < m mod w -> m / w < 2 ^ (K - e1)) as Hd' by nia. destruct H as [H|[H Hl]].
    - split_and!; [lia|lia|intros _; nia].
    - specialize (HmK' Hl). split_and!; [lia| |done]. rewrite H, Z.mul_1_l in HKw. rewrite H, Z.div_1_r. lia. }
  clear Hq. clearbody q. set (n2 := Z.max (Zdigits2 q + e1 - prec) E - e1).
  pose proof (shr_spec (shr_record_of_loc q loc_Exact) e1 n2) as Hs. rewrite shr_record_m in Hs. specialize (Hs Hq0).
  destruct (shr (shr_record_of_loc q loc_Exact) e1 n2) as [mrs2 e2]. cbn [fst snd] in Hs. destruct Hs as [Hm3 He2].
  set (w2 := 2 ^ Z.max 0 n2) in *. assert (0 < w2) as Hw2 by (apply pow2_pos; lia).
  pose proof (Z.mul_div_le q w2 Hw2) as Hdw. rewrite <- Hm3 in Hdw.
  pose proof (Z.div_pos q w2 Hq0 Hw2) as Hq3. rewrite <- Hm3 in Hq3.
  assert (E <= e1) as HEe1 by lia.
  destruct (shr_m mrs2) as [|p|p]; [|
    |lia].
  { exists 0. split_and!; [by destruct s|lia|pose proof (pow2_pos (K - E)); lia|intros _; nia]. }
  assert (e2 <= K) as He2K.
  { assert (2 ^ Z.max 0 n2 <= 2 ^ (K - e1)) as H by (fold w2; nia). apply (Z.pow_le_mono_r_iff 2) in H; lia. }
  rewrite (proj2 (Z.leb_le e2 (emax - prec))) by lia.
  assert (Zpos p * 2 ^ (e2 - E) <= q * 2 ^ (e1 - E)) as Hv.
  { replace (e2 - E) with (Z.max 0 n2 + (e1 - E)) by lia. rewrite Z.pow_add_r by lia. fold w2.
    pose proof (pow2_pos (e1 - E) ltac:(lia)). nia. }
  exists (Zpos p * 2 ^ (e2 - E)). split_and!.
  - split; [lia|done].
  - pose proof (pow2_pos (e2 - E) ltac:(lia)). lia.
  - etransitivity; [exact Hv|]. rewrite (pow2_split (e1 - E) (K - E)) by lia.
    replace (K - E - (e1 - E)) with (K - e1) by lia. pose proof (pow2_pos (e1 - E) ltac:(lia)). nia.
  - intros Hl. specialize (Hq2 Hl). apply (scale_le _ _ (E - F)) in Hv; [|lia].
    rewrite <- (Z.mul_assoc q), <- Z.pow_add_r in Hv by lia. replace (e1 - E + (E - F)) with (n0 + (e - F)) in Hv by lia.
    rewrite Z.pow_add_r in Hv by lia. fold w in Hv. pose proof (pow2_pos (e - F) ltac:(lia)). nia.
Qed.

(** *** Values *)
Lemma valued_finite x v : valued x v -> finite x = true.
Proof. by destruct x. Qed.

Lemma valued_opp s m e v : valued (S754_finite s m e) v -> valued (S754_finite (negb s) m e) (- v).
Proof. intros [H ->]. split; [done|]. destruct s; simpl; lia. Qed.

Lemma abs_cond_Zopp s v : 0 <= v -> Z.abs (cond_Zopp s v) = v.
Proof. destruct s; simpl; lia. Qed.

(** A sign is kept. *)
Definition same_sign (v exact : Z) : Prop := (0 <= exact -> 0 <= v) /\ (exact <= 0 -> v <= 0).

Lemma same_sign_opp s v u : 0 <= v -> 0 < u -> same_sign (cond_Zopp s v) (cond_Zopp s u).
Proof. intros. unfold same_sign. destruct s; simpl; lia. Qed.

(** What rounding makes of the number of [exact] units. *)
Definition rounded (K : Z) (x : spec_float) (exact : Z) : Prop :=
  exists v, valued x v /\ Z.abs v <= 2 ^ (K - E) /\ Z.abs v <= 2 * Z.abs exact /\ same_sign v exact.

Lemma rounded_same K x v : valued x v -> Z.abs v <= 2 ^ (K - E) -> rounded K x v.
Proof. intros Hx Hv. exists v. unfold same_sign. split_and!; [done|done|lia|done|done]. Qed.

(** *** Integers of a power of two *)
Lemma binary_round_order s m e K :
  E <= e -> E <= K -> K <= emax - prec -> Zpos m * 2 ^ (e - E) <= 2 ^ (K - E) ->
  rounded K (binary_round prec emax s m e) (cond_Zopp s (Zpos m * 2 ^ (e - E))).
Proof.
  intros He HEK HK Hle. unfold binary_round. set (f := fexp prec emax (Zpos (digits2_pos m) + e)).
  assert (E <= f) as Hf by (unfold f, fexp; lia).
  assert (exists mz, shl_align m e f = (mz, Z.min e f) /\ Zpos mz * 2 ^ (Z.min e f - E) = Zpos m * 2 ^ (e - E)) as (mz & -> & Hz).
  { destruct (Z.leb_spec f e) as [H|H].
    - rewrite shl_align_down, Z.min_r by done. eexists. split; [done|]. rewrite shl_pos_eq by lia.
      rewrite <- Z.mul_assoc, <- Z.pow_add_r by lia. do 2 f_equal. lia.
    - rewrite shl_align_up, Z.min_l by lia. by exists m. }
  rewrite <- Hz in Hle |- *. set (ez := Z.min e f) in *.
  assert (ez <= K) as HezK.
  { assert (2 ^ (ez - E) <= 2 ^ (K - E)) as H by (pose proof (pow2_pos (ez - E) ltac:(lia)); nia).
    apply (Z.pow_le_mono_r_iff 2) in H; lia. }
  destruct (round_aux_order s (Zpos mz) ez loc_Exact E K) as (v & Hv & Hv1 & Hv2); try done; try lia.
  specialize (Hv2 eq_refl). rewrite Z.sub_diag, Z.mul_1_r in Hv2.
  assert (0 < Zpos mz * 2 ^ (ez - E)) by (pose proof (pow2_pos (ez - E) ltac:(lia)); lia).
  exists (cond_Zopp s v). split_and!; [done|destruct s; simpl; lia..|apply same_sign_opp; lia].
Qed.

Lemma binary_normalize_order n e b K :
  E <= e -> E <= K -> K <= emax - prec -> Z.abs (n * 2 ^ (e - E)) <= 2 ^ (K - E) ->
  rounded K (binary_normalize prec emax n e b) (n * 2 ^ (e - E)).
Proof.
  intros He HEK HK Hle. destruct n as [|p|p]; cbn [binary_normalize].
  - apply rounded_same; [done|]. done.
  - apply (binary_round_order false); lia.
  - replace (Zneg p * 2 ^ (e - E)) with (cond_Zopp true (Zpos p * 2 ^ (e - E))) by (simpl cond_Zopp; lia).
    apply binary_round_order; lia.
Qed.

(** *** Sums *)
Lemma valued_align s m e ez v : valued (S754_finite s m e) v -> E <= ez <= e ->
  v = cond_Zopp s (Zpos (shl_align m e ez).1) * 2 ^ (ez - E).
Proof.
  intros [He ->] Hez. rewrite shl_align_down by lia. cbn [fst]. rewrite shl_pos_eq by lia.
  assert (2 ^ (e - E) = 2 ^ (e - ez) * 2 ^ (ez - E)) as -> by (rewrite <- Z.pow_add_r by lia; f_equal; lia).
  destruct s; simpl cond_Zopp; lia.
Qed.

Lemma SFadd_order x y v w K :
  valued x v -> valued y w -> E <= K -> K <= emax - prec -> Z.abs (v + w) <= 2 ^ (K - E) ->
  rounded K (SFadd prec emax x y) (v + w).
Proof.
  intros Hx Hy HEK HK Hle. destruct x as [s|?| |s m e], y as [s'|?| |s' m' e']; try done; cbn [SFadd].
  - rewrite Hx, Hy. destruct s, s'; by apply rounded_same; [done|pose proof (pow2_pos (K - E)); lia].
  - cbn [valued] in Hx. subst v. by apply rounded_same.
  - cbn [valued] in Hy. subst w. rewrite Z.add_0_r in *. by apply rounded_same.
  - pose proof Hx as [He _]. pose proof Hy as [He' _].
    rewrite (valued_align s m e (Z.min e e') v Hx), (valued_align s' m' e' (Z.min e e') w Hy) in * by lia.
    rewrite <- Z.mul_add_distr_r in *. apply binary_normalize_order; [lia|done..].
Qed.

Lemma SFsub_order x y v w K :
  valued x v -> valued y w -> E <= K -> K <= emax - prec -> Z.abs (v - w) <= 2 ^ (K - E) ->
  rounded K (SFsub prec emax x y) (v - w).
Proof.
  intros Hx Hy HEK HK Hle. destruct x as [s|?| |s m e], y as [s'|?| |s' m' e']; try done; cbn [SFsub].
  - rewrite Hx, Hy. destruct s, s'; by apply rounded_same; [done|pose proof (pow2_pos (K - E)); lia].
  - cbn [valued] in Hx. subst v. rewrite Z.sub_0_l in *. apply rounded_same; [by apply valued_opp|done].
  - cbn [valued] in Hy. subst w. rewrite Z.sub_0_r in *. by apply rounded_same.
  - pose proof Hx as [He _]. pose proof Hy as [He' _].
    rewrite (valued_align s m e (Z.min e e') v Hx), (valued_align s' m' e' (Z.min e e') w Hy) in * by lia.
    rewrite <- Z.mul_sub_distr_r in *. apply binary_normalize_order; [lia|done..].
Qed.

(** *** Products *)
Lemma SFmul_order x y v w K :
  valued x v -> valued y w -> E <= K -> K <= emax - prec -> Z.abs (v * w) <= 2 ^ (K - E - E) ->
  exists u, valued (SFmul prec emax x y) u /\ Z.abs u <= 2 ^ (K - E) /\ Z.abs u * 2 ^ (- E) <= 2 * Z.abs (v * w) /\
    same_sign u (v * w).
Proof.
  intros Hx Hy HEK HK Hle. pose proof (pow2_pos (K - E) ltac:(lia)) as Hp.
  assert (forall r, v * w = 0 -> valued r 0 -> exists u, valued r u /\ Z.abs u <= 2 ^ (K - E) /\
    Z.abs u * 2 ^ (- E) <= 2 * Z.abs (v * w) /\ same_sign u (v * w)) as H0.
  { intros r -> Hr. exists 0. unfold same_sign. split_and!; [done|lia..]. }
  destruct x as [s|?| |s m e], y as [s'|?| |s' m' e']; try done; cbn [SFmul]; try (apply H0; [|done]).
  1-3: cbn [valued] in Hx, Hy; first [by rewrite Hx|by rewrite Hy, Z.mul_0_r].
  clear H0. destruct Hx as [He ->], Hy as [He' ->].
  assert (Zpos (m * m') * 2 ^ (e + e' - (E + E)) = Zpos m * 2 ^ (e - E) * (Zpos m' * 2 ^ (e' - E))) as Hmm.
  { replace (e + e' - (E + E)) with (e - E + (e' - E)) by lia. rewrite Z.pow_add_r by lia. lia. }
  assert (cond_Zopp s (Zpos m * 2 ^ (e - E)) * cond_Zopp s' (Zpos m' * 2 ^ (e' - E)) =
    cond_Zopp (xorb s s') (Zpos (m * m') * 2 ^ (e + e' - (E + E)))) as Ep by (rewrite Hmm; destruct s, s'; simpl; lia).
  rewrite Ep in *. pose proof (pow2_pos (e + e' - (E + E)) ltac:(lia)) as Hpe.
  assert (Zpos (m * m') * 2 ^ (e + e' - (E + E)) <= 2 ^ (K - (E + E))) as Hle'
    by (replace (K - (E + E)) with (K - E - E) by lia; destruct (xorb s s'); cbn [cond_Zopp] in Hle; lia).
  assert (e + e' <= K) as HeK.
  { assert (2 ^ (e + e' - (E + E)) <= 2 ^ (K - (E + E))) as H
      by (pose proof (Pos2Z.is_pos (m * m')); generalize dependent (Zpos (m * m')); intros; nia). apply (Z.pow_le_mono_r_iff 2) in H; lia. }
  destruct (round_aux_order (xorb s s') (Zpos (m * m')) (e + e') loc_Exact (E + E) K) as (u & Hu & Hu1 & Hu2); try done; try lia.
  specialize (Hu2 eq_refl). replace (E - (E + E)) with (- E) in Hu2 by lia.
  exists (cond_Zopp (xorb s s') u). rewrite !abs_cond_Zopp by lia. split_and!; [done|lia|lia|apply same_sign_opp; lia].
Qed.

(** *** Quotients *)
Lemma new_location_zero d : new_location d 0 = loc_Exact.
Proof. unfold new_location. by destruct (Z.even d). Qed.

Lemma SFdiv_core_order m1 e1 m2 e2 q e l K :
  E <= e1 -> E <= e2 -> 0 <= K -> Zpos m1 * 2 ^ (e1 - E) <= 2 ^ K * (Zpos m2 * 2 ^ (e2 - E)) ->
  SFdiv_core_binary prec emax (Zpos m1) e1 (Zpos m2) e2 = (q, e, l) ->
  e <= K /\ 0 <= q /\ q <= 2 ^ (K - e) /\ (l <> loc_Exact -> q < 2 ^ (K - e)).
Proof.
  intros H1 H2 HK Hle. unfold SFdiv_core_binary, fexp. set (D := Zdigits2 (Zpos m1) + e1 - (Zdigits2 (Zpos m2) + e2)).
  set (e' := Z.min (Z.max (D - prec) E) (e1 - e2)). set (s := e1 - e2 - e').
  assert ((match s with Z0 => Zpos m1 | Zpos _ => Z.shiftl (Zpos m1) s | Zneg _ => 0 end) = Zpos m1 * 2 ^ s) as ->.
  { destruct s as [|p|p] eqn:Es; [simpl; lia|by rewrite Z.shiftl_mul_pow2|lia]. }
  assert (D <= K) as HD.
  { pose proof (Zdigits2_bounds (Zpos m1) ltac:(lia)) as [B1 _]. pose proof (Zdigits2_bounds (Zpos m2) ltac:(lia)) as [_ B2].
    pose proof (Zdigits2_pos (Zpos m1) ltac:(lia)). pose proof (Zdigits2_pos (Zpos m2) ltac:(lia)).
    pose proof (pow2_pos (e1 - E) ltac:(lia)). pose proof (pow2_pos (e2 - E) ltac:(lia)). pose proof (pow2_pos K HK).
    assert (2 ^ (Zdigits2 (Zpos m1) - 1 + (e1 - E)) < 2 ^ (K + (Zdigits2 (Zpos m2) + (e2 - E)))) as Hd.
    { rewrite !Z.pow_add_r by lia. eapply Z.le_lt_trans; [apply Z.mul_le_mono_nonneg_r; [lia|exact B1]|].
      eapply Z.le_lt_trans; [exact Hle|]. apply Z.mul_lt_mono_pos_l; [done|]. by apply Z.mul_lt_mono_pos_r. }
    apply (Z.pow_lt_mono_r_iff 2) in Hd; lia. }
  pose proof (Z_div_mod (Zpos m1 * 2 ^ s) (Zpos m2) ltac:(lia)) as Hqr.
  destruct (Z.div_eucl (Zpos m1 * 2 ^ s) (Zpos m2)) as [q' r]. intros [= <- <- <-]. destruct Hqr as [Hq Hr].
  assert (Zpos m1 * 2 ^ s <= 2 ^ (K - e') * Zpos m2) as Hs.
  { apply (scale_le _ _ (e' + e2 - E - E)); [lia|]. rewrite <- Z.mul_assoc, <- Z.pow_add_r by lia.
    apply (scale_le _ _ (- E)) in Hle; [|lia]. rewrite <- Z.mul_assoc, <- Z.pow_add_r in Hle by lia.
    replace (s + (e' + e2 - E - E)) with (e1 - E + - E) by lia. etransitivity; [exact Hle|]. apply Z.eq_le_incl.
    transitivity (2 ^ (K - e' + (e' + e2 - E - E)) * Zpos m2); [|rewrite Z.pow_add_r by lia; ring].
    replace (K - e' + (e' + e2 - E - E)) with (K + (e2 - E + - E)) by lia. rewrite !Z.pow_add_r by lia. ring. }
  pose proof (pow2_pos s ltac:(lia)). assert (0 < Zpos m1 * 2 ^ s) by (apply Z.mul_pos_pos; lia).
  split_and!; [lia|nia|nia|]. intros Hl. assert (r <> 0) by (intros ->; by rewrite new_location_zero in Hl). nia.
Qed.

Lemma SFdiv_order x y v w K :
  valued x v -> valued y w -> 0 <= v -> 0 < w -> 0 <= K <= emax - prec -> v <= 2 ^ K * w ->
  exists u, valued (SFdiv prec emax x y) u /\ 0 <= u <= 2 ^ (K - E).
Proof.
  intros Hx Hy Hv Hw HK Hle. pose proof (pow2_pos (K - E) ltac:(lia)) as Hp.
  destruct x as [s|?| |s m e], y as [s'|?| |s' m' e']; try done; cbn [SFdiv valued] in *; try lia.
  - exists 0. by split_and!; [|lia|lia].
  - destruct Hx as [He ->], Hy as [He' ->].
    pose proof (pow2_pos (e - E) ltac:(lia)). pose proof (pow2_pos (e' - E) ltac:(lia)).
    destruct s; [simpl in Hv; lia|]. destruct s'; [simpl in Hw; lia|]. cbn [cond_Zopp xorb] in *.
    destruct (SFdiv_core_binary prec emax (Zpos m) e (Zpos m') e') as [[q eq] l] eqn:Ec.
    destruct (SFdiv_core_order _ _ _ _ _ _ _ K He He' ltac:(lia) Hle Ec) as (H1 & H2 & H3 & H4).
    set (F := Z.min eq E).
    assert (2 ^ (K - F) = 2 ^ (K - eq) * 2 ^ (eq - F)) as EF by (rewrite <- Z.pow_add_r by lia; f_equal; lia).
    pose proof (pow2_pos (eq - F) ltac:(lia)).
    destruct (round_aux_order false q eq l F K) as (u & Hu & Hu1 & _); try lia.
    + rewrite EF. by apply Z.mul_le_mono_nonneg_r; [lia|].
    + intros Hl. rewrite EF. apply Z.mul_lt_mono_pos_r; [done|auto].
    + by exists u.
Qed.
End order.

(** ** Conversion to int *)
Lemma int_of_valued prec emax x v :
  emin prec emax <= 0 -> valued prec emax x v -> 0 <= v < 2 ^ (31 - emin prec emax) ->
  int_of x = Some (v / 2 ^ (- emin prec emax)).
Proof.
  intros Hmin Hx Hv. destruct x as [s|?| |s m e]; try done; [cbn [valued] in Hx; subst v; by rewrite Z.div_0_l by (apply Z.pow_nonzero; lia)|].
  destruct Hx as [He ->]. pose proof (pow2_pos (e - emin prec emax) ltac:(lia)) as Hp.
  destruct s; [cbn [cond_Zopp] in Hv; lia|]. cbn [cond_Zopp int_of] in *.
  assert ((if 0 <=? e then Zpos m * 2 ^ e else Zpos m / 2 ^ (- e)) =
    Zpos m * 2 ^ (e - emin prec emax) / 2 ^ (- emin prec emax)) as ->.
  { pose proof (pow2_pos (- emin prec emax) ltac:(lia)). destruct (Z.leb_spec 0 e).
    - replace (e - emin prec emax) with (e + - emin prec emax) by lia. rewrite Z.pow_add_r, Z.mul_assoc by lia.
      by rewrite Z.div_mul by lia.
    - replace (- emin prec emax) with (- e + (e - emin prec emax)) by lia. rewrite Z.pow_add_r by lia.
      by rewrite Z.div_mul_cancel_r by lia. }
  set (w := _ / _). assert (0 <= w < 2 ^ 31) as Hw.
  { unfold w. split; [apply Z.div_pos; [lia|apply pow2_pos; lia]|]. apply Z.div_lt_upper_bound; [apply pow2_pos; lia|].
    rewrite <- Z.pow_add_r by lia. replace (- emin prec emax + 31) with (31 - emin prec emax) by lia. lia. }
  rewrite (proj2 (Z.leb_le _ _)), (proj2 (Z.ltb_lt _ _)) by lia. done.
Qed.
