(* ===== verification/SortedList.v ===== *)
(** * Sorted list (src/data/sorted_list.c, src/include/sorted_list.h)

    A linked list kept in order by a caller's comparison function.  Nodes are
    allocated one by one ([sorted_list_insert]) or all at once
    ([sorted_list_insert_batch], which sorts with the C library's qsort).
    Memory is a map of cells and a map of allocated blocks, so that a [free]
    of anything but the start of a block has no result. *)

From S2P Require Import Prelude Chain Pool.
From stdpp Require Import sorting.

Local Open Scope Z_scope.

(** Each element may come before the next one. *)
Abbreviation list_sorted := Sorted (only parsing).

Record snode (A : Type) := SNode { sn_next : option positive; sn_data : A }.
Arguments SNode {A}. Arguments sn_next {A}. Arguments sn_data {A}.

Record sorted_list_type (A : Type) := SList {
  root_next : option positive;
  batch_allocated : Z;
  sl_cells : gmap positive (snode A);
  sl_blocks : gmap positive Z;     (* the nodes in each block *)
  sl_brk : positive
}.
Arguments SList {A}. Arguments root_next {A}. Arguments batch_allocated {A}.
Arguments sl_cells {A}. Arguments sl_blocks {A}. Arguments sl_brk {A}.

Section list.
Context {A : Type}.
Implicit Types (s : sorted_list_type A) (h : gmap positive (snode A)).

(** [prev->next = q], where no [prev] stands for the root. *)
Definition set_link h (root prev q : option positive) : option (gmap positive (snode A) * option positive) :=
  match prev with
  | None => Some (h, q)
  | Some y => b ← h !! y; Some (<[y := SNode q (sn_data b)]> h, root)
  end.

(** The loop of sorted_list_insert: the node to insert after, and its successor. *)
Fixpoint insert_pos (compare : A -> A -> Z) (fuel : nat) h (prev next : option positive) (data : A) :
    option (option positive * option positive) :=
  match fuel with
  | O => None
  | S fuel =>
      match next with
      | None => Some (prev, None)
      | Some n =>
          nd ← h !! n;
          if 0 <? compare data (sn_data nd) then insert_pos compare fuel h (Some n) (sn_next nd) data
          else Some (prev, Some n)
      end
  end.

Definition sorted_list_insert (compare : A -> A -> Z) s (data : A) : option (sorted_list_type A) :=
  '(prev, next) ← insert_pos compare (S (size (sl_cells s))) (sl_cells s) None (root_next s) data;
  let node := sl_brk s in
  '(h, root) ← set_link (<[node := SNode next data]> (sl_cells s)) (root_next s) prev (Some node);
  Some (SList root (batch_allocated s) h (<[node := 1]> (sl_blocks s)) (Pos.succ node)).

(** qsort_compare_wrapper *)
Definition qsort_compare_wrapper (compare : A -> A -> Z) (aa bb : A) : Z :=
  if truth (compare aa bb) then 1 else -1.

(** The loop over the nodes of a batch. *)
Fixpoint batch_loop h (root prev : option positive) (nodes : positive) (i : Z) (items : list A) :
    option (gmap positive (snode A) * option positive) :=
  match items with
  | [] => Some (h, root)
  | d :: items =>
      let n := item_at nodes i in
      '(h, root) ← set_link (<[n := SNode None d]> h) root prev (Some n);
      batch_loop h root (Some n) nodes (i + 1) items
  end.

(** The list, and the items as qsort leaves them in the caller's array. *)
Definition sorted_list_insert_batch (qsort : (A -> A -> Z) -> list A -> list A)
    (compare : A -> A -> Z) s (items : list A) : option (sorted_list_type A * list A) :=
  let count := Z.of_nat (length items) in
  if count =? 0 then Some (s, items)
  else
    let items := qsort (qsort_compare_wrapper compare) items in
    let nodes := sl_brk s in
    '(h, root) ← batch_loop (sl_cells s) (root_next s) None nodes 0 items;
    Some (SList root 1 h (<[nodes := count]> (sl_blocks s)) (item_at nodes count), items).

Definition sorted_list_next_item s (prev : option positive) : option (option positive) :=
  match prev with
  | None => Some (root_next s)
  | Some p => nd ← sl_cells s !! p; Some (sn_next nd)
  end.

(** A loop over the list: the data in order. *)
Fixpoint list_items (fuel : nat) s (prev : option positive) : option (list A) :=
  match fuel with
  | O => None
  | S fuel =>
      nn ← sorted_list_next_item s prev;
      match nn with
      | None => Some []
      | Some n => nd ← sl_cells s !! n; l ← list_items fuel s (Some n); Some (sn_data nd :: l)
      end
  end.

(** [free]: the cells of the block go away. *)
Definition free_block (b : positive) (m : gmap positive (snode A) * gmap positive Z) :
    option (gmap positive (snode A) * gmap positive Z) :=
  n ← m.2 !! b;
  Some (foldr delete m.1 (item_at b <$> seqZ 0 n), delete b m.2).

Fixpoint free_nodes (fuel : nat) (m : gmap positive (snode A) * gmap positive Z) (node : option positive) :
    option (gmap positive (snode A) * gmap positive Z) :=
  match fuel with
  | O => None
  | S fuel =>
      match node with
      | None => Some m
      | Some n => nd ← m.1 !! n; m ← free_block n m; free_nodes fuel m (sn_next nd)
      end
  end.

Definition sorted_list_destroy s : option (sorted_list_type A) :=
  match root_next s with
  | None => Some s
  | Some first =>
      '(h, b) ← (if truth (batch_allocated s) then free_block first (sl_cells s, sl_blocks s)
                 else free_nodes (S (size (sl_cells s))) (sl_cells s, sl_blocks s) (Some first));
      Some (SList None 0 h b (sl_brk s))
  end.

Definition sorted_list_initialise s : sorted_list_type A :=
  SList None 0 (sl_cells s) (sl_blocks s) (sl_brk s).

(** The state at the start of the program. *)
Definition sl_empty : sorted_list_type A := SList None 0 ∅ ∅ 1.

(** ** Chains with their data *)
Fixpoint dchain h (p : option positive) (xs : list positive) (ds : list A) : Prop :=
  match xs, ds with
  | [], [] => p = None
  | x :: xs, d :: ds => p = Some x /\ exists q, h !! x = Some (SNode q d) /\ dchain h q xs ds
  | _, _ => False
  end.

Lemma dchain_chain h p xs ds : dchain h p xs ds -> chain sn_next h p xs.
Proof.
  revert p ds. induction xs as [|x xs IH]; intros p [|d ds]; simpl; try done.
  intros [-> (q & Hx & Hc)]. split; [done|]. eexists. split; [done|]. by apply (IH q ds).
Qed.

Lemma dchain_length h p xs ds : dchain h p xs ds -> length xs = length ds.
Proof.
  revert p ds. induction xs as [|x xs IH]; intros p [|d ds]; simpl; try done.
  intros [_ (q & _ & Hc)]. f_equal. by eapply IH.
Qed.

Lemma dchain_same h h' p xs ds :
  dchain h p xs ds -> (forall x, x ∈ xs -> h' !! x = h !! x) -> dchain h' p xs ds.
Proof.
  revert p ds. induction xs as [|x xs IH]; intros p [|d ds]; simpl; try done.
  intros [-> (q & Hx & Hc)] Hs. split; [done|]. exists q. rewrite Hs by set_solver.
  split; [done|]. apply IH; [done|]. intros y Hy. apply Hs. set_solver.
Qed.

Lemma dchain_app h p xs1 xs2 ds1 ds2 :
  length xs1 = length ds1 ->
  dchain h p (xs1 ++ xs2) (ds1 ++ ds2) ->
  exists q, dchain h q xs2 ds2 /\ q = head xs2.
Proof.
  revert p ds1. induction xs1 as [|x xs1 IH]; intros p [|d ds1] Hl Hc; try done; simpl in *.
  - exists p. split; [done|]. destruct xs2, ds2; simpl in *; try done. by destruct Hc.
  - destruct Hc as [_ (q & _ & Hc)]. apply (IH q ds1); [lia|done].
Qed.

(** A new node [n] put after [xs1]. *)
Lemma dchain_link h root xs1 xs2 ds1 ds2 n d :
  length xs1 = length ds1 -> dchain h root (xs1 ++ xs2) (ds1 ++ ds2) -> n ∉ xs1 ++ xs2 ->
  exists h' root', set_link (<[n := SNode (head xs2) d]> h) root (prev_of None xs1) (Some n) = Some (h', root') /\
    dchain h' root' (xs1 ++ n :: xs2) (ds1 ++ d :: ds2) /\
    (forall x, is_Some (h' !! x) <-> x = n \/ is_Some (h !! x)).
Proof.
  intros Hl Hc Hn. pose proof (chain_NoDup _ _ _ _ (dchain_chain _ _ _ _ Hc)) as Hnd.
  destruct (dchain_app h root xs1 xs2 ds1 ds2 Hl Hc) as (q2 & Hq2 & ->).
  set (h1 := <[n := SNode (head xs2) d]> h).
  assert (forall x, x ∈ xs1 ++ xs2 -> h1 !! x = h !! x) as Hs1.
  { intros x Hx. unfold h1. rewrite lookup_insert_ne; [done|]. by intros <-. }
  destruct (last xs1) as [y|] eqn:Hlast.
  2:{ apply last_None in Hlast as ->. destruct ds1; [|done]. eexists _, _. split; [done|].
      split.
      - simpl. split; [done|]. exists (head xs2). unfold h1 at 1. rewrite lookup_insert_eq.
        split; [done|]. apply (dchain_same h); [done|]. intros x Hx. apply Hs1. set_solver.
      - intros x. unfold h1. rewrite lookup_insert_is_Some. destruct (decide (n = x)); intuition congruence. }
  apply last_Some in Hlast as [xs0 ->].
  assert (prev_of None (xs0 ++ [y]) = Some y) as -> by (unfold prev_of; by rewrite last_snoc).
  destruct (chain_alive _ _ _ _ y (dchain_chain _ _ _ _ Hc)) as [b Hb]; [set_solver|].
  simpl. rewrite Hs1 by set_solver. rewrite Hb. cbn [mbind option_bind]. eexists _, _. split; [done|]. split.
  - revert root ds1 Hl Hc. induction xs0 as [|z xs0 IH]; intros root [|e ds1] Hl Hc; try done.
    + destruct ds1; [|done]. simpl in *. destruct Hc as [-> (q & Hy & Hc)]. split; [done|].
      exists (Some n). rewrite lookup_insert_eq. simplify_eq. split; [done|]. split; [done|].
      exists (head xs2). rewrite lookup_insert_ne by set_solver. split; [apply lookup_insert_eq|].
      apply (dchain_same h); [done|]. apply NoDup_cons in Hnd as [Hy' _].
      intros x Hx. rewrite lookup_insert_ne by (intros <-; done). apply Hs1. set_solver.
    + simpl in *. destruct Hc as [-> (q & Hz & Hc)]. split; [done|]. exists q.
      apply NoDup_cons in Hnd as [Hz' Hnd]. rewrite lookup_insert_ne by set_solver.
      rewrite Hs1 by set_solver. split; [done|].
      apply IH; first [done|lia|set_solver].
  - intros x. rewrite lookup_insert_is_Some. unfold h1. rewrite lookup_insert_is_Some.
    destruct (decide (n = x)), (decide (y = x)); subst; rewrite ?Hb; intuition (congruence || eauto).
Qed.

Lemma list_items_spec h p xs ds s fuel :
  sl_cells s = h -> (forall q, sorted_list_next_item s q = Some p -> dchain h p xs ds ->
    (length xs < fuel)%nat -> list_items fuel s q = Some ds).
Proof.
  intros <-. revert p ds fuel. induction xs as [|x xs IH]; intros p [|d ds] [|fuel] q Hq Hc Hf; try done;
    try (simpl in Hf; lia); cbn [list_items]; rewrite Hq; cbn [mbind option_bind]; simpl in Hc.
  - by rewrite Hc.
  - destruct Hc as [-> (q' & Hx & Hc)]. rewrite Hx. cbn [mbind option_bind].
    rewrite (IH q' ds fuel); [done| |done|simpl in Hf; lia]. simpl. by rewrite Hx.
Qed.

(** ** The invariant *)
Record sl_ok s (xs : list positive) (ds : list A) : Prop := SlOk {
  so_chain : dchain (sl_cells s) (root_next s) xs ds;
  so_cells x : is_Some (sl_cells s !! x) <-> x ∈ xs;
  so_brk x : is_Some (sl_cells s !! x) -> (x < sl_brk s)%positive;
  so_blocks : (batch_allocated s = 0 /\ sl_blocks s = gset_to_gmap 1 (list_to_set xs)) \/
    (exists base, batch_allocated s = 1 /\ root_next s = Some base /\
       xs = item_at base <$> seqZ 0 (Z.of_nat (length xs)) /\
       sl_blocks s = {[ base := Z.of_nat (length xs) ]})
}.

Lemma sl_empty_ok : sl_ok sl_empty [] [].
Proof.
  split; simpl; [done|..]; intros; rewrite ?lookup_empty.
  - split; [by intros [? ?]|set_solver].
  - destruct H as [? H]. by rewrite lookup_empty in H.
  - left. split; [done|]. symmetry. apply gset_to_gmap_empty.
Qed.

Lemma sl_items s xs ds : sl_ok s xs ds -> list_items (S (size (sl_cells s))) s None = Some ds.
Proof.
  intros Hs. apply (list_items_spec (sl_cells s) (root_next s) xs); [done..|apply Hs|].
  pose proof (chain_length _ _ _ _ (dchain_chain _ _ _ _ (so_chain _ _ _ Hs))). lia.
Qed.

(** ** Insertion *)
Fixpoint insert_list (compare : A -> A -> Z) (d : A) (l : list A) : list A :=
  match l with
  | [] => [d]
  | x :: l => if 0 <? compare d x then x :: insert_list compare d l else d :: x :: l
  end.

Lemma insert_pos_spec compare h p xs ds fuel prev d :
  dchain h p xs ds -> (length xs < fuel)%nat ->
  exists xs1 xs2 ds1 ds2, xs = xs1 ++ xs2 /\ ds = ds1 ++ ds2 /\ length xs1 = length ds1 /\
    insert_pos compare fuel h prev p d = Some (prev_of prev xs1, head xs2) /\
    insert_list compare d ds = ds1 ++ d :: ds2.
Proof.
  revert p ds fuel prev. induction xs as [|x xs IH]; intros p [|e ds] [|fuel] prev Hc Hf; try done;
    try (simpl in Hf; lia); cbn [insert_pos]; simpl in Hc.
  - subst. by exists [], [], [], [].
  - destruct Hc as [-> (q & Hx & Hc)]. rewrite Hx. cbn [mbind option_bind sn_data sn_next insert_list].
    destruct (0 <? compare d e).
    + destruct (IH q ds fuel (Some x) Hc) as (xs1 & xs2 & ds1 & ds2 & -> & -> & Hl & -> & ->);
        [simpl in Hf; lia|].
      exists (x :: xs1), xs2, (e :: ds1), ds2. rewrite prev_of_cons. simpl. by rewrite Hl.
    + by exists [], (x :: xs), [], (e :: ds).
Qed.

Lemma sorted_list_insert_spec compare s xs ds d :
  sl_ok s xs ds -> batch_allocated s = 0 ->
  exists s' xs', sorted_list_insert compare s d = Some s' /\
    sl_ok s' xs' (insert_list compare d ds) /\ batch_allocated s' = 0.
Proof.
  intros [Hc Hce Hb Hbl] H0. unfold sorted_list_insert.
  pose proof (chain_length _ _ _ _ (dchain_chain _ _ _ _ Hc)) as Hlen.
  destruct (insert_pos_spec compare _ _ xs ds (S (size (sl_cells s))) None d Hc)
    as (xs1 & xs2 & ds1 & ds2 & -> & -> & Hl & -> & ->); [lia|]. cbn [mbind option_bind].
  assert (sl_brk s ∉ xs1 ++ xs2) as Hfresh.
  { intros Hin. apply Hce, Hb in Hin. lia. }
  destruct (dchain_link _ _ _ _ _ _ (sl_brk s) d Hl Hc Hfresh) as (h' & root' & -> & Hc' & Hdom).
  cbn [mbind option_bind]. eexists _, _. split; [done|]. split; [|done]. split; cbn.
  - exact Hc'.
  - intros x. rewrite Hdom, Hce. set_solver.
  - intros x [->|Hx]%Hdom; [lia|]. apply Hb in Hx. lia.
  - left. split; [done|]. destruct Hbl as [[_ ->]|(base & Hb1 & _)]; [|lia].
    rewrite <- gset_to_gmap_union_singleton. f_equal. set_solver.
Qed.

Lemma insert_list_perm compare d l : insert_list compare d l ≡ₚ d :: l.
Proof.
  induction l as [|x l IH]; simpl; [done|]. destruct (_ <? _); [|done].
  rewrite IH. apply Permutation_swap.
Qed.

(** [x] may come before [y]. *)
Definition sorts_before (compare : A -> A -> Z) (x y : A) : Prop := compare x y <= 0 \/ 0 < compare y x.

Lemma insert_list_sorted compare d l :
  Sorted (sorts_before compare) l -> Sorted (sorts_before compare) (insert_list compare d l).
Proof.
  induction 1 as [|x l Hl IH Hx]; simpl; [by repeat constructor|].
  destruct (Z.ltb_spec 0 (compare d x)).
  - constructor; [done|]. destruct l as [|y l]; simpl in *; [constructor; by right|].
    apply HdRel_inv in Hx. destruct (_ <? _); constructor; [done|by right].
  - constructor; [by constructor|]. constructor. by left.
Qed.

Fixpoint insert_all (compare : A -> A -> Z) s (items : list A) : option (sorted_list_type A) :=
  match items with
  | [] => Some s
  | d :: items => s ← sorted_list_insert compare s d; insert_all compare s items
  end.

Lemma insert_all_spec compare items s xs ds :
  sl_ok s xs ds -> batch_allocated s = 0 ->
  exists s' xs', insert_all compare s items = Some s' /\
    sl_ok s' xs' (foldl (fun l d => insert_list compare d l) ds items) /\ batch_allocated s' = 0.
Proof.
  revert s xs ds. induction items as [|d items IH]; intros s xs ds Hs H0; [by exists s, xs|].
  destruct (sorted_list_insert_spec compare s xs ds d Hs H0) as (s1 & xs1 & E & Hs1 & H1).
  cbn [insert_all foldl]. rewrite E. cbn [mbind option_bind]. by apply (IH s1 xs1).
Qed.

Lemma insertions_sorted compare items ds :
  Sorted (sorts_before compare) ds ->
  Sorted (sorts_before compare) (foldl (fun l d => insert_list compare d l) ds items) /\
  foldl (fun l d => insert_list compare d l) ds items ≡ₚ items ++ ds.
Proof.
  revert ds. induction items as [|d items IH]; intros ds Hds; [done|]. simpl.
  destruct (IH (insert_list compare d ds)) as [H1 H2]; [by apply insert_list_sorted|].
  split; [done|]. rewrite H2, insert_list_perm. by rewrite <- Permutation_middle.
Qed.

(** ** Batches *)
Lemma batch_loop_spec items : forall h root xs ds nodes i,
  dchain h root xs ds -> 0 <= i -> (forall j, 0 <= j -> i <= j -> item_at nodes j ∉ xs) ->
  exists h' root', batch_loop h root (prev_of None xs) nodes i items = Some (h', root') /\
    dchain h' root' (xs ++ (item_at nodes <$> seqZ i (Z.of_nat (length items)))) (ds ++ items) /\
    (forall x, is_Some (h' !! x) <-> x ∈ item_at nodes <$> seqZ i (Z.of_nat (length items)) \/ is_Some (h !! x)).
Proof.
  induction items as [|d items IH]; intros h root xs ds nodes i Hc Hi Hf.
  { exists h, root. simpl. rewrite !app_nil_r. set_solver. }
  cbn [batch_loop]. rewrite <- (app_nil_r xs), <- (app_nil_r ds) in Hc.
  destruct (dchain_link h root xs [] ds [] (item_at nodes i) d) as (h1 & root1 & E & Hc1 & Hd1).
  { rewrite !app_nil_r in Hc. by eapply dchain_length. } { done. } { rewrite app_nil_r. by apply Hf. }
  simpl in E. rewrite E. cbn [mbind option_bind].
  replace (Some (item_at nodes i)) with (prev_of None (xs ++ [item_at nodes i]))
    by (unfold prev_of; by rewrite last_snoc).
  destruct (IH h1 root1 (xs ++ [item_at nodes i]) (ds ++ [d]) nodes (i + 1)) as (h' & root' & -> & Hc' & Hd').
  - done.
  - lia.
  - intros j Hj Hij [Hin|Hin]%elem_of_app; [by apply (Hf j); [done|lia|]|].
    apply list_elem_of_singleton, item_at_inj in Hin; lia.
  - exists h', root'. split; [done|].
    assert (seqZ i (Z.of_nat (length (d :: items))) = i :: seqZ (i + 1) (Z.of_nat (length items))) as Eq.
    { rewrite seqZ_cons by (simpl; lia). f_equal. simpl. f_equal; lia. }
    rewrite Eq. cbn [fmap list_fmap]. rewrite <- !app_assoc in Hc'. split; [done|].
    intros x. rewrite Hd', Hd1. set_solver.
Qed.

Lemma sorted_list_insert_batch_spec qsort compare s items :
  sl_ok s [] [] -> length (qsort (qsort_compare_wrapper compare) items) = length items ->
  exists s' xs, let items' := if bool_decide (items = []) then [] else qsort (qsort_compare_wrapper compare) items in
    sorted_list_insert_batch qsort compare s items = Some (s', items') /\ sl_ok s' xs items'.
Proof.
  intros [Hc Hce Hb Hbl] Hlen. unfold sorted_list_insert_batch.
  destruct items as [|d items]; [by exists s, []|]. cbv zeta. rewrite bool_decide_false by done.
  rewrite (proj2 (Z.eqb_neq _ _)) by (simpl; lia).
  set (its := qsort _ _) in *.
  destruct (batch_loop_spec its (sl_cells s) (root_next s) [] [] (sl_brk s) 0 Hc)
    as (h' & root' & E & Hc' & Hd'); [lia|set_solver|].
  change (prev_of None []) with (@None positive) in E. rewrite E. cbn [mbind option_bind]. rewrite !app_nil_l in Hc'.
  eexists _, _. split; [done|]. split; cbn.
  - exact Hc'.
  - intros x. rewrite Hd', Hce. set_solver.
  - intros x [Hx|Hx]%Hd'; [|by apply Hce in Hx; set_solver].
    apply list_elem_of_fmap in Hx as (j & -> & Hj%elem_of_seqZ). apply item_at_lt.
    rewrite Hlen in Hj. simpl in Hj. lia.
  - right. exists (sl_brk s). rewrite length_fmap, length_seqZ, Nat2Z.id. split_and!; [done| |done|].
    + apply dchain_chain in Hc'. rewrite seqZ_cons in Hc' by (rewrite Hlen; simpl; lia).
      simpl in Hc'. by destruct Hc' as [-> _].
    + destruct Hbl as [[_ ->]|(base & _ & Hr & _)]; [|simpl in Hc; congruence].
      simpl in *. rewrite Hlen. apply map_eq. intros x.
      destruct (decide (sl_brk s = x)) as [<-|]; [by rewrite lookup_insert_eq, lookup_singleton_eq|].
      rewrite lookup_insert_ne, lookup_singleton_ne by done. by rewrite lookup_gset_to_gmap_None.
Qed.

(** ** Destruction *)
Lemma foldr_delete_lookup (l : list positive) h x :
  foldr delete h l !! x = if decide (x ∈ l) then None else h !! x.
Proof.
  induction l as [|y l IH]; cbn [foldr]; [done|].
  destruct (decide (y = x)) as [->|].
  - by rewrite lookup_delete_eq, decide_True by set_solver.
  - rewrite lookup_delete_ne by done. rewrite IH. destruct (decide (x ∈ l)), (decide (x ∈ y :: l)); try done; exfalso; set_solver.
Qed.

Lemma free_nodes_spec xs : forall h b p ds fuel,
  dchain h p xs ds -> (length xs < fuel)%nat -> (forall x, is_Some (h !! x) <-> x ∈ xs) ->
  b = gset_to_gmap 1 (list_to_set xs : gset positive) -> free_nodes fuel (h, b) p = Some (∅, ∅).
Proof.
  induction xs as [|x xs IH]; intros h b p [|d ds] [|fuel] Hc Hf Hd Hb; try done; try (simpl in Hf; lia).
  - simpl in Hc. subst. cbn [free_nodes]. assert (h = ∅) as ->; [|done].
    apply map_eq. intros x. rewrite lookup_empty. apply eq_None_not_Some. rewrite Hd. set_solver.
  - pose proof (chain_NoDup _ _ _ _ (dchain_chain _ _ _ _ Hc)) as [Hx Hnd]%NoDup_cons.
    destruct Hc as [-> (q & Hhx & Hc)]. cbn [free_nodes]. simpl (_.1). rewrite Hhx. cbn [mbind option_bind].
    unfold free_block. simpl (_.2).
    assert (b !! x = Some 1) as ->.
    { rewrite Hb. apply lookup_gset_to_gmap_Some. set_solver. }
    cbn [mbind option_bind sn_next]. change (seqZ 0 1) with [0]. cbn [fmap list_fmap foldr].
    assert (item_at x 0 = x) as -> by (unfold item_at; lia).
    apply (IH _ _ q ds).
    + apply (dchain_same h); [done|]. intros y Hy. simpl. rewrite lookup_delete_ne; [done|]. congruence.
    + simpl in Hf. lia.
    + intros y. simpl. rewrite lookup_delete_is_Some, Hd. set_solver.
    + rewrite Hb. apply map_eq. intros y. apply option_eq. intros v.
      rewrite lookup_delete_Some, !lookup_gset_to_gmap_Some. set_solver.
Qed.

Lemma sorted_list_destroy_spec s xs ds :
  sl_ok s xs ds -> sorted_list_destroy s = Some (SList None 0 ∅ ∅ (sl_brk s)) \/
    (xs = [] /\ sorted_list_destroy s = Some s /\ sl_cells s = ∅ /\ sl_blocks s = ∅ /\
     batch_allocated s = 0 /\ root_next s = None).
Proof.
  intros [Hc Hce Hb Hbl]. unfold sorted_list_destroy.
  destruct xs as [|x xs].
  { right. destruct ds; [|done]. simpl in Hc. rewrite Hc.
    destruct Hbl as [[-> ->]|(base & _ & Hr & _)]; [|congruence]. split_and!; try done.
    apply map_eq. intros x. rewrite lookup_empty. apply eq_None_not_Some. rewrite Hce. set_solver. }
  left. pose proof (chain_length _ _ _ _ (dchain_chain _ _ _ _ Hc)) as Hlen.
  assert (root_next s = Some x) as Hr by (destruct ds; [done|]; apply Hc). rewrite Hr.
  destruct Hbl as [[-> Hbl]|(base & -> & Hr' & Hxs & Hbl)]; cbn [truth Z.eqb negb].
  - rewrite (free_nodes_spec (x :: xs) _ _ _ ds); [done|by rewrite <- Hr|lia|done|done].
  - assert (base = x) as -> by congruence. unfold free_block. simpl (_.2). rewrite Hbl, lookup_singleton_eq.
    cbn [mbind option_bind fst snd]. rewrite <- Hxs. do 2 f_equal; [|apply delete_singleton_eq].
    apply map_eq. intros y. rewrite foldr_delete_lookup, lookup_empty.
    case_decide; [done|]. apply eq_None_not_Some. by rewrite Hce.
Qed.

Lemma sorted_list_destroy_ok s xs ds :
  sl_ok s xs ds -> exists s', sorted_list_destroy s = Some s' /\ sl_ok s' [] [].
Proof.
  intros Hs. destruct (sorted_list_destroy_spec s xs ds Hs) as [->|(-> & -> & _)]; eexists; (split; [done|]).
  - split; simpl; [done|..].
    + intros x. rewrite lookup_empty. split; [by intros [? ?]|set_solver].
    + intros x. rewrite lookup_empty. by intros [? ?].
    + left. split; [done|]. symmetry. apply gset_to_gmap_empty.
  - destruct ds; [done|]. by destruct Hs as [? _ _ _].
Qed.
End list.

(** ** qsort

    What the C standard promises for an array of distinct items and a
    comparison that is consistent on them; for any other comparison it
    promises nothing, but the array keeps its length. *)
Definition consistent {A} (cmp : A -> A -> Z) (l : list A) : Prop :=
  NoDup l /\
  (forall x y, x ∈ l -> y ∈ l -> x <> y -> cmp x y < 0 <-> 0 < cmp y x) /\
  (forall x y z, x ∈ l -> y ∈ l -> z ∈ l -> x <> y -> y <> z -> x <> z ->
     cmp x y <= 0 -> cmp y z <= 0 -> cmp x z <= 0).

Class QSort {A} (qsort : (A -> A -> Z) -> list A -> list A) : Prop := {
  qsort_length cmp l : length (qsort cmp l) = length l;
  qsort_perm cmp l : consistent cmp l -> qsort cmp l ≡ₚ l;
  qsort_sorted cmp l : consistent cmp l -> Sorted (fun x y => cmp x y <= 0) (qsort cmp l)
}.

(** The comparison is strict on the items: of two of them, one comes first. *)
Definition strict_on {A} (compare : A -> A -> Z) (l : list A) : Prop :=
  NoDup l /\
  (forall x y, x ∈ l -> y ∈ l -> 0 <= compare x y) /\
  (forall x y, x ∈ l -> y ∈ l -> x <> y -> 0 < compare x y <-> compare y x = 0) /\
  (forall x y z, x ∈ l -> y ∈ l -> z ∈ l -> 0 < compare x y -> 0 < compare y z -> x <> z -> 0 < compare x z).

Section sorting.
Context {A : Type} `{EqDecision A}.
Implicit Types (compare cmp : A -> A -> Z) (l items : list A).

Lemma Sorted_weaken (R R' : relation A) l :
  Sorted R l -> NoDup l -> (forall x y, x ∈ l -> y ∈ l -> x <> y -> R x y -> R' x y) -> Sorted R' l.
Proof.
  induction 1 as [|x l Hl IH Hx]; intros Hnd HR; [constructor|].
  apply NoDup_cons in Hnd as [Hn Hnd]. constructor.
  - apply IH; [done|]. intros y z Hy Hz. apply HR; set_solver.
  - destruct l as [|y l]; [constructor|]. apply HdRel_inv in Hx. constructor. apply HR; [set_solver..| |done].
    set_solver.
Qed.

Lemma strict_on_perm compare l l' : l ≡ₚ l' -> strict_on compare l' -> strict_on compare l.
Proof.
  intros Hp (H1 & H2 & H3 & H4). split_and!.
  - by rewrite Hp.
  - intros x y. rewrite !Hp. apply H2.
  - intros x y. rewrite !Hp. apply H3.
  - intros x y z. rewrite !Hp. apply H4.
Qed.

Lemma wrapper_consistent compare l : strict_on compare l -> consistent (qsort_compare_wrapper compare) l.
Proof.
  intros (Hnd & Hpos & Hst & Htr). unfold qsort_compare_wrapper, truth. split_and!; [done|..].
  - intros x y Hx Hy Hne. pose proof (Hst x y Hx Hy Hne). pose proof (Hst y x Hy Hx ltac:(congruence)).
    pose proof (Hpos x y Hx Hy). pose proof (Hpos y x Hy Hx).
    destruct (Z.eqb_spec (compare x y) 0), (Z.eqb_spec (compare y x) 0); simpl; lia.
  - intros x y z Hx Hy Hz H1 H2 H3.
    pose proof (Hst x y Hx Hy H1). pose proof (Hst y z Hy Hz H2). pose proof (Hst x z Hx Hz H3).
    pose proof (Hst z x Hz Hx ltac:(congruence)). pose proof (Hst z y Hz Hy ltac:(congruence)).
    pose proof (Hst y x Hy Hx ltac:(congruence)).
    pose proof (Hpos x y Hx Hy). pose proof (Hpos y z Hy Hz). pose proof (Hpos x z Hx Hz).
    pose proof (Htr z y x Hz Hy Hx) as Ht.
    destruct (Z.eqb_spec (compare x y) 0), (Z.eqb_spec (compare y z) 0), (Z.eqb_spec (compare x z) 0);
      simpl; lia || (intros; exfalso; assert (0 < compare z x) by (apply Ht; [lia|lia|congruence]); lia).
Qed.

(** The strict order of the items. *)
Definition item_order compare items (x y : A) : Prop :=
  x ∈ items /\ y ∈ items /\ x <> y /\ 0 < compare y x.

Lemma item_order_trans compare items : strict_on compare items -> Transitive (item_order compare items).
Proof.
  intros (_ & Hpos & Hst & Htr) x y z (Hx & Hy & Hne & H1) (_ & Hz & Hne' & H2).
  assert (x <> z).
  { intros ->. pose proof (proj1 (Hst y z Hy Hz ltac:(congruence)) H1). lia. }
  split_and!; [done..|]. by apply (Htr z y x); try congruence.
Qed.

Lemma item_order_unique compare items l1 l2 :
  strict_on compare items -> Sorted (item_order compare items) l1 -> Sorted (item_order compare items) l2 ->
  l1 ≡ₚ l2 -> l1 = l2.
Proof.
  intros Hs H1 H2 Hp. pose proof (item_order_trans compare items Hs).
  apply (StronglySorted_unique_strong (item_order compare items)); [|by apply Sorted_StronglySorted..|done].
  destruct Hs as (_ & _ & Hst & _).
  intros x y _ _ (Hx & Hy & Hne & Hc) (_ & _ & _ & Hc'). apply Hst in Hc; [lia|done..|congruence].
Qed.

Lemma insertions_ordered compare items :
  strict_on compare items ->
  Sorted (item_order compare items) (foldl (fun l d => insert_list compare d l) [] items) /\
  foldl (fun l d => insert_list compare d l) [] items ≡ₚ items.
Proof.
  intros Hs. destruct (insertions_sorted compare items []) as [H1 H2]; [constructor|].
  rewrite app_nil_r in H2. split; [|done]. destruct Hs as (Hnd & Hpos & Hst & _).
  apply (Sorted_weaken (sorts_before compare)); [done|by rewrite H2|].
  intros x y Hx Hy Hne HR. rewrite H2 in Hx, Hy. split_and!; [done..|].
  destruct HR as [HR|HR]; [|done]. pose proof (Hpos x y Hx Hy). apply Hst; [done..|congruence|lia].
Qed.

Lemma qsort_ordered qsort `{!QSort qsort} compare items :
  strict_on compare items ->
  Sorted (item_order compare items) (qsort (qsort_compare_wrapper compare) items) /\
  qsort (qsort_compare_wrapper compare) items ≡ₚ items.
Proof.
  intros Hs. pose proof (wrapper_consistent compare items Hs) as Hc.
  pose proof (qsort_perm _ _ Hc) as Hp. split; [|done]. destruct Hs as (Hnd & Hpos & Hst & _).
  apply (Sorted_weaken _ _ _ (qsort_sorted _ _ Hc)); [by rewrite Hp|].
  intros x y Hx Hy Hne HR. rewrite Hp in Hx, Hy. split_and!; [done..|].
  apply Hst; [done..|congruence|]. unfold qsort_compare_wrapper, truth in HR.
  by destruct (Z.eqb_spec (compare x y) 0).
Qed.
End sorting.

(** An instance: insertion sort. *)
Definition insertion_qsort {A} (cmp : A -> A -> Z) (l : list A) : list A :=
  foldl (fun l d => insert_list cmp d l) [] l.

#[export] Instance insertion_qsort_ok {A} : QSort (@insertion_qsort A).
Proof.
  split; intros cmp l; unfold insertion_qsort;
    (destruct (insertions_sorted cmp l []) as [H1 H2]; [constructor|]); rewrite app_nil_r in H2.
  - by apply Permutation_length.
  - done.
  - intros (Hnd & Has & _). apply (Sorted_weaken (sorts_before cmp)); [done|by rewrite H2|].
    intros x y Hx Hy Hne [HR|HR]; [done|]. rewrite H2 in Hx, Hy. apply Has in HR; [lia|done..].
Qed.

(** ** Properties *)

(** A list built by [sorted_list_insert] holds each inserted item once,
    and of two neighbours the comparison never puts the second strictly
    before the first, for any comparison function; sorted_list_destroy then
    frees every node it allocated and nothing else. *)
Theorem sorted_list_insert_sorted {A} (compare : A -> A -> Z) (items : list A) :
  exists s s' l, insert_all compare sl_empty items = Some s /\
    list_items (S (size (sl_cells s))) s None = Some l /\ l ≡ₚ items /\
    Sorted (sorts_before compare) l /\
    sorted_list_destroy s = Some s' /\ sl_cells s' = ∅ /\ sl_blocks s' = ∅ /\ root_next s' = None.
Proof.
  destruct (insert_all_spec compare items sl_empty [] [] sl_empty_ok) as (s & xs & E & Hs & _); [done|].
  destruct (insertions_sorted compare items []) as [H1 H2]; [constructor|]. rewrite app_nil_r in H2.
  destruct (sorted_list_destroy_spec s _ _ Hs) as [Ed|(_ & Ed & ? & ? & _ & ?)];
    eexists s, _, _; split_and!; try done; by eapply sl_items.
Qed.

(** C18: the bulk insertion is the item-by-item insertion made faster: for
    distinct items on which the comparison is a strict order, the list that
    qsort and one allocation produce reads exactly as the list of insertions
    in any order of arrival, and destroying it frees the single block. *)
Theorem batch_equals_insertions {A} `{EqDecision A} (qsort : (A -> A -> Z) -> list A -> list A)
    `{!QSort qsort} (compare : A -> A -> Z) (items arrivals : list A) :
  strict_on compare items -> arrivals ≡ₚ items ->
  exists s1 its s2 l s1', sorted_list_insert_batch qsort compare sl_empty items = Some (s1, its) /\
    insert_all compare sl_empty arrivals = Some s2 /\
    list_items (S (size (sl_cells s1))) s1 None = Some l /\
    list_items (S (size (sl_cells s2))) s2 None = Some l /\ l ≡ₚ items /\
    sorted_list_destroy s1 = Some s1' /\ sl_cells s1' = ∅ /\ sl_blocks s1' = ∅.
Proof.
  intros Hs Hp. destruct (qsort_ordered qsort compare items Hs) as [Hq1 Hq2].
  destruct (sorted_list_insert_batch_spec qsort compare sl_empty items sl_empty_ok)
    as (s1 & xs1 & E1 & Hs1); [by rewrite Hq2|]. cbv zeta in E1, Hs1.
  assert ((if bool_decide (items = []) then [] else qsort (qsort_compare_wrapper compare) items) =
          qsort (qsort_compare_wrapper compare) items) as Ei.
  { case_bool_decide as Hi; [|done]. rewrite Hi in Hq2 |- *. apply Permutation_nil_r in Hq2. by rewrite Hq2. }
  rewrite Ei in E1, Hs1.
  destruct (insert_all_spec compare arrivals sl_empty [] [] sl_empty_ok) as (s2 & xs2 & E2 & Hs2 & _); [done|].
  assert (strict_on compare arrivals) as Ha by (by apply (strict_on_perm _ _ items)).
  destruct (insertions_ordered compare arrivals Ha) as [Ho1 Ho2].
  assert (foldl (fun l d => insert_list compare d l) [] arrivals =
          qsort (qsort_compare_wrapper compare) items) as Eq.
  { apply (item_order_unique compare items); [done| |done|by rewrite Ho2, Hq2].
    apply (Sorted_weaken (item_order compare arrivals)); [done|rewrite Ho2; apply Ha|].
    intros x y _ _ _ (Hx & Hy & HR). rewrite Hp in Hx, Hy. exact (conj Hx (conj Hy HR)). }
  rewrite Eq in Hs2.
  destruct (sorted_list_destroy_spec s1 _ _ Hs1) as [Ed|(_ & Ed & ? & ? & _ & _)];
    eexists s1, _, s2, _, _; split_and!; try done; by eapply sl_items.
Qed.

(** Descending integers. *)
Definition demo_compare (a b : Z) : Z := if a <? b then 1 else 0.

Lemma demo_strict : strict_on demo_compare [3; 9; 5].
Proof.
  unfold demo_compare. split_and!.
  - apply (bool_decide_unpack _). by vm_compute.
  - intros x y _ _. bool_cases; lia.
  - intros x y _ _ Hne. bool_cases; lia.
  - intros x y z _ _ _ H1 H2 Hne. revert H1 H2. bool_cases; lia.
Qed.

Example batch_equals_insertions_witness :
  exists s1 its s2 l s1', sorted_list_insert_batch insertion_qsort demo_compare sl_empty [3; 9; 5] = Some (s1, its) /\
    insert_all demo_compare sl_empty [9; 5; 3] = Some s2 /\
    list_items (S (size (sl_cells s1))) s1 None = Some l /\
    list_items (S (size (sl_cells s2))) s2 None = Some l /\ l ≡ₚ [3; 9; 5] /\
    sorted_list_destroy s1 = Some s1' /\ sl_cells s1' = ∅ /\ sl_blocks s1' = ∅.
Proof.
  apply (batch_equals_insertions insertion_qsort demo_compare [3; 9; 5] [9; 5; 3] demo_strict).
  apply (bool_decide_unpack _). vm_compute. exact I.
Defined.

(** A node inserted into a list that was filled by a batch: the destruction
    frees what is not the start of the batch's block, or leaks. *)
Lemma insert_into_batch_leaks :
  (s ← sorted_list_insert_batch insertion_qsort demo_compare sl_empty [3; 9];
   s ← sorted_list_insert demo_compare s.1 5;
   s ← sorted_list_destroy s; Some (map_to_list (sl_blocks s))) = Some [(3%positive, 1)].
Proof. vm_compute. reflexivity. Qed.
