(* ===== verification/Analyse.v ===== *)
(** * The data of the screen (src/ui/ui.c, src/include/host_pair_line.h)

    Once per repaint [analyse_data] groups the flows of [history] into the
    lines of [screen_hash] (hiding hosts or ports merges flows), averages each
    line over the last 2, 10 and 40 slots, sorts the lines into [screen_list]
    and computes the totals and peaks.  The two tables share the node pool of
    [AddrHash]; the lines are calloc'ed. *)

From S2P Require Import Prelude Records Float Chain Hash Pool AddrHash History SortedList CStr OptionsT ProcInfo Packet.

Local Open Scope Z_scope.

Definition HISTORY_DIVISIONS : Z := 3.
Definition history_divs : list Z := [2; 10; 40].
Definition RESOLUTION : Z := 1.
Definition PROCNAME_LENGTH : Z := 64.

Record host_pair_line := Line {
  l_ap : addr_pair;
  l_total_recv : Z;
  l_total_sent : Z;
  l_recv : list spec_float;      (* long double *)
  l_sent : list spec_float;
  cached_hostname : string;
  l_pid : Z;
  process_name : string
}.

Definition ld_zeros : list spec_float := replicate (Z.to_nat HISTORY_DIVISIONS) (S754_zero false).

(** After [xcalloc], with [screen_line->ap = ap]. *)
Definition new_line (ap : addr_pair) : host_pair_line := Line ap 0 0 ld_zeros ld_zeros "" 0 "".

(** The globals of ui.c; the node pool is that of [capture]. *)
Record display := Display {
  screen_hash : hash_type addr_pair;
  lines : gmap positive host_pair_line;
  lines_brk : positive;
  screen_list : sorted_list_type positive;
  totals : host_pair_line;
  peaksent : Z;
  peakrecv : Z;
  peaktotal : Z
}.

Definition with_lines (d : display) (ls : gmap positive host_pair_line) : display :=
  Display (screen_hash d) ls (lines_brk d) (screen_list d) (totals d) (peaksent d) (peakrecv d) (peaktotal d).

(** ** history_length *)
Definition history_length (slot_elapsed : spec_float) (history_len division : Z) : option spec_float :=
  div ← history_divs !!z division;
  let full_slots := if history_len <? div then history_len else div in
  if full_slots <=? 1 then
    Some (if SFltb (S754_zero false) slot_elapsed then slot_elapsed else d_of_Z RESOLUTION)
  else Some (d_add (d_of_Z ((full_slots - 1) * RESOLUTION)) slot_elapsed).

(** ** Comparing lines *)
Definition comparison_at (f : host_pair_line -> option spec_float) (aa bb : host_pair_line) : option (option Z) :=
  x ← f aa; y ← f bb;
  Some (if SFeqb x y then None else Some (if SFltb x y then 1 else 0)).

(** [for (i = start; i < HISTORY_DIVISIONS; i++) if (aa[i] != bb[i]) return aa[i] < bb[i];] *)
Fixpoint compare_from (n : nat) (i : Z) (f : host_pair_line -> Z -> option spec_float) (aa bb : host_pair_line) :
    option (option Z) :=
  match n with
  | O => Some None
  | S n =>
      r ← comparison_at (fun l => f l i) aa bb;
      match r with Some v => Some (Some v) | None => compare_from n (i + 1) f aa bb end
  end.

Definition divisions_from (f : host_pair_line -> Z -> option spec_float) (aa bb : host_pair_line) (start_div : Z) :
    option (option Z) := compare_from (Z.to_nat (HISTORY_DIVISIONS - start_div)) start_div f aa bb.

Definition sent_at (l : host_pair_line) (i : Z) : option spec_float := l_sent l !!z i.
Definition recv_at (l : host_pair_line) (i : Z) : option spec_float := l_recv l !!z i.
Definition both_at (l : host_pair_line) (i : Z) : option spec_float :=
  r ← l_recv l !!z i; s ← l_sent l !!z i; Some (ld_add r s).

Definition screen_line_bandwidth_compare (o : options_t) (aa bb : host_pair_line) (start_div : Z) : option Z :=
  first ←
    (if linedisplay o =? OPTION_LINEDISPLAY_ONE_LINE_SENT then divisions_from sent_at aa bb start_div
     else if linedisplay o =? OPTION_LINEDISPLAY_ONE_LINE_RECV then divisions_from recv_at aa bb start_div
     else Some None);
  match first with
  | Some v => Some v
  | None =>
      r ← divisions_from both_at aa bb start_div;
      Some (default 1 r)
  end.

(** strcmp *)
Definition strcmp (a b : string) : Z :=
  match String.compare a b with Lt => -1 | Eq => 0 | Gt => 1 end.

Definition screen_line_host_compare (o : options_t) (aa bb : host_pair_line) : option Z :=
  let cmp_result := strcmp (cached_hostname aa) (cached_hostname bb) in
  if cmp_result =? 0 then screen_line_bandwidth_compare o aa bb 2
  else Some (if 0 <? cmp_result then 1 else 0).

Definition screen_line_compare (o : options_t) (aa bb : host_pair_line) : option Z :=
  if sort o =? OPTION_SORT_DIV1 then screen_line_bandwidth_compare o aa bb 0
  else if sort o =? OPTION_SORT_DIV2 then screen_line_bandwidth_compare o aa bb 1
  else if sort o =? OPTION_SORT_DIV3 then screen_line_bandwidth_compare o aa bb 2
  else if (sort o =? OPTION_SORT_SRC) || (sort o =? OPTION_SORT_DEST) then screen_line_host_compare o aa bb
  else Some 1.

(** ** Emptying the screen *)
Definition screen_list_clear (d : display) : option display :=
  l ← sorted_list_destroy (screen_list d);
  Some (Display (screen_hash d) (lines d) (lines_brk d) l (totals d) 0 0 0).

(** Zero a line but keep it. *)
Definition clear_line (l : host_pair_line) : host_pair_line :=
  Line (l_ap l) 0 0 ld_zeros ld_zeros (cached_hostname l) (l_pid l) (process_name l).

(** The loops over [screen_hash]: [f] is applied to each line; the lines in
    the order of the table. *)
Fixpoint map_lines (fuel : nat) (p : node_pool) (t : hash_type addr_pair) (f : host_pair_line -> option host_pair_line)
    (node : option positive) (ls : gmap positive host_pair_line) :
    option (gmap positive host_pair_line * list positive) :=
  match fuel with
  | O => None
  | S fuel =>
      '(st, node) ← hash_next_item t (p_mem p) node;
      match st, node with
      | HASH_STATUS_OK, Some n =>
          nd ← nodes (p_mem p) !! n;
          l ← ls !! n_record nd;
          l ← f l;
          '(ls, rest) ← map_lines fuel p t f (Some n) (<[n_record nd := l]> ls);
          Some (ls, n_record nd :: rest)
      | _, _ => Some (ls, [])
      end
  end.

Definition line_fuel (p : node_pool) : nat := S (size (nodes (p_mem p))).

Definition screen_hash_clear (p : node_pool) (d : display) : option display :=
  '(ls, _) ← map_lines (line_fuel p) p (screen_hash d) (fun l => Some (clear_line l)) None (lines d);
  Some (with_lines d ls).

(** Free the lines [rs] of a table that was emptied. *)
Fixpoint free_lines (ls : gmap positive host_pair_line) (rs : list positive) : option (gmap positive host_pair_line) :=
  match rs with
  | [] => Some ls
  | r :: rs => _ ← ls !! r; free_lines (delete r ls) rs
  end.

Definition screen_reset (p : node_pool) (d : display) : option (node_pool * display) :=
  d ← screen_list_clear d;
  '(p, t, rs) ← addr_hash_delete_all_free p (screen_hash d);
  ls ← free_lines (lines d) rs;
  Some (p, Display t ls (lines_brk d) (screen_list d) (totals d) (peaksent d) (peakrecv d) (peaktotal d)).

(** ** Slots into divisions *)
Definition bump (l : list spec_float) (j bytes : Z) : option (list spec_float) :=
  x ← l !!z j; store_z l j (ld_add x (ld_of_Z bytes)).

Fixpoint bump_divs (js : list Z) (rb sb : Z) (rs : list spec_float * list spec_float) :
    option (list spec_float * list spec_float) :=
  match js with
  | [] => Some rs
  | j :: js => r ← bump rs.1 j rb; s ← bump rs.2 j sb; bump_divs js rb sb (r, s)
  end.

(** [n] slots from the [i]-th newest on, added to the divisions [js]. *)
Fixpoint slot_loop (n : nat) (i : Z) (js : list Z) (hist_idx : list Z) (h : history_type)
    (rs : list spec_float * list spec_float) : option (list spec_float * list spec_float) :=
  match n with
  | O => Some rs
  | S n =>
      k ← hist_idx !!z i;
      recv_bytes ← recv h !!z k;
      sent_bytes ← sent h !!z k;
      rs ← bump_divs js recv_bytes sent_bytes rs;
      slot_loop n (i + 1) js hist_idx h rs
  end.

Definition accumulate (hist_idx : list Z) (h : history_type) (rs : list spec_float * list spec_float) :
    option (list spec_float * list spec_float) :=
  d0 ← history_divs !!z 0;
  d1 ← history_divs !!z 1;
  rs ← slot_loop (Z.to_nat d0) 0 [0; 1; 2] hist_idx h rs;
  rs ← slot_loop (Z.to_nat (d1 - d0)) d0 [1; 2] hist_idx h rs;
  slot_loop (Z.to_nat (HISTORY_LENGTH - d1)) d1 [2] hist_idx h rs.

Definition compute_hist_idx (history_pos : Z) : list Z :=
  (fun i => Z.rem (HISTORY_LENGTH + history_pos - i) HISTORY_LENGTH) <$> seqZ 0 HISTORY_LENGTH.

(** ** Grouping the flows *)
Definition aggregate (o : options_t) (ap : addr_pair) : addr_pair :=
  let s := if truth (aggregate_src o) then zeros16 else src ap in
  let d := if truth (aggregate_dest o) then zeros16 else dst ap in
  let sp := if (showports o =? OPTION_PORTS_DEST) || (showports o =? OPTION_PORTS_OFF) then 0 else src_port ap in
  let dp := if (showports o =? OPTION_PORTS_SRC) || (showports o =? OPTION_PORTS_OFF) then 0 else dst_port ap in
  let pr := if showports o =? OPTION_PORTS_OFF then 0 else protocol ap in
  AddrPair (address_family ap) pr sp s dp d.

(** The line of a flow, created when the table has none. *)
Definition line_of (p : node_pool) (d : display) (ap : addr_pair) : option (node_pool * display * positive) :=
  '(st, r) ← addr_hash_find p (screen_hash d) ap;
  match st, r with
  | HASH_STATUS_OK, Some r => Some (p, d, r)
  | _, _ =>
      let r := lines_brk d in
      '(_, p, t) ← addr_hash_insert p (screen_hash d) ap r;
      Some (p, Display t (<[r := new_line ap]> (lines d)) (Pos.succ r) (screen_list d) (totals d)
                 (peaksent d) (peakrecv d) (peaktotal d), r)
  end.

Definition name_prefix (len : Z) (s : string) : string := String.substring 0 (Z.to_nat (len - 1)) s.

Definition set_line_proc (l : host_pair_line) (pid : Z) (name : string) : host_pair_line :=
  Line (l_ap l) (l_total_recv l) (l_total_sent l) (l_recv l) (l_sent l) (cached_hostname l) pid
    (name_prefix PROCNAME_LENGTH name).

(** The owning process of a line that has none: the flow's cached one, else a
    lookup of the flow as captured, which is then cached. *)
Definition attribute (o : options_t) (procs : option sock_table_t) (key : addr_pair) (h : history_type)
    (l : host_pair_line) : history_type * host_pair_line :=
  if truth (show_processes o) && bool_decide (process_name l = "") then
    if truth (proc_resolved h) then (h, set_line_proc l (proc_pid h) (proc_name h))
    else
      match flow_proc (Env o (Iface false false false [] [] []) procs) key with
      | Some (pid, name) => (set_proc h (Some (pid, name)), set_line_proc l pid name)
      | None => (h, l)
      end
  else (h, l).

Definition add_flow (hist_idx : list Z) (h : history_type) (l : host_pair_line) : option host_pair_line :=
  '(r, s) ← accumulate hist_idx h (l_recv l, l_sent l);
  Some (Line (l_ap l) (u64 (l_total_recv l + total_recv h)) (u64 (l_total_sent l + total_sent h)) r s
          (cached_hostname l) (l_pid l) (process_name l)).

Definition with_pool (c : capture) (p : node_pool) : capture := with_table_pool c p (history c).

(** One flow of [history]. *)
Definition analyse_flow (o : options_t) (procs : option sock_table_t) (hist_idx : list Z) (n : positive)
    (c : capture) (d : display) : option (capture * display) :=
  nd ← nodes (p_mem (nkp_pool c)) !! n;
  h ← get_hist (hist_pool c) (n_record nd);
  '(p, d, r) ← line_of (nkp_pool c) d (aggregate o (n_key nd));
  l ← lines d !! r;
  let '(h, l) := attribute o procs (n_key nd) h l in
  l ← add_flow hist_idx h l;
  Some (with_hist_pool (with_pool c p) (set_hist (hist_pool c) (n_record nd) h),
        with_lines d (<[r := l]> (lines d))).

Fixpoint analyse_loop (fuel : nat) (o : options_t) (procs : option sock_table_t) (hist_idx : list Z)
    (node : option positive) (c : capture) (d : display) : option (capture * display) :=
  match fuel with
  | O => None
  | S fuel =>
      '(st, node) ← hash_next_item (history c) (p_mem (nkp_pool c)) node;
      match st, node with
      | HASH_STATUS_OK, Some n =>
          '(c, d) ← analyse_flow o procs hist_idx n c d;
          analyse_loop fuel o procs hist_idx (Some n) c d
      | _, _ => Some (c, d)
      end
  end.

(** ** make_screen_list *)
Definition inverse_lengths (slot_elapsed : spec_float) (history_len : Z) : option (list spec_float) :=
  mapM (fun i =>
    hl ← history_length slot_elapsed history_len i;
    Some (if SFltb (S754_zero false) hl then d_div (d_of_Z 1) hl else S754_zero false)) (seqZ 0 HISTORY_DIVISIONS).

Definition scale_rates (inv : list spec_float) (rates : list spec_float) : list spec_float :=
  zip_with (fun x i => ld_mul x (ld_of_d i)) rates inv.

Definition scale_line (inv : list spec_float) (l : host_pair_line) : host_pair_line :=
  Line (l_ap l) (l_total_recv l) (l_total_sent l) (scale_rates inv (l_recv l)) (scale_rates inv (l_sent l))
    (cached_hostname l) (l_pid l) (process_name l).

(** [host_name]: the text that resolve or inet_ntop puts into [cached_hostname],
    if it writes one. *)
Definition name_line (o : options_t) (host_name : Z -> list Z -> option string) (l : host_pair_line) : host_pair_line :=
  let addr := if sort o =? OPTION_SORT_SRC then src (l_ap l) else dst (l_ap l) in
  match host_name (address_family (l_ap l)) addr with
  | Some s => Line (l_ap l) (l_total_recv l) (l_total_sent l) (l_recv l) (l_sent l) s (l_pid l) (process_name l)
  | None => l
  end.

Fixpoint name_lines (o : options_t) (host_name : Z -> list Z -> option string) (items : list positive)
    (ls : gmap positive host_pair_line) : option (gmap positive host_pair_line) :=
  match items with
  | [] => Some ls
  | r :: items => l ← ls !! r; name_lines o host_name items (<[r := name_line o host_name l]> ls)
  end.

(** The comparison of two lines by their addresses, as the list calls it. *)
Definition compare_ptr (o : options_t) (ls : gmap positive host_pair_line) (a b : positive) : Z :=
  default 0 (aa ← ls !! a; bb ← ls !! b; screen_line_compare o aa bb).

Definition make_screen_list (qsort : (positive -> positive -> Z) -> list positive -> list positive)
    (o : options_t) (host_name : Z -> list Z -> option string) (slot_elapsed : spec_float) (history_len : Z)
    (p : node_pool) (d : display) : option display :=
  inv ← inverse_lengths slot_elapsed history_len;
  '(ls, items) ← map_lines (line_fuel p) p (screen_hash d) (fun l => Some (scale_line inv l)) None (lines d);
  if truth (freezeorder o) then Some (with_lines d ls)
  else
    ls ← (if (sort o =? OPTION_SORT_SRC) || (sort o =? OPTION_SORT_DEST) then name_lines o host_name items ls
          else Some ls);
    '(sl, _) ← sorted_list_insert_batch qsort (compare_ptr o ls) (screen_list d) items;
    Some (Display (screen_hash d) ls (lines_brk d) sl (totals d) (peaksent d) (peakrecv d) (peaktotal d)).

(** ** calculate_totals *)
Fixpoint peak_loop (n : nat) (i : Z) (h : history_type) (peaks : Z * Z * Z) : option (Z * Z * Z) :=
  match n with
  | O => Some peaks
  | S n =>
      let '(ps, pr, pt) := peaks in
      recv_bytes ← recv h !!z i;
      sent_bytes ← sent h !!z i;
      let pr := if pr <? recv_bytes then s32 recv_bytes else pr in
      let ps := if ps <? sent_bytes then s32 sent_bytes else ps in
      let pt := if pt <? s64 (recv_bytes + sent_bytes) then s32 (s64 (recv_bytes + sent_bytes)) else pt in
      peak_loop n (i + 1) h (ps, pr, pt)
  end.

Definition divide_rates (slot_elapsed : spec_float) (history_len : Z) (rates : list spec_float) :
    option (list spec_float) :=
  mapM (fun '(i, x) =>
    hl ← history_length slot_elapsed history_len i;
    Some (if SFltb (S754_zero false) hl then ld_div x (ld_of_d hl) else x))
    (zip (seqZ 0 HISTORY_DIVISIONS) rates).

Definition calculate_totals (hist_idx : list Z) (slot_elapsed : spec_float) (c : capture) (d : display) :
    option display :=
  '(ps, pr, pt) ← peak_loop (Z.to_nat HISTORY_LENGTH) 0 (history_totals c) (peaksent d, peakrecv d, peaktotal d);
  '(r, s) ← accumulate hist_idx (history_totals c) (l_recv (totals d), l_sent (totals d));
  r ← divide_rates slot_elapsed (history_len c) r;
  s ← divide_rates slot_elapsed (history_len c) s;
  Some (Display (screen_hash d) (lines d) (lines_brk d) (screen_list d)
          (Line (l_ap (totals d)) 0 0 r s "" 0 "") ps pr pt).

(** ** analyse_data *)
Definition zero_totals (d : display) : display :=
  Display (screen_hash d) (lines d) (lines_brk d) (screen_list d) (new_line zero_pair)
    (peaksent d) (peakrecv d) (peaktotal d).

Definition analyse_data (qsort : (positive -> positive -> Z) -> list positive -> list positive)
    (o : options_t) (host_name : Z -> list Z -> option string) (procs : option sock_table_t)
    (slot_elapsed : spec_float) (c : capture) (d : display) : option (capture * display) :=
  if paused o =? 1 then Some (c, d)
  else
    let hist_idx := compute_hist_idx (history_pos c) in
    let d := zero_totals d in
    '(p, d) ← (if truth (freezeorder o) then d ← screen_hash_clear (nkp_pool c) d; Some (nkp_pool c, d)
               else screen_reset (nkp_pool c) d);
    let c := with_pool c p in
    '(c, d) ← analyse_loop (line_fuel (nkp_pool c)) o procs hist_idx None c d;
    d ← make_screen_list qsort o host_name slot_elapsed (history_len c) (nkp_pool c) d;
    d ← calculate_totals hist_idx slot_elapsed c d;
    Some (c, d).

Definition screen_list_init : sorted_list_type positive := sorted_list_initialise sl_empty.

(** The state after ui_init or export_init. *)
Definition display_init : display :=
  Display addr_hash_create ∅ 1 screen_list_init (new_line zero_pair) 0 0 0.

(** ** The sums are exact *)

(** The [n] slots from the [i]-th newest on, of a ring whose newest slot is [pos]. *)
Definition slot_values (pos i n : Z) (l : list Z) : list Z :=
  (fun j => zget l ((pos - j) mod HISTORY_LENGTH)) <$> seqZ i n.

(** The bytes of the newest [n] slots. *)
Definition window (pos n : Z) (l : list Z) : Z := zsum (slot_values pos 0 n l).

(** The bytes that pass through the sums of one flow. *)
Definition weight (h : history_type) : Z := zsum (Z.abs <$> recv h) + zsum (Z.abs <$> sent h).

Abbreviation ld3 a b c := [ld_of_Z a; ld_of_Z b; ld_of_Z c].

Definition in3 (M a b c : Z) : Prop := Z.abs a <= M /\ Z.abs b <= M /\ Z.abs c <= M.

(** [js] selects the divisions whose factors are 1. *)
Definition selects (js : list Z) (m0 m1 m2 : Z) : Prop :=
  forall rb sb a0 a1 a2 b0 b1 b2 M, in3 M a0 a1 a2 -> in3 M b0 b1 b2 -> M + Z.abs rb + Z.abs sb < 2 ^ 64 ->
    bump_divs js rb sb (ld3 a0 a1 a2, ld3 b0 b1 b2) =
      Some (ld3 (a0 + m0 * rb) (a1 + m1 * rb) (a2 + m2 * rb), ld3 (b0 + m0 * sb) (b1 + m1 * sb) (b2 + m2 * sb)).

Lemma bump_div x0 x1 x2 b :
  bump [x0; x1; x2] 0 b = Some [ld_add x0 (ld_of_Z b); x1; x2] /\
  bump [x0; x1; x2] 1 b = Some [x0; ld_add x1 (ld_of_Z b); x2] /\
  bump [x0; x1; x2] 2 b = Some [x0; x1; ld_add x2 (ld_of_Z b)].
Proof. done. Qed.

Lemma selects_divs : selects [0; 1; 2] 1 1 1 /\ selects [1; 2] 0 1 1 /\ selects [2] 0 0 1.
Proof.
  split_and!; intros rb sb a0 a1 a2 b0 b1 b2 M (? & ? & ?) (? & ? & ?) HM;
    rewrite ?Z.mul_0_l, ?Z.mul_1_l, ?Z.add_0_r; cbn [bump_divs fst snd];
    repeat (rewrite (proj1 (bump_div _ _ _ _)) || rewrite (proj1 (proj2 (bump_div _ _ _ _))) ||
            rewrite (proj2 (proj2 (bump_div _ _ _ _))); cbn [mbind option_bind fst snd]);
    by rewrite !ld_add_exact by lia.
Qed.

Lemma slot_values_cons pos i n l :
  0 <= n -> slot_values pos i (Z.succ n) l = zget l ((pos - i) mod HISTORY_LENGTH) :: slot_values pos (i + 1) n l.
Proof. intros Hn. unfold slot_values. rewrite seqZ_cons by lia. csimpl. do 3 f_equal; lia. Qed.

Lemma slot_values_app pos i n m l :
  0 <= n -> 0 <= m -> slot_values pos i (n + m) l = slot_values pos i n l ++ slot_values pos (i + n) m l.
Proof. intros Hn Hm. unfold slot_values. rewrite seqZ_app by lia. by rewrite fmap_app. Qed.

Lemma hist_idx_lookup pos i :
  slot_ok pos -> 0 <= i < HISTORY_LENGTH -> compute_hist_idx pos !!z i = Some ((pos - i) mod HISTORY_LENGTH).
Proof.
  unfold slot_ok. intros Hp Hi. unfold compute_hist_idx. apply lookup_z_Some. split; [lia|].
  rewrite list_lookup_fmap, lookup_seqZ_lt by lia. unfold fmap, option_fmap, option_map. f_equal.
  rewrite Z.rem_mod_nonneg by (unfold HISTORY_LENGTH in *; lia).
  replace (HISTORY_LENGTH + pos - (0 + Z.of_nat (Z.to_nat i))) with (pos - i + 1 * HISTORY_LENGTH) by lia.
  by rewrite Z_mod_plus_full.
Qed.

Lemma ring_lookup l k : Z.of_nat (length l) = HISTORY_LENGTH -> slot_ok k -> l !!z k = Some (zget l k).
Proof.
  unfold slot_ok. intros Hl Hk. apply lookup_z_Some. split; [lia|]. unfold zget.
  destruct (lookup_lt_is_Some_2 l (Z.to_nat k)) as [x ->]; [lia|done].
Qed.

Lemma zsum_abs_nonneg l : 0 <= zsum (Z.abs <$> l).
Proof. induction l; csimpl; lia. Qed.

Lemma zsum_abs l : Z.abs (zsum l) <= zsum (Z.abs <$> l).
Proof. induction l; csimpl; lia. Qed.

Lemma in3_add M a b c m0 m1 m2 x e :
  (m0 = 0 \/ m0 = 1) -> (m1 = 0 \/ m1 = 1) -> (m2 = 0 \/ m2 = 1) -> Z.abs x <= e ->
  in3 M a b c -> in3 (M + e) (a + m0 * x) (b + m1 * x) (c + m2 * x).
Proof.
  assert (forall m y, m = 0 \/ m = 1 -> Z.abs y <= M -> Z.abs x <= e -> Z.abs (y + m * x) <= M + e) as Hm
    by (intros m y [-> | ->]; lia).
  intros H0 H1 H2 Hx (Ha & Hb & Hc). split_and!; by apply Hm.
Qed.

Lemma slot_loop_exact js m0 m1 m2 pos h n i a0 a1 a2 b0 b1 b2 M :
  selects js m0 m1 m2 -> slot_ok pos -> hist_wf h -> 0 <= i -> i + Z.of_nat n <= HISTORY_LENGTH ->
  (m0 = 0 \/ m0 = 1) -> (m1 = 0 \/ m1 = 1) -> (m2 = 0 \/ m2 = 1) -> in3 M a0 a1 a2 -> in3 M b0 b1 b2 ->
  let rs := slot_values pos i (Z.of_nat n) (recv h) in
  let ss := slot_values pos i (Z.of_nat n) (sent h) in
  M + zsum (Z.abs <$> rs) + zsum (Z.abs <$> ss) < 2 ^ 64 ->
  slot_loop n i js (compute_hist_idx pos) h (ld3 a0 a1 a2, ld3 b0 b1 b2) =
    Some (ld3 (a0 + m0 * zsum rs) (a1 + m1 * zsum rs) (a2 + m2 * zsum rs),
          ld3 (b0 + m0 * zsum ss) (b1 + m1 * zsum ss) (b2 + m2 * zsum ss)).
Proof.
  intros Hjs Hp [Hr Hs] Hi Hn Hm0 Hm1 Hm2. revert i Hi Hn a0 a1 a2 b0 b1 b2 M.
  induction n as [|n IH]; intros i Hi Hn a0 a1 a2 b0 b1 b2 M Ha Hb rs ss HM.
  { subst rs ss. change (slot_values pos i (Z.of_nat 0)) with (fun _ : list Z => @nil Z) in *.
    simpl. rewrite !Z.mul_0_r, !Z.add_0_r. done. }
  assert (Z.of_nat (S n) = Z.succ (Z.of_nat n)) as En by lia.
  subst rs ss. rewrite En in HM |- *. rewrite !slot_values_cons in HM |- * by lia.
  set (k := (pos - i) mod HISTORY_LENGTH) in *.
  assert (slot_ok k) as Hk by (apply Z.mod_pos_bound; done).
  cbn [slot_loop]. rewrite hist_idx_lookup by (done || lia). cbn [mbind option_bind]. fold k.
  rewrite !ring_lookup by done. cbn [mbind option_bind].
  csimpl in HM. set (rb := zget (recv h) k) in *. set (sb := zget (sent h) k) in *.
  pose proof (zsum_abs_nonneg (slot_values pos (i + 1) (Z.of_nat n) (recv h))).
  pose proof (zsum_abs_nonneg (slot_values pos (i + 1) (Z.of_nat n) (sent h))).
  rewrite (Hjs rb sb a0 a1 a2 b0 b1 b2 M Ha Hb) by lia. cbn [mbind option_bind].
  rewrite (IH (i + 1) ltac:(lia) ltac:(lia) _ _ _ _ _ _ (M + (Z.abs rb + Z.abs sb))).
  - csimpl. do 3 f_equal; repeat (f_equal; try lia).
  - apply in3_add; [done..|lia|done].
  - apply in3_add; [done..|lia|done].
  - lia.
Qed.

(** The slots from the newest on are the ring in another order. *)
Definition ring_index (pos : Z) : list Z := (fun j => (pos - j) mod HISTORY_LENGTH) <$> seqZ 0 HISTORY_LENGTH.

Lemma ring_index_perm pos : slot_ok pos -> ring_index pos ≡ₚ seqZ 0 HISTORY_LENGTH.
Proof.
  intros Hp. assert (Forall (fun p => ring_index p ≡ₚ seqZ 0 HISTORY_LENGTH) (seqZ 0 HISTORY_LENGTH)) as Ha
    by (apply (bool_decide_unpack _); vm_compute; exact I).
  rewrite Forall_forall in Ha. apply Ha. apply elem_of_seqZ. unfold slot_ok in Hp. lia.
Qed.

Lemma zget_all l : Z.of_nat (length l) = HISTORY_LENGTH -> zget l <$> seqZ 0 HISTORY_LENGTH = l.
Proof.
  intros Hl. apply list_eq. intros i. rewrite list_lookup_fmap.
  destruct (decide (Z.of_nat i < HISTORY_LENGTH)).
  - rewrite lookup_seqZ_lt by lia. unfold fmap, option_fmap, option_map, zget.
    replace (Z.to_nat (0 + Z.of_nat i)) with i by lia.
    destruct (lookup_lt_is_Some_2 l i) as [x ->]; [lia|done].
  - rewrite lookup_seqZ_ge by lia. symmetry. apply lookup_ge_None. lia.
Qed.

Lemma slot_values_all pos l :
  slot_ok pos -> Z.of_nat (length l) = HISTORY_LENGTH -> slot_values pos 0 HISTORY_LENGTH l ≡ₚ l.
Proof.
  intros Hp Hl. unfold slot_values.
  change (fun j => zget l ((pos - j) mod HISTORY_LENGTH)) with (zget l ∘ (fun j => (pos - j) mod HISTORY_LENGTH)).
  rewrite list_fmap_compose. fold (ring_index pos). rewrite (ring_index_perm pos Hp). by rewrite zget_all.
Qed.

Lemma zsum_abs_app l1 l2 : zsum (Z.abs <$> (l1 ++ l2)) = zsum (Z.abs <$> l1) + zsum (Z.abs <$> l2).
Proof. by rewrite fmap_app, zsum_app. Qed.

(** A ring as its two newest slots, the next eight and the other thirty. *)
Lemma ring_parts pos l :
  slot_ok pos -> Z.of_nat (length l) = HISTORY_LENGTH ->
  zsum (Z.abs <$> l) = zsum (Z.abs <$> slot_values pos 0 2 l) + zsum (Z.abs <$> slot_values pos 2 8 l) +
    zsum (Z.abs <$> slot_values pos 10 30 l) /\
  window pos 2 l = zsum (slot_values pos 0 2 l) /\
  window pos 10 l = zsum (slot_values pos 0 2 l) + zsum (slot_values pos 2 8 l) /\
  window pos 40 l = zsum (slot_values pos 0 2 l) + zsum (slot_values pos 2 8 l) + zsum (slot_values pos 10 30 l).
Proof.
  intros Hp Hl. unfold window. split_and!.
  - rewrite <- (slot_values_all pos l Hp Hl) at 1. change HISTORY_LENGTH with (2 + 8 + 30).
    rewrite !slot_values_app by lia. rewrite !zsum_abs_app. done.
  - done.
  - change 10 with (2 + 8) at 1. rewrite slot_values_app by lia. by rewrite zsum_app.
  - change 40 with (2 + 8 + 30) at 1. rewrite !slot_values_app by lia. by rewrite !zsum_app.
Qed.

Lemma window_abs pos n l :
  slot_ok pos -> Z.of_nat (length l) = HISTORY_LENGTH -> n ∈ history_divs -> Z.abs (window pos n l) <= zsum (Z.abs <$> l).
Proof.
  intros Hp Hl Hn. destruct (ring_parts pos l Hp Hl) as (E & E2 & E10 & E40).
  pose proof (zsum_abs (slot_values pos 0 2 l)). pose proof (zsum_abs (slot_values pos 2 8 l)).
  pose proof (zsum_abs (slot_values pos 10 30 l)).
  unfold history_divs in Hn. set_unfold in Hn. destruct Hn as [->|[->|[->|[]]]]; lia.
Qed.

(** The new sums of a line, after a flow. *)
Definition add_windows (pos : Z) (zs : Z * Z * Z) (l : list Z) : list spec_float :=
  let '(a0, a1, a2) := zs in ld3 (a0 + window pos 2 l) (a1 + window pos 10 l) (a2 + window pos 40 l).

Lemma accumulate_exact pos h a0 a1 a2 b0 b1 b2 M :
  slot_ok pos -> hist_wf h -> in3 M a0 a1 a2 -> in3 M b0 b1 b2 -> M + weight h < 2 ^ 64 ->
  accumulate (compute_hist_idx pos) h (ld3 a0 a1 a2, ld3 b0 b1 b2) =
    Some (add_windows pos (a0, a1, a2) (recv h), add_windows pos (b0, b1, b2) (sent h)).
Proof.
  intros Hp Hw Ha Hb HM. unfold accumulate, weight in *. pose proof Hw as [Hr Hs].
  change (history_divs !!z 0) with (Some 2). change (history_divs !!z 1) with (Some 10).
  cbn [mbind option_bind]. destruct selects_divs as (S0 & S1 & S2).
  destruct (ring_parts pos (recv h) Hp Hr) as (Er & R2 & R10 & R40).
  destruct (ring_parts pos (sent h) Hp Hs) as (Es & T2 & T10 & T40).
  pose proof (zsum_abs_nonneg (slot_values pos 0 2 (recv h))) as G0.
  pose proof (zsum_abs_nonneg (slot_values pos 2 8 (recv h))) as G1.
  pose proof (zsum_abs_nonneg (slot_values pos 10 30 (recv h))) as G2.
  pose proof (zsum_abs_nonneg (slot_values pos 0 2 (sent h))) as G3.
  pose proof (zsum_abs_nonneg (slot_values pos 2 8 (sent h))) as G4.
  pose proof (zsum_abs_nonneg (slot_values pos 10 30 (sent h))) as G5.
  pose proof (zsum_abs (slot_values pos 0 2 (recv h))) as A0.
  pose proof (zsum_abs (slot_values pos 2 8 (recv h))) as A1.
  pose proof (zsum_abs (slot_values pos 0 2 (sent h))) as A3.
  pose proof (zsum_abs (slot_values pos 2 8 (sent h))) as A4.
  set (e1 := zsum (Z.abs <$> slot_values pos 0 2 (recv h)) + zsum (Z.abs <$> slot_values pos 0 2 (sent h))) in *.
  set (e2 := zsum (Z.abs <$> slot_values pos 2 8 (recv h)) + zsum (Z.abs <$> slot_values pos 2 8 (sent h))) in *.
  change (Z.to_nat 2) with 2%nat. change (Z.to_nat (10 - 2)) with 8%nat.
  change (Z.to_nat (HISTORY_LENGTH - 10)) with 30%nat.
  rewrite (slot_loop_exact [0; 1; 2] 1 1 1 pos h 2 0 _ _ _ _ _ _ M S0 Hp Hw);
    [|lia|unfold HISTORY_LENGTH; lia|auto|auto|auto|done|done|change (Z.of_nat 2) with 2; lia].
  cbn [mbind option_bind]. change (Z.of_nat 2) with 2.
  rewrite (slot_loop_exact [1; 2] 0 1 1 pos h 8 2 _ _ _ _ _ _ (M + e1) S1 Hp Hw);
    [|lia|unfold HISTORY_LENGTH; lia|auto|auto|auto|apply in3_add; auto; lia|apply in3_add; auto; lia|
     change (Z.of_nat 8) with 8; lia].
  cbn [mbind option_bind]. change (Z.of_nat 8) with 8.
  rewrite (slot_loop_exact [2] 0 0 1 pos h 30 10 _ _ _ _ _ _ (M + e1 + e2) S2 Hp Hw);
    [|lia|unfold HISTORY_LENGTH; lia|auto|auto|auto|
     apply in3_add; auto; [lia|apply in3_add; auto; lia]|apply in3_add; auto; [lia|apply in3_add; auto; lia]|
     change (Z.of_nat 30) with 30; lia].
  unfold add_windows. rewrite R2, R10, R40, T2, T10, T40.
  change (Z.of_nat 30) with 30. do 3 f_equal; repeat (f_equal; try lia).
Qed.

(** Without bounds, the accumulation still returns. *)
Definition rates_ok (rs : list spec_float * list spec_float) : Prop :=
  length rs.1 = 3%nat /\ length rs.2 = 3%nat.

Lemma bump_divs_total js rb sb rs :
  Forall (fun j => 0 <= j < 3) js -> rates_ok rs -> exists rs', bump_divs js rb sb rs = Some rs' /\ rates_ok rs'.
Proof.
  intros Hj. revert rs. induction Hj as [|j js Hj _ IH]; intros [r s] [Hr Hs]; [by exists (r, s)|].
  cbn [bump_divs fst snd] in *. unfold bump.
  assert (forall l b, length l = 3%nat -> exists l', (x ← l !!z j; store_z l j (ld_add x (ld_of_Z b))) = Some l' /\
    length l' = 3%nat) as Hb.
  { intros l b Hl. destruct (proj2 (lookup_z_lt_is_Some l j)) as [x Hx]; [lia|].
    rewrite Hx. cbn [mbind option_bind]. eexists. split; [apply store_z_Some; split; [lia|done]|].
    by rewrite length_insert. }
  destruct (Hb r rb Hr) as (r' & -> & Hr'). cbn [mbind option_bind].
  destruct (Hb s sb Hs) as (s' & -> & Hs'). cbn [mbind option_bind]. by apply IH.
Qed.

Lemma slot_loop_total js pos h n i rs :
  Forall (fun j => 0 <= j < 3) js -> slot_ok pos -> hist_wf h -> 0 <= i -> i + Z.of_nat n <= HISTORY_LENGTH ->
  rates_ok rs -> exists rs', slot_loop n i js (compute_hist_idx pos) h rs = Some rs' /\ rates_ok rs'.
Proof.
  intros Hj Hp [Hr Hs]. revert i rs. induction n as [|n IH]; intros i rs Hi Hn Hrs; [by exists rs|].
  cbn [slot_loop]. rewrite hist_idx_lookup by (done || lia). cbn [mbind option_bind].
  assert (slot_ok ((pos - i) mod HISTORY_LENGTH)) by (apply Z.mod_pos_bound; done).
  rewrite !ring_lookup by done. cbn [mbind option_bind].
  edestruct (bump_divs_total js) as (rs' & -> & Hrs'); [done..|]. cbn [mbind option_bind].
  apply IH; [lia|lia|done].
Qed.

Lemma accumulate_total pos h rs :
  slot_ok pos -> hist_wf h -> rates_ok rs ->
  exists rs', accumulate (compute_hist_idx pos) h rs = Some rs' /\ rates_ok rs'.
Proof.
  intros Hp Hw Hrs. unfold accumulate.
  change (history_divs !!z 0) with (Some 2). change (history_divs !!z 1) with (Some 10). cbn [mbind option_bind].
  edestruct (slot_loop_total [0; 1; 2] pos h) as (rs1 & -> & H1); [repeat constructor; lia|done|done|lia|done|done|].
  cbn [mbind option_bind].
  edestruct (slot_loop_total [1; 2] pos h) as (rs2 & -> & H2); [repeat constructor; lia|done|done|lia|done|done|].
  cbn [mbind option_bind].
  apply slot_loop_total; [repeat constructor; lia|done|done|lia|done|done].
Qed.

(** ** Specification: grouping a list of flows *)
Abbreviation line_map := (gmap addr_pair host_pair_line) (only parsing).

(** One flow: its history (with the process found) and the new lines. *)
Definition group_flow (o : options_t) (procs : option sock_table_t) (hist_idx : list Z)
    (kh : addr_pair * history_type) (m : line_map) : option (history_type * line_map) :=
  let ap := aggregate o kh.1 in
  let '(h, l) := attribute o procs kh.1 kh.2 (default (new_line ap) (m !! ap)) in
  l ← add_flow hist_idx h l;
  Some (h, <[ap := l]> m).

Fixpoint group_flows (o : options_t) (procs : option sock_table_t) (hist_idx : list Z)
    (l : list (addr_pair * history_type)) (m : line_map) : option (list (addr_pair * history_type) * line_map) :=
  match l with
  | [] => Some ([], m)
  | kh :: l =>
      '(h, m) ← group_flow o procs hist_idx kh m;
      '(rest, m) ← group_flows o procs hist_idx l m;
      Some ((kh.1, h) :: rest, m)
  end.

Definition line_ok (k : addr_pair) (l : host_pair_line) : Prop := l_ap l = k /\ rates_ok (l_recv l, l_sent l).

Definition lines_ok (m : line_map) : Prop := forall k l, m !! k = Some l -> line_ok k l.

(** Attribution changes nothing but the process. *)
Lemma attribute_same o procs key h l h' l' :
  attribute o procs key h l = (h', l') ->
  (exists p, h' = set_proc h p) /\ l_ap l' = l_ap l /\ l_recv l' = l_recv l /\ l_sent l' = l_sent l /\
  l_total_recv l' = l_total_recv l /\ l_total_sent l' = l_total_sent l.
Proof.
  unfold attribute. intros E.
  repeat (case_match; simplify_eq); split_and!; try done;
    first [by exists None | eexists; done].
Qed.

Lemma new_line_ok ap : line_ok ap (new_line ap).
Proof. done. Qed.

Lemma group_flow_total o procs pos kh m :
  slot_ok pos -> hist_wf kh.2 -> lines_ok m ->
  exists h' m', group_flow o procs (compute_hist_idx pos) kh m = Some (h', m') /\ lines_ok m' /\ hist_wf h' /\
    exists p, h' = set_proc kh.2 p.
Proof.
  intros Hp Hw Hm. unfold group_flow. set (ap := aggregate o kh.1).
  destruct (attribute _ _ _ _ _) as [h l] eqn:E. apply attribute_same in E as ([p ->] & Eap & Er & Es & _).
  assert (line_ok ap l) as [El Hl].
  { unfold line_ok. rewrite Eap, Er, Es. destruct (m !! ap) eqn:Em; simpl; [by apply Hm|done]. }
  unfold add_flow.
  destruct (accumulate_total pos (set_proc kh.2 p) (l_recv l, l_sent l)) as ([r s] & -> & Hrs);
    [done|by apply set_proc_wf|done|]. cbn [mbind option_bind].
  eexists _, _. split; [done|]. split_and!; [|by apply set_proc_wf|by exists p].
  intros k l'. rewrite lookup_insert. case_decide as Hk; [|apply Hm]. intros [= <-]. by subst k.
Qed.

Lemma group_flows_total o procs pos l m :
  slot_ok pos -> Forall (hist_wf ∘ snd) l -> lines_ok m ->
  exists l' m', group_flows o procs (compute_hist_idx pos) l m = Some (l', m') /\ lines_ok m'.
Proof.
  intros Hp Hl. revert m. induction Hl as [|[k h] l Hh Hl IH]; intros m Hm; [by exists [], m|].
  cbn [group_flows]. destruct (group_flow_total o procs pos (k, h) m Hp Hh Hm) as (h' & m1 & -> & Hm1 & _).
  cbn [mbind option_bind]. destruct (IH m1 Hm1) as (l' & m2 & -> & Hm2). cbn [mbind option_bind]. eauto.
Qed.

(** The flows of one line, and a sum over them. *)
Definition group (o : options_t) (k : addr_pair) (l : list (addr_pair * history_type)) :
    list (addr_pair * history_type) := filter (fun kh => aggregate o kh.1 = k) l.

Definition gsum (F : history_type -> Z) (g : list (addr_pair * history_type)) : Z :=
  zsum ((fun kh => F kh.2) <$> g).

Lemma gsum_snoc F g kh : gsum F (g ++ [kh]) = gsum F g + F kh.2.
Proof. unfold gsum. rewrite fmap_app, zsum_app. simpl. lia. Qed.

(** What a line holds for the flows [g], before the division by time. *)
Record line_sums (pos : Z) (k : addr_pair) (g : list (addr_pair * history_type)) (l : host_pair_line) : Prop :=
  LineSums {
  ls_ap : l_ap l = k;
  ls_total_recv : l_total_recv l = u64 (gsum total_recv g);
  ls_total_sent : l_total_sent l = u64 (gsum total_sent g);
  ls_recv : l_recv l = (fun n => ld_of_Z (gsum (window pos n ∘ recv) g)) <$> history_divs;
  ls_sent : l_sent l = (fun n => ld_of_Z (gsum (window pos n ∘ sent) g)) <$> history_divs
}.

Lemma gsum_window pos n (get : history_type -> list Z) g :
  slot_ok pos -> n ∈ history_divs -> Forall (fun kh => Z.of_nat (length (get kh.2)) = HISTORY_LENGTH) g ->
  Z.abs (gsum (window pos n ∘ get) g) <= gsum (fun h => zsum (Z.abs <$> get h)) g.
Proof.
  intros Hp Hn. unfold gsum. induction 1 as [|[k h] g Hh _ IH]; [done|csimpl].
  pose proof (window_abs pos n (get h) Hp Hh Hn). cbn [fst snd compose] in *. lia.
Qed.

Lemma gsum_nonneg F g : (forall h, 0 <= F h) -> 0 <= gsum F g.
Proof. intros HF. unfold gsum. induction g as [|kh g IH]; [done|csimpl]. pose proof (HF kh.2). lia. Qed.

Lemma gsum_weight g :
  gsum weight g = gsum (fun h => zsum (Z.abs <$> recv h)) g + gsum (fun h => zsum (Z.abs <$> sent h)) g.
Proof. unfold gsum, weight. apply (zsum_fmap_add (fun kh => zsum (Z.abs <$> recv kh.2))). Qed.

Lemma gsum_group_le F o k l : (forall h, 0 <= F h) -> gsum F (group o k l) <= gsum F l.
Proof.
  intros HF. unfold gsum, group. induction l as [|kh l IH]; [done|]. csimpl. rewrite filter_cons.
  pose proof (HF kh.2). case_decide; csimpl; lia.
Qed.

Lemma weight_nonneg h : 0 <= weight h.
Proof. unfold weight. pose proof (zsum_abs_nonneg (recv h)). pose proof (zsum_abs_nonneg (sent h)). lia. Qed.

Lemma weight_set_proc h p : weight (set_proc h p) = weight h.
Proof. by destruct p as [[]|]. Qed.

(** The lines after the flows [g] hold their sums. *)
Definition grouped (o : options_t) (pos : Z) (g : list (addr_pair * history_type)) (m : line_map) : Prop :=
  forall k, match m !! k with
            | Some l => group o k g <> [] /\ line_sums pos k (group o k g) l
            | None => group o k g = []
            end.

Lemma group_snoc o k g kh : group o k (g ++ [kh]) =
  if decide (aggregate o kh.1 = k) then group o k g ++ [kh] else group o k g.
Proof. unfold group. rewrite filter_app, filter_cons, filter_nil. case_decide; [done|apply app_nil_r]. Qed.

Lemma new_line_sums pos k : line_sums pos k [] (new_line k).
Proof. by split. Qed.

Definition wf_flows (g : list (addr_pair * history_type)) : Prop := Forall (hist_wf ∘ snd) g.

Lemma sums_bound pos g n (get : history_type -> list Z) :
  slot_ok pos -> wf_flows g -> n ∈ history_divs -> get = recv \/ get = sent ->
  Z.abs (gsum (window pos n ∘ get) g) <= gsum weight g.
Proof.
  intros Hp Hg Hn Hget. rewrite gsum_weight.
  pose proof (gsum_nonneg (fun h => zsum (Z.abs <$> recv h)) g (fun h => zsum_abs_nonneg _)).
  pose proof (gsum_nonneg (fun h => zsum (Z.abs <$> sent h)) g (fun h => zsum_abs_nonneg _)).
  destruct Hget as [-> | ->]; etransitivity;
    [apply gsum_window| |apply gsum_window|]; try done; try lia;
    (eapply Forall_impl; [exact Hg|]; by intros kh [? ?]).
Qed.

Lemma add_flow_sums pos k g h l :
  slot_ok pos -> wf_flows g -> hist_wf h -> line_sums pos k g l -> gsum weight g + weight h < 2 ^ 64 ->
  exists l', add_flow (compute_hist_idx pos) h l = Some l' /\
    forall k0, line_sums pos k (g ++ [(k0, h)]) l'.
Proof.
  intros Hp Hg Hh [Ea Er Es Er' Es'] HW. unfold add_flow. rewrite Er', Es'.
  change ((fun n => ld_of_Z (gsum (window pos n ∘ recv) g)) <$> history_divs)
    with (ld3 (gsum (window pos 2 ∘ recv) g) (gsum (window pos 10 ∘ recv) g) (gsum (window pos 40 ∘ recv) g)).
  change ((fun n => ld_of_Z (gsum (window pos n ∘ sent) g)) <$> history_divs)
    with (ld3 (gsum (window pos 2 ∘ sent) g) (gsum (window pos 10 ∘ sent) g) (gsum (window pos 40 ∘ sent) g)).
  rewrite (accumulate_exact pos h _ _ _ _ _ _ (gsum weight g) Hp Hh).
  2:{ split_and!; apply sums_bound; auto; unfold history_divs; set_solver. }
  2:{ split_and!; apply sums_bound; auto; unfold history_divs; set_solver. }
  2:{ done. }
  cbn [mbind option_bind]. eexists. split; [done|]. intros k0. split; simpl.
  - done.
  - rewrite gsum_snoc, Er. simpl. unfold uwrap. by rewrite Zplus_mod_idemp_l.
  - rewrite gsum_snoc, Es. simpl. unfold uwrap. by rewrite Zplus_mod_idemp_l.
  - by rewrite !gsum_snoc.
  - by rewrite !gsum_snoc.
Qed.

Lemma wf_group o k g : wf_flows g -> wf_flows (group o k g).
Proof.
  unfold wf_flows. rewrite !Forall_forall. intros Hg kh [_ Hin]%list_elem_of_filter. by apply Hg.
Qed.

Lemma group_flow_sums o procs pos g kh m :
  slot_ok pos -> wf_flows g -> hist_wf kh.2 -> grouped o pos g m -> gsum weight g + weight kh.2 < 2 ^ 64 ->
  exists h' m', group_flow o procs (compute_hist_idx pos) kh m = Some (h', m') /\ grouped o pos (g ++ [kh]) m'.
Proof.
  intros Hp Hg Hh Hm HW. unfold group_flow. set (ap := aggregate o kh.1).
  assert (line_sums pos ap (group o ap g) (default (new_line ap) (m !! ap))) as Hl0.
  { specialize (Hm ap). destruct (m !! ap); simpl; [apply Hm|rewrite Hm; apply new_line_sums]. }
  destruct (attribute _ _ _ _ _) as [h l] eqn:E. apply attribute_same in E as ([p ->] & Eap & Er & Es & Etr & Ets).
  assert (line_sums pos ap (group o ap g) l) as Hl.
  { destruct Hl0. split; congruence. }
  destruct (add_flow_sums pos ap (group o ap g) (set_proc kh.2 p) l) as (l' & -> & Hl').
  - done.
  - by apply wf_group.
  - by apply set_proc_wf.
  - done.
  - rewrite weight_set_proc. pose proof (gsum_group_le weight o ap g weight_nonneg). lia.
  - cbn [mbind option_bind]. eexists _, _. split; [done|]. intros k.
    rewrite group_snoc, lookup_insert. fold ap. destruct (decide (ap = k)) as [<-|Hne]; [|apply Hm].
    split; [by destruct (group o ap g)|]. specialize (Hl' kh.1).
    destruct Hl' as [? Ha Hb Hc Hd].
    split; [done|rewrite Ha|rewrite Hb|rewrite Hc|rewrite Hd]; simpl; rewrite ?gsum_snoc; simpl;
      by destruct p as [[]|].
Qed.

Lemma group_flows_sums o procs pos l : forall g m,
  slot_ok pos -> wf_flows (g ++ l) -> grouped o pos g m -> gsum weight (g ++ l) < 2 ^ 64 ->
  exists l' m', group_flows o procs (compute_hist_idx pos) l m = Some (l', m') /\ grouped o pos (g ++ l) m'.
Proof.
  induction l as [|[k h] l IH]; intros g m Hp Hw Hm HW.
  { exists [], m. by rewrite app_nil_r. }
  cbn [group_flows]. apply Forall_app in Hw as Hw'. destruct Hw' as [Hg [Hh Hl]%Forall_cons].
  rewrite cons_middle, app_assoc in HW, Hw |- *.
  assert (gsum weight (g ++ [(k, h)]) <= gsum weight ((g ++ [(k, h)]) ++ l)) as Hle.
  { unfold gsum. rewrite !fmap_app, !zsum_app. pose proof (gsum_nonneg weight l weight_nonneg). unfold gsum in *. lia. }
  rewrite gsum_snoc in Hle.
  destruct (group_flow_sums o procs pos g (k, h) m Hp Hg Hh Hm) as (h' & m1 & -> & Hm1); [simpl in *; lia|].
  cbn [mbind option_bind].
  destruct (IH (g ++ [(k, h)]) m1 Hp Hw Hm1 HW) as (l' & m2 & -> & Hm2).
  cbn [mbind option_bind]. eexists _, _. split; [done|]. by rewrite <- ?app_assoc in *.
Qed.

(** ** The two tables and their records *)
Record screen_rep (c : capture) (f : flows) (d : display) (m : line_map)
    (F HF : list positive) (C S : list (list positive)) : Prop := ScreenRep {
  sr_cap : cap_rep c f F C HF (concat S);
  sr_hash : ah_rep (nkp_pool c) (screen_hash d) F S (concat C);
  sr_cells : cells_rep id (bindings c S) (lines d) m;
  sr_alive r : is_Some (lines d !! r) -> r ∈ (bindings c S).*2;
  sr_brk r : is_Some (lines d !! r) -> (r < lines_brk d)%positive
}.

(** The parts of the display the grouping does not touch. *)
Definition same_rest (d d' : display) : Prop :=
  screen_list d' = screen_list d /\ totals d' = totals d /\ peaksent d' = peaksent d /\
  peakrecv d' = peakrecv d /\ peaktotal d' = peaktotal d.

Lemma bindings_same c c' C :
  (forall x, x ∈ concat C -> nodes (p_mem (nkp_pool c')) !! x = nodes (p_mem (nkp_pool c)) !! x) ->
  bindings c' C = bindings c C.
Proof.
  intros Hs. apply (contents_payload (fun _ => True)). intros x Hx. by rewrite Hs.
Qed.

Lemma line_of_spec c f d m F HF C S ap :
  screen_rep c f d m F HF C S -> lines_ok m ->
  exists p' d' r F' S', line_of (nkp_pool c) d ap = Some (p', d', r) /\
    screen_rep (with_pool c p') f d' (<[ap := default (new_line ap) (m !! ap)]> m) F' HF C S' /\
    (ap, r) ∈ bindings (with_pool c p') S' /\ same_rest d d' /\
    (forall x, x ∈ concat C -> nodes (p_mem p') !! x = nodes (p_mem (nkp_pool c)) !! x).
Proof.
  intros [Hc Hh Hl Ha Hb] Hm. unfold line_of.
  rewrite (addr_hash_find_spec _ _ _ _ _ ap Hh). cbn [mbind option_bind].
  fold (bindings c S). destruct (first_match ap (bindings c S)) as [r|] eqn:Hf.
  - apply first_match_elem in Hf; [|apply Hl].
    destruct (cl_live _ _ _ Hl _ _ Hf) as (l & _ & Hml).
    exists (nkp_pool c), d, r, F, S. split_and!; [done| |done|done..].
    rewrite Hml. cbn [default from_option]. rewrite insert_id by done. by destruct c.
  - apply first_match_None in Hf. pose proof (cells_rep_absent _ _ _ _ Hl Hf) as Hmn.
    destruct (addr_hash_insert_spec _ _ _ _ _ ap (lines_brk d) Hh)
      as (n & p & t & F' & S' & -> & Hh' & _ & _ & _ & Hpush & Hsame). cbn [mbind option_bind].
    apply pushed_perm in Hpush. fold (bindings c S) in Hpush.
    assert (forall x, x ∈ concat C -> nodes (p_mem p) !! x = nodes (p_mem (nkp_pool c)) !! x) as HsC
      by (intros x Hx; apply Hsame; set_solver).
    assert (bindings (with_pool c p) S' ≡ₚ (ap, lines_brk d) :: bindings c S) as Hbs by done.
    assert (lines_brk d ∉ (bindings c S).*2) as Hfresh.
    { intros ([k r] & Er & Hin)%list_elem_of_fmap. destruct (cl_live _ _ _ Hl _ _ Hin) as (l & E & _).
      assert (is_Some (lines d !! r)) as Hr by eauto. apply Hb in Hr. simpl in Er. subst. lia. }
    eexists p, _, _, F', S'. split; [done|]. split_and!; [|rewrite Hbs; set_solver|done|done].
    rewrite Hmn. cbn [default from_option].
    constructor; cbn [nkp_pool history with_pool with_table_pool screen_hash lines lines_brk].
    + destruct Hc as [Hah Hhp Hcl Ht Hps Hle]. constructor; try done.
      * by apply (ah_other (nkp_pool c) _ F _ (concat S) _ t).
      * by rewrite (bindings_same c) by done.
      * by rewrite (bindings_same c) by done.
    + done.
    + apply (cells_rep_perm ((ap, lines_brk d) :: bindings c S)); [done|].
      exact (cells_rep_insert (live := id) _ _ _ ap (lines_brk d) (new_line ap) Hl Hf Hfresh).
    + intros r Hr. rewrite Hbs. csimpl.
      apply lookup_insert_is_Some in Hr as [<-|[_ Hr]]; [set_solver|]. apply elem_of_cons. auto.
    + intros r [<-|[_ Hr]]%lookup_insert_is_Some; [lia|]. apply Hb in Hr. lia.
Qed.

Lemma analyse_flow_spec o procs c f d m F HF C S n nd h :
  screen_rep c f d m F HF C S -> lines_ok m -> map_ok f -> slot_ok (history_pos c) -> n ∈ concat C ->
  nodes (p_mem (nkp_pool c)) !! n = Some nd -> f_map f !! n_key nd = Some h ->
  exists c' d' h' m' F' S', let f' := with_map f (<[n_key nd := h']> (f_map f)) in
    analyse_flow o procs (compute_hist_idx (history_pos c)) n c d = Some (c', d') /\
    group_flow o procs (compute_hist_idx (history_pos c)) (n_key nd, h) m = Some (h', m') /\
    screen_rep c' f' d' m' F' HF C S' /\ lines_ok m' /\ map_ok f' /\ same_rest d d' /\
    (exists pr, h' = set_proc h pr) /\
    history_pos c' = history_pos c /\
    (forall x, x ∈ concat C -> nodes (p_mem (nkp_pool c')) !! x = nodes (p_mem (nkp_pool c)) !! x) /\
    (forall r, r <> n_record nd -> get_hist (hist_pool c') r = get_hist (hist_pool c) r).
Proof.
  intros Hs Hm Hok Hp Hn Hnd Hh. unfold analyse_flow. rewrite Hnd. cbn [mbind option_bind].
  assert ((n_key nd, n_record nd) ∈ bindings c C) as Hin.
  { unfold bindings, contents. apply list_elem_of_omap. exists n. split; [done|]. by rewrite Hnd. }
  destruct (cl_live _ _ _ (cr_cells _ _ _ _ _ _ (sr_cap _ _ _ _ _ _ _ _ Hs)) _ _ Hin) as (h0 & Hcell & Hh0).
  assert (h0 = h) as -> by congruence.
  rewrite (get_hist_live _ _ _ Hcell). cbn [mbind option_bind].
  set (ap := aggregate o (n_key nd)).
  destruct (line_of_spec c f d m F HF C S ap Hs Hm) as (p' & d1 & r & F' & S' & -> & Hs1 & Hr & Hrest & Hsame).
  cbn [mbind option_bind]. pose proof Hs1 as [Hc1 Hh1 Hl1 Ha1 Hb1].
  destruct (cl_live _ _ _ Hl1 _ _ Hr) as (l & Hlr & Hml). rewrite lookup_insert_eq in Hml.
  injection Hml as <-. change (lines d1 !! r = Some (default (new_line ap) (m !! ap))) in Hlr.
  rewrite Hlr. cbn [mbind option_bind].
  pose proof (proj2 Hok _ _ Hh) as Hwf.
  destruct (group_flow_total o procs (history_pos c) (n_key nd, h) m Hp Hwf Hm)
    as (h' & m' & Eg & Hm' & Hwf' & [pr Hpr]).
  unfold group_flow in Eg. cbn [fst snd] in Eg. fold ap in Eg.
  destruct (attribute o procs (n_key nd) h (default (new_line ap) (m !! ap))) as [h1 l1] eqn:Eat.
  destruct (add_flow (compute_hist_idx (history_pos c)) h1 l1) as [l2|] eqn:El; [|done].
  cbn [mbind option_bind] in Eg. injection Eg as -> <-. cbn [mbind option_bind].
  eexists _, _, h', _, F', S'. cbv zeta. split; [done|]. split.
  { unfold group_flow. cbn [fst snd]. fold ap. rewrite Eat, El. done. }
  split_and!; [|done| |done|by exists pr|done|done|].
  - assert (cap_rep (with_hist_pool (with_pool c p') (set_hist (hist_pool c) (n_record nd) h'))
      (with_map f (<[n_key nd := h']> (f_map f))) F' C HF (concat S')) as Hc2.
    { destruct Hc1 as [A1 A2 A3 A4 A5 A6].
      assert ((n_key nd, n_record nd) ∈ bindings (with_pool c p') C) as Hin'
        by (rewrite (bindings_same c) by done; done).
      constructor; try done.
      - apply set_hist_pool; [done|]. by eapply elem_of_recs.
      - by apply cells_rep_update. }
    constructor; cbn [screen_hash lines lines_brk with_lines]; try done.
    + rewrite <- (insert_insert_eq m ap l2 (default (new_line ap) (m !! ap))).
      apply (cells_rep_update (live := id)); done.
    + intros r' [<-|[_ Hr']]%lookup_insert_is_Some; [by eapply elem_of_recs|by apply Ha1].
    + intros r' [<-|[_ Hr']]%lookup_insert_is_Some; apply Hb1; eauto.
  - split; [apply Hok|]. intros k h2. cbn [with_map f_map]. rewrite lookup_insert.
    case_decide; [intros [= <-]; done|apply Hok].
  - intros r' Hr'. unfold get_hist. cbn. by rewrite lookup_insert_ne.
Qed.

(** ** The loops *)
Lemma next_after p t F C X L1 L2 :
  ah_rep p t F C X -> concat C = L1 ++ L2 -> hash_next_item t (p_mem p) (last L1) = Some (next_result L2).
Proof.
  intros [_ Hr _] E. destruct (last L1) as [x|] eqn:Hl.
  - apply last_Some in Hl as [L0 ->]. rewrite <- app_assoc in E.
    by apply (hash_next_item_next (fun _ => True) t (p_mem p) C L0 x L2).
  - apply last_None in Hl as ->. simpl in E. rewrite <- E. by apply (hash_next_item_first (fun _ => True)).
Qed.

Lemma read_nodes_frame c c' L :
  (forall x, x ∈ L -> nodes (p_mem (nkp_pool c')) !! x = nodes (p_mem (nkp_pool c)) !! x) ->
  (forall r, r ∈ (contents (nodes (p_mem (nkp_pool c))) L).*2 -> get_hist (hist_pool c') r = get_hist (hist_pool c) r) ->
  read_nodes c' L = read_nodes c L.
Proof.
  induction L as [|x L IH]; intros Hn Hh; [done|]. cbn [read_nodes]. rewrite Hn by set_solver.
  destruct (nodes (p_mem (nkp_pool c)) !! x) as [nd|] eqn:E; [|done]. cbn [mbind option_bind].
  rewrite (contents_cons _ _ _ _ E) in Hh. csimpl in Hh. rewrite Hh by set_solver.
  rewrite IH; [done| |]; intros; [apply Hn|apply Hh]; set_solver.
Qed.

(** The flows, but for the processes found. *)
Definition erased (h : history_type) : history_type := set_proc h (Some (0, "")).

Definition reattributed (f f' : flows) : Prop :=
  f_totals f' = f_totals f /\ f_pos f' = f_pos f /\ f_len f' = f_len f /\
  erased <$> f_map f' = erased <$> f_map f.

Lemma reattributed_insert f k h pr :
  f_map f !! k = Some h -> reattributed f (with_map f (<[k := set_proc h pr]> (f_map f))).
Proof.
  intros Hk. split_and!; [done..|]. cbn [with_map f_map]. rewrite fmap_insert. apply insert_id.
  rewrite lookup_fmap, Hk. simpl. by destruct pr as [[]|].
Qed.

Lemma reattributed_trans f1 f2 f3 : reattributed f1 f2 -> reattributed f2 f3 -> reattributed f1 f3.
Proof. intros (? & ? & ? & ?) (? & ? & ? & ?). split_and!; congruence. Qed.

(** The bytes of the flows are those they had. *)
Lemma reattributed_lookup f f' k h' :
  reattributed f f' -> f_map f' !! k = Some h' -> exists h, f_map f !! k = Some h /\ erased h = erased h'.
Proof.
  intros (_ & _ & _ & E) H. apply (f_equal (.!! k)) in E. rewrite !lookup_fmap, H in E.
  destruct (f_map f !! k) as [h|]; [|done]. exists h. split; [done|]. by apply (inj Some) in E.
Qed.

Lemma erased_slots h h' : erased h = erased h' -> last_write h = last_write h' /\ forall i, slot_bytes i h = slot_bytes i h'.
Proof. destruct h, h'. unfold erased, set_proc, slot_bytes. cbn. intros H. injection H. intros. by subst. Qed.

Lemma msum_erased i (m : gmap addr_pair history_type) : msum (slot_bytes i) (erased <$> m) = msum (slot_bytes i) m.
Proof.
  induction m as [|k h m Hk IH] using map_ind; [done|].
  rewrite fmap_insert, !msum_insert, IH by (rewrite ?lookup_fmap, ?Hk; done). done.
Qed.

Lemma balanced_reattributed f f' : reattributed f f' -> balanced f -> balanced f'.
Proof.
  intros Hr [Hl Hf Hs]. pose proof Hr as (E1 & E2 & E3 & E4). split.
  - intros k h' (h & Hk & [<- _]%erased_slots)%(reattributed_lookup f); [by eapply Hl|done].
  - intros k h' i (h & Hk & [<- Hb]%erased_slots)%(reattributed_lookup f) Hi; [|done].
    rewrite <- Hb, E2. by eapply Hf.
  - intros i Hi. by rewrite <- msum_erased, E4, msum_erased, E1, Hs.
Qed.

Lemma analyse_loop_spec o procs HF C L2 : forall L1 c f d m F S lst fuel,
  screen_rep c f d m F HF C S -> lines_ok m -> map_ok f -> slot_ok (history_pos c) ->
  concat C = L1 ++ L2 -> (length L2 < fuel)%nat -> read_nodes c L2 = Some lst ->
  exists c' d' f' m' F' S' lst',
    analyse_loop fuel o procs (compute_hist_idx (history_pos c)) (last L1) c d = Some (c', d') /\
    group_flows o procs (compute_hist_idx (history_pos c)) lst m = Some (lst', m') /\
    screen_rep c' f' d' m' F' HF C S' /\ lines_ok m' /\ map_ok f' /\ same_rest d d' /\ reattributed f f'.
Proof.
  induction L2 as [|x L2 IH]; intros L1 c f d m F S lst [|fuel] Hs Hm Hok Hp E Hf Hrd; try (simpl in Hf; lia);
    cbn [analyse_loop]; rewrite (next_after _ _ _ _ _ L1 _ (cr_ah _ _ _ _ _ _ (sr_cap _ _ _ _ _ _ _ _ Hs)) E);
    cbn [mbind option_bind next_result].
  { injection Hrd as <-. exists c, d, f, m, F, S, []. by split_and!. }
  cbn [read_nodes] in Hrd. apply bind_Some in Hrd as (nd & Hnd & Hrd).
  apply bind_Some in Hrd as (h & Hh & Hrd). apply bind_Some in Hrd as (lst2 & Hrd & [= <-]).
  assert (x ∈ concat C) as Hx by (rewrite E; set_solver).
  assert (f_map f !! n_key nd = Some h) as Hfh.
  { assert ((n_key nd, n_record nd) ∈ bindings c C) as Hin.
    { unfold bindings, contents. apply list_elem_of_omap. exists x. split; [done|]. by rewrite Hnd. }
    destruct (cl_live _ _ _ (cr_cells _ _ _ _ _ _ (sr_cap _ _ _ _ _ _ _ _ Hs)) _ _ Hin) as (h0 & Hc0 & Hm0).
    rewrite (get_hist_live _ _ _ Hc0) in Hh. congruence. }
  destruct (analyse_flow_spec o procs c f d m F HF C S x nd h Hs Hm Hok Hp Hx Hnd Hfh)
    as (c1 & d1 & h1 & m1 & F1 & S1 & -> & Eg & Hs1 & Hm1 & Hok1 & Hr1 & [pr Eh1] & Hpos & Hn1 & Hh1).
  cbn [mbind option_bind group_flows fst]. rewrite Eg. cbn [mbind option_bind].
  replace (Some x) with (last (L1 ++ [x])) by apply last_snoc. rewrite <- Hpos in Hp |- *.
  destruct (IH (L1 ++ [x]) c1 _ d1 m1 F1 S1 lst2 fuel Hs1 Hm1 Hok1 Hp)
    as (c2 & d2 & f2 & m2 & F2 & S2 & lst' & -> & -> & Hs2 & Hm2 & Hok2 & Hr2 & Ha2).
  - by rewrite <- app_assoc.
  - simpl in Hf. lia.
  - rewrite <- Hrd. apply read_nodes_frame.
    + intros y Hy. apply Hn1. rewrite E. set_solver.
    + intros r Hr. apply Hh1. intros ->.
      pose proof (cl_recs _ _ _ (cr_cells _ _ _ _ _ _ (sr_cap _ _ _ _ _ _ _ _ Hs))) as Hnd2.
      rewrite (bindings_split c C L1 x L2 nd E Hnd) in Hnd2. csimpl in Hnd2.
      apply NoDup_cons in Hnd2 as [Hnot _]. apply Hnot. rewrite contents_app, fmap_app. set_solver.
  - cbn [mbind option_bind]. eexists c2, d2, f2, m2, F2, S2, _. split_and!; try done.
    + destruct Hr1 as (? & ? & ? & ? & ?), Hr2 as (? & ? & ? & ? & ?). split_and!; congruence.
    + eapply reattributed_trans; [|exact Ha2]. subst h1. by apply reattributed_insert.
Qed.

Lemma map_lines_spec p t F S X (g : host_pair_line -> host_pair_line) L2 : forall L1 ls fuel,
  ah_rep p t F S X -> concat S = L1 ++ L2 -> (length L2 < fuel)%nat ->
  NoDup (contents (nodes (p_mem p)) L2).*2 -> (forall r, r ∈ (contents (nodes (p_mem p)) L2).*2 -> is_Some (ls !! r)) ->
  exists ls', map_lines fuel p t (fun l => Some (g l)) (last L1) ls =
      Some (ls', (contents (nodes (p_mem p)) L2).*2) /\
    forall r, ls' !! r = if decide (r ∈ (contents (nodes (p_mem p)) L2).*2) then g <$> ls !! r else ls !! r.
Proof.
  induction L2 as [|x L2 IH]; intros L1 ls [|fuel] Hh E Hf Hnd Hls; try (simpl in Hf; lia);
    cbn [map_lines]; rewrite (next_after _ _ _ _ _ L1 _ Hh E); cbn [mbind option_bind next_result].
  { exists ls. split; [done|]. intros r. by rewrite decide_False by set_solver. }
  assert (exists nd, nodes (p_mem p) !! x = Some nd) as [nd Hx].
  { assert (x ∈ concat S) as (i & l & Hi & Hl)%elem_of_concat by (rewrite E; set_solver).
    exact (rep_in (fun _ => True) _ _ _ _ _ _ (ah_hash _ _ _ _ _ Hh) Hi Hl). }
  rewrite Hx. cbn [mbind option_bind]. rewrite (contents_cons _ _ _ _ Hx) in Hnd, Hls |- *. csimpl in *.
  apply NoDup_cons in Hnd as [Hnot Hnd].
  destruct (Hls (n_record nd)) as [l Hl]; [set_solver|]. rewrite Hl. cbn [mbind option_bind].
  replace (Some x) with (last (L1 ++ [x])) by apply last_snoc.
  destruct (IH (L1 ++ [x]) (<[n_record nd := g l]> ls) fuel Hh) as (ls' & -> & Hls').
  - by rewrite <- app_assoc.
  - simpl in Hf. lia.
  - done.
  - intros r Hr. rewrite lookup_insert_is_Some. destruct (decide (n_record nd = r)); [by left|right].
    split; [done|]. apply Hls. set_solver.
  - cbn [mbind option_bind]. exists ls'. split; [done|]. intros r. rewrite Hls'.
    destruct (decide (r = n_record nd)) as [->|Hne].
    + rewrite decide_False by done. rewrite decide_True by (apply elem_of_cons; by left). by rewrite lookup_insert_eq, Hl.
    + rewrite lookup_insert_ne by done.
      destruct (decide (r ∈ (contents (p_cells p) L2).*2)) as [Hi|Hi].
      * by rewrite decide_True by (apply elem_of_cons; by right).
      * by rewrite decide_False by (intros [?|?]%elem_of_cons; done).
Qed.

(** The same change applied to every line. *)
Lemma screen_cells_map c f d m F HF C S g ls :
  screen_rep c f d m F HF C S ->
  (forall r, ls !! r = if decide (r ∈ (bindings c S).*2) then g <$> lines d !! r else lines d !! r) ->
  screen_rep c f (with_lines d ls) (g <$> m) F HF C S.
Proof.
  intros [Hc Hh Hl Ha Hb] Hls.
  assert (forall r, is_Some (ls !! r) -> is_Some (lines d !! r)) as His.
  { intros r. rewrite Hls. case_decide; [|done]. by rewrite fmap_is_Some. }
  constructor; cbn [screen_hash lines lines_brk with_lines]; [done|done| |auto|auto].
  destruct Hl as [Hk Hr Hl Hd]. split; [done|done|..].
  - intros k r Hin. destruct (Hl _ _ Hin) as (l & El & Em). exists (g l).
    rewrite Hls, decide_True by (by eapply elem_of_recs). rewrite El, lookup_fmap, Em. done.
  - intros k. rewrite lookup_fmap, fmap_is_Some. apply Hd.
Qed.

(** A loop over the lines of the screen. *)
Lemma screen_map_spec c f d m F HF C S g :
  screen_rep c f d m F HF C S ->
  exists ls, map_lines (line_fuel (nkp_pool c)) (nkp_pool c) (screen_hash d) (fun l => Some (g l)) None (lines d) =
      Some (ls, (bindings c S).*2) /\ screen_rep c f (with_lines d ls) (g <$> m) F HF C S.
Proof.
  intros Hs. pose proof Hs as [Hc Hh Hl Ha Hb].
  assert (forall x, x ∈ concat S -> is_Some (nodes (p_mem (nkp_pool c)) !! x)) as Halive.
  { intros x (i & l & Hi & Hx)%elem_of_concat.
    exact (rep_in (fun _ => True) _ _ _ _ _ _ (ah_hash _ _ _ _ _ Hh) Hi Hx). }
  destruct (map_lines_spec (nkp_pool c) (screen_hash d) F S (concat C) g (concat S) [] (lines d)
    (line_fuel (nkp_pool c)) Hh eq_refl) as (ls & E & Hls).
  - apply Nat.lt_succ_r, NoDup_length_le_size; [apply (ah_hash _ _ _ _ _ Hh)|done].
  - apply Hl.
  - intros r ([k r'] & -> & Hin)%list_elem_of_fmap. destruct (cl_live _ _ _ Hl _ _ Hin) as (l & El & _). simpl. eauto.
  - exists ls. simpl in E. split; [exact E|]. by apply (screen_cells_map c f d m).
Qed.

(** ** Emptying and filling the screen *)
Lemma free_lines_spec rs : forall ls,
  NoDup rs -> (forall r, r ∈ rs -> is_Some (ls !! r)) ->
  exists ls', free_lines ls rs = Some ls' /\ forall r, ls' !! r = if decide (r ∈ rs) then None else ls !! r.
Proof.
  induction rs as [|r rs IH]; intros ls Hnd Hls; [by exists ls|].
  apply NoDup_cons in Hnd as [Hr Hnd]. cbn [free_lines].
  destruct (Hls r) as [l ->]; [by left|]. cbn [mbind option_bind].
  destruct (IH (delete r ls) Hnd) as (ls' & -> & E).
  { intros r' Hr'. rewrite lookup_delete_is_Some. split; [by intros <-|]. apply Hls. by right. }
  exists ls'. split; [done|]. intros r'. rewrite E. destruct (decide (r' = r)) as [->|Hne].
  - rewrite decide_False, lookup_delete_eq by done. by rewrite decide_True by (by left).
  - rewrite lookup_delete_ne by done. destruct (decide (r' ∈ rs)) as [Hi|Hi].
    + by rewrite decide_True by (by right).
    + by rewrite decide_False by (intros [?|?]%elem_of_cons; done).
Qed.

Lemma screen_reset_spec c f d m F HF C S xs ds :
  screen_rep c f d m F HF C S -> sl_ok (screen_list d) xs ds ->
  exists p' d' F' S', screen_reset (nkp_pool c) d = Some (p', d') /\
    screen_rep (with_pool c p') f d' ∅ F' HF C S' /\ sl_ok (screen_list d') [] [] /\
    peaksent d' = 0 /\ peakrecv d' = 0 /\ peaktotal d' = 0 /\ totals d' = totals d /\
    read_nodes (with_pool c p') (concat C) = read_nodes c (concat C).
Proof.
  intros [Hc Hh Hl Ha Hb] Hsl. unfold screen_reset, screen_list_clear.
  destruct (sorted_list_destroy_ok _ _ _ Hsl) as (s' & -> & Hs'). cbn [mbind option_bind screen_hash].
  destruct (addr_hash_delete_all_free_spec _ _ _ _ _ Hh) as (p' & t' & -> & Hh' & Hsame).
  cbn [mbind option_bind lines screen_list peaksent peakrecv peaktotal totals lines_brk].
  fold (bindings c S).
  destruct (free_lines_spec (bindings c S).*2 (lines d)) as (ls' & -> & Els); [apply Hl| |].
  { intros r ([k r'] & -> & Hin)%list_elem_of_fmap. destruct (cl_live _ _ _ Hl _ _ Hin) as (l & El & _). simpl. eauto. }
  cbn [mbind option_bind].
  assert (ls' = ∅) as ->.
  { apply map_eq. intros r. rewrite Els, lookup_empty. case_decide as Hr; [done|].
    destruct (lines d !! r) eqn:El; [|done]. destruct Hr. eauto. }
  eexists p', _, _, (replicate (length (table (screen_hash d))) []). split; [done|].
  assert (forall x, x ∈ concat C -> nodes (p_mem p') !! x = nodes (p_mem (nkp_pool c)) !! x) as HsC by done.
  split_and!; try done.
  - assert (bindings (with_pool c p') (replicate (length (table (screen_hash d))) []) = []) as Eb
      by (unfold bindings; by rewrite concat_replicate_nil).
    constructor; cbn [nkp_pool history with_pool with_table_pool screen_hash lines lines_brk].
    + destruct Hc as [Hah Hhp Hcl Ht Hps Hle]. constructor; try done.
      * by apply (ah_other (nkp_pool c) _ F _ (concat S) _ t').
      * by rewrite (bindings_same c) by done.
      * by rewrite (bindings_same c) by done.
    + done.
    + rewrite Eb. split; [constructor|constructor|set_solver|]. intros k. rewrite lookup_empty. by intros [? ?].
    + intros r. rewrite lookup_empty. by intros [? ?].
    + intros r. rewrite lookup_empty. by intros [? ?].
  - apply read_nodes_frame; [done|done].
Qed.

Lemma name_lines_spec o hn items : forall ls,
  NoDup items -> (forall r, r ∈ items -> is_Some (ls !! r)) ->
  exists ls', name_lines o hn items ls = Some ls' /\
    forall r, ls' !! r = if decide (r ∈ items) then name_line o hn <$> ls !! r else ls !! r.
Proof.
  induction items as [|r rs IH]; intros ls Hnd Hls; [by exists ls|].
  apply NoDup_cons in Hnd as [Hr Hnd]. cbn [name_lines].
  destruct (Hls r) as [l Hl]; [by left|]. rewrite Hl. cbn [mbind option_bind].
  destruct (IH (<[r := name_line o hn l]> ls) Hnd) as (ls' & -> & E).
  { intros r' Hr'. rewrite lookup_insert_is_Some. destruct (decide (r = r')); [by left|right].
    split; [done|]. apply Hls. by right. }
  exists ls'. split; [done|]. intros r'. rewrite E. destruct (decide (r' = r)) as [->|Hne].
  - rewrite decide_False, lookup_insert_eq by done. by rewrite decide_True, Hl by (by left).
  - rewrite lookup_insert_ne by done. destruct (decide (r' ∈ rs)) as [Hi|Hi].
    + by rewrite decide_True by (by right).
    + by rewrite decide_False by (intros [?|?]%elem_of_cons; done).
Qed.

Lemma history_length_some slot hlen i : 0 <= i < HISTORY_DIVISIONS -> is_Some (history_length slot hlen i).
Proof.
  intros Hi. unfold history_length. destruct (proj2 (lookup_z_lt_is_Some history_divs i)) as [x ->]; [done|].
  cbn [mbind option_bind]. case_match; eauto.
Qed.

Lemma inverse_lengths_some slot hlen : exists inv, inverse_lengths slot hlen = Some inv /\ length inv = 3%nat.
Proof.
  unfold inverse_lengths. change (seqZ 0 HISTORY_DIVISIONS) with [0; 1; 2].
  destruct (history_length_some slot hlen 0) as [a Ea]; [done|].
  destruct (history_length_some slot hlen 1) as [b Eb]; [done|].
  destruct (history_length_some slot hlen 2) as [x Ex]; [done|].
  cbn [mapM]. rewrite Ea, Eb, Ex. cbn [mbind option_bind]. eexists. split; [reflexivity|done].
Qed.

(** The last changes of a line: the averages, and its name when the sort needs it. *)
Definition by_name (o : options_t) : bool := (sort o =? OPTION_SORT_SRC) || (sort o =? OPTION_SORT_DEST).

Definition finish_line (o : options_t) (hn : Z -> list Z -> option string) (inv : list spec_float)
    (l : host_pair_line) : host_pair_line :=
  if negb (truth (freezeorder o)) && by_name o then name_line o hn (scale_line inv l) else scale_line inv l.

Section analyse.
Context (qsort : (positive -> positive -> Z) -> list positive -> list positive) `{!QSort qsort}.

(** The lists that qsort leaves are those of the batch. *)
Definition screen_order (o : options_t) (d : display) (items : list positive) : list positive :=
  if bool_decide (items = []) then [] else qsort (qsort_compare_wrapper (compare_ptr o (lines d))) items.

Lemma make_screen_list_spec o hn slot hlen inv c f d m F HF C S :
  screen_rep c f d m F HF C S -> inverse_lengths slot hlen = Some inv ->
  (truth (freezeorder o) = false -> sl_ok (screen_list d) [] []) ->
  exists d', make_screen_list qsort o hn slot hlen (nkp_pool c) d = Some d' /\
    screen_rep c f d' (finish_line o hn inv <$> m) F HF C S /\
    totals d' = totals d /\ peaksent d' = peaksent d /\ peakrecv d' = peakrecv d /\ peaktotal d' = peaktotal d /\
    (if truth (freezeorder o) then screen_list d' = screen_list d
     else exists xs, sl_ok (screen_list d') xs (screen_order o d' (bindings c S).*2)).
Proof.
  intros Hs Ei Hsl. unfold make_screen_list. rewrite Ei. cbn [mbind option_bind].
  destruct (screen_map_spec c f d m F HF C S (scale_line inv) Hs) as (ls & -> & Hs1). cbn [mbind option_bind].
  destruct (truth (freezeorder o)) eqn:Efr.
  - eexists. split; [done|]. split_and!; try done.
    replace (finish_line o hn inv <$> m) with (scale_line inv <$> m); [done|].
    apply map_fmap_ext. intros k l _. unfold finish_line. by rewrite Efr.
  - set (items := (bindings c S).*2).
    assert (exists ls2, (if (sort o =? OPTION_SORT_SRC) || (sort o =? OPTION_SORT_DEST)
        then name_lines o hn items ls else Some ls) = Some ls2 /\
      screen_rep c f (with_lines d ls2) (finish_line o hn inv <$> m) F HF C S) as (ls2 & -> & Hs2).
    { fold (by_name o). destruct (by_name o) eqn:Eb.
      - pose proof Hs1 as [_ _ Hl _ _].
        destruct (name_lines_spec o hn items ls) as (ls2 & -> & Els); [apply Hl| |].
        { intros r ([k r'] & -> & Hin)%list_elem_of_fmap. destruct (cl_live _ _ _ Hl _ _ Hin) as (l & El & _).
          simpl in *. eauto. }
        exists ls2. split; [done|].
        replace (finish_line o hn inv <$> m) with (name_line o hn <$> (scale_line inv <$> m)).
        { by apply (screen_cells_map c f (with_lines d ls) _ F HF C S (name_line o hn) ls2). }
        rewrite <- map_fmap_compose. apply map_fmap_ext. intros k l _. unfold finish_line. by rewrite Efr, Eb.
      - exists ls. split; [done|].
        replace (finish_line o hn inv <$> m) with (scale_line inv <$> m); [done|].
        apply map_fmap_ext. intros k l _. unfold finish_line. by rewrite Efr, Eb. }
    cbn [mbind option_bind].
    destruct (sorted_list_insert_batch_spec qsort (compare_ptr o ls2) (screen_list d) items)
      as (sl & xs & E & Hsl'); [by apply Hsl|apply qsort_length|]. cbv zeta in E, Hsl'.
    rewrite E. cbn [mbind option_bind]. eexists. split; [done|]. split_and!; try done.
    + by destruct Hs2.
    + by exists xs.
Qed.

Lemma peak_loop_total h n i ps : hist_wf h -> 0 <= i -> i + Z.of_nat n <= HISTORY_LENGTH ->
  is_Some (peak_loop n i h ps).
Proof.
  intros [Hr Hs]. revert i ps. induction n as [|n IH]; intros i [[a b] x] Hi Hn; [by eexists|].
  cbn [peak_loop]. rewrite !ring_lookup by (done || unfold slot_ok; lia). cbn [mbind option_bind].
  apply IH; lia.
Qed.

Lemma divide_rates_some slot hlen r : length r = 3%nat -> exists r', divide_rates slot hlen r = Some r' /\ length r' = 3%nat.
Proof.
  intros Hr. do 4 (destruct r as [|? r]; try done). unfold divide_rates.
  change (seqZ 0 HISTORY_DIVISIONS) with [0; 1; 2].
  destruct (history_length_some slot hlen 0) as [a Ea]; [done|].
  destruct (history_length_some slot hlen 1) as [b Eb]; [done|].
  destruct (history_length_some slot hlen 2) as [x Ex]; [done|].
  cbn [zip zip_with mapM]. rewrite Ea, Eb, Ex. cbn [mbind option_bind]. eexists. split; [reflexivity|done].
Qed.

Lemma calculate_totals_total slot c f d m F HF C S :
  screen_rep c f d m F HF C S -> flows_wf f -> totals d = new_line zero_pair ->
  exists d', calculate_totals (compute_hist_idx (history_pos c)) slot c d = Some d' /\
    screen_rep c f d' m F HF C S /\ screen_list d' = screen_list d /\ lines d' = lines d /\ screen_hash d' = screen_hash d.
Proof.
  intros Hs Hw Et. pose proof Hs as [Hc Hh Hl Ha Hb]. unfold calculate_totals.
  assert (hist_wf (history_totals c)) as Hwt by (rewrite (cr_totals _ _ _ _ _ _ Hc); apply Hw).
  assert (slot_ok (history_pos c)) as Hp by (rewrite (cr_pos _ _ _ _ _ _ Hc); apply Hw).
  destruct (peak_loop_total (history_totals c) (Z.to_nat HISTORY_LENGTH) 0 (peaksent d, peakrecv d, peaktotal d) Hwt)
    as [[[ps pr] pt] ->]; [lia|done|]. cbn [mbind option_bind]. rewrite Et.
  destruct (accumulate_total (history_pos c) (history_totals c) (ld_zeros, ld_zeros) Hp Hwt) as ([r s] & E & [Hr Hs']);
    [done|]. cbn [new_line l_recv l_sent]. rewrite E. cbn [mbind option_bind].
  destruct (divide_rates_some slot (history_len c) r Hr) as (r' & -> & _). cbn [mbind option_bind].
  destruct (divide_rates_some slot (history_len c) s Hs') as (s' & -> & _). cbn [mbind option_bind].
  eexists. split; [done|]. by split_and!.
Qed.

(** A repaint of the data: the flows keep their counters; without freezing
    and pausing the lines are the groups of the flows. *)
Lemma analyse_data_spec o hn procs slot c f d m F HF C S xs ds lst :
  screen_rep c f d m F HF C S -> lines_ok m -> flows_wf f -> sl_ok (screen_list d) xs ds ->
  flow_list c = Some lst ->
  exists c' d' f' m' F' S' xs' ds', analyse_data qsort o hn procs slot c d = Some (c', d') /\
    screen_rep c' f' d' m' F' HF C S' /\ lines_ok m' /\ flows_wf f' /\ sl_ok (screen_list d') xs' ds' /\ reattributed f f' /\
    (paused o <> 1 -> freezeorder o = 0 -> exists lst' m0 inv,
       group_flows o procs (compute_hist_idx (history_pos c)) lst ∅ = Some (lst', m0) /\
       inverse_lengths slot (history_len c) = Some inv /\ m' = finish_line o hn inv <$> m0 /\
       ds' = screen_order o d' (bindings c' S').*2 /\
       exists d3, calculate_totals (compute_hist_idx (history_pos c)) slot c' d3 = Some d' /\
         history_totals c' = history_totals c /\ history_len c' = history_len c /\ history_pos c' = history_pos c /\
         totals d3 = new_line zero_pair /\ peaksent d3 = 0 /\ peakrecv d3 = 0 /\ peaktotal d3 = 0).
Proof.
  intros Hs Hm Hw Hsl Hlst. unfold analyse_data. destruct (Z.eqb_spec (paused o) 1) as [Ep|Ep].
  { eexists c, d, f, m, F, S, xs, ds. by split_and!. }
  pose proof (sr_cap _ _ _ _ _ _ _ _ Hs) as Hc.
  assert (read_nodes c (concat C) = Some lst) as Hrd.
  { unfold flow_list in Hlst. rewrite (hash_iterate_spec (fun _ => True) _ _ C) in Hlst.
    - exact Hlst.
    - apply Hc.
    - apply Nat.lt_succ_r, NoDup_length_le_size; [apply (ah_hash _ _ _ _ _ (cr_ah _ _ _ _ _ _ Hc))|].
      intros x (i & l & Hi & Hx)%elem_of_concat.
      exact (rep_in (fun _ => True) _ _ _ _ _ _ (ah_hash _ _ _ _ _ (cr_ah _ _ _ _ _ _ Hc)) Hi Hx). }
  (* emptying the screen *)
  assert (exists p1 d1 F1 S1 m1, (if truth (freezeorder o)
      then d ← screen_hash_clear (nkp_pool c) (zero_totals d); Some (nkp_pool c, d)
      else screen_reset (nkp_pool c) (zero_totals d)) = Some (p1, d1) /\
    screen_rep (with_pool c p1) f d1 m1 F1 HF C S1 /\ lines_ok m1 /\ totals d1 = new_line zero_pair /\
    (if truth (freezeorder o) then screen_list d1 = screen_list d
     else sl_ok (screen_list d1) [] [] /\ m1 = ∅ /\ peaksent d1 = 0 /\ peakrecv d1 = 0 /\ peaktotal d1 = 0) /\
    read_nodes (with_pool c p1) (concat C) = Some lst)
    as (p1 & d1 & F1 & S1 & m1 & -> & Hs1 & Hm1 & Et1 & Hf1 & Hrd1).
  { assert (screen_rep c f (zero_totals d) m F HF C S) as Hs0 by (by destruct Hs).
    destruct (truth (freezeorder o)).
    - unfold screen_hash_clear.
      destruct (screen_map_spec c f (zero_totals d) m F HF C S clear_line Hs0) as (ls & -> & Hs1).
      cbn [mbind option_bind]. eexists _, _, F, S, _. split; [done|].
      assert (with_pool c (nkp_pool c) = c) as -> by (by destruct c). split_and!; try done.
      + intros k l. rewrite lookup_fmap. intros (l0 & Em & ->)%fmap_Some. by destruct (Hm _ _ Em).
    - destruct (screen_reset_spec c f (zero_totals d) m F HF C S xs ds Hs0 Hsl)
        as (p1 & d1 & F1 & S1 & -> & Hs1 & Hsl1 & Hp1 & Hp2 & Hp3 & Et & Hr1).
      eexists _, _, F1, S1, ∅. split; [done|]. split_and!; try done.
      by rewrite Hr1. }
  cbn [mbind option_bind].
  assert (map_ok f) as Hok by (split; [apply Hw|intros k h; apply Hw]).
  assert (slot_ok (history_pos c)) as Hp by (rewrite (cr_pos _ _ _ _ _ _ Hc); apply Hw).
  destruct (analyse_loop_spec o procs HF C (concat C) [] (with_pool c p1) f d1 m1 F1 S1 lst (line_fuel p1)
    Hs1 Hm1 Hok Hp eq_refl) as (c2 & d2 & f2 & m2 & F2 & S2 & lst' & El & Eg & Hs2 & Hm2 & Hok2 & Hr2 & Hre).
  { pose proof (sr_cap _ _ _ _ _ _ _ _ Hs1) as Hc1.
    apply Nat.lt_succ_r, NoDup_length_le_size; [apply (ah_hash _ _ _ _ _ (cr_ah _ _ _ _ _ _ Hc1))|].
    intros x (i & l & Hi & Hx)%elem_of_concat.
    exact (rep_in (fun _ => True) _ _ _ _ _ _ (ah_hash _ _ _ _ _ (cr_ah _ _ _ _ _ _ Hc1)) Hi Hx). }
  { done. }
  change (history_pos (with_pool c p1)) with (history_pos c) in *. change (last []) with (@None positive) in El.
  change (nkp_pool (with_pool c p1)) with p1. rewrite El. cbn [mbind option_bind].
  destruct Hr2 as (Esl & Et2 & Eps & Epr & Ept).
  assert (history_len c2 = history_len c /\ history_pos c2 = history_pos c) as [Ehl Ehp].
  { pose proof (sr_cap _ _ _ _ _ _ _ _ Hs2) as Hc2. destruct Hre as (_ & E1 & E2 & _).
    rewrite (cr_len _ _ _ _ _ _ Hc2), (cr_pos _ _ _ _ _ _ Hc2), E1, E2.
    by rewrite (cr_len _ _ _ _ _ _ Hc), (cr_pos _ _ _ _ _ _ Hc). }
  assert (flows_wf f2) as Hw2.
  { destruct Hre as (E0 & E1 & E2 & _). split; rewrite ?E0, ?E1, ?E2; try apply Hw. apply Hok2. }
  destruct (inverse_lengths_some slot (history_len c2)) as (inv & Ei & _).
  destruct (make_screen_list_spec o hn slot (history_len c2) inv c2 f2 d2 m2 F2 HF C S2 Hs2 Ei)
    as (d3 & -> & Hs3 & Et3 & Eps3 & Epr3 & Ept3 & Hsl3).
  { intros Efr. rewrite Efr in Hf1. rewrite Esl. apply Hf1. }
  cbn [mbind option_bind]. rewrite <- Ehp.
  destruct (calculate_totals_total slot c2 f2 d3 _ F2 HF C S2 Hs3 Hw2) as (d4 & Ecal & Hs4 & Esl4 & Els4 & _);
    [congruence|]. rewrite Ecal. cbn [mbind option_bind].
  assert (lines_ok (finish_line o hn inv <$> m2)) as Hm3.
  { intros k l. rewrite lookup_fmap. intros (l0 & Em & ->)%fmap_Some. destruct (Hm2 _ _ Em) as [<- [H1 H2]].
    assert (length inv = 3%nat) as Hi by (by destruct (inverse_lengths_some slot (history_len c2)) as (? & ? & ?); simplify_eq).
    assert (line_ok (l_ap l0) (scale_line inv l0)) as Hsc.
    { cbn [fst snd] in H1, H2. split; [done|].
      split; cbn [fst snd scale_line l_recv l_sent]; unfold scale_rates; rewrite length_zip_with; lia. }
    unfold finish_line. destruct (_ && _); [|exact Hsc]. unfold name_line.
    destruct (hn _ _); exact Hsc. }
  destruct (truth (freezeorder o)) eqn:Efr.
  - eexists c2, d4, f2, _, F2, S2, xs, ds. split; [done|]. split_and!; try done.
    + by rewrite Esl4, Hsl3, Esl, Hf1.
    + intros _ E0. by rewrite E0 in Efr.
  - destruct Hsl3 as [xs3 Hsl3]. eexists c2, d4, f2, _, F2, S2, xs3, _. split; [done|]. split_and!; try done.
    + by rewrite Esl4.
    + intros _ _. destruct Hf1 as (_ & -> & Ep1 & Ep2 & Ep3). exists lst', m2, inv.
      split_and!; [congruence|congruence|done|unfold screen_order; by rewrite Els4|].
      exists d3. split; [congruence|]. split_and!; try congruence.
      pose proof (sr_cap _ _ _ _ _ _ _ _ Hs2) as Hc2. destruct Hre as (E0 & _).
      by rewrite (cr_totals _ _ _ _ _ _ Hc2), E0, (cr_totals _ _ _ _ _ _ Hc).
Qed.
End analyse.

(** A line with its three averages each way. *)
Definition rates3 (line : host_pair_line) : Prop := length (l_sent line) = 3%nat /\ length (l_recv line) = 3%nat.

(** ** Runs of the program: packets, rotations and repaints in any order *)
Inductive ui_event :=
  | UCapture (e : event)
  | UAnalyse (o : options_t) (host_name : Z -> list Z -> option string) (procs : option sock_table_t)
      (slot_elapsed : spec_float).

Definition ui_step (qsort : (positive -> positive -> Z) -> list positive -> list positive) (e : ui_event)
    (s : capture * display) : option (capture * display) :=
  match e with
  | UCapture e => c ← cap_step e s.1; Some (c, s.2)
  | UAnalyse o hn procs slot => analyse_data qsort o hn procs slot s.1 s.2
  end.

Fixpoint ui_run (qsort : (positive -> positive -> Z) -> list positive -> list positive) (es : list ui_event)
    (s : capture * display) : option (capture * display) :=
  match es with
  | [] => Some s
  | e :: es => s ← ui_step qsort e s; ui_run qsort es s
  end.

Definition ui_ok (s : capture * display) : Prop :=
  exists f m F HF C S xs ds, screen_rep s.1 f s.2 m F HF C S /\ lines_ok m /\ (flows_wf f /\ balanced f) /\
    sl_ok (screen_list s.2) xs ds.

Lemma cap_step_screen e c f d m F HF C S :
  screen_rep c f d m F HF C S -> flows_wf f ->
  exists c' F' C' HF', cap_step e c = Some c' /\ screen_rep c' (abs_step f e) d m F' HF' C' S.
Proof.
  intros [Hc Hh Hl Ha Hb] Hw.
  assert (exists c' F' C' HF', cap_step e c = Some c' /\ cap_rep c' (abs_step f e) F' C' HF' (concat S) /\
    forall x, x ∈ concat S -> nodes (p_mem (nkp_pool c')) !! x = nodes (p_mem (nkp_pool c)) !! x)
    as (c' & F' & C' & HF' & E & Hc' & Hsame).
  { destruct e as [ap proc len b dd|]; simpl.
    - destruct (packet_seen_spec c f F C HF (concat S) ap proc len b dd Hc Hw) as (c' & F' & C' & HF' & H). by exists c', F', C', HF'.
    - destruct (history_rotate_spec c f F C HF (concat S) Hc Hw) as (c' & F' & C' & HF' & H1 & H2 & H3 & _).
      by exists c', F', C', HF'. }
  exists c', F', C', HF'. split; [done|].
  assert (bindings c' S = bindings c S) as Eb by (by apply bindings_same).
  constructor; rewrite ?Eb; try done.
  apply (ah_other (nkp_pool c) _ F _ (concat C) _ (history c')); [done|apply Hc'|done].
Qed.

Lemma ui_init_ok : ui_ok (cap_init, display_init).
Proof.
  exists abs_init, ∅, [], [], (replicate (Z.to_nat hash_table_size) []), (replicate (Z.to_nat hash_table_size) []), [], [].
  cbn [fst snd]. split_and!.
  - constructor; cbn [screen_hash lines lines_brk display_init].
    + pose proof cap_init_rep as Hc. by rewrite concat_replicate_nil.
    + rewrite concat_replicate_nil. apply addr_create_rep.
    + unfold bindings. rewrite concat_replicate_nil. split; [constructor|constructor|set_solver|].
      intros k. rewrite lookup_empty. by intros [? ?].
    + intros r. rewrite lookup_empty. by intros [? ?].
    + intros r. rewrite lookup_empty. by intros [? ?].
  - intros k l. by rewrite lookup_empty.
  - apply abs_init_wf.
  - apply balanced_init.
  - apply sl_empty_ok.
Qed.

Lemma ui_run_ok qsort `{!QSort qsort} es s : ui_ok s -> exists s', ui_run qsort es s = Some s' /\ ui_ok s'.
Proof.
  revert s. induction es as [|e es IH]; intros [c d] Hs; [by eexists|]. cbn [ui_run].
  assert (exists s1, ui_step qsort e (c, d) = Some s1 /\ ui_ok s1) as (s1 & -> & H1).
  { destruct Hs as (f & m & F & HF & C & S & xs & ds & Hs & Hm & [Hw Hbal] & Hsl). cbn [fst snd] in *.
    destruct e as [e|o hn procs slot]; cbn [ui_step fst snd].
    - destruct (cap_step_screen e c f d m F HF C S Hs Hw) as (c' & F' & C' & HF' & -> & Hs').
      cbn [mbind option_bind]. eexists. split; [done|].
      eexists _, _, _, _, _, _, _, _. cbn [fst snd]. split_and!; [done|done|by apply abs_step_wf|by apply (abs_run_balanced [e])|done].
    - destruct (flow_list_spec _ _ _ _ _ _ (sr_cap _ _ _ _ _ _ _ _ Hs)) as (lst & Hl & _).
      destruct (analyse_data_spec qsort o hn procs slot c f d m F HF C S xs ds lst Hs Hm Hw Hsl Hl)
        as (c' & d' & f' & m' & F' & S' & xs' & ds' & -> & Hs' & Hm' & Hw' & Hsl' & Hre & _).
      eexists. split; [done|]. eexists _, _, _, _, _, _, _, _. split_and!; try done. by eapply balanced_reattributed. }
  cbn [mbind option_bind]. by apply IH.
Qed.

(** In every state the flows add up to the totals. *)
Lemma ui_ok_conserves c d i :
  ui_ok (c, d) -> 0 <= i < HISTORY_LENGTH ->
  exists l, flow_list c = Some l /\ NoDup l.*1 /\
    u64 (zsum (slot_bytes i ∘ snd <$> l)) = u64 (slot_bytes i (history_totals c)).
Proof.
  intros (f & m & F & HF & C & S & xs & ds & Hs & _ & [_ Hb] & _) Hi. cbn [fst snd] in Hs.
  pose proof (sr_cap _ _ _ _ _ _ _ _ Hs) as Hc.
  destruct (flow_list_spec _ _ _ _ _ _ Hc) as (l & Hl & Hnd & Hm). exists l. split_and!; [done|done|].
  rewrite (zsum_list_msum _ _ _ Hnd Hm), (cr_totals _ _ _ _ _ _ Hc). by apply Hb.
Qed.

(** What looking a pair up in [screen_hash] gives. *)
Definition screen_line (c : capture) (d : display) (k : addr_pair) : option (option host_pair_line) :=
  '(_, r) ← addr_hash_find (nkp_pool c) (screen_hash d) k;
  match r with
  | None => Some None
  | Some r => l ← lines d !! r; Some (Some l)
  end.

Lemma screen_line_spec c f d m F HF C S k :
  screen_rep c f d m F HF C S -> screen_line c d k = Some (m !! k).
Proof.
  intros [Hc Hh Hl Ha Hb]. unfold screen_line.
  rewrite (addr_hash_find_spec _ _ _ _ _ k Hh). cbn [mbind option_bind]. fold (bindings c S).
  destruct (first_match k (bindings c S)) as [r|] eqn:E.
  - apply first_match_elem in E; [|apply Hl]. destruct (cl_live _ _ _ Hl _ _ E) as (l & Hr & ->).
    cbn [mbind option_bind]. change (lines d !! r = Some l) in Hr. by rewrite Hr.
  - apply first_match_None in E. by rewrite (cells_rep_absent _ _ _ _ Hl E).
Qed.

Lemma flow_list_wf c f F C HF X l : cap_rep c f F C HF X -> flows_wf f -> flow_list c = Some l -> wf_flows l.
Proof.
  intros Hc Hw El. destruct (flow_list_spec _ _ _ _ _ _ Hc) as (l' & El' & Hnd & Hm). simplify_eq.
  apply Forall_forall. intros [k h] Hin. apply (fw_map f Hw k). rewrite <- Hm. by apply elem_of_list_to_map.
Qed.

(** The average rates of a line over the flows [g]. *)
Definition average_rates (pos : Z) (inv : list spec_float) (get : history_type -> list Z)
    (g : list (addr_pair * history_type)) : list spec_float :=
  zip_with (fun n i => ld_mul (ld_of_Z (gsum (window pos n ∘ get) g)) (ld_of_d i)) history_divs inv.

(** A line that is repainted, from the sums of its flows. *)
Lemma finish_line_sums o hn inv pos k g l :
  line_sums pos k g l ->
  let line := finish_line o hn inv l in
  l_ap line = k /\ l_total_recv line = u64 (gsum total_recv g) /\ l_total_sent line = u64 (gsum total_sent g) /\
  l_recv line = average_rates pos inv recv g /\ l_sent line = average_rates pos inv sent g.
Proof.
  intros [E1 E2 E3 E4 E5]. unfold finish_line, name_line.
  repeat case_match; cbn [scale_line l_ap l_total_recv l_total_sent l_recv l_sent];
    unfold scale_rates, average_rates; rewrite ?E4, ?E5, ?zip_with_fmap_l; by split_and!.
Qed.

(** ** Properties *)

(** The seconds that the newest [n] of [hlen] slots span: all but the newest
    are whole, the newest has lasted [slot]. *)
Definition spanned (slot : spec_float) (hlen n : Z) : spec_float :=
  let slots := Z.min hlen n in
  if slots <=? 1 then if SFltb (S754_zero false) slot then slot else d_of_Z 1
  else d_add (d_of_Z (slots - 1)) slot.

Lemma history_length_spanned slot hlen i n :
  history_divs !!z i = Some n -> history_length slot hlen i = Some (spanned slot hlen n).
Proof.
  intros E. unfold history_length, spanned. rewrite E. cbn [mbind option_bind].
  assert ((if hlen <? n then hlen else n) = Z.min hlen n) as -> by (destruct (Z.ltb_spec hlen n); lia).
  unfold RESOLUTION. rewrite Z.mul_1_r. by destruct (Z.min hlen n <=? 1).
Qed.

(** A factor per division: 1 over the time it spans, 0 if that is none. *)
Definition inverses (slot : spec_float) (hlen : Z) : list spec_float :=
  (fun n => let t := spanned slot hlen n in if SFltb (S754_zero false) t then d_div (d_of_Z 1) t else S754_zero false) <$>
  [2; 10; 40].

Lemma inverse_lengths_inverses slot hlen : inverse_lengths slot hlen = Some (inverses slot hlen).
Proof.
  unfold inverse_lengths, inverses. change (seqZ 0 HISTORY_DIVISIONS) with [0; 1; 2]. cbn [mapM].
  by rewrite (history_length_spanned slot hlen 0 2), (history_length_spanned slot hlen 1 10),
    (history_length_spanned slot hlen 2 40).
Qed.

(** Is the flow [ap] shown on the line of [k]?  The line has the flow's family
    and what is not hidden of it: hosts may be hidden on either side; ports are
    all hidden (0), those of the sources (1) or destinations (2) alone shown, or
    all shown (3); the protocol is hidden with all the ports. *)
Definition shown_on (o : options_t) (ap k : addr_pair) : bool :=
  (address_family k =? address_family ap) &&
  bool_decide (src k = if truth (aggregate_src o) then zeros16 else src ap) &&
  bool_decide (dst k = if truth (aggregate_dest o) then zeros16 else dst ap) &&
  (protocol k =? if showports o =? 0 then 0 else protocol ap) &&
  (src_port k =? if (showports o =? 0) || (showports o =? 2) then 0 else src_port ap) &&
  (dst_port k =? if (showports o =? 0) || (showports o =? 1) then 0 else dst_port ap).

Lemma shown_on_aggregate o ap k : shown_on o ap k = true <-> aggregate o ap = k.
Proof.
  unfold shown_on, aggregate. rewrite !andb_true_iff, !bool_decide_eq_true, !Z.eqb_eq.
  change OPTION_PORTS_OFF with 0. change OPTION_PORTS_SRC with 1. change OPTION_PORTS_DEST with 2.
  rewrite (orb_comm (showports o =? 2)), (orb_comm (showports o =? 1)). destruct k as [af pr sp s dp d].
  cbn [address_family protocol src_port src dst_port dst]. split.
  - by intros [[[[[-> ->] ->] ->] ->] ->].
  - intros [= <- <- <- <- <- <-]. done.
Qed.

Lemma shown_on_group o k l : filter (fun kh => shown_on o kh.1 k) l = group o k l.
Proof. unfold group. apply list_filter_iff. intros kh. rewrite Is_true_true. apply shown_on_aggregate. Qed.

(** C8: after any run of packets, rotations and repaints, a repaint (neither
    paused nor frozen) leaves in [screen_hash] exactly one line per group of
    flows that the display options merge ([shown_on]: hidden hosts and ports
    do not tell flows apart): its cumulative counters are the sums
    of those of its flows, and its rates are the exact number of bytes of the
    newest 2, 10 and 40 slots of its flows times the inverse of the time they
    span; a pair that no flow maps to has no line. *)
Theorem analyse_groups_flows (qsort : (positive -> positive -> Z) -> list positive -> list positive)
    `{!QSort qsort} (es : list ui_event) (o : options_t) (host_name : Z -> list Z -> option string)
    (procs : option sock_table_t) (slot : spec_float) (c : capture) (d : display)
    (l : list (addr_pair * history_type)) :
  ui_run qsort es (cap_init, display_init) = Some (c, d) -> flow_list c = Some l -> gsum weight l < 2 ^ 64 ->
  paused o <> 1 -> freezeorder o = 0 ->
  exists c' d' inv, analyse_data qsort o host_name procs slot c d = Some (c', d') /\
    inverse_lengths slot (history_len c) = Some inv /\ inv = inverses slot (history_len c) /\
    forall k, match filter (fun kh => shown_on o kh.1 k) l with
    | [] => screen_line c' d' k = Some None
    | g => exists line, screen_line c' d' k = Some (Some line) /\ l_ap line = k /\
        l_total_recv line = u64 (gsum total_recv g) /\ l_total_sent line = u64 (gsum total_sent g) /\
        l_recv line = average_rates (history_pos c) inv recv g /\
        l_sent line = average_rates (history_pos c) inv sent g
    end.
Proof.
  intros Hrun Hl Hb Hp Hf. destruct (ui_run_ok qsort es _ ui_init_ok) as (s & E & Hok).
  assert (s = (c, d)) as -> by congruence.
  destruct Hok as (f & m & F & HF & C & S & xs & ds & Hs & Hm & [Hw Hbal] & Hsl). cbn [fst snd] in *.
  destruct (analyse_data_spec qsort o host_name procs slot c f d m F HF C S xs ds l Hs Hm Hw Hsl Hl)
    as (c' & d' & f' & m' & F' & S' & xs' & ds' & Ea & Hs' & _ & _ & _ & _ & Hg).
  destruct (Hg Hp Hf) as (lst' & m0 & inv & Eg & Ei & -> & _ & _). exists c', d', inv. split; [done|]. split; [done|].
  pose proof (sr_cap _ _ _ _ _ _ _ _ Hs) as Hc.
  destruct (group_flows_sums o procs (history_pos c) l [] ∅) as (l2 & m2 & Eg' & Hgr).
  - rewrite (cr_pos _ _ _ _ _ _ Hc). apply Hw.
  - by eapply flow_list_wf.
  - intros k. by rewrite lookup_empty.
  - done.
  - assert (m2 = m0) as -> by congruence. split; [by rewrite inverse_lengths_inverses in Ei; injection Ei|].
    intros k. rewrite shown_on_group. specialize (Hgr k). cbn [app] in Hgr.
    rewrite (screen_line_spec _ _ _ _ _ _ _ _ k Hs'), lookup_fmap.
    destruct (m0 !! k) as [line|]; [|by rewrite Hgr]. destruct Hgr as [Hne Hsums].
    destruct (group o k l) as [|x g]; [done|]. eexists. split; [done|]. by apply finish_line_sums.
Qed.

(** A small run: two flows between the same hosts, a third host, a rotation. *)
Definition demo_flow (port : Z) (host : Z) : addr_pair :=
  AddrPair AF_INET IPPROTO_TCP port (pad16 [10; 0; 0; 1]) 80 (pad16 [10; 0; 0; host]).

Definition demo_run : list ui_event :=
  [UCapture (EPacket (demo_flow 1000 2) None 100 true true); UCapture (EPacket (demo_flow 1001 2) None 50 false true);
   UAnalyse demo_opt_record (fun _ _ => None) None (d_of 1 (-1)); UCapture ERotate;
   UCapture (EPacket (demo_flow 53 3) None 70 true true)].

Definition demo_ui : capture * display :=
  default (cap_init, display_init) (ui_run insertion_qsort demo_run (cap_init, display_init)).

Lemma demo_ui_run : ui_run insertion_qsort demo_run (cap_init, display_init) = Some demo_ui.
Proof.
  unfold demo_ui. destruct (ui_run_ok insertion_qsort demo_run _ ui_init_ok) as (s & -> & _). done.
Qed.

Definition demo_flows : list (addr_pair * history_type) := default [] (flow_list demo_ui.1).

Lemma demo_flows_list : flow_list demo_ui.1 = Some demo_flows.
Proof.
  unfold demo_flows.
  assert (match flow_list demo_ui.1 with Some _ => true | None => false end = true) as E by (vm_compute; reflexivity).
  by destruct (flow_list demo_ui.1).
Qed.

Lemma pair_eta {A B} (x : A * B) : x = (x.1, x.2).
Proof. by destruct x. Qed.

Example analyse_groups_flows_witness :
  exists c' d' inv, analyse_data insertion_qsort demo_opt_record (fun _ _ => None) None (d_of 1 (-1)) demo_ui.1 demo_ui.2
      = Some (c', d') /\
    inverse_lengths (d_of 1 (-1)) (history_len demo_ui.1) = Some inv /\ inv = inverses (d_of 1 (-1)) (history_len demo_ui.1) /\
    forall k, match filter (fun kh => shown_on demo_opt_record kh.1 k) demo_flows with
    | [] => screen_line c' d' k = Some None
    | g => exists line, screen_line c' d' k = Some (Some line) /\ l_ap line = k /\
        l_total_recv line = u64 (gsum total_recv g) /\ l_total_sent line = u64 (gsum total_sent g) /\
        l_recv line = average_rates (history_pos demo_ui.1) inv recv g /\
        l_sent line = average_rates (history_pos demo_ui.1) inv sent g
    end.
Proof.
  apply (analyse_groups_flows insertion_qsort demo_run demo_opt_record (fun _ _ => None) None (d_of 1 (-1))
    demo_ui.1 demo_ui.2 demo_flows).
  - rewrite <- pair_eta. exact demo_ui_run.
  - exact demo_flows_list.
  - vm_compute. reflexivity.
  - discriminate.
  - reflexivity.
Defined.

Definition demo_next : capture * display :=
  default (cap_init, display_init)
    (analyse_data insertion_qsort demo_opt_record (fun _ _ => None) None (d_of 1 (-1)) demo_ui.1 demo_ui.2).

Lemma demo_next_run :
  analyse_data insertion_qsort demo_opt_record (fun _ _ => None) None (d_of 1 (-1)) demo_ui.1 demo_ui.2 = Some demo_next.
Proof.
  unfold demo_next. destruct (ui_run_ok insertion_qsort (demo_run ++ [UAnalyse demo_opt_record (fun _ _ => None) None (d_of 1 (-1))])
    _ ui_init_ok) as (s & E & _).
  assert (match analyse_data insertion_qsort demo_opt_record (fun _ _ => None) None (d_of 1 (-1)) demo_ui.1 demo_ui.2
    with Some _ => true | None => false end = true) as E2 by (vm_compute; reflexivity).
  by destruct (analyse_data _ _ _ _ _ _ _).
Qed.

(** *** Totals and peaks *)

(** Slots of the totals that fit the [int] peaks. *)
Definition slots_fit (h : history_type) : Prop :=
  forall i, slot_ok i -> 0 <= zget (recv h) i /\ 0 <= zget (sent h) i /\ zget (recv h) i + zget (sent h) i < 2 ^ 31.

Definition peak_of (f : Z -> Z) (p0 : Z) : Z := foldl (fun p i => Z.max p (f i)) p0 (seqZ 0 HISTORY_LENGTH).

Lemma peak_loop_exact h n i ps pr pt :
  hist_wf h -> slots_fit h -> 0 <= i -> i + Z.of_nat n <= HISTORY_LENGTH ->
  peak_loop n i h (ps, pr, pt) =
    Some (foldl (fun p i => Z.max p (zget (sent h) i)) ps (seqZ i (Z.of_nat n)),
          foldl (fun p i => Z.max p (zget (recv h) i)) pr (seqZ i (Z.of_nat n)),
          foldl (fun p i => Z.max p (zget (recv h) i + zget (sent h) i)) pt (seqZ i (Z.of_nat n))).
Proof.
  intros [Hr Hs] Hf. revert i ps pr pt. induction n as [|n IH]; intros i ps pr pt Hi Hn; [done|].
  assert (slot_ok i) as Hs0 by (unfold slot_ok; lia). destruct (Hf i Hs0) as (H1 & H2 & H3).
  cbn [peak_loop]. rewrite !ring_lookup by done. cbn [mbind option_bind].
  rewrite !(swrap_small 64) by (rewrite ?swrap_small; lia). rewrite !(swrap_small 32) by lia.
  rewrite IH by lia. rewrite (seqZ_cons i (Z.of_nat (S n))) by lia. cbn [foldl].
  replace (Z.pred (Z.of_nat (S n))) with (Z.of_nat n) by lia. replace (Z.succ i) with (i + 1) by lia.
  assert (forall p x, (if p <? x then x else p) = Z.max p x) as Em
    by (intros p x; destruct (Z.ltb_spec p x); lia).
  by rewrite !Em.
Qed.

Lemma slots_fit_weight h : hist_wf h -> slots_fit h -> 0 + weight h < 2 ^ 64.
Proof.
  intros [Hr Hs] Hf.
  assert (forall l, Z.of_nat (length l) = HISTORY_LENGTH -> (forall i, slot_ok i -> 0 <= zget l i < 2 ^ 31) ->
    zsum (Z.abs <$> l) <= 40 * 2 ^ 31) as Hb.
  { intros l Hl Hi. assert (Forall (fun x => 0 <= x < 2 ^ 31) l) as Hall.
    { apply Forall_lookup. intros i x Hx. apply lookup_lt_Some in Hx as Hlt.
      specialize (Hi (Z.of_nat i)). unfold zget in Hi. rewrite Nat2Z.id, Hx in Hi. apply Hi.
      unfold slot_ok. lia. }
    assert (zsum (Z.abs <$> l) <= Z.of_nat (length l) * 2 ^ 31) as Hle.
    { clear -Hall. induction Hall; csimpl; lia. }
    rewrite Hl in Hle. exact Hle. }
  unfold weight. pose proof (Hb _ Hr) as B1. pose proof (Hb _ Hs) as B2.
  assert (zsum (Z.abs <$> recv h) <= 40 * 2 ^ 31) by (apply B1; intros i Hi; destruct (Hf i Hi) as (? & ? & ?); lia).
  assert (zsum (Z.abs <$> sent h) <= 40 * 2 ^ 31) by (apply B2; intros i Hi; destruct (Hf i Hi) as (? & ? & ?); lia).
  lia.
Qed.

Lemma calculate_totals_exact slot c d d' :
  calculate_totals (compute_hist_idx (history_pos c)) slot c d = Some d' ->
  slot_ok (history_pos c) -> hist_wf (history_totals c) -> slots_fit (history_totals c) ->
  totals d = new_line zero_pair -> peaksent d = 0 -> peakrecv d = 0 -> peaktotal d = 0 ->
  let h := history_totals c in
  let sums get := (fun n => ld_of_Z (window (history_pos c) n (get h))) <$> history_divs in
  divide_rates slot (history_len c) (sums recv) = Some (l_recv (totals d')) /\
  divide_rates slot (history_len c) (sums sent) = Some (l_sent (totals d')) /\
  peaksent d' = peak_of (zget (sent h)) 0 /\ peakrecv d' = peak_of (zget (recv h)) 0 /\
  peaktotal d' = peak_of (fun i => zget (recv h) i + zget (sent h) i) 0.
Proof.
  intros Et Hpos Hwh Hfit E3 P1 P2 P3 h sums.
  unfold calculate_totals in Et. rewrite P1, P2, P3, E3 in Et. fold h in Et, Hwh, Hfit.
  rewrite (peak_loop_exact h _ 0) in Et by (done || lia). cbn [mbind option_bind new_line l_recv l_sent] in Et.
  change ld_zeros with (ld3 0 0 0) in Et.
  rewrite (accumulate_exact _ h _ _ _ _ _ _ 0 Hpos Hwh) in Et.
  2:{ split_and!; lia. } 2:{ split_and!; lia. } 2:{ by apply slots_fit_weight. }
  cbn [mbind option_bind add_windows] in Et. rewrite !Z.add_0_l in Et.
  apply bind_Some in Et as (r & Er & Et). apply bind_Some in Et as (s & Es & Et).
  replace (Z.of_nat (Z.to_nat HISTORY_LENGTH)) with HISTORY_LENGTH in Et by done.
  apply (inj Some) in Et. subst d'. cbn [l_recv l_sent totals peaksent peakrecv peaktotal].
  split; [exact Er|]. split; [exact Es|]. unfold peak_of. auto.
Qed.

Definition averaged (slot : spec_float) (hlen n bytes : Z) : spec_float :=
  let t := spanned slot hlen n in
  if SFltb (S754_zero false) t then ld_div (ld_of_Z bytes) (ld_of_d t) else ld_of_Z bytes.

Lemma divide_rates_averaged slot hlen (bytes : Z -> Z) :
  divide_rates slot hlen ((fun n => ld_of_Z (bytes n)) <$> history_divs) =
    Some ((fun n => averaged slot hlen n (bytes n)) <$> [2; 10; 40]).
Proof.
  unfold divide_rates. change (seqZ 0 HISTORY_DIVISIONS) with [0; 1; 2].
  cbn [fmap list_fmap history_divs zip zip_with mapM].
  rewrite (history_length_spanned slot hlen 0 2), (history_length_spanned slot hlen 1 10),
    (history_length_spanned slot hlen 2 40) by done.
  done.
Qed.

(** C25: after any run in which every slot of [history_totals] holds between 0
    and 2^31 - 1 bytes of both directions together, a repaint that is not paused
    or frozen shows as totals the exact bytes of the newest 2, 10 and 40 slots,
    each sum divided by the seconds its slots span (the whole slots before the
    newest, and what the newest has lasted), and as peaks the largest of the 40
    slots. *)
Theorem totals_and_peaks (qsort : (positive -> positive -> Z) -> list positive -> list positive)
    `{!QSort qsort} (es : list ui_event) (o : options_t) (host_name : Z -> list Z -> option string)
    (procs : option sock_table_t) (slot : spec_float) (c c' : capture) (d d' : display) :
  ui_run qsort es (cap_init, display_init) = Some (c, d) -> paused o <> 1 -> freezeorder o = 0 ->
  analyse_data qsort o host_name procs slot c d = Some (c', d') ->
  slots_fit (history_totals c) ->
  let h := history_totals c in
  let rates get := (fun n => averaged slot (history_len c) n (window (history_pos c) n (get h))) <$> [2; 10; 40] in
  l_recv (totals d') = rates recv /\ l_sent (totals d') = rates sent /\
  peaksent d' = peak_of (zget (sent h)) 0 /\ peakrecv d' = peak_of (zget (recv h)) 0 /\
  peaktotal d' = peak_of (fun i => zget (recv h) i + zget (sent h) i) 0.
Proof.
  intros Hrun Hp Hf Ea Hfit h rates. destruct (ui_run_ok qsort es _ ui_init_ok) as (s & E & Hok).
  assert (s = (c, d)) as -> by congruence.
  destruct Hok as (f & m & F & HF & C & S & xs & ds & Hs & Hm & [Hw Hbal] & Hsl). cbn [fst snd] in *.
  destruct (flow_list_spec _ _ _ _ _ _ (sr_cap _ _ _ _ _ _ _ _ Hs)) as (l & Hl & _).
  destruct (analyse_data_spec qsort o host_name procs slot c f d m F HF C S xs ds l Hs Hm Hw Hsl Hl)
    as (c2 & d2 & f' & m' & F' & S' & xs' & ds' & Ea' & _ & _ & _ & _ & _ & Hg).
  assert (c2 = c' /\ d2 = d') as [-> ->] by (split; congruence).
  destruct (Hg Hp Hf) as (_ & _ & _ & _ & _ & _ & _ & d3 & Et & Eh & Ehl & Ehp & E3 & P1 & P2 & P3).
  pose proof (sr_cap _ _ _ _ _ _ _ _ Hs) as Hc.
  assert (hist_wf h) as Hwh by (unfold h; rewrite (cr_totals _ _ _ _ _ _ Hc); apply Hw).
  assert (slot_ok (history_pos c)) as Hpos by (rewrite (cr_pos _ _ _ _ _ _ Hc); apply Hw).
  unfold h in Hwh. rewrite <- Ehp in Et, Hpos. rewrite <- Eh in Hfit, Hwh.
  pose proof (calculate_totals_exact slot c' d3 d' Et Hpos) as K.
  unfold rates, h. rewrite <- Eh, <- Ehl, <- Ehp. destruct (K Hwh Hfit E3 P1 P2 P3) as (K1 & K2 & K3).
  rewrite (divide_rates_averaged slot (history_len c') (fun n => window (history_pos c') n (recv (history_totals c')))) in K1.
  rewrite (divide_rates_averaged slot (history_len c') (fun n => window (history_pos c') n (sent (history_totals c')))) in K2.
  split_and!; [by injection K1|by injection K2|apply K3..].
Qed.

Definition slots_fit_b (h : history_type) : bool :=
  forallb (fun i => (0 <=? zget (recv h) i) && (0 <=? zget (sent h) i) && (zget (recv h) i + zget (sent h) i <? 2 ^ 31))
    (seqZ 0 HISTORY_LENGTH).

Lemma slots_fit_check h : slots_fit_b h = true -> slots_fit h.
Proof.
  unfold slots_fit_b. rewrite forallb_forall. intros Hb i Hi.
  specialize (Hb i). rewrite !andb_true_iff, !Z.leb_le, Z.ltb_lt in Hb.
  destruct Hb as [[? ?] ?]; [|done]. apply list_elem_of_In, elem_of_seqZ. unfold slot_ok in Hi. lia.
Qed.

Example totals_and_peaks_witness :
  let h := history_totals demo_ui.1 in
  let rates get := (fun n => averaged (d_of 1 (-1)) (history_len demo_ui.1) n (window (history_pos demo_ui.1) n (get h))) <$>
    [2; 10; 40] in
  l_recv (totals demo_next.2) = rates recv /\ l_sent (totals demo_next.2) = rates sent /\
  peaksent demo_next.2 = peak_of (zget (sent h)) 0 /\ peakrecv demo_next.2 = peak_of (zget (recv h)) 0 /\
  peaktotal demo_next.2 = peak_of (fun i => zget (recv h) i + zget (sent h) i) 0.
Proof.
  apply (totals_and_peaks insertion_qsort demo_run demo_opt_record (fun _ _ => None) None (d_of 1 (-1))
    demo_ui.1 demo_next.1 demo_ui.2 demo_next.2).
  - rewrite <- pair_eta. exact demo_ui_run.
  - discriminate.
  - reflexivity.
  - rewrite <- pair_eta. exact demo_next_run.
  - apply slots_fit_check. vm_compute. reflexivity.
Defined.

(** ** What the model shows of the code *)

(** Two lines with equal sums are each put after the other: the comparison
    that qsort gets is not consistent on them. *)
Lemma equal_lines_inconsistent o aa bb start :
  linedisplay o = OPTION_LINEDISPLAY_TWO_LINE ->
  divisions_from both_at aa bb start = Some None -> divisions_from both_at bb aa start = Some None ->
  screen_line_bandwidth_compare o aa bb start = Some 1 /\ screen_line_bandwidth_compare o bb aa start = Some 1.
Proof. intros Hl H1 H2. unfold screen_line_bandwidth_compare. rewrite Hl. simpl. by rewrite H1, H2. Qed.

(** A slot of 4 GiB (reached at 34 Gbit/s) is not seen by the peak. *)
Lemma peak_truncates :
  peak_loop 1 0 (History [2 ^ 32] [0] 0 0 0 0 0 "") (0, 0, 0) = Some (0, 0, 0).
Proof. reflexivity. Qed.
