(* ===== verification/LineOrder.v ===== *)
(** * The order of the lines (src/ui/ui.c screen_line_compare)

    What the sort option asks for, spelled out without the comparison of the
    code, and the proof that the screen list is in that order. *)

From stdpp Require Import sorting.
From S2P Require Import Prelude Records Float Chain Hash Pool AddrHash History SortedList CStr OptionsT ProcInfo Packet Analyse.

Local Open Scope Z_scope.

(** ** The order asked for *)

(** The averages that count for a sort by the division [from]: of the direction
    that the display shows alone, then of both, from that division on. *)
Definition averages (o : options_t) (from : nat) (l : host_pair_line) : list spec_float :=
  (if linedisplay o =? 3 then drop from (l_sent l) else if linedisplay o =? 2 then drop from (l_recv l) else []) ++
  drop from (zip_with ld_add (l_recv l) (l_sent l)).

(** The first averages that differ are in falling order. *)
Fixpoint higher (xs ys : list spec_float) : bool :=
  match xs, ys with
  | x :: xs, y :: ys => if SFeqb x y then higher xs ys else SFltb y x
  | _, _ => false
  end.

(** 0, 1, 2: by the averages of 2, 10 or 40 seconds, the highest first; 3, 4:
    by the name of the source or destination, and for one name by the averages
    of 40 seconds. *)
Definition listed_first (o : options_t) (a b : host_pair_line) : bool :=
  if sort o <? 3 then higher (averages o (Z.to_nat (sort o)) a) (averages o (Z.to_nat (sort o)) b)
  else match String.compare (cached_hostname a) (cached_hostname b) with
       | Lt => true
       | Eq => higher (averages o 2 a) (averages o 2 b)
       | Gt => false
       end.

(** Not a NaN. *)
Definition number (x : spec_float) : Prop := SFeqb x x = true.
Definition numbers (o : options_t) (l : host_pair_line) : Prop := rates3 l /\ Forall number (averages o 0 l).

(** ** Floats in order *)
Definition rank (x : spec_float) : Z * Z * Z :=
  match x with
  | S754_infinity true => (-2, 0, 0)
  | S754_finite true m e => (-1, - e, - Zpos m)
  | S754_zero _ => (0, 0, 0)
  | S754_finite false m e => (1, e, Zpos m)
  | S754_infinity false => (2, 0, 0)
  | S754_nan => (3, 0, 0)
  end.

Definition rank_lt (a b : Z * Z * Z) : Prop :=
  a.1.1 < b.1.1 \/ a.1.1 = b.1.1 /\ (a.1.2 < b.1.2 \/ a.1.2 = b.1.2 /\ a.2 < b.2).
Definition rank_eq (a b : Z * Z * Z) : Prop := a.1.1 = b.1.1 /\ a.1.2 = b.1.2 /\ a.2 = b.2.

Ltac compare_floats :=
  intros x y; destruct x as [s|s| |s m e], y as [s'|s'| |s' m' e']; try done;
  try destruct s; try destruct s'; unfold SFltb, SFeqb, rank_lt, rank_eq; cbn; try (intuition (lia || done));
  unfold SFcompare; destruct (Z.compare_spec e e'); try (intuition (lia || done));
  try (rewrite Pos.compare_cont_spec); destruct (Pos.compare_spec m m'); simpl; intuition (lia || congruence).

Lemma SFltb_rank : forall x y, number x -> number y -> SFltb x y = true <-> rank_lt (rank x) (rank y).
Proof.
  compare_floats.
Qed.

Lemma SFeqb_rank : forall x y, number x -> number y -> SFeqb x y = true <-> rank_eq (rank x) (rank y).
Proof.
  compare_floats.
Qed.

(** Of two numbers that differ one is the smaller. *)
Lemma number_total x y : number x -> number y -> SFeqb x y = false -> SFltb x y = negb (SFltb y x).
Proof.
  intros Hx Hy He. destruct (SFltb x y) eqn:E1, (SFltb y x) eqn:E2; try done; exfalso.
  - apply SFltb_rank in E1, E2; [|done..]. unfold rank_lt in *. lia.
  - assert (~ rank_eq (rank x) (rank y)) as H1 by (rewrite <- SFeqb_rank by done; congruence).
    assert (~ rank_lt (rank x) (rank y)) as H2 by (rewrite <- SFltb_rank by done; congruence).
    assert (~ rank_lt (rank y) (rank x)) as H3 by (rewrite <- SFltb_rank by done; congruence).
    unfold rank_eq, rank_lt in *. lia.
Qed.

Lemma higher_trans xs : forall ys zs,
  Forall number xs -> Forall number ys -> Forall number zs ->
  higher xs ys = true -> higher ys zs = true -> higher xs zs = true.
Proof.
  induction xs as [|x xs IH]; intros [|y ys] [|z zs] Hx Hy Hz; try done. cbn [higher].
  apply Forall_cons in Hx as [Hx Hxs], Hy as [Hy Hys], Hz as [Hz Hzs].
  destruct (SFeqb x y) eqn:E1; [apply SFeqb_rank in E1; [|done..]|];
    (destruct (SFeqb y z) eqn:E2; [apply SFeqb_rank in E2; [|done..]|]); intros H1 H2.
  - assert (SFeqb x z = true) as -> by (apply SFeqb_rank; [done..|]; unfold rank_eq in *; lia). by apply (IH ys).
  - apply SFltb_rank in H2; [|done..]. assert (rank_lt (rank z) (rank x)) as H by (unfold rank_eq, rank_lt in *; lia).
    destruct (SFeqb x z) eqn:E; [apply SFeqb_rank in E; [|done..]; unfold rank_eq, rank_lt in *; lia|by apply SFltb_rank].
  - apply SFltb_rank in H1; [|done..]. assert (rank_lt (rank z) (rank x)) as H by (unfold rank_eq, rank_lt in *; lia).
    destruct (SFeqb x z) eqn:E; [apply SFeqb_rank in E; [|done..]; unfold rank_eq, rank_lt in *; lia|by apply SFltb_rank].
  - apply SFltb_rank in H1, H2; [|done..]. assert (rank_lt (rank z) (rank x)) as H by (unfold rank_lt in *; lia).
    destruct (SFeqb x z) eqn:E; [apply SFeqb_rank in E; [|done..]; unfold rank_eq, rank_lt in *; lia|by apply SFltb_rank].
Qed.

Lemma higher_asym xs : forall ys,
  Forall number xs -> Forall number ys -> higher xs ys = true -> higher ys xs = false.
Proof.
  induction xs as [|x xs IH]; intros [|y ys] Hx Hy; try done. cbn [higher].
  apply Forall_cons in Hx as [Hx Hxs], Hy as [Hy Hys].
  destruct (SFeqb x y) eqn:E.
  - apply SFeqb_rank in E; [|done..]. intros H.
    assert (SFeqb y x = true) as -> by (apply SFeqb_rank; [done..|]; unfold rank_eq in *; lia). by apply IH.
  - assert (SFeqb y x = false) as E2.
    { destruct (SFeqb y x) eqn:E2; [|done]. apply SFeqb_rank in E2; [|done..].
      assert (SFeqb x y = true) by (apply SFeqb_rank; [done..|]; unfold rank_eq in *; lia). congruence. }
    rewrite E2. intros H. by rewrite (number_total x y), H.
Qed.

(** ** strcmp *)
Lemma compare_trans a : forall b c, String.compare a b = Lt -> String.compare b c = Lt -> String.compare a c = Lt.
Proof.
  induction a as [|x a IH]; intros [|y b] [|z c]; simpl; try done. unfold Ascii.compare.
  destruct (N.compare_spec (N_of_ascii x) (N_of_ascii y)), (N.compare_spec (N_of_ascii y) (N_of_ascii z)); try done;
    destruct (N.compare_spec (N_of_ascii x) (N_of_ascii z)); try lia; try done. apply IH.
Qed.

(** ** The comparison of the code *)

(** What the loop over the averages answers. *)
Fixpoint verdict (xs ys : list spec_float) : option Z :=
  match xs, ys with
  | x :: xs, y :: ys => if SFeqb x y then verdict xs ys else Some (if SFltb x y then 1 else 0)
  | _, _ => None
  end.

Lemma verdict_app xs ys xs' ys' :
  length xs = length ys ->
  verdict (xs ++ xs') (ys ++ ys') = match verdict xs ys with Some v => Some v | None => verdict xs' ys' end.
Proof.
  revert ys. induction xs as [|x xs IH]; intros [|y ys] Hl; try done. cbn [app verdict].
  destruct (SFeqb x y); [|done]. apply IH. by injection Hl.
Qed.

Lemma verdict_higher xs : forall ys,
  Forall number xs -> Forall number ys -> length xs = length ys ->
  default 1 (verdict xs ys) = if higher xs ys then 0 else 1.
Proof.
  induction xs as [|x xs IH]; intros [|y ys] Hx Hy Hl; try done. cbn [verdict higher].
  apply Forall_cons in Hx as [Hx Hxs], Hy as [Hy Hys].
  destruct (SFeqb x y) eqn:E; [apply IH; [done..|by injection Hl]|]. cbn [default].
  rewrite (number_total x y) by done. by destruct (SFltb y x).
Qed.

Lemma divisions_verdict f aa bb start xs ys :
  0 <= start <= 2 -> length xs = 3%nat -> length ys = 3%nat ->
  (forall i, f aa i = xs !!z i) -> (forall i, f bb i = ys !!z i) ->
  divisions_from f aa bb start = Some (verdict (drop (Z.to_nat start) xs) (drop (Z.to_nat start) ys)).
Proof.
  intros Hs Hx Hy Ha Hb.
  destruct xs as [|x0 [|x1 [|x2 []]]]; try done. destruct ys as [|y0 [|y1 [|y2 []]]]; try done.
  assert (start = 0 \/ start = 1 \/ start = 2) as [-> |[-> | ->]] by lia; unfold divisions_from;
    change (Z.to_nat (HISTORY_DIVISIONS - 0)) with 3%nat; change (Z.to_nat (HISTORY_DIVISIONS - 1)) with 2%nat;
    change (Z.to_nat (HISTORY_DIVISIONS - 2)) with 1%nat;
    cbn [compare_from Z.add Pos.add Pos.succ]; unfold comparison_at; rewrite !Ha, !Hb; unfold lookup_z; simpl;
    repeat (destruct (SFeqb _ _); simpl; [|done]); done.
Qed.

Lemma both_at_zip l i : rates3 l -> both_at l i = zip_with ld_add (l_recv l) (l_sent l) !!z i.
Proof.
  intros [_ _]. unfold both_at, lookup_z. destruct (0 <=? i); [|done]. rewrite lookup_zip_with.
  destruct (l_recv l !! _); [|done]. by destruct (l_sent l !! _).
Qed.

Lemma both_length l : rates3 l -> length (zip_with ld_add (l_recv l) (l_sent l)) = 3%nat.
Proof. intros [Hs Hr]. rewrite length_zip_with, Hs, Hr. done. Qed.

Lemma averages_numbers o k l : numbers o l -> Forall number (averages o k l).
Proof.
  intros [_ H]. rewrite Forall_forall in H. apply Forall_forall. intros x Hx. apply H. revert Hx. unfold averages.
  rewrite !elem_of_app. intros [Hx|Hx].
  - left. destruct (linedisplay o =? 3); [|destruct (linedisplay o =? 2); [|done]]; rewrite drop_0;
      apply list_elem_of_lookup in Hx as [i Hi]; rewrite lookup_drop in Hi; by eapply list_elem_of_lookup_2.
  - right. rewrite drop_0. apply list_elem_of_lookup in Hx as [i Hi]. rewrite lookup_drop in Hi.
    by eapply list_elem_of_lookup_2.
Qed.

Lemma averages_length o k a b : rates3 a -> rates3 b -> length (averages o k a) = length (averages o k b).
Proof.
  intros Ha Hb. unfold averages. rewrite !length_app. pose proof Ha as [Ha1 Ha2]. pose proof Hb as [Hb1 Hb2].
  destruct (linedisplay o =? 3); [|destruct (linedisplay o =? 2)]; rewrite ?length_drop, ?both_length by done; simpl; lia.
Qed.

Lemma bandwidth_compare o aa bb start :
  0 <= start <= 2 -> numbers o aa -> numbers o bb ->
  screen_line_bandwidth_compare o aa bb start =
    Some (if higher (averages o (Z.to_nat start) aa) (averages o (Z.to_nat start) bb) then 0 else 1).
Proof.
  intros Hs Ha Hb. pose proof Ha as [Ha3 _]. pose proof Hb as [Hb3 _].
  rewrite <- verdict_higher by (by apply averages_numbers || by apply averages_length).
  unfold screen_line_bandwidth_compare, averages.
  rewrite (divisions_verdict both_at aa bb start _ _ Hs (both_length aa Ha3) (both_length bb Hb3)
    (fun i => both_at_zip aa i Ha3) (fun i => both_at_zip bb i Hb3)).
  change OPTION_LINEDISPLAY_ONE_LINE_SENT with 3. change OPTION_LINEDISPLAY_ONE_LINE_RECV with 2.
  destruct Ha3 as [Hs1 Hr1], Hb3 as [Hs2 Hr2].
  destruct (linedisplay o =? 3); [|destruct (linedisplay o =? 2); [|done]].
  - rewrite (divisions_verdict sent_at aa bb start (l_sent aa) (l_sent bb)) by done. cbn [mbind option_bind].
    rewrite verdict_app by (rewrite !length_drop; lia). by destruct (verdict (drop _ (l_sent aa)) _).
  - rewrite (divisions_verdict recv_at aa bb start (l_recv aa) (l_recv bb)) by done. cbn [mbind option_bind].
    rewrite verdict_app by (rewrite !length_drop; lia). by destruct (verdict (drop _ (l_recv aa)) _).
Qed.

(** The comparison puts a line that is not listed first after the other. *)
Lemma compare_listed o aa bb :
  0 <= sort o <= 4 -> numbers o aa -> numbers o bb ->
  screen_line_compare o aa bb = Some (if listed_first o aa bb then 0 else 1).
Proof.
  intros Hs Ha Hb. unfold screen_line_compare, listed_first.
  assert (sort o = 0 \/ sort o = 1 \/ sort o = 2 \/ sort o = 3 \/ sort o = 4) as [E|[E|[E|[E|E]]]] by lia; rewrite E;
    cbn [Z.eqb Z.ltb Z.compare Pos.compare Pos.compare_cont Pos.eqb OPTION_SORT_DIV1 OPTION_SORT_DIV2 OPTION_SORT_DIV3
         OPTION_SORT_SRC OPTION_SORT_DEST orb];
    try (by apply bandwidth_compare);
    (unfold screen_line_host_compare, strcmp; destruct (String.compare _ _); [|done..];
     rewrite bandwidth_compare by done; done).
Qed.

Lemma listed_first_asym o a b : numbers o a -> numbers o b -> listed_first o a b = true -> listed_first o b a = false.
Proof.
  intros Ha Hb. unfold listed_first. destruct (sort o <? 3); [by apply higher_asym; apply averages_numbers|].
  rewrite (String.compare_antisym (cached_hostname b) (cached_hostname a)).
  destruct (String.compare (cached_hostname a) (cached_hostname b)) eqn:E; simpl; try done.
  by apply higher_asym; apply averages_numbers.
Qed.

Lemma listed_first_trans o a b c : numbers o a -> numbers o b -> numbers o c ->
  listed_first o a b = true -> listed_first o b c = true -> listed_first o a c = true.
Proof.
  intros Ha Hb Hc. unfold listed_first.
  destruct (sort o <? 3); [by apply higher_trans; apply averages_numbers|].
  destruct (String.compare (cached_hostname a) (cached_hostname b)) eqn:E1; [|..|done];
    (destruct (String.compare (cached_hostname b) (cached_hostname c)) eqn:E2; [|..|done]).
  - apply String.compare_eq_iff in E1 as ->. rewrite E2. by apply higher_trans; apply averages_numbers.
  - apply String.compare_eq_iff in E1 as ->. by rewrite E2.
  - apply String.compare_eq_iff in E2 as <-. by rewrite E1.
  - by rewrite (compare_trans _ _ _ E1 E2).
Qed.

(** ** The screen list *)
Lemma strongly_sorted_impl {A} (R R' : A -> A -> Prop) l :
  (forall x y, R x y -> R' x y) -> StronglySorted R l -> StronglySorted R' l.
Proof.
  intros Hi. induction 1 as [|x l _ IH Hx]; constructor; [done|]. eapply Forall_impl; [exact Hx|]. apply Hi.
Qed.

Section screen.
Context (o : options_t) (ls : gmap positive host_pair_line).
Hypothesis sort_option : 0 <= sort o <= 4.
Hypothesis lines_numbers : map_Forall (fun _ => numbers o) ls.
(** Of two lines one is listed first: no tie. *)
Hypothesis no_ties : forall x y a b, x <> y -> ls !! x = Some a -> ls !! y = Some b ->
  listed_first o a b = true \/ listed_first o b a = true.

Lemma compare_ptr_listed x y a b :
  ls !! x = Some a -> ls !! y = Some b -> compare_ptr o ls x y = if listed_first o a b then 0 else 1.
Proof.
  intros Hx Hy. unfold compare_ptr. rewrite Hx, Hy. cbn [mbind option_bind].
  by rewrite compare_listed by (done || by eapply lines_numbers).
Qed.

Lemma lines_strict : strict_on (compare_ptr o ls) (elements (dom ls)).
Proof.
  assert (forall x, x ∈ elements (dom ls) -> exists a, ls !! x = Some a /\ numbers o a) as Hin.
  { intros x [a Ha]%elem_of_elements%elem_of_dom. exists a. split; [done|]. by eapply lines_numbers. }
  split_and!; [apply NoDup_elements|..].
  - intros x y (a & Ha & _)%Hin (b & Hb & _)%Hin. rewrite (compare_ptr_listed x y a b) by done.
    destruct (listed_first o a b); lia.
  - intros x y (a & Ha & Na)%Hin (b & Hb & Nb)%Hin Hne.
    rewrite (compare_ptr_listed x y a b), (compare_ptr_listed y x b a) by done.
    destruct (no_ties x y a b Hne Ha Hb) as [E|E]; rewrite E.
    + rewrite (listed_first_asym o a b Na Nb E). lia.
    + rewrite (listed_first_asym o b a Nb Na E). lia.
  - intros x y z (a & Ha & Na)%Hin (b & Hb & Nb)%Hin (c & Hc & Nc)%Hin.
    rewrite (compare_ptr_listed x y a b), (compare_ptr_listed y z b c), (compare_ptr_listed x z a c) by done.
    intros H1 H2 Hne. destruct (listed_first o a c) eqn:E; [|lia]. exfalso.
    destruct (decide (x = y)) as [->|Hxy].
    { simplify_eq. rewrite E in H2. lia. }
    destruct (decide (y = z)) as [->|Hyz].
    { simplify_eq. rewrite E in H1. lia. }
    destruct (no_ties x y a b Hxy Ha Hb) as [E1|E1]; [rewrite E1 in H1; lia|].
    destruct (no_ties y z b c Hyz Hb Hc) as [E2|E2]; [rewrite E2 in H2; lia|].
    pose proof (listed_first_trans o c b a Nc Nb Na E2 E1) as E3.
    rewrite (listed_first_asym o c a Nc Na E3) in E. done.
Qed.

(** The line at [x] is listed before that at [y]. *)
Definition listed_before (x y : positive) : Prop :=
  exists a b, ls !! x = Some a /\ ls !! y = Some b /\ listed_first o a b = true.

Lemma item_order_listed x y : item_order (compare_ptr o ls) (elements (dom ls)) x y -> listed_before x y.
Proof.
  intros ([a Ha]%elem_of_elements%elem_of_dom & [b Hb]%elem_of_elements%elem_of_dom & Hne & Hc).
  exists a, b. split_and!; [done..|]. rewrite (compare_ptr_listed y x b a) in Hc by done.
  destruct (no_ties x y a b Hne Ha Hb) as [E|E]; [done|]. rewrite E in Hc. lia.
Qed.
End screen.


(** Two lines, by the averages of 2 seconds. *)
Definition lines_fit (o : options_t) (ls : gmap positive host_pair_line) : bool :=
  let fits l := (length (l_sent l) =? 3)%nat && (length (l_recv l) =? 3)%nat &&
    forallb (fun x => SFeqb x x) (averages o 0 l) in
  let all := map_to_list ls in
  forallb (fun xa => fits xa.2) all &&
  forallb (fun xa => forallb (fun yb => bool_decide (xa.1 = yb.1) || listed_first o xa.2 yb.2 || listed_first o yb.2 xa.2) all) all.

Lemma lines_fit_ok o ls : lines_fit o ls = true ->
  map_Forall (fun _ => numbers o) ls /\
  forall x y a b, x <> y -> ls !! x = Some a -> ls !! y = Some b -> listed_first o a b = true \/ listed_first o b a = true.
Proof.
  unfold lines_fit. intros [Hn Ht]%andb_prop. rewrite forallb_forall in Hn, Ht. split.
  - intros x a Ha%elem_of_map_to_list%list_elem_of_In. apply Hn in Ha. cbn [snd] in Ha.
    apply andb_prop in Ha as [[H1%Nat.eqb_eq H2%Nat.eqb_eq]%andb_prop H3]. split; [done|].
    apply Forall_forall. intros v Hv. rewrite forallb_forall in H3. by apply H3, list_elem_of_In.
  - intros x y a b Hne Ha%elem_of_map_to_list%list_elem_of_In Hb%elem_of_map_to_list%list_elem_of_In.
    apply Ht in Ha. rewrite forallb_forall in Ha. apply Ha in Hb. cbn [fst snd] in Hb.
    rewrite bool_decide_false in Hb by done. by apply orb_prop in Hb.
Qed.

