(* ===== verification/NsHash.v ===== *)
(** * The table of host names (src/data/map/ns_hash.c)

    The generic table of [Hash] instantiated with network addresses: [valid_as]
    is what resolve() builds, the keys for which the comparison is equality. *)

From S2P Require Import Prelude Bytes Chain Hash.

Local Open Scope Z_scope.

(** [addr] is the 16 bytes of the union; [addr_len] of them are in use. *)
Record addr_storage := AddrStorage {
  as_family : Z;
  addr_len : Z;
  as_addr : list Z
}.

#[export] Instance addr_storage_eq_dec : EqDecision addr_storage.
Proof. solve_decision. Defined.
#[export] Instance addr_storage_countable : Countable addr_storage.
Proof.
  apply (inj_countable' (fun a => (as_family a, addr_len a, as_addr a))
    (fun '(f, n, b) => AddrStorage f n b)).
  by intros [].
Qed.

Definition ns_hash_table_size : Z := 256.
Definition NS_HASH_MAX_ENTRIES : Z := 16384.

(** [memcmp(a, b, n) == 0] *)
Definition memeq (n : Z) (a b : list Z) : bool :=
  bool_decide (take (Z.to_nat n) a = take (Z.to_nat n) b).

Definition ns_hash_compare (l r : addr_storage) : bool :=
  if negb (as_family l =? as_family r) then false
  else memeq (addr_len l) (as_addr l) (as_addr r).

Definition ns_hash_hash (a : addr_storage) : Z :=
  Z.rem (foldl (fun h b => s32 (h + b)) 0 (take (Z.to_nat (addr_len a)) (as_addr a))) 0xff.

Definition ns_hash_copy_key (orig : addr_storage) : addr_storage := orig.

Definition ns_hash_create : hash_type addr_storage :=
  (hash_initialise (HashType ns_hash_compare ns_hash_hash ns_hash_copy_key [] ns_hash_table_size)).2.

(** The result, the table, the number of entries and the records freed. *)
Definition ns_hash_evict_if_full {R} (h : hash_type addr_storage) (m : mem addr_storage R)
    (n_entries max_entries : Z) : option (Z * hash_type addr_storage * mem addr_storage R * Z * list R) :=
  if max_entries <=? n_entries then
    '(h, m, freed) ← hash_delete_all_free h m;
    Some (1, h, m, 0, freed)
  else Some (0, h, m, n_entries, []).

(** ** Keys *)
Definition valid_as (a : addr_storage) : Prop :=
  length (as_addr a) = 16%nat /\ bytes_ok (as_addr a) /\
  addr_len a = (if as_family a =? 2 then 4 else 16) /\
  drop (Z.to_nat (addr_len a)) (as_addr a) = replicate (16 - Z.to_nat (addr_len a)) 0.

Lemma sum_bytes_range (l : list Z) h :
  bytes_ok l -> 0 <= h -> h + 255 * Z.of_nat (length l) < 2 ^ 31 ->
  0 <= foldl (fun h b => s32 (h + b)) h l <= h + 255 * Z.of_nat (length l).
Proof.
  intros Hl. revert h. induction Hl as [|x l Hx Hl IH]; intros h Hh Hb; simpl in *; [lia|].
  unfold is_byte in Hx. rewrite swrap_small by lia.
  pose proof (IH (h + x) ltac:(lia) ltac:(lia)). lia.
Qed.

Lemma ns_hash_hash_range a : valid_as a -> 0 <= ns_hash_hash a < 255.
Proof.
  intros (Hl & Hb & Hn & _). unfold ns_hash_hash.
  set (b := take _ _).
  assert (length b <= 16)%nat as Hlb by (unfold b; rewrite length_take; lia).
  pose proof (sum_bytes_range b 0 ltac:(unfold b; by apply Forall_take) ltac:(lia) ltac:(lia)).
  rewrite Z.rem_mod_nonneg by lia. apply Z.mod_pos_bound. lia.
Qed.

Lemma ns_hash_compare_eq a b : valid_as a -> valid_as b -> ns_hash_compare a b = true <-> a = b.
Proof.
  intros (Hla & _ & Hna & Hda) (Hlb & _ & Hnb & Hdb). unfold ns_hash_compare, memeq.
  destruct (Z.eqb_spec (as_family a) (as_family b)) as [Ef|Hne]; simpl; [|naive_solver].
  rewrite bool_decide_eq_true. split; [|by intros ->]. intros Ht.
  assert (addr_len a = addr_len b) as En by (by rewrite Hna, Hnb, Ef).
  assert (as_addr a = as_addr b) as Eb.
  { rewrite <- (take_drop (Z.to_nat (addr_len a)) (as_addr a)), Ht, Hda, En, <- Hdb. apply take_drop. }
  destruct a, b; simpl in *; congruence.
Qed.

#[export] Instance ns_hash_ops : HashOps ns_hash_create valid_as.
Proof.
  apply with_table_ops. constructor; simpl.
  - apply ns_hash_compare_eq.
  - intros k Hk. pose proof (ns_hash_hash_range k Hk). unfold ns_hash_table_size. lia.
  - done.
Qed.
