(* ===== verification/ServHash.v ===== *)
(** * Service names (src/data/map/serv_hash.c)

    Names of services by port and protocol: two arrays for TCP and UDP, a
    table of [Hash] for the others.  The names live in a heap: freeing one
    twice, or reading one that was freed, has no result. *)

From S2P Require Import Prelude Records Chain Hash.

Local Open Scope Z_scope.

Record ip_service := IpService { is_port : Z; is_protocol : Z }.

#[export] Instance ip_service_eq_dec : EqDecision ip_service.
Proof. solve_decision. Defined.
#[export] Instance ip_service_countable : Countable ip_service.
Proof.
  apply (inj_countable' (fun s => (is_port s, is_protocol s)) (fun '(p, q) => IpService p q)). by intros [].
Qed.

Definition SERV_NUM_PORTS : Z := 65536.
Definition OTHER_HASH_SIZE : Z := 127.

Definition other_compare (a b : ip_service) : bool :=
  (is_port a =? is_port b) && (is_protocol a =? is_protocol b).

(** [(unsigned)((s->port * 31) + s->protocol) % OTHER_HASH_SIZE] *)
Definition other_hash (s : ip_service) : Z := u32 (is_port s * 31 + is_protocol s) mod OTHER_HASH_SIZE.

Definition other_copy_key (orig : ip_service) : ip_service := orig.

Definition other_hash_create : hash_type ip_service :=
  (hash_initialise (HashType other_compare other_hash other_copy_key [] OTHER_HASH_SIZE)).2.

(** The arrays are maps from the ports in use; an absent port is a null entry. *)
Record serv_table := ServTable {
  tcp : gmap Z positive;
  udp : gmap Z positive;
  other : hash_type ip_service;
  count : Z;
  s_mem : mem ip_service positive;
  s_names : gmap positive string;
  s_brk : positive
}.

(** Where a name goes: an array slot, or the table. *)
Inductive slot := SlotTcp | SlotUdp | SlotOther.

Definition serv_slot (port protocol : Z) : slot :=
  if (port <? 0) || (SERV_NUM_PORTS <=? port) then SlotOther
  else if protocol =? 6 then SlotTcp
  else if protocol =? 17 then SlotUdp
  else SlotOther.

Definition set_array (k : slot) (a : gmap Z positive) (t : serv_table) : serv_table :=
  match k with
  | SlotTcp => ServTable a (udp t) (other t) (count t) (s_mem t) (s_names t) (s_brk t)
  | SlotUdp => ServTable (tcp t) a (other t) (count t) (s_mem t) (s_names t) (s_brk t)
  | SlotOther => t
  end.
Definition array (k : slot) (t : serv_table) : gmap Z positive :=
  match k with SlotTcp => tcp t | SlotUdp => udp t | SlotOther => ∅ end.

Definition set_other (h : hash_type ip_service) (m : mem ip_service positive) (t : serv_table) : serv_table :=
  ServTable (tcp t) (udp t) h (count t) m (s_names t) (s_brk t).
Definition set_count (n : Z) (t : serv_table) : serv_table :=
  ServTable (tcp t) (udp t) (other t) n (s_mem t) (s_names t) (s_brk t).
Definition set_names (ns : gmap positive string) (b : positive) (t : serv_table) : serv_table :=
  ServTable (tcp t) (udp t) (other t) (count t) (s_mem t) ns b.

(** xstrdup, and free, which accepts a null pointer. *)
Definition strdup (name : string) (t : serv_table) : positive * serv_table :=
  (s_brk t, set_names (<[s_brk t := name]> (s_names t)) (Pos.succ (s_brk t)) t).
Definition free_name (p : option positive) (t : serv_table) : option serv_table :=
  match p with
  | None => Some t
  | Some p => _ ← s_names t !! p; Some (set_names (delete p (s_names t)) (s_brk t) t)
  end.

Definition serv_table_create : serv_table := ServTable ∅ ∅ other_hash_create 0 (Mem ∅ 1) ∅ 1.

Definition serv_table_insert (t : serv_table) (port protocol : Z) (name : string) : option serv_table :=
  t ← match serv_slot port protocol with
      | SlotOther =>
          let key := IpService port protocol in
          '(_, existing) ← hash_find (other t) (s_mem t) key;
          t ← match existing with
              | Some p => '(_, h, m) ← hash_delete (other t) (s_mem t) key; free_name (Some p) (set_other h m t)
              | None => Some t
              end;
          let '(p, t) := strdup name t in
          '(_, h, m) ← hash_insert (other t) (s_mem t) key p;
          Some (set_other h m t)
      | k =>
          t ← free_name (array k t !! port) t;
          let '(p, t) := strdup name t in
          Some (set_array k (<[port := p]> (array k t)) t)
      end;
  Some (set_count (s32 (count t + 1)) t).

(** The pointer returned, read at once. *)
Definition serv_table_lookup (t : serv_table) (port protocol : Z) : option (option string) :=
  p ← match serv_slot port protocol with
      | SlotOther => '(_, r) ← hash_find (other t) (s_mem t) (IpService port protocol); Some r
      | k => Some (array k t !! port)
      end;
  match p with None => Some None | Some p => n ← s_names t !! p; Some (Some n) end.

Definition serv_table_delete (t : serv_table) (port protocol : Z) : option (Z * serv_table) :=
  match serv_slot port protocol with
  | SlotOther =>
      let key := IpService port protocol in
      '(_, existing) ← hash_find (other t) (s_mem t) key;
      match existing with
      | Some p =>
          '(_, h, m) ← hash_delete (other t) (s_mem t) key;
          t ← free_name (Some p) (set_other h m t);
          Some (1, set_count (s32 (count t - 1)) t)
      | None => Some (0, t)
      end
  | k =>
      match array k t !! port with
      | None => Some (0, t)
      | Some p =>
          t ← free_name (Some p) t;
          Some (1, set_count (s32 (count t - 1)) (set_array k (delete port (array k t)) t))
      end
  end.

Definition serv_table_count (t : serv_table) : Z := count t.

(** free of every array entry. *)
Fixpoint free_names (ps : list (option positive)) (t : serv_table) : option serv_table :=
  match ps with
  | [] => Some t
  | p :: ps => t ← free_name p t; free_names ps t
  end.

(** The ports of the arrays, from 0 up. *)
Definition all_ports : list Z := seqZ 0 SERV_NUM_PORTS.

Lemma all_ports_NoDup : NoDup all_ports.
Proof. apply NoDup_seqZ. Qed.
Lemma elem_of_all_ports i : i ∈ all_ports <-> 0 <= i < SERV_NUM_PORTS.
Proof. etransitivity; [apply (elem_of_seqZ 0 SERV_NUM_PORTS)|]. lia. Qed.
#[global] Opaque all_ports.

(** The arrays port by port, as the loop goes; the heap that is left. *)
Definition serv_table_destroy (t : serv_table) : option (gmap positive string) :=
  t ← free_names (all_ports ≫= (fun i => [tcp t !! i; udp t !! i])) t;
  '(h, m, freed) ← hash_delete_all_free (other t) (s_mem t);
  t ← free_names (Some <$> freed) (set_other (hash_destroy h).2 m t);
  Some (s_names t).

(** The services that getservent gives, with getprotobyname's number. *)
Fixpoint serv_table_init (getprotobyname : string -> option Z) (ents : list (Z * string * string))
    (t : serv_table) : option serv_table :=
  match ents with
  | [] => Some t
  | (port, proto, name) :: ents =>
      t ← match getprotobyname proto with
          | Some p => serv_table_insert t port p name
          | None => Some t
          end;
      serv_table_init getprotobyname ents t
  end.

(** ** The keys of the table *)
Definition key_slot (k : ip_service) : slot := serv_slot (is_port k) (is_protocol k).
Definition other_key (k : ip_service) : Prop := key_slot k = SlotOther.

#[export] Instance other_hash_ops : HashOps other_hash_create other_key.
Proof.
  apply with_table_ops. constructor; simpl.
  - intros [p q] [p' q'] _ _. unfold other_compare. simpl. rewrite andb_true_iff, !Z.eqb_eq. naive_solver.
  - intros k _. apply Z.mod_pos_bound. done.
  - done.
Qed.

Lemma serv_slot_spec k :
  match key_slot k with
  | SlotTcp => k = IpService (is_port k) 6
  | SlotUdp => k = IpService (is_port k) 17
  | SlotOther => True
  end.
Proof.
  destruct k as [p q]. unfold key_slot, serv_slot. simpl. destruct (_ || _); [done|].
  destruct (Z.eqb_spec q 6) as [->|]; [done|]. by destruct (Z.eqb_spec q 17) as [->|].
Qed.

(** ** Ownership of the names *)
Definition of_array (protocol : Z) (a : gmap Z positive) : list (ip_service * positive) :=
  (fun '(p, q) => (IpService p protocol, q)) <$> map_to_list a.

Definition owned (t : serv_table) (C : list (list positive)) : list (ip_service * positive) :=
  of_array 6 (tcp t) ++ of_array 17 (udp t) ++ contents (nodes (s_mem t)) (concat C).

Record serv_rep (t : serv_table) (C : list (list positive)) (m : gmap ip_service string) : Prop := ServRep {
  sv_ops : HashOps (other t) other_key;
  sv_hash : hash_rep other_key (other t) (s_mem t) C;
  sv_tcp p : is_Some (tcp t !! p) -> key_slot (IpService p 6) = SlotTcp;
  sv_udp p : is_Some (udp t !! p) -> key_slot (IpService p 17) = SlotUdp;
  sv_cells : cells_rep id (owned t C) (s_names t) m;
  sv_owned p : is_Some (s_names t !! p) -> p ∈ (owned t C).*2;
  sv_brk p : is_Some (s_names t !! p) -> (p < s_brk t)%positive
}.

Lemma of_array_insert pr a port p :
  a !! port = None -> of_array pr (<[port := p]> a) ≡ₚ (IpService port pr, p) :: of_array pr a.
Proof. intros Ha. unfold of_array. by rewrite map_to_list_insert. Qed.

Lemma of_array_delete pr a port p :
  a !! port = Some p -> of_array pr a ≡ₚ (IpService port pr, p) :: of_array pr (delete port a).
Proof. intros Ha. unfold of_array. by rewrite <- (map_to_list_delete a port p Ha). Qed.

Lemma elem_of_array pr a k p : (k, p) ∈ of_array pr a <-> a !! is_port k = Some p /\ is_protocol k = pr.
Proof.
  unfold of_array. rewrite list_elem_of_fmap. split.
  - intros ([x y] & [= -> ->] & Hin). by apply elem_of_map_to_list in Hin.
  - intros [Ha <-]. exists (is_port k, p). by destruct k; rewrite elem_of_map_to_list.
Qed.

(** The record that the program finds for a key. *)
Definition entry (t : serv_table) (C : list (list positive)) (k : ip_service) : option positive :=
  match key_slot k with
  | SlotOther => first_match k (contents (nodes (s_mem t)) (concat C))
  | s => array s t !! is_port k
  end.

Lemma contents_key t C m k p :
  serv_rep t C m -> (k, p) ∈ contents (nodes (s_mem t)) (concat C) -> other_key k.
Proof.
  intros Hr Hin. unfold contents in Hin. apply list_elem_of_omap in Hin as (x & Hx & E).
  destruct (nodes (s_mem t) !! x) as [nd|] eqn:En; [|done]. simpl in E. injection E as <- <-.
  apply elem_of_concat in Hx as (i & l & Hi & Hl).
  by destruct (rep_nodes _ _ _ _ (sv_hash _ _ _ Hr) i l x nd Hi Hl En) as (_ & _ & ?).
Qed.

Lemma contents_keys_NoDup t C m : serv_rep t C m -> NoDup (contents (nodes (s_mem t)) (concat C)).*1.
Proof.
  intros Hr. pose proof (cl_keys _ _ _ (sv_cells _ _ _ Hr)) as Hnd. unfold owned in Hnd.
  rewrite !fmap_app in Hnd. apply NoDup_app in Hnd as (_ & _ & Hnd). by apply NoDup_app in Hnd as (_ & _ & ?).
Qed.

Lemma entry_spec t C m k p : serv_rep t C m -> entry t C k = Some p <-> (k, p) ∈ owned t C.
Proof.
  intros Hr. unfold entry, owned. rewrite !elem_of_app, !elem_of_array. pose proof (serv_slot_spec k) as Hk.
  assert (forall s, key_slot k = s -> (k, p) ∈ contents (nodes (s_mem t)) (concat C) -> s = SlotOther) as Ho
    by (intros s <- Hin; exact (contents_key t C m k p Hr Hin)).
  destruct (key_slot k) eqn:Ek.
  - rewrite Hk. simpl. split; [auto|]. intros [[? _]|[[_ ?]|Hin]]; [done|done|]. specialize (Ho SlotTcp eq_refl).
    rewrite <- Hk in Hin. by specialize (Ho Hin).
  - rewrite Hk. simpl. split; [auto|]. intros [[_ ?]|[[? _]|Hin]]; [done|done|]. specialize (Ho SlotUdp eq_refl).
    rewrite <- Hk in Hin. by specialize (Ho Hin).
  - rewrite first_match_elem by (by eapply contents_keys_NoDup). split; [auto|].
    intros [[Ha Hp]|[[Ha Hp]|Hin]]; [..|done]; destruct k as [port pr]; simpl in *; subst pr.
    + pose proof (sv_tcp _ _ _ Hr port ltac:(eauto)) as E. congruence.
    + pose proof (sv_udp _ _ _ Hr port ltac:(eauto)) as E. congruence.
Qed.

Lemma entry_lookup t C m k :
  serv_rep t C m ->
  match entry t C k with Some p => exists nm, s_names t !! p = Some nm /\ m !! k = Some nm | None => m !! k = None end.
Proof.
  intros Hr. destruct (entry t C k) as [p|] eqn:E.
  - apply (entry_spec t C m) in E; [|done]. destruct (cl_live _ _ _ (sv_cells _ _ _ Hr) _ _ E) as (nm & ? & ?). by exists nm.
  - apply (cells_rep_absent _ _ _ _ (sv_cells _ _ _ Hr)). intros ([k' p] & -> & Hin)%list_elem_of_fmap.
    simpl in E. apply (entry_spec t C m) in Hin; [|done]. congruence.
Qed.

Lemma serv_table_lookup_spec t C m port protocol :
  serv_rep t C m -> serv_table_lookup t port protocol = Some (m !! IpService port protocol).
Proof.
  intros Hr. pose proof (entry_lookup t C m (IpService port protocol) Hr) as He.
  unfold serv_table_lookup. unfold entry, key_slot in He. simpl in He.
  destruct (serv_slot port protocol) eqn:Es; cbn [mbind option_bind array] in *.
  - revert He. destruct (tcp t !! port); [by intros (nm & -> & ->)|by intros ->].
  - revert He. destruct (udp t !! port); [by intros (nm & -> & ->)|by intros ->].
  - rewrite (hash_find_spec other_key _ _ C) by (done || apply Hr).
    revert He. destruct (first_match _ _); cbn [mbind option_bind]; [by intros (nm & -> & ->)|by intros ->].
Qed.

(** ** A name goes, a name comes *)
Lemma rep_drop t C m t' C' k p :
  serv_rep t C m -> owned t C ≡ₚ (k, p) :: owned t' C' ->
  HashOps (other t') other_key -> hash_rep other_key (other t') (s_mem t') C' ->
  (forall x, is_Some (tcp t' !! x) -> is_Some (tcp t !! x)) ->
  (forall x, is_Some (udp t' !! x) -> is_Some (udp t !! x)) ->
  s_names t' = delete p (s_names t) -> s_brk t' = s_brk t -> serv_rep t' C' (delete k m).
Proof.
  intros Hr Hp Ho Hh Ht Hu Hn Hb. destruct Hr as [_ _ Htc Hud Hce How Hbr].
  pose proof (cells_rep_perm _ _ _ _ Hp Hce) as Hce'.
  split; [done|done|auto|auto|..]; rewrite Hn.
  - eapply cells_rep_delete; [exact Hce'|]. intros q Hq. apply lookup_delete_ne. intros <-.
    pose proof (cl_recs _ _ _ Hce') as Hnd. csimpl in Hnd. by apply NoDup_cons in Hnd as [? _].
  - intros q [Hne Hq%How]%lookup_delete_is_Some. rewrite Hp in Hq. set_solver.
  - intros q [_ Hq%Hbr]%lookup_delete_is_Some. by rewrite Hb.
Qed.

Lemma rep_add t C m t' C' k nm :
  serv_rep t C m -> m !! k = None -> owned t' C' ≡ₚ (k, s_brk t) :: owned t C ->
  HashOps (other t') other_key -> hash_rep other_key (other t') (s_mem t') C' ->
  (forall x, is_Some (tcp t' !! x) -> is_Some (tcp t !! x) \/ key_slot (IpService x 6) = SlotTcp) ->
  (forall x, is_Some (udp t' !! x) -> is_Some (udp t !! x) \/ key_slot (IpService x 17) = SlotUdp) ->
  s_names t' = <[s_brk t := nm]> (s_names t) -> s_brk t' = Pos.succ (s_brk t) -> serv_rep t' C' (<[k := nm]> m).
Proof.
  intros Hr Hm Hp Ho Hh Ht Hu Hn Hb. destruct Hr as [_ _ Htc Hud Hce How Hbr].
  assert (s_names t !! s_brk t = None) as Hfresh by (apply eq_None_not_Some; intros Hs%Hbr; lia).
  split; [done|done|..].
  - intros x Hx. destruct (Ht x Hx); auto.
  - intros x Hx. destruct (Hu x Hx); auto.
  - eapply cells_rep_perm; [symmetry; exact Hp|]. rewrite Hn. apply (cells_rep_insert (live := id)); [done|..].
    + intros ([k' q] & -> & Hin)%list_elem_of_fmap. destruct (cl_live _ _ _ Hce _ _ Hin) as (? & _ & ?).
      simpl in *. congruence.
    + intros ([k' q] & Eq & Hin)%list_elem_of_fmap. destruct (cl_live _ _ _ Hce _ _ Hin) as (? & Hl & _).
      simpl in Eq. subst q. congruence.
  - intros q. rewrite Hn, Hp. intros [<-|[_ Hq%How]]%lookup_insert_is_Some; csimpl; set_solver.
  - intros q. rewrite Hn, Hb. intros [<-|[_ Hq%Hbr]]%lookup_insert_is_Some; lia.
Qed.

(** The entry of [k] is taken out of its slot and its name freed. *)
Definition without (k : ip_service) (p : positive) (t : serv_table) : serv_table :=
  set_array (key_slot k) (delete (is_port k) (array (key_slot k) t)) (set_names (delete p (s_names t)) (s_brk t) t).

Lemma array_drop t C m k p :
  serv_rep t C m -> key_slot k <> SlotOther -> array (key_slot k) t !! is_port k = Some p ->
  free_name (Some p) t = Some (set_names (delete p (s_names t)) (s_brk t) t) /\
  serv_rep (without k p t) C (delete k m).
Proof.
  intros Hr Hk Ha. pose proof (serv_slot_spec k) as Es.
  assert (entry t C k = Some p) as He by (unfold entry; by destruct (key_slot k)).
  pose proof (entry_lookup t C m k Hr) as Hl. rewrite He in Hl. destruct Hl as (nm & Hnm & _).
  split; [simpl; by rewrite Hnm|].
  assert (forall (a : gmap Z positive) x, is_Some (delete (is_port k) a !! x) -> is_Some (a !! x)) as Hd
    by (intros a x [_ ?]%lookup_delete_is_Some; done).
  destruct k as [port pr]. unfold without.
  destruct (key_slot (IpService port pr)) eqn:Ek; [..|done]; simpl in *; injection Es as ->;
    (eapply (rep_drop t C m _ C _ p Hr); [unfold owned; simpl|apply Hr|apply Hr|auto|auto|done|done]).
  - by rewrite (of_array_delete 6 (tcp t) port p Ha).
  - rewrite (of_array_delete 17 (udp t) port p Ha). simpl. symmetry. apply Permutation_middle.
Qed.

Lemma array_add t C m k nm :
  serv_rep t C m -> key_slot k <> SlotOther -> array (key_slot k) t !! is_port k = None -> m !! k = None ->
  let '(p, t1) := strdup nm t in
  serv_rep (set_array (key_slot k) (<[is_port k := p]> (array (key_slot k) t1)) t1) C (<[k := nm]> m).
Proof.
  intros Hr Hk Ha Hm. simpl. pose proof (serv_slot_spec k) as Es. destruct k as [port pr].
  destruct (key_slot (IpService port pr)) eqn:Ek; [..|done]; simpl in *; injection Es as ->;
    (eapply (rep_add t C m _ C _ nm Hr Hm); [unfold owned; simpl|apply Hr|apply Hr|..|done|done]).
  - by rewrite (of_array_insert 6 (tcp t) port _ Ha).
  - intros x Hx. cbn [tcp udp] in Hx. apply lookup_insert_is_Some in Hx as [<-|[_ ?]]; [by right|by left].
  - intros x Hx. by left.
  - rewrite (of_array_insert 17 (udp t) port _ Ha). simpl. symmetry. apply Permutation_middle.
  - intros x Hx. by left.
  - intros x Hx. cbn [tcp udp] in Hx. apply lookup_insert_is_Some in Hx as [<-|[_ ?]]; [by right|by left].
Qed.

Lemma other_drop t C m k p :
  serv_rep t C m -> key_slot k = SlotOther -> entry t C k = Some p ->
  exists h mm C', hash_delete (other t) (s_mem t) k = Some (HASH_STATUS_OK, h, mm) /\
    free_name (Some p) (set_other h mm t) = Some (set_names (delete p (s_names t)) (s_brk t) (set_other h mm t)) /\
    serv_rep (set_names (delete p (s_names t)) (s_brk t) (set_other h mm t)) C' (delete k m).
Proof.
  intros Hr Hk He. pose proof (entry_lookup t C m k Hr) as Hl. rewrite He in Hl. destruct Hl as (nm & Hnm & _).
  pose proof (hash_delete_spec other_key _ _ C k (sv_ops _ _ _ Hr) (sv_hash _ _ _ Hr) Hk) as Hd.
  unfold entry in He. rewrite Hk in He. rewrite He in Hd.
  destruct Hd as (h & mm & C' & -> & Hr' & Ho' & Hpop%pushed_perm).
  exists h, mm, C'. split; [done|]. split; [simpl; by rewrite Hnm|].
  eapply (rep_drop t C m _ C' k p Hr); [|done|done|done|done|done|done].
  unfold owned. simpl. rewrite Hpop, !app_assoc. symmetry. apply Permutation_middle.
Qed.

Lemma other_add t C m k nm :
  serv_rep t C m -> key_slot k = SlotOther -> m !! k = None ->
  let '(p, t1) := strdup nm t in
  exists h mm C', hash_insert (other t1) (s_mem t1) k p = Some (HASH_STATUS_OK, h, mm) /\
    serv_rep (set_other h mm t1) C' (<[k := nm]> m).
Proof.
  intros Hr Hk Hm. simpl.
  destruct (hash_insert_spec other_key _ _ C k (s_brk t) (sv_ops _ _ _ Hr) (sv_hash _ _ _ Hr) Hk)
    as (h & mm & C' & -> & Hr' & Ho' & Hpush%pushed_perm & _).
  exists h, mm, C'. split; [done|].
  eapply (rep_add t C m _ C' k nm Hr Hm); [|done|done|auto|auto|done|done].
  unfold owned. simpl. rewrite Hpush, !app_assoc. symmetry. apply Permutation_middle.
Qed.

(** ** The operations on the map of names *)
Lemma rep_count t C m n : serv_rep t C m -> serv_rep (set_count n t) C m.
Proof. intros []. by split. Qed.

Lemma serv_table_insert_spec t C m port protocol name :
  serv_rep t C m ->
  exists t' C', serv_table_insert t port protocol name = Some t' /\
    serv_rep t' C' (<[IpService port protocol := name]> m) /\ count t' = s32 (count t + 1).
Proof.
  intros Hr. set (k := IpService port protocol).
  assert (forall s, key_slot k = s -> s <> SlotOther ->
    exists t', (t0 ← free_name (array s t !! port) t;
      let '(p, t0) := strdup name t0 in Some (set_array s (<[port := p]> (array s t0)) t0)) = Some t' /\
      serv_rep t' C (<[k := name]> m) /\ count t' = count t) as Harr.
  { intros s <- Hs. destruct (array (key_slot k) t !! port) as [p|] eqn:Ea.
    - destruct (array_drop t C m k p Hr Hs Ea) as [-> Hd]. cbn [mbind option_bind].
      pose proof (array_add _ C _ k name Hd Hs) as Hadd. unfold strdup in *.
      eexists. split; [done|]. unfold without in Hadd. unfold k in *.
      destruct (key_slot (IpService port protocol)); [..|done]; simpl in *;
        (rewrite insert_delete_eq, insert_delete_eq in Hadd; split; [|done];
         apply Hadd; [apply lookup_delete_eq|apply lookup_delete_eq]).
    - simpl. eexists. split; [done|]. pose proof (entry_lookup t C m k Hr) as He.
      pose proof (array_add t C m k name Hr Hs Ea) as Hadd. unfold entry in He.
      destruct (key_slot k); [..|done]; simpl in *; rewrite Ea in He; split; try done; by apply Hadd. }
  unfold serv_table_insert. destruct (key_slot k) eqn:Ek; pose proof Ek as Ek'; unfold key_slot, k in Ek'; simpl in Ek'; rewrite Ek'.
  - destruct (Harr SlotTcp eq_refl) as (t' & -> & Ht' & Ec); [done|]. cbn [mbind option_bind].
    eexists _, C. split; [done|]. split; [by apply rep_count|]. simpl. by rewrite Ec.
  - destruct (Harr SlotUdp eq_refl) as (t' & -> & Ht' & Ec); [done|]. cbn [mbind option_bind].
    eexists _, C. split; [done|]. split; [by apply rep_count|]. simpl. by rewrite Ec.
  - cbv zeta. fold k. rewrite (hash_find_spec other_key _ _ C) by (done || apply Hr).
    pose proof (entry_lookup t C m k Hr) as Hl. destruct (entry t C k) as [p|] eqn:He.
    + pose proof He as Hf. unfold entry in Hf. rewrite Ek in Hf. rewrite Hf. cbn [mbind option_bind].
      destruct (other_drop t C m k p Hr Ek He) as (h & mm & C1 & -> & Hfr & Hd).
      cbn [mbind option_bind]. rewrite Hfr. cbn [mbind option_bind].
      pose proof (other_add _ C1 _ k name Hd Ek (lookup_delete_eq _ _)) as Hadd.
      destruct (strdup _ _) as [q t1] eqn:Es. destruct Hadd as (h' & mm' & C' & -> & Hr').
      cbn [mbind option_bind]. rewrite insert_delete_eq in Hr'. eexists _, C'. split; [done|].
      split; [by apply rep_count|]. by injection Es as <- <-.
    + pose proof He as Hf. unfold entry in Hf. rewrite Ek in Hf. rewrite Hf. cbn [mbind option_bind].
      pose proof (other_add t C m k name Hr Ek Hl) as Hadd.
      destruct (strdup _ _) as [q t1] eqn:Es. destruct Hadd as (h' & mm' & C' & -> & Hr').
      cbn [mbind option_bind]. eexists _, C'. split; [done|].
      split; [by apply rep_count|]. by injection Es as <- <-.
Qed.

Lemma serv_table_delete_spec t C m port protocol :
  serv_rep t C m ->
  exists t' C', serv_table_delete t port protocol =
      Some (if decide (is_Some (m !! IpService port protocol)) then 1 else 0, t') /\
    serv_rep t' C' (delete (IpService port protocol) m) /\
    count t' = if decide (is_Some (m !! IpService port protocol)) then s32 (count t - 1) else count t.
Proof.
  intros Hr. set (k := IpService port protocol).
  pose proof (entry_lookup t C m k Hr) as Hl.
  assert (entry t C k = None -> delete k m = m) as Hid.
  { intros E. rewrite E in Hl. by apply delete_id. }
  unfold serv_table_delete. destruct (key_slot k) eqn:Ek; pose proof Ek as Ek'; unfold key_slot, k in Ek'; simpl in Ek'; rewrite Ek'.
  1,2: pose proof (array_drop t C m k) as Hd; unfold entry in Hl, Hid; rewrite Ek in Hl, Hid, Hd; simpl in Hl, Hid, Hd.
  - cbn [array]. destruct (tcp t !! port) as [p|] eqn:Ea.
    + destruct (Hd p Hr) as [Hf Hr']; [done|done|]. destruct Hl as (nm & Hn & Hm). rewrite Hn in *. cbn [mbind option_bind free_name].
      rewrite Hn. cbn [mbind option_bind]. rewrite decide_True by eauto. eexists _, C. split; [done|].
      split; [|by rewrite decide_True by eauto]. apply rep_count. unfold without in Hr'. by rewrite Ek in Hr'.
    + rewrite !decide_False by (rewrite Hl; by intros []). exists t, C. by rewrite Hid.
  - cbn [array]. destruct (udp t !! port) as [p|] eqn:Ea.
    + destruct (Hd p Hr) as [Hf Hr']; [done|done|]. destruct Hl as (nm & Hn & Hm). rewrite Hn in *. cbn [mbind option_bind free_name].
      rewrite Hn. cbn [mbind option_bind]. rewrite decide_True by eauto. eexists _, C. split; [done|].
      split; [|by rewrite decide_True by eauto]. apply rep_count. unfold without in Hr'. by rewrite Ek in Hr'.
    + rewrite !decide_False by (rewrite Hl; by intros []). exists t, C. by rewrite Hid.
  - cbv zeta. fold k. rewrite (hash_find_spec other_key _ _ C) by (done || apply Hr).
    destruct (entry t C k) as [p|] eqn:He; pose proof He as Hf; unfold entry in Hf; rewrite Ek in Hf; rewrite Hf; cbn [mbind option_bind].
    + destruct (other_drop t C m k p Hr Ek He) as (h & mm & C1 & -> & Hfr & Hd).
      cbn [mbind option_bind]. rewrite Hfr. cbn [mbind option_bind].
      destruct Hl as (nm & _ & Hm). rewrite decide_True by eauto. eexists _, C1. split; [done|].
      split; [by apply rep_count|by rewrite decide_True by eauto].
    + rewrite !decide_False by (rewrite Hl; by intros []). exists t, C. by rewrite Hid.
Qed.

Lemma serv_table_create_rep :
  serv_rep serv_table_create (replicate (Z.to_nat OTHER_HASH_SIZE) []) ∅.
Proof.
  assert (owned serv_table_create (replicate (Z.to_nat OTHER_HASH_SIZE) []) = []) as Ho.
  { unfold owned. cbn [s_mem serv_table_create]. by rewrite concat_replicate_nil. }
  split; rewrite ?Ho.
  - apply _.
  - apply hash_initialise_spec; [done|]. intros z [? Hz]. cbn [nodes s_mem serv_table_create] in Hz.
    by rewrite lookup_empty in Hz.
  - intros p [? Hp]. cbn [tcp serv_table_create] in Hp. by rewrite lookup_empty in Hp.
  - intros p [? Hp]. cbn [udp serv_table_create] in Hp. by rewrite lookup_empty in Hp.
  - split; [apply NoDup_nil_2..| |]; [set_solver|]. intros k [? Hk]. by rewrite lookup_empty in Hk.
  - intros p [? Hp]. cbn [s_names serv_table_create] in Hp. by rewrite lookup_empty in Hp.
  - intros p [? Hp]. cbn [s_names serv_table_create] in Hp. by rewrite lookup_empty in Hp.
Qed.

(** ** Destruction *)
Lemma free_names_spec ps t :
  NoDup (omap id ps) -> (forall p, Some p ∈ ps -> is_Some (s_names t !! p)) ->
  exists ns, free_names ps t = Some (set_names ns (s_brk t) t) /\
    forall q, ns !! q = if decide (Some q ∈ ps) then None else s_names t !! q.
Proof.
  revert t. induction ps as [|[p|] ps IH]; intros t Hnd Hin; cbn [free_names].
  - exists (s_names t). split; [by destruct t|done].
  - csimpl in Hnd. apply NoDup_cons in Hnd as [Hp Hnd]. destruct (Hin p) as [nm Hnm]; [set_solver|].
    cbn [free_name]. rewrite Hnm. cbn [mbind option_bind].
    assert (Some p ∉ ps) as Hp'.
    { intros Hps. apply Hp. apply list_elem_of_omap. by exists (Some p). }
    destruct (IH (set_names (delete p (s_names t)) (s_brk t) t) Hnd) as (ns & -> & Hns).
    { intros q Hq. simpl. rewrite lookup_delete_ne by (by intros <-). apply Hin. set_solver. }
    exists ns. split; [done|]. intros q. rewrite Hns. simpl. destruct (decide (q = p)) as [->|Hqp].
    + rewrite decide_False, (decide_True _ _ (list_elem_of_here _ _)) by done. apply lookup_delete_eq.
    + rewrite lookup_delete_ne by done. do 2 case_decide; set_solver.
  - cbn [free_name mbind option_bind]. destruct (IH t) as (ns & -> & Hns); [done|set_solver|].
    exists ns. split; [done|]. intros q. rewrite Hns. do 2 case_decide; set_solver.
Qed.

Section destroy.
Context (t : serv_table) (C : list (list positive)) (m : gmap ip_service string) (Hr : serv_rep t C m).

Definition slots (ports : list Z) : list (option positive) := ports ≫= (fun i => [tcp t !! i; udp t !! i]).

Lemma elem_of_slots ports p :
  Some p ∈ slots ports <-> exists i, i ∈ ports /\ (tcp t !! i = Some p \/ udp t !! i = Some p).
Proof.
  unfold slots. rewrite list_elem_of_bind. split.
  - intros (i & Hp & Hi). exists i. split; [done|]. rewrite !elem_of_cons, elem_of_nil in Hp. naive_solver.
  - intros (i & Hi & Hp). exists i. split; [|done]. rewrite !elem_of_cons. naive_solver.
Qed.

Lemma slot_owned i p :
  (tcp t !! i = Some p -> (IpService i 6, p) ∈ owned t C) /\ (udp t !! i = Some p -> (IpService i 17, p) ∈ owned t C).
Proof.
  unfold owned. rewrite !elem_of_app, !elem_of_array. simpl. split; auto.
Qed.

Lemma owned_inj k k' p : (k, p) ∈ owned t C -> (k', p) ∈ owned t C -> k = k'.
Proof. apply NoDup_recs_inj. apply (sv_cells _ _ _ Hr). Qed.

Lemma slots_NoDup ports : NoDup ports -> NoDup (omap id (slots ports)).
Proof.
  induction ports as [|i ports IH]; [constructor|]. intros [Hi Hnd]%NoDup_cons. specialize (IH Hnd).
  unfold slots in *. cbn [mbind list_bind]. rewrite omap_app. apply NoDup_app. split_and!; [| |done].
  - csimpl. destruct (tcp t !! i) as [p|] eqn:E1, (udp t !! i) as [q|] eqn:E2; simpl;
      try apply NoDup_singleton; try apply NoDup_nil_2.
    apply NoDup_cons. split; [|apply NoDup_singleton]. intros ->%list_elem_of_singleton.
    destruct (slot_owned i q) as [H1 H2]. by pose proof (owned_inj _ _ _ (H1 E1) (H2 E2)).
  - intros p Hp Hps. apply list_elem_of_omap in Hps as ([q|] & Hps & Eq); [|done]. simpl in Eq. injection Eq as ->.
    apply (elem_of_slots ports p) in Hps as (j & Hj & Hpj). destruct Hi.
    assert (tcp t !! i = Some p \/ udp t !! i = Some p) as Hpi.
    { csimpl in Hp. destruct (tcp t !! i), (udp t !! i); simpl in Hp; set_solver. }
    destruct (slot_owned i p) as [H1 H2], (slot_owned j p) as [H3 H4].
    destruct Hpi as [Ei|Ei], Hpj as [Ej|Ej];
      [pose proof (owned_inj _ _ _ (H1 Ei) (H3 Ej)) as E|pose proof (owned_inj _ _ _ (H1 Ei) (H4 Ej)) as E|
       pose proof (owned_inj _ _ _ (H2 Ei) (H3 Ej)) as E|pose proof (owned_inj _ _ _ (H2 Ei) (H4 Ej)) as E];
      by injection E as ->.
Qed.

Lemma ports_in_range i : key_slot (IpService i 6) = SlotTcp \/ key_slot (IpService i 17) = SlotUdp ->
  i ∈ all_ports.
Proof.
  intros Hk. apply elem_of_all_ports. unfold key_slot, serv_slot in Hk. simpl in Hk.
  destruct (Z.ltb_spec i 0), (Z.leb_spec SERV_NUM_PORTS i); simpl in Hk; try lia; naive_solver.
Qed.

Lemma serv_table_destroy_spec : serv_table_destroy t = Some ∅.
Proof.
  unfold serv_table_destroy. set (ports := all_ports).
  change (ports ≫= (fun i => [tcp t !! i; udp t !! i])) with (slots ports).
  assert (forall p, Some p ∈ slots ports -> p ∈ (of_array 6 (tcp t) ++ of_array 17 (udp t)).*2) as Hsl.
  { intros p (i & _ & Hp)%elem_of_slots. apply list_elem_of_fmap.
    destruct Hp as [Hp|Hp]; [exists (IpService i 6, p)|exists (IpService i 17, p)];
      (split; [done|]); rewrite elem_of_app, !elem_of_array; auto. }
  assert (forall p, p ∈ (owned t C).*2 -> is_Some (s_names t !! p)) as Hlive.
  { intros p ([k q] & -> & Hin)%list_elem_of_fmap. destruct (cl_live _ _ _ (sv_cells _ _ _ Hr) _ _ Hin) as (? & ? & _).
    simpl. eauto. }
  pose proof (cl_recs _ _ _ (sv_cells _ _ _ Hr)) as Hnd.
  assert (owned t C = (of_array 6 (tcp t) ++ of_array 17 (udp t)) ++ contents (nodes (s_mem t)) (concat C)) as Eo
    by (unfold owned; by rewrite app_assoc).
  rewrite Eo, fmap_app in Hnd, Hlive. apply NoDup_app in Hnd as (_ & Hdisj & Hnd2).
  destruct (free_names_spec (slots ports) t) as (ns & -> & Hns).
  { apply slots_NoDup, all_ports_NoDup. }
  { intros p Hp. apply Hlive. rewrite elem_of_app. auto. }
  cbn [mbind option_bind other s_mem set_names].
  destruct (hash_delete_all_free_spec other_key _ _ C (sv_ops _ _ _ Hr) (sv_hash _ _ _ Hr)) as (h & mm & -> & _).
  cbn [mbind option_bind].
  set (freed := (contents (nodes (s_mem t)) (concat C)).*2) in *.
  match goal with |- context [free_names _ ?x] => destruct (free_names_spec (Some <$> freed) x) as (ns' & -> & Hns') end.
  { assert (omap id (Some <$> freed) = freed) as ->; [|done]. clear. induction freed as [|x l IH]; csimpl; [done|]. by rewrite IH. }
  { intros p (q & [= <-] & Hq)%list_elem_of_fmap. simpl. rewrite Hns. rewrite decide_False.
    - apply Hlive. rewrite elem_of_app. auto.
    - intros Hs%Hsl. by apply (Hdisj p). }
  cbn [mbind option_bind s_names set_names set_other]. f_equal. apply map_eq. intros p. rewrite lookup_empty, Hns'.
  case_decide as Hf; [done|]. simpl. rewrite Hns. case_decide as Hs; [done|].
  apply eq_None_not_Some. intros Hp%(sv_owned _ _ _ Hr). rewrite Eo, fmap_app, elem_of_app in Hp.
  destruct Hp as [Hp|Hp].
  - apply Hs. apply elem_of_slots. apply list_elem_of_fmap in Hp as ([k q] & -> & Hk).
    rewrite elem_of_app, !elem_of_array in Hk. simpl in *. exists (is_port k). destruct Hk as [[Hk _]|[Hk _]].
    + split; [|by left]. apply ports_in_range. left. apply (sv_tcp _ _ _ Hr). eauto.
    + split; [|by right]. apply ports_in_range. right. apply (sv_udp _ _ _ Hr). eauto.
  - apply Hf. apply list_elem_of_fmap. by exists p.
Qed.
End destroy.

(** ** Properties *)
Inductive serv_op :=
  | OpInsert (port protocol : Z) (name : string)
  | OpDelete (port protocol : Z)
  | OpLookup (port protocol : Z).

(** The answers: a name, or the number that a deletion returns. *)
Fixpoint serv_run (ops : list serv_op) (t : serv_table) : option (list (option string + Z) * serv_table) :=
  match ops with
  | [] => Some ([], t)
  | OpInsert p q n :: ops => t ← serv_table_insert t p q n; serv_run ops t
  | OpDelete p q :: ops =>
      '(r, t) ← serv_table_delete t p q; '(l, t) ← serv_run ops t; Some (inr r :: l, t)
  | OpLookup p q :: ops =>
      r ← serv_table_lookup t p q; '(l, t) ← serv_run ops t; Some (inl r :: l, t)
  end.

Fixpoint serv_spec (ops : list serv_op) (m : gmap ip_service string) : list (option string + Z) :=
  match ops with
  | [] => []
  | OpInsert p q n :: ops => serv_spec ops (<[IpService p q := n]> m)
  | OpDelete p q :: ops =>
      inr (if decide (is_Some (m !! IpService p q)) then 1 else 0) :: serv_spec ops (delete (IpService p q) m)
  | OpLookup p q :: ops => inl (m !! IpService p q) :: serv_spec ops m
  end.

(** The names that serv_table_init gives: the last service of each key. *)
Fixpoint services_map (getprotobyname : string -> option Z) (ents : list (Z * string * string))
    (m : gmap ip_service string) : gmap ip_service string :=
  match ents with
  | [] => m
  | (port, proto, name) :: ents =>
      services_map getprotobyname ents
        (match getprotobyname proto with Some p => <[IpService port p := name]> m | None => m end)
  end.

Lemma serv_table_init_spec getprotobyname ents t C m :
  serv_rep t C m -> exists t' C', serv_table_init getprotobyname ents t = Some t' /\
    serv_rep t' C' (services_map getprotobyname ents m).
Proof.
  revert t C m. induction ents as [|[[port proto] name] ents IH]; intros t C m Hr; cbn [serv_table_init services_map].
  - by exists t, C.
  - destruct (getprotobyname proto) as [p|]; cbn [mbind option_bind]; [|exact (IH _ _ _ Hr)].
    destruct (serv_table_insert_spec t C m port p name Hr) as (t1 & C1 & -> & H1 & _). cbn [mbind option_bind].
    exact (IH _ _ _ H1).
Qed.

Lemma serv_run_spec ops t C m :
  serv_rep t C m -> exists t' C' m', serv_run ops t = Some (serv_spec ops m, t') /\ serv_rep t' C' m'.
Proof.
  revert t C m. induction ops as [|[p q n|p q|p q] ops IH]; intros t C m Hr; cbn [serv_run serv_spec].
  - by exists t, C, m.
  - destruct (serv_table_insert_spec t C m p q n Hr) as (t1 & C1 & -> & H1 & _). cbn [mbind option_bind].
    exact (IH _ _ _ H1).
  - destruct (serv_table_delete_spec t C m p q Hr) as (t1 & C1 & -> & H1 & _). cbn [mbind option_bind].
    destruct (IH _ _ _ H1) as (t' & C' & m' & -> & H'). by exists t', C', m'.
  - rewrite (serv_table_lookup_spec t C m p q Hr). cbn [mbind option_bind].
    destruct (IH _ _ _ Hr) as (t' & C' & m' & -> & H'). by exists t', C', m'.
Qed.

(** C13: the table of service names is a map from ports and protocols to names:
    every sequence of insertions, deletions and lookups of any numbers (the
    array slots of TCP and UDP, ports out of range, other protocols) gives the
    answers of the map, reads and frees no freed name, and the destruction
    frees every name exactly once. *)
Theorem serv_table_refines_map (ops : list serv_op) :
  exists t, serv_run ops serv_table_create = Some (serv_spec ops ∅, t) /\ serv_table_destroy t = Some ∅.
Proof.
  destruct (serv_run_spec ops _ _ _ serv_table_create_rep) as (t & C & m & E & Hr).
  exists t. split; [done|]. by eapply serv_table_destroy_spec.
Qed.

(** [count] is incremented when a name is replaced: it is not the number of names. *)
Lemma overwrite_counts_twice :
  (fun t => (serv_table_count t, size (s_names t))) <$>
    (t ← serv_table_insert serv_table_create 80 6 "http"; serv_table_insert t 80 6 "www") = Some (2, 1%nat).
Proof. by vm_compute. Qed.
