(* ===== verification/Resolver.v ===== *)
(** * Name resolution (src/util/resolver.c)

    resolve(), run by the display, and the worker threads share the table of
    names and a ring of 20 addresses under one mutex.  A critical section is
    one step; the C strings of the table live in a heap, so that a name freed
    twice, read after it is freed or read before it is written, has no result.
    What do_resolve finds and what inet_ntop prints are arguments; inet_ntop
    fails for an address family that it does not know, and then writes nothing. *)

From S2P Require Import Prelude Records Bytes Chain Hash CStr OptionsT NsHash NetFilter.
From S2P Require Packet.

Local Open Scope Z_scope.

Definition RESOLVE_QUEUE_LENGTH : Z := 20.

(** The globals of resolver.c and the heap of the names. *)
Record resolver := Resolver {
  ns_hash : hash_type addr_storage;
  r_mem : mem addr_storage positive;
  ns_hash_n_entries : Z;
  names : gmap positive (option string);   (* None: not written yet *)
  names_brk : positive;
  resolve_queue : list addr_storage;
  r_head : Z;
  r_tail : Z
}.

Definition set_table (h : hash_type addr_storage) (m : mem addr_storage positive) (n : Z)
    (s : resolver) : resolver :=
  Resolver h m n (names s) (names_brk s) (resolve_queue s) (r_head s) (r_tail s).

Definition set_names (ns : gmap positive (option string)) (b : positive) (s : resolver) : resolver :=
  Resolver (ns_hash s) (r_mem s) (ns_hash_n_entries s) ns b (resolve_queue s) (r_head s) (r_tail s).

Definition set_queue (q : list addr_storage) (h t : Z) (s : resolver) : resolver :=
  Resolver (ns_hash s) (r_mem s) (ns_hash_n_entries s) (names s) (names_brk s) q h t.

(** A fresh string holding [nm], or nothing yet; the release of one. *)
Definition new_name (nm : option string) (s : resolver) : positive * resolver :=
  (names_brk s, set_names (<[names_brk s := nm]> (names s)) (Pos.succ (names_brk s)) s).

Definition xfree_name (p : positive) (s : resolver) : option resolver :=
  _ ← names s !! p; Some (set_names (delete p (names s)) (names_brk s) s).

Fixpoint xfree_names (ps : list positive) (s : resolver) : option resolver :=
  match ps with
  | [] => Some s
  | p :: ps => s ← xfree_name p s; xfree_names ps s
  end.

Definition zero_as : addr_storage := AddrStorage 0 0 (replicate 16 0).

Definition resolver_initialise : resolver :=
  Resolver ns_hash_create (Mem ∅ 1) 0 ∅ 1 (replicate (Z.to_nat RESOLVE_QUEUE_LENGTH) zero_as) 0 0.

(** ** resolver_worker *)

(** [while (head != tail)]: the address to resolve next. *)
Definition worker_take (s : resolver) : option (option addr_storage * resolver) :=
  if r_head s =? r_tail s then Some (None, s)
  else
    a ← resolve_queue s !!z r_tail s;
    Some (Some a, set_queue (resolve_queue s) (r_head s) ((r_tail s + 1) mod RESOLVE_QUEUE_LENGTH) s).

(** What do_resolve returned for [a] goes into the table. *)
Definition worker_store (a : addr_storage) (hostname : option string) (s : resolver) : option resolver :=
  match hostname with
  | None => Some s
  | Some nm =>
      let '(p, s) := new_name (Some nm) s in
      '(st, old) ← hash_find (ns_hash s) (r_mem s) a;
      s ← match old with
          | Some old =>
              '(_, h, m) ← hash_delete (ns_hash s) (r_mem s) a;
              xfree_name old (set_table h m (ns_hash_n_entries s) s)
          | None => Some (set_table (ns_hash s) (r_mem s) (s32 (ns_hash_n_entries s + 1)) s)
          end;
      '(_, h, m) ← hash_insert (ns_hash s) (r_mem s) a p;
      Some (set_table h m (ns_hash_n_entries s) s)
  end.

(** ** resolve *)
Definition make_raddr (af : Z) (addr : list Z) : addr_storage :=
  let n := if af =? 2 then 4 else 16 in
  AddrStorage af n (take (Z.to_nat n) addr ++ replicate (16 - Z.to_nat n) 0).

(** Is the queue full; does the address stay numerical. *)
Definition queue_full (s : resolver) : bool := (r_head s + 1) mod RESOLVE_QUEUE_LENGTH =? r_tail s.
Definition stays_numeric (a : addr_storage) : bool :=
  (as_family a =? 10) && (Packet.linklocal6 (as_addr a) || sitelocal6 (as_addr a)).

(** [resolve_queue[head] = *raddr]; the second component is [added]. *)
Definition enqueue (a : addr_storage) (s : resolver) : option (resolver * bool) :=
  if queue_full s then Some (s, false)
  else if stays_numeric a then Some (s, false)
  else
    q ← store_z (resolve_queue s) (r_head s) a;
    Some (set_queue q ((r_head s + 1) mod RESOLVE_QUEUE_LENGTH) (r_tail s) s, true).

(** The buffer for the name is what inet_ntop makes of it. *)
Definition add_unresolved (ntop : addr_storage -> option string) (a : addr_storage) (s : resolver) :
    option (positive * resolver * bool) :=
  '(_, h, m, n, freed) ← ns_hash_evict_if_full (ns_hash s) (r_mem s) (ns_hash_n_entries s) NS_HASH_MAX_ENTRIES;
  s ← xfree_names freed (set_table h m n s);
  let '(hostname, s) := new_name (ntop a) s in
  '(_, h, m) ← hash_insert (ns_hash s) (r_mem s) a hostname;
  '(s, added) ← enqueue a (set_table h m (s32 (n + 1)) s);
  Some (hostname, s, added).

(** The string left in [result] (when it is written at all), the new state and
    whether a worker is to be signalled. *)
Definition resolve (o : options_t) (ntop : addr_storage -> option string) (af : Z) (addr : list Z)
    (result : bool) (buflen : Z) (s : resolver) : option (option string * resolver * bool) :=
  if dnsresolution o =? 1 then
    let raddr := make_raddr af addr in
    '(st, found) ← hash_find (ns_hash s) (r_mem s) raddr;
    '(hostname, s, added) ←
      match found with
      | Some hostname => Some (hostname, s, false)
      | None => add_unresolved ntop raddr s
      end;
    out ← (if result && (1 <? buflen) then
             name ← mjoin (names s !! hostname); Some (Some (strncpy (buflen - 1) name))
           else Some None);
    Some (out, s, added)
  else Some (None, s, false).

(** ** The threads *)
Inductive worker :=
  | Starting                      (* pthread_create has returned *)
  | Waiting                       (* in pthread_cond_wait *)
  | Woken                         (* signalled, about to test the queue *)
  | Resolving (a : addr_storage). (* in do_resolve, without the mutex *)

(** [signals]: the resolve() calls that have released the mutex and not yet
    called pthread_cond_signal. *)
Record resolver_sys := ResolverSys { monitor : resolver; workers : list worker; signals : nat }.

Definition next_job (a : option addr_storage) : worker :=
  match a with Some a => Resolving a | None => Waiting end.

(** do_resolve, of which only the names it may give an address matter, finds
    one or none. *)
Definition may_answer (do_resolve : addr_storage -> string -> Prop) (a : addr_storage) (hostname : option string) : Prop :=
  match hostname with Some nm => do_resolve a nm | None => True end.

Inductive resolver_step (ntop : addr_storage -> option string) (do_resolve : addr_storage -> string -> Prop) : resolver_sys -> resolver_sys -> Prop :=
  | step_resolve o af addr result buflen s ws n out s' added :
      resolve o ntop af addr result buflen s = Some (out, s', added) ->
      length addr = (if Z.eqb af 2 then 4 else 16)%nat -> bytes_ok addr ->
      resolver_step ntop do_resolve (ResolverSys s ws n) (ResolverSys s' ws (if added then S n else n))
  (* pthread_cond_signal with nobody waiting is lost *)
  | step_signal_lost s ws n :
      Waiting ∉ ws -> resolver_step ntop do_resolve (ResolverSys s ws (S n)) (ResolverSys s ws n)
  | step_signal s ws n i :
      ws !! i = Some Waiting ->
      resolver_step ntop do_resolve (ResolverSys s ws (S n)) (ResolverSys s (<[i := Woken]> ws) n)
  (* POSIX lets the wait return on its own *)
  | step_spurious s ws n i :
      ws !! i = Some Waiting ->
      resolver_step ntop do_resolve (ResolverSys s ws n) (ResolverSys s (<[i := Woken]> ws) n)
  | step_start s ws n i :
      ws !! i = Some Starting ->
      resolver_step ntop do_resolve (ResolverSys s ws n) (ResolverSys s (<[i := Waiting]> ws) n)
  | step_take s ws n i a s' :
      ws !! i = Some Woken -> worker_take s = Some (a, s') ->
      resolver_step ntop do_resolve (ResolverSys s ws n) (ResolverSys s' (<[i := next_job a]> ws) n)
  | step_store s ws n i a hostname s1 b s' :
      ws !! i = Some (Resolving a) -> may_answer do_resolve a hostname -> worker_store a hostname s = Some s1 ->
      worker_take s1 = Some (b, s') ->
      resolver_step ntop do_resolve (ResolverSys s ws n) (ResolverSys s' (<[i := next_job b]> ws) n).

Definition resolver_start : resolver_sys := ResolverSys resolver_initialise [Starting; Starting] 0.

(** ** The specification: a map of names and a queue of at most 19 addresses *)
Record resolver_spec := ResolverSpec { sp_names : gmap addr_storage (option string); sp_queue : list addr_storage }.

Definition spec_evict (m : gmap addr_storage (option string)) : gmap addr_storage (option string) :=
  if NS_HASH_MAX_ENTRIES <=? Z.of_nat (size m) then ∅ else m.

Definition spec_enqueue (a : addr_storage) (q : list addr_storage) : list addr_storage * bool :=
  if (length q =? 19)%nat || stays_numeric a then (q, false) else (q ++ [a], true).

(** The name that resolve() finds; None when it has not been written. *)
Definition spec_resolve (ntop : addr_storage -> option string) (a : addr_storage) (sp : resolver_spec) :
    option string * resolver_spec * bool :=
  match sp_names sp !! a with
  | Some nm => (nm, sp, false)
  | None =>
      let '(q, added) := spec_enqueue a (sp_queue sp) in
      (ntop a, ResolverSpec (<[a := ntop a]> (spec_evict (sp_names sp))) q, added)
  end.

Definition spec_take (sp : resolver_spec) : option addr_storage * resolver_spec :=
  match sp_queue sp with
  | [] => (None, sp)
  | a :: q => (Some a, ResolverSpec (sp_names sp) q)
  end.

Definition spec_store (a : addr_storage) (hostname : option string) (sp : resolver_spec) : resolver_spec :=
  match hostname with
  | None => sp
  | Some nm => ResolverSpec (<[a := Some nm]> (sp_names sp)) (sp_queue sp)
  end.

(** ** The ring *)
Record ring_rep {A} (q : list A) (h t : Z) (l : list A) : Prop := RingRep {
  ring_len : length q = 20%nat;
  ring_h : 0 <= h < RESOLVE_QUEUE_LENGTH;
  ring_t : 0 <= t < RESOLVE_QUEUE_LENGTH;
  ring_size : Z.of_nat (length l) = (h - t) mod RESOLVE_QUEUE_LENGTH;
  ring_get i x : l !! i = Some x -> q !!z ((t + Z.of_nat i) mod RESOLVE_QUEUE_LENGTH) = Some x
}.

Ltac ring_lia := unfold RESOLVE_QUEUE_LENGTH in *; Z.to_euclidean_division_equations; lia.

Section ring.
Context {A : Type}.
Implicit Types (q l : list A).

Lemma ring_empty q h t l : ring_rep q h t l -> h =? t = bool_decide (l = []).
Proof.
  intros [? ? ? Hs _]. destruct l as [|x l]; [rewrite bool_decide_true by done|rewrite bool_decide_false by done].
  - apply Z.eqb_eq. simpl in Hs. ring_lia.
  - apply Z.eqb_neq. simpl in Hs. ring_lia.
Qed.

Lemma ring_full q h t l : ring_rep q h t l -> ((h + 1) mod RESOLVE_QUEUE_LENGTH =? t) = (length l =? 19)%nat.
Proof.
  intros [? ? ? Hs _]. destruct (Nat.eqb_spec (length l) 19) as [E|E]; [apply Z.eqb_eq|apply Z.eqb_neq]; ring_lia.
Qed.

Lemma ring_bound q h t l : ring_rep q h t l -> (length l <= 19)%nat.
Proof. intros [? ? ? Hs _]. ring_lia. Qed.

Lemma ring_take q h t x l :
  ring_rep q h t (x :: l) -> q !!z t = Some x /\ ring_rep q h ((t + 1) mod RESOLVE_QUEUE_LENGTH) l.
Proof.
  intros [Hl Hh Ht Hs Hg]. simpl in Hs. split.
  - rewrite <- (Hg 0%nat x) by done. f_equal. ring_lia.
  - split; [done|done|ring_lia|ring_lia|]. intros i y Hi. rewrite <- (Hg (S i) y Hi). f_equal. ring_lia.
Qed.

Lemma ring_put q h t l x :
  ring_rep q h t l -> length l <> 19%nat ->
  exists q', store_z q h x = Some q' /\ ring_rep q' ((h + 1) mod RESOLVE_QUEUE_LENGTH) t (l ++ [x]).
Proof.
  intros [Hl Hh Ht Hs Hg] Hf.
  eexists. split. { apply store_z_Some. split; [|done]. ring_lia. }
  split; [by rewrite length_insert|ring_lia|done|rewrite length_app; simpl; ring_lia|].
  intros i y [Hi|(Hi & Hy)]%lookup_snoc_Some.
  - destruct Hi as [Hlt Hi]. rewrite <- (Hg i y Hi). unfold lookup_z.
    rewrite (proj2 (Z.leb_le _ _)) by ring_lia. rewrite list_lookup_insert_ne; [done|].
    ring_lia.
  - subst. rewrite Hs. replace ((t + (h - t) mod RESOLVE_QUEUE_LENGTH) mod RESOLVE_QUEUE_LENGTH) with h by ring_lia.
    unfold lookup_z. rewrite (proj2 (Z.leb_le _ _)) by lia. apply list_lookup_insert_eq. ring_lia.
Qed.
End ring.

(** ** The representation *)
Definition bindings (s : resolver) (C : list (list positive)) : list (addr_storage * positive) :=
  contents (nodes (r_mem s)) (concat C).

(** [held]: strings that are not in the table yet. *)
Record table_rep (s : resolver) (held : list positive) (m : gmap addr_storage (option string))
    (C : list (list positive)) : Prop := TableRep {
  tr_ops : HashOps (ns_hash s) valid_as;
  tr_hash : hash_rep valid_as (ns_hash s) (r_mem s) C;
  tr_names : cells_rep id (bindings s C) (names s) m;
  tr_owned p : is_Some (names s !! p) -> p ∈ held ++ (bindings s C).*2;
  tr_held p : p ∈ held -> p ∉ (bindings s C).*2;
  tr_brk p : is_Some (names s !! p) -> (p < names_brk s)%positive
}.

Lemma bindings_keys s held m C a nm :
  table_rep s held m C -> m !! a = Some nm ->
  exists p, first_match a (bindings s C) = Some p /\ (a, p) ∈ bindings s C /\ names s !! p = Some nm.
Proof.
  intros Hr Ha. destruct Hr as [_ _ Hn _ _ _].
  destruct (proj1 (list_elem_of_fmap _ _ _) (cl_dom _ _ _ Hn a ltac:(eauto))) as ([a' p] & -> & Hin).
  exists p. split_and!; [|done|].
  - apply first_match_elem; [apply Hn|done].
  - destruct (cl_live _ _ _ Hn _ _ Hin) as (h & -> & Hm). simpl in Ha. by simplify_eq.
Qed.

Lemma bindings_absent s held m C a :
  table_rep s held m C -> m !! a = None -> first_match a (bindings s C) = None.
Proof.
  intros Hr Ha. apply first_match_None. intros ([a' p] & -> & Hin)%list_elem_of_fmap.
  destruct (cl_live _ _ _ (tr_names _ _ _ _ Hr) _ _ Hin) as (h & _ & Hm). simpl in *. congruence.
Qed.

Lemma table_find s held m C a :
  table_rep s held m C -> valid_as a ->
  match m !! a with
  | Some nm => exists p, hash_find (ns_hash s) (r_mem s) a = Some (HASH_STATUS_OK, Some p) /\
      names s !! p = Some nm /\ p ∉ held
  | None => hash_find (ns_hash s) (r_mem s) a = Some (HASH_STATUS_KEY_NOT_FOUND, None)
  end.
Proof.
  intros Hr Ha. rewrite (hash_find_spec valid_as _ _ C a) by (done || apply Hr).
  fold (bindings s C). destruct (m !! a) as [nm|] eqn:E.
  - destruct (bindings_keys _ _ _ _ _ _ Hr E) as (p & -> & Hin & Hp). exists p. split_and!; [done..|].
    intros Hh. apply (tr_held _ _ _ _ Hr p Hh). by eapply elem_of_recs.
  - by rewrite (bindings_absent _ _ _ _ _ Hr E).
Qed.

Lemma table_new s m C nm :
  table_rep s [] m C ->
  let '(p, s') := new_name nm s in table_rep s' [p] m C /\ names s' !! p = Some nm.
Proof.
  intros Hr. simpl. assert (names s !! names_brk s = None) as Hf.
  { apply eq_None_not_Some. intros Hp%(tr_brk _ _ _ _ Hr). lia. }
  assert (names_brk s ∉ (bindings s C).*2) as Hfr.
  { intros ([a p] & Hp & Hin)%list_elem_of_fmap. simpl in Hp. subst p.
    destruct (cl_live _ _ _ (tr_names _ _ _ _ Hr) _ _ Hin) as (h & Hl & _). congruence. }
  destruct Hr as [Ho Hh Hn Hw Hd Hb]. split; [|apply lookup_insert_eq]. split; simpl; [done|done|..].
  - eapply cells_rep_frame; [exact Hn|]. intros p Hp. apply lookup_insert_ne. intros <-. done.
  - intros p [<-|[_ Hp]]%lookup_insert_is_Some; [set_solver|]. apply elem_of_cons. right. by apply Hw.
  - by intros p ->%list_elem_of_singleton.
  - intros p [<-|[_ Hp%Hb]]%lookup_insert_is_Some; lia.
Qed.

Lemma table_insert s m C a p nm n :
  table_rep s [p] m C -> valid_as a -> m !! a = None -> names s !! p = Some nm ->
  exists h m' C', hash_insert (ns_hash s) (r_mem s) a p = Some (HASH_STATUS_OK, h, m') /\
    table_rep (set_table h m' n s) [] (<[a := nm]> m) C'.
Proof.
  intros Hr Ha Hm Hp. destruct Hr as [Ho Hh Hn Hw Hd Hb] eqn:Er.
  destruct (hash_insert_spec valid_as _ _ C a p Ho Hh Ha) as (h & m' & C' & Hi & Hr' & Ho' & Hpush & _).
  exists h, m', C'. split; [done|]. apply pushed_perm in Hpush.
  assert (p ∉ (bindings s C).*2) as Hpn by (apply Hd; set_solver).
  split; [done|done|..]; unfold bindings; simpl; fold (bindings s C) in Hpush.
  - eapply cells_rep_perm; [symmetry; exact Hpush|].
    rewrite <- (insert_id (names s) p nm Hp). apply (cells_rep_insert (live := id)); [done| |done].
    intros ([a' q] & -> & Hin)%list_elem_of_fmap. simpl in Hm.
    destruct (cl_live _ _ _ Hn _ _ Hin) as (? & _ & ?). congruence.
  - intros q Hq%Hw. rewrite Hpush. exact Hq.
  - intros q Hq. set_solver.
  - exact Hb.
Qed.

Lemma table_delete s held m C a nm n :
  table_rep s held m C -> valid_as a -> m !! a = Some nm ->
  exists p h m' C' s', hash_find (ns_hash s) (r_mem s) a = Some (HASH_STATUS_OK, Some p) /\
    hash_delete (ns_hash s) (r_mem s) a = Some (HASH_STATUS_OK, h, m') /\
    xfree_name p (set_table h m' n s) = Some s' /\ table_rep s' held (delete a m) C' /\
    s' = set_names (delete p (names s)) (names_brk s) (set_table h m' n s) /\ p ∉ held.
Proof.
  intros Hr Ha Hm. destruct (bindings_keys _ _ _ _ _ _ Hr Hm) as (p & Hf & Hin & Hp).
  destruct Hr as [Ho Hh Hn Hw Hd Hb].
  pose proof (hash_delete_spec valid_as _ _ C a Ho Hh Ha) as Hdel.
  fold (bindings s C) in Hdel. rewrite Hf in Hdel.
  destruct Hdel as (h & m' & C' & Hdel & Hr' & Ho' & Hpop). apply pushed_perm in Hpop.
  assert (p ∉ held) as Hph by (intros Hph; apply (Hd p Hph); by eapply elem_of_recs).
  exists p, h, m', C'. eexists. split_and!.
  - rewrite (hash_find_spec valid_as _ _ C a) by done. fold (bindings s C). by rewrite Hf.
  - done.
  - unfold xfree_name. simpl. by rewrite Hp.
  - pose proof (cells_rep_perm _ _ _ _ Hpop Hn) as Hn'.
    assert (p ∉ (contents (nodes m') (concat C')).*2) as Hpn.
    { apply NoDup_cons with (l := (contents (nodes m') (concat C')).*2). exact (cl_recs _ _ _ Hn'). }
    split; [done|done|..]; unfold bindings; simpl.
    + eapply cells_rep_delete; [exact Hn'|]. intros q Hq. apply lookup_delete_ne. by intros <-.
    + intros q [Hne Hq%Hw]%lookup_delete_is_Some. rewrite Hpop in Hq. set_solver.
    + intros q Hq Hq'. apply (Hd q Hq). rewrite Hpop. set_solver.
    + intros q [_ Hq]%lookup_delete_is_Some. auto.
  - done.
  - done.
Qed.

Lemma xfree_names_spec ps s :
  NoDup ps -> (forall p, p ∈ ps -> is_Some (names s !! p)) ->
  exists ns, xfree_names ps s = Some (set_names ns (names_brk s) s) /\
    forall p, ns !! p = if decide (p ∈ ps) then None else names s !! p.
Proof.
  revert s. induction ps as [|p ps IH]; intros s Hnd Hin; simpl.
  - exists (names s). split; [by destruct s|done].
  - apply NoDup_cons in Hnd as [Hp Hnd]. destruct (Hin p) as [nm Hnm]; [set_solver|].
    unfold xfree_name at 1. rewrite Hnm. simpl.
    destruct (IH (set_names (delete p (names s)) (names_brk s) s) Hnd) as (ns & -> & Hns).
    { intros q Hq. simpl. rewrite lookup_delete_ne by (by intros <-). apply Hin. set_solver. }
    exists ns. split; [done|]. intros q. rewrite Hns. simpl.
    destruct (decide (q = p)) as [->|Hqp].
    + rewrite decide_False, (decide_True _ _ (list_elem_of_here _ _)) by done. apply lookup_delete_eq.
    + rewrite lookup_delete_ne by done. do 2 case_decide; set_solver.
Qed.

Lemma table_evict s m C n max :
  table_rep s [] m C -> n = Z.of_nat (size m) ->
  let m' := if max <=? n then ∅ else m in
  exists r h mm freed s' C', ns_hash_evict_if_full (ns_hash s) (r_mem s) n max =
      Some (r, h, mm, Z.of_nat (size m'), freed) /\
    xfree_names freed (set_table h mm (Z.of_nat (size m')) s) = Some s' /\ table_rep s' [] m' C' /\
    s' = set_names (names s') (names_brk s) (set_table h mm (Z.of_nat (size m')) s).
Proof.
  intros Hr Hn. unfold ns_hash_evict_if_full. destruct (max <=? n); simpl.
  - destruct Hr as [Ho Hh Hna Hw Hd Hb].
    destruct (hash_delete_all_free_spec valid_as _ _ C Ho Hh) as (h & mm & -> & Hr' & Ho' & Hz).
    fold (bindings s C). simpl. rewrite map_size_empty. simpl.
    destruct (xfree_names_spec ((bindings s C).*2) (set_table h mm 0 s)) as (ns & Hf & Hns).
    { apply Hna. }
    { intros p ([a q] & -> & Hin)%list_elem_of_fmap. simpl.
      destruct (cl_live _ _ _ Hna _ _ Hin) as (? & ? & _). eauto. }
    do 6 eexists. split_and!; [done|exact Hf| |done].
    assert (forall p, ns !! p = None) as Hnil.
    { intros p. rewrite Hns. case_decide as Hp; [done|]. simpl. apply eq_None_not_Some.
      intros Hs%Hw. set_solver. }
    split; [done|exact Hr'|..]; unfold bindings; cbn [r_mem set_table set_names names names_brk];
      rewrite ?concat_replicate_nil.
    + split; [apply NoDup_nil_2..| |]; [set_solver|]. intros k [? Hk]. by rewrite lookup_empty in Hk.
    + intros p [? Hp]. congruence.
    + intros p Hp. set_solver.
    + intros p [? Hp]. congruence.
  - do 6 eexists. rewrite Hn. split_and!; [done|done| |].
    + destruct Hr. by split.
    + by destruct s.
Qed.

Record resolver_rep (s : resolver) (sp : resolver_spec) (C : list (list positive)) : Prop := ResolverRep {
  rr_table : table_rep s [] (sp_names sp) C;
  rr_count : ns_hash_n_entries s = Z.of_nat (size (sp_names sp));
  rr_queue : ring_rep (resolve_queue s) (r_head s) (r_tail s) (sp_queue sp);
  rr_jobs : Forall valid_as (sp_queue sp)
}.

Lemma resolver_initialise_rep :
  resolver_rep resolver_initialise (ResolverSpec ∅ []) (replicate (Z.to_nat ns_hash_table_size) []).
Proof.
  assert (bindings resolver_initialise (replicate (Z.to_nat ns_hash_table_size) []) = []) as Hb.
  { unfold bindings. cbn [r_mem resolver_initialise]. by rewrite concat_replicate_nil. }
  split; [split; rewrite ?Hb|..]; cbn [sp_names sp_queue].
  - apply _.
  - apply hash_initialise_spec; [done|]. intros z [? Hz]. cbn [nodes r_mem resolver_initialise] in Hz.
    by rewrite lookup_empty in Hz.
  - split; [apply NoDup_nil_2..| |]; [set_solver|]. intros k [? Hk]. by rewrite lookup_empty in Hk.
  - intros p [? Hp]. cbn [names resolver_initialise] in Hp. by rewrite lookup_empty in Hp.
  - set_solver.
  - intros p [? Hp]. cbn [names resolver_initialise] in Hp. by rewrite lookup_empty in Hp.
  - by rewrite map_size_empty.
  - by split.
  - constructor.
Qed.

Lemma make_raddr_valid af addr :
  length addr = (if Z.eqb af 2 then 4 else 16)%nat -> bytes_ok addr -> valid_as (make_raddr af addr).
Proof.
  intros Hl Hb. unfold make_raddr, valid_as. cbn [as_addr as_family addr_len].
  set (n := Z.to_nat (if af =? 2 then 4 else 16)).
  assert (length addr = n) as Hn by (rewrite Hl; unfold n; by destruct (af =? 2)).
  assert (n <= 16)%nat as Hle by (unfold n; destruct (af =? 2); lia).
  rewrite take_ge by lia. rewrite length_app, length_replicate. split_and!; [lia| |done|].
  - apply Forall_app. split; [done|]. apply Forall_replicate. unfold is_byte. lia.
  - rewrite drop_app_ge by lia. by rewrite Hn, Nat.sub_diag.
Qed.

Lemma worker_take_spec s sp C :
  resolver_rep s sp C ->
  exists s', worker_take s = Some ((spec_take sp).1, s') /\ resolver_rep s' (spec_take sp).2 C.
Proof.
  intros [Ht Hc Hq Hj]. unfold worker_take, spec_take. rewrite (ring_empty _ _ _ _ Hq).
  destruct sp as [m [|a q]]; cbn [sp_queue sp_names] in *.
  - exists s. by split.
  - rewrite bool_decide_false by done. destruct (ring_take _ _ _ _ _ Hq) as [-> Hq'].
    eexists. split; [done|]. apply Forall_cons in Hj as [_ Hj].
    split; simpl; [|done|done|done]. by destruct Ht.
Qed.

Lemma enqueue_spec s sp C a :
  resolver_rep s sp C -> valid_as a ->
  exists s', enqueue a s = Some (s', (spec_enqueue a (sp_queue sp)).2) /\
    resolver_rep s' (ResolverSpec (sp_names sp) (spec_enqueue a (sp_queue sp)).1) C /\
    names s' = names s.
Proof.
  intros [Ht Hc Hq Hj] Ha. unfold enqueue, spec_enqueue, queue_full. rewrite (ring_full _ _ _ _ Hq).
  destruct (Nat.eqb_spec (length (sp_queue sp)) 19) as [E|E]; simpl.
  { exists s. by destruct sp. }
  destruct (stays_numeric a); simpl; [exists s; by destruct sp|].
  destruct (ring_put _ _ _ _ a Hq E) as (q' & -> & Hq'). eexists. split; [done|].
  split; [|done]. split; simpl; [by destruct Ht|done|done|]. apply Forall_app. auto.
Qed.

Lemma table_size_insert (m : gmap addr_storage (option string)) a nm :
  m !! a = None -> Z.of_nat (size (<[a := nm]> m)) = Z.of_nat (size m) + 1.
Proof. intros. rewrite map_size_insert_None by done. lia. Qed.

Lemma add_unresolved_spec ntop s sp C a :
  resolver_rep s sp C -> valid_as a -> sp_names sp !! a = None ->
  exists p s' C', let '(nm, sp', added) := spec_resolve ntop a sp in
    add_unresolved ntop a s = Some (p, s', added) /\ resolver_rep s' sp' C' /\
    names s' !! p = Some nm.
Proof.
  intros [Ht Hc Hq Hj] Ha Hm. unfold add_unresolved, spec_resolve. rewrite Hm.
  destruct (table_evict s _ C _ NS_HASH_MAX_ENTRIES Ht Hc) as (r & h & mm & freed & s1 & C1 & -> & Hx & Ht1 & Hs1).
  rewrite Hc in Hx, Ht1, Hs1. fold (spec_evict (sp_names sp)) in Hx, Ht1, Hs1.
  cbn [mbind option_bind]. rewrite Hc. fold (spec_evict (sp_names sp)). rewrite Hx. cbn [mbind option_bind].
  pose proof (table_new s1 _ C1 (ntop a) Ht1) as Hn.
  destruct (new_name (ntop a) s1) as [p s2] eqn:En. destruct Hn as [Ht2 Hp].
  assert (spec_evict (sp_names sp) !! a = None) as Hm'.
  { unfold spec_evict. by destruct (_ <=? _). }
  assert (Z.of_nat (size (spec_evict (sp_names sp))) < NS_HASH_MAX_ENTRIES) as Hsz.
  { unfold spec_evict. destruct (Z.leb_spec NS_HASH_MAX_ENTRIES (Z.of_nat (size (sp_names sp)))); [|lia].
    by rewrite map_size_empty. }
  destruct (table_insert s2 _ C1 a p (ntop a) (s32 (Z.of_nat (size (spec_evict (sp_names sp))) + 1))
    Ht2 Ha Hm' Hp) as (h' & m' & C' & -> & Ht3).
  cbn [mbind option_bind].
  destruct (enqueue_spec (set_table h' m' (s32 (Z.of_nat (size (spec_evict (sp_names sp))) + 1)) s2)
    (ResolverSpec (<[a := ntop a]> (spec_evict (sp_names sp))) (sp_queue sp)) C' a) as (s4 & He & Hr4 & Hn4).
  { injection En as <- <-. rewrite Hs1 in Ht3 |- *. split; simpl; [exact Ht3| |done|done].
    rewrite table_size_insert by done. unfold NS_HASH_MAX_ENTRIES in Hsz. apply swrap_small; lia. }
  { done. }
  rewrite He. exists p, s4, C'. simpl in *. destruct (spec_enqueue a (sp_queue sp)). simpl in *.
  split_and!; [done|done|by rewrite Hn4].
Qed.

Lemma worker_store_spec a hostname s sp C :
  resolver_rep s sp C -> valid_as a -> Z.of_nat (size (sp_names sp)) + 1 < 2 ^ 31 ->
  exists s' C', worker_store a hostname s = Some s' /\ resolver_rep s' (spec_store a hostname sp) C'.
Proof.
  intros Hr Ha Hs. destruct hostname as [nm|]; cbn [spec_store]; [|by exists s, C].
  destruct Hr as [Ht Hc Hq Hj]. pose proof (table_new s _ C (Some nm) Ht) as Hn.
  unfold worker_store. destruct (new_name (Some nm) s) as [p s1] eqn:En. destruct Hn as [Ht1 Hp].
  injection En as <- <-. set (s1 := set_names _ _ s) in *. cbv beta iota.
  destruct (sp_names sp !! a) as [old|] eqn:E.
  - destruct (table_delete s1 _ _ C a old (ns_hash_n_entries s1) Ht1 Ha E)
      as (q & h & m & C1 & s2 & -> & Hdel & Hx & Ht2 & Hs2 & Hqp).
    cbn [mbind option_bind]. rewrite Hdel. cbn [mbind option_bind]. rewrite Hx. cbn [mbind option_bind].
    assert (names s2 !! names_brk s = Some (Some nm)) as Hp2.
    { rewrite Hs2. simpl. rewrite lookup_delete_ne; [apply lookup_insert_eq|set_solver]. }
    destruct (table_insert s2 _ C1 a _ (Some nm) (ns_hash_n_entries s2) Ht2 Ha (lookup_delete_eq _ _) Hp2)
      as (h' & m' & C' & -> & Ht3).
    rewrite insert_delete_eq in Ht3. eexists _, C'. split; [done|]. subst s2.
    split; cbn [sp_names sp_queue]; [exact Ht3|simpl; rewrite Hc|done|done].
    by rewrite map_size_insert_Some by eauto.
  - pose proof (table_find s1 _ _ C a Ht1 Ha) as Hf. rewrite E in Hf. rewrite Hf.
    cbn [mbind option_bind].
    assert (table_rep (set_table (ns_hash s1) (r_mem s1) (s32 (ns_hash_n_entries s1 + 1)) s1)
      [names_brk s] (sp_names sp) C) as Ht2 by (destruct Ht1; by split).
    destruct (table_insert _ _ C a _ (Some nm) (s32 (ns_hash_n_entries s1 + 1)) Ht2 Ha E Hp)
      as (h' & m' & C' & -> & Ht3).
    eexists _, C'. split; [done|]. split; cbn [sp_names sp_queue]; [exact Ht3| |done|done].
    rewrite table_size_insert by done. simpl. rewrite Hc. apply swrap_small; lia.
Qed.

(** Does this call copy the name it finds? *)
Definition copies (o : options_t) (result : bool) (buflen : Z) : bool :=
  (dnsresolution o =? 1) && result && (1 <? buflen).

Lemma resolve_spec o ntop af addr result buflen s sp C :
  resolver_rep s sp C -> length addr = (if Z.eqb af 2 then 4 else 16)%nat -> bytes_ok addr ->
  exists s' C', let '(nm, sp', added) :=
      if dnsresolution o =? 1 then spec_resolve ntop (make_raddr af addr) sp else (None, sp, false) in
    resolve o ntop af addr result buflen s =
      (if copies o result buflen then nm ← nm; Some (Some (strncpy (buflen - 1) nm), s', added)
       else Some (None, s', added)) /\ resolver_rep s' sp' C'.
Proof.
  intros Hr Hl Hb. unfold resolve, copies. destruct (dnsresolution o =? 1); [|exists s, C; by simpl].
  pose proof (make_raddr_valid af addr Hl Hb) as Ha.
  pose proof (table_find s _ _ C _ (rr_table _ _ _ Hr) Ha) as Hf. cbn [andb].
  destruct (sp_names sp !! make_raddr af addr) as [nm|] eqn:E.
  - destruct Hf as (p & -> & Hp & _). cbn [mbind option_bind]. rewrite Hp.
    exists s, C. unfold spec_resolve. rewrite E. split; [|done]. destruct (_ && _); [|done]. by destruct nm.
  - rewrite Hf. cbn [mbind option_bind].
    destruct (add_unresolved_spec ntop s sp C _ Hr Ha E) as (p & s' & C' & H).
    destruct (spec_resolve ntop (make_raddr af addr) sp) as [[nm sp'] added].
    destruct H as (-> & Hr' & Hp). exists s', C'. split; [|done]. cbn [mbind option_bind]. rewrite Hp.
    destruct (_ && _); [|done]. by destruct nm.
Qed.

(** A call that returns has made the specification's step. *)
Lemma resolve_returned o ntop af addr result buflen s sp C out s' added :
  resolver_rep s sp C -> length addr = (if Z.eqb af 2 then 4 else 16)%nat -> bytes_ok addr ->
  resolve o ntop af addr result buflen s = Some (out, s', added) ->
  exists nm sp' C', (if dnsresolution o =? 1 then spec_resolve ntop (make_raddr af addr) sp else (None, sp, false)) =
    (nm, sp', added) /\ resolver_rep s' sp' C' /\
    (if copies o result buflen then exists t, nm = Some t /\ out = Some (strncpy (buflen - 1) t) else out = None).
Proof.
  intros Hr Hl Hb E. destruct (resolve_spec o ntop af addr result buflen s sp C Hr Hl Hb) as (s2 & C2 & H).
  destruct (if dnsresolution o =? 1 then _ else _) as [[nm sp'] added']. destruct H as [H Hr2]. rewrite H in E.
  exists nm, sp', C2. destruct (copies _ _ _); [destruct nm as [t|]; [|done]|]; simplify_eq/=; eauto.
Qed.

(** ** The abstract system *)
Record spec_sys := SpecSys { sp_monitor : resolver_spec; sp_workers : list worker; sp_signals : nat }.

Inductive spec_sys_step (ntop : addr_storage -> option string) (do_resolve : addr_storage -> string -> Prop) : spec_sys -> spec_sys -> Prop :=
  | spec_step_resolve a sp ws n nm sp' added :
      spec_resolve ntop a sp = (nm, sp', added) ->
      spec_sys_step ntop do_resolve (SpecSys sp ws n) (SpecSys sp' ws (if added then S n else n))
  | spec_step_signal_lost sp ws n :
      Waiting ∉ ws -> spec_sys_step ntop do_resolve (SpecSys sp ws (S n)) (SpecSys sp ws n)
  | spec_step_signal sp ws n i :
      ws !! i = Some Waiting ->
      spec_sys_step ntop do_resolve (SpecSys sp ws (S n)) (SpecSys sp (<[i := Woken]> ws) n)
  | spec_step_spurious sp ws n i :
      ws !! i = Some Waiting -> spec_sys_step ntop do_resolve (SpecSys sp ws n) (SpecSys sp (<[i := Woken]> ws) n)
  | spec_step_start sp ws n i :
      ws !! i = Some Starting -> spec_sys_step ntop do_resolve (SpecSys sp ws n) (SpecSys sp (<[i := Waiting]> ws) n)
  | spec_step_take sp ws n i :
      ws !! i = Some Woken ->
      spec_sys_step ntop do_resolve (SpecSys sp ws n)
        (SpecSys (spec_take sp).2 (<[i := next_job (spec_take sp).1]> ws) n)
  | spec_step_store sp ws n i a hostname :
      ws !! i = Some (Resolving a) -> may_answer do_resolve a hostname ->
      let sp1 := spec_store a hostname sp in
      spec_sys_step ntop do_resolve (SpecSys sp ws n)
        (SpecSys (spec_take sp1).2 (<[i := next_job (spec_take sp1).1]> ws) n).

Definition spec_start : spec_sys := SpecSys (ResolverSpec ∅ []) [Starting; Starting] 0.

(** The addresses in flight, and those of them that have no entry. *)
Definition job (w : worker) : option addr_storage := match w with Resolving a => Some a | _ => None end.
Definition in_flight (ws : list worker) : list addr_storage := omap job ws.
Definition missing (m : gmap addr_storage (option string)) (l : list addr_storage) : nat :=
  length (filter (fun a => m !! a = None) l).

Section jobs.
Implicit Types (m : gmap addr_storage (option string)) (l : list addr_storage) (ws : list worker).

Lemma missing_le m l : (missing m l <= length l)%nat.
Proof. apply length_filter. Qed.

Lemma missing_app m l1 l2 : missing m (l1 ++ l2) = (missing m l1 + missing m l2)%nat.
Proof. unfold missing. by rewrite filter_app, length_app. Qed.

Lemma missing_perm m l l' : l ≡ₚ l' -> missing m l = missing m l'.
Proof. intros E. unfold missing. by rewrite E. Qed.

Lemma missing_cons m a l :
  missing m (a :: l) = ((if decide (m !! a = None) then 1 else 0) + missing m l)%nat.
Proof. unfold missing. rewrite filter_cons. by case_decide. Qed.

Lemma missing_insert m a nm l : (missing (<[a := nm]> m) l <= missing m l)%nat.
Proof.
  induction l as [|b l IH]; [done|]. rewrite !missing_cons.
  destruct (decide (<[a := nm]> m !! b = None)) as [[Hb _]%lookup_insert_None|]; [|lia].
  rewrite decide_True by done. lia.
Qed.

Lemma job_at ws i w w' :
  ws !! i = Some w -> exists l, in_flight ws ≡ₚ option_list (job w) ++ l /\
    in_flight (<[i := w']> ws) ≡ₚ option_list (job w') ++ l.
Proof.
  intros Hi. exists (in_flight (take i ws) ++ in_flight (drop (S i) ws)).
  assert (forall w ws1 ws2, in_flight (ws1 ++ w :: ws2) ≡ₚ option_list (job w) ++ in_flight ws1 ++ in_flight ws2) as Hs.
  { intros v ws1 ws2. unfold in_flight. rewrite omap_app. csimpl.
    destruct (job v); simpl; [by rewrite <- Permutation_middle|done]. }
  split.
  - by rewrite <- (take_drop_middle ws i w Hi) at 1.
  - rewrite insert_take_drop by (by eapply lookup_lt_Some). apply Hs.
Qed.

Lemma in_flight_length ws : (length (in_flight ws) <= length ws)%nat.
Proof. induction ws as [|w ws IH]; csimpl; [lia|]. destruct (job w); simpl; lia. Qed.

Lemma spec_take_queue sp :
  sp_queue sp = option_list (spec_take sp).1 ++ sp_queue (spec_take sp).2 /\
  sp_names (spec_take sp).2 = sp_names sp.
Proof. unfold spec_take. by destruct sp as [m [|a q]]. Qed.

Lemma next_job_job b : job (next_job b) = b.
Proof. by destruct b. Qed.
End jobs.

(** What bounds the table: a worker adds an entry only for a job that has none. *)
Record spec_inv (r : spec_sys) : Prop := SpecInv {
  si_workers : length (sp_workers r) = 2%nat;
  si_queue : (length (sp_queue (sp_monitor r)) <= 19)%nat;
  si_size : Z.of_nat (size (sp_names (sp_monitor r))) +
    Z.of_nat (missing (sp_names (sp_monitor r)) (sp_queue (sp_monitor r) ++ in_flight (sp_workers r))) <=
    NS_HASH_MAX_ENTRIES + 21
}.

Lemma spec_inv_start : spec_inv spec_start.
Proof. split; simpl; [done|lia|]. by rewrite map_size_empty. Qed.

(** A worker that takes the next job: the jobs are the same but for its own. *)
Lemma take_jobs sp ws i w :
  ws !! i = Some w ->
  let sp' := (spec_take sp).2 in
  exists l, sp_queue sp ++ in_flight ws ≡ₚ option_list (job w) ++ l /\
    sp_queue sp' ++ in_flight (<[i := next_job (spec_take sp).1]> ws) ≡ₚ l.
Proof.
  intros Hi. simpl. destruct (job_at ws i w (next_job (spec_take sp).1) Hi) as (l & E1 & E2).
  exists (sp_queue sp ++ l). rewrite E1, E2, next_job_job. destruct (spec_take_queue sp) as [Eq _].
  split; [by rewrite !app_assoc, (Permutation_app_comm (sp_queue sp))|].
  rewrite Eq. by rewrite !app_assoc, (Permutation_app_comm (sp_queue _)).
Qed.

(** A worker between two states without a job. *)
Lemma idle_inv sp ws n i w w' n' :
  ws !! i = Some w -> job w = None -> job w' = None ->
  spec_inv (SpecSys sp ws n') -> spec_inv (SpecSys sp (<[i := w']> ws) n).
Proof.
  intros Hi Hw Hw' [Hl Hq Hn]. destruct (job_at ws i w w' Hi) as (l & E1 & E2). rewrite Hw, Hw' in *.
  split; cbn [sp_monitor sp_workers] in *; [by rewrite length_insert|done|].
  rewrite (missing_perm _ _ _ (Permutation_app_head _ E2)).
  by rewrite (missing_perm _ _ _ (Permutation_app_head _ E1)) in Hn.
Qed.

Lemma spec_step_inv ntop do_resolve r r' : spec_sys_step ntop do_resolve r r' -> spec_inv r -> spec_inv r'.
Proof.
  intros Hs Hinv. pose proof Hinv as [Hw Hq Hn]. destruct Hs as [a sp ws n nm sp' added Hr| | | | |sp ws n i Hi|sp ws n i a hostname Hi Hans sp1];
    cbn [sp_monitor sp_workers] in *.
  - unfold spec_resolve in Hr. destruct (sp_names sp !! a) eqn:E; [by simplify_eq|].
    destruct (spec_enqueue a (sp_queue sp)) as [q b] eqn:Eq. injection Hr as <- <- <-.
    assert (length q <= 19)%nat as Hl.
    { unfold spec_enqueue in Eq. destruct (Nat.eqb_spec (length (sp_queue sp)) 19), (stays_numeric a);
        simpl in Eq; simplify_eq; rewrite ?length_app; simpl; lia. }
    split; cbn [sp_monitor sp_workers sp_queue sp_names]; [done|done|].
    assert (spec_evict (sp_names sp) !! a = None) as Ha by (unfold spec_evict; by destruct (_ <=? _)).
    rewrite table_size_insert by done.
    match goal with |- context [missing ?m ?l] => pose proof (missing_le m l) as Hm end.
    rewrite length_app in Hm. pose proof (in_flight_length ws).
    unfold spec_evict in *. destruct (Z.leb_spec NS_HASH_MAX_ENTRIES (Z.of_nat (size (sp_names sp))));
      rewrite ?map_size_empty; unfold NS_HASH_MAX_ENTRIES in *; lia.
  - by split.
  - by apply (idle_inv _ ws _ i Waiting _ (S n)).
  - by apply (idle_inv _ ws _ i Waiting _ n).
  - by apply (idle_inv _ ws _ i Starting _ n).
  - destruct (take_jobs sp ws i Woken Hi) as (l & E1 & E2). destruct (spec_take_queue sp) as [Eq En].
    split; cbn [sp_monitor sp_workers]; [by rewrite length_insert| |].
    + rewrite Eq, length_app in Hq. lia.
    + rewrite En, (missing_perm _ _ _ E2). by rewrite (missing_perm _ _ _ E1) in Hn.
  - destruct (take_jobs sp1 ws i _ Hi) as (l & E1 & E2). destruct (spec_take_queue sp1) as [Eq En].
    assert (sp_queue sp1 = sp_queue sp) as Eq1 by (by destruct hostname).
    split; cbn [sp_monitor sp_workers]; [by rewrite length_insert| |].
    + rewrite <- Eq1, Eq, length_app in Hq. lia.
    + rewrite En, (missing_perm _ _ _ E2). rewrite Eq1 in E1. rewrite (missing_perm _ _ (a :: l) E1) in Hn.
      rewrite missing_cons in Hn.
      subst sp1. destruct hostname as [nm|]; cbn [spec_store sp_names]; [|lia].
      pose proof (missing_insert (sp_names sp) a (Some nm) l). case_decide as Hd.
      * rewrite table_size_insert by done. lia.
      * destruct (sp_names sp !! a) eqn:Ea; [|done]. rewrite map_size_insert_Some by eauto. lia.
Qed.

(** ** Simulation *)
Record sim (x : resolver_sys) (r : spec_sys) : Prop := Sim {
  sim_rep : exists C, resolver_rep (monitor x) (sp_monitor r) C;
  sim_workers : sp_workers r = workers x;
  sim_signals : sp_signals r = signals x;
  sim_flight : Forall valid_as (in_flight (workers x));
  sim_inv : spec_inv r
}.

Lemma sim_start : sim resolver_start spec_start.
Proof.
  split; [eexists; apply resolver_initialise_rep|done|done|constructor|apply spec_inv_start].
Qed.

(** The valid addresses stay valid when a worker takes the next job. *)
Lemma take_valid sp ws i w :
  ws !! i = Some w -> Forall valid_as (sp_queue sp) -> Forall valid_as (in_flight ws) ->
  Forall valid_as (in_flight (<[i := next_job (spec_take sp).1]> ws)).
Proof.
  intros Hi Hq Hf. destruct (take_jobs sp ws i w Hi) as (l & E1 & E2).
  assert (Forall valid_as (sp_queue sp ++ in_flight ws)) as H by (by apply Forall_app).
  rewrite E1 in H. apply Forall_app in H as [_ H]. rewrite <- E2 in H. by apply Forall_app in H as [_ H].
Qed.

Lemma idle_valid ws i w w' :
  ws !! i = Some w -> job w' = None -> Forall valid_as (in_flight ws) ->
  Forall valid_as (in_flight (<[i := w']> ws)).
Proof.
  intros Hi Hw Hf. destruct (job_at ws i w w' Hi) as (l & E1 & E2). rewrite E2, Hw. simpl.
  rewrite E1 in Hf. by apply Forall_app in Hf as [_ Hf].
Qed.

Lemma in_flight_valid ws i a :
  ws !! i = Some (Resolving a) -> Forall valid_as (in_flight ws) -> valid_as a.
Proof.
  intros Hi Hf. destruct (job_at ws i _ Waiting Hi) as (l & E1 & _). rewrite E1 in Hf.
  by apply Forall_cons in Hf as [? _].
Qed.

Lemma sim_size x r : sim x r -> Z.of_nat (size (sp_names (sp_monitor r))) <= NS_HASH_MAX_ENTRIES + 21.
Proof. intros [_ _ _ _ [_ _ H]]. lia. Qed.

(** What a worker's critical section does after do_resolve. *)
Lemma store_take_spec a hostname s sp C :
  resolver_rep s sp C -> valid_as a -> Z.of_nat (size (sp_names sp)) <= NS_HASH_MAX_ENTRIES + 21 ->
  let sp1 := spec_store a hostname sp in
  exists s1 s' C', worker_store a hostname s = Some s1 /\
    worker_take s1 = Some ((spec_take sp1).1, s') /\ resolver_rep s' (spec_take sp1).2 C' /\
    Forall valid_as (sp_queue sp1).
Proof.
  intros Hr Ha Hs. destruct (worker_store_spec a hostname s sp C Hr Ha) as (s1 & C1 & -> & Hr1).
  { unfold NS_HASH_MAX_ENTRIES in Hs. lia. }
  destruct (worker_take_spec s1 _ C1 Hr1) as (s' & Ht & Hr'). exists s1, s', C1.
  split_and!; [done|done|done|apply Hr1].
Qed.

Lemma sim_step ntop do_resolve x x' r :
  resolver_step ntop do_resolve x x' -> sim x r -> exists r', rtc (spec_sys_step ntop do_resolve) r r' /\ sim x' r'.
Proof.
  intros Hs Hsim. pose proof (sim_size x r Hsim) as Hsz. destruct Hsim as [[C Hr] Ew En Hf Hi].
  assert (forall r', spec_sys_step ntop do_resolve r r' -> (exists C', resolver_rep (monitor x') (sp_monitor r') C') ->
    sp_workers r' = workers x' -> sp_signals r' = signals x' ->
    Forall valid_as (in_flight (workers x')) -> exists r', rtc (spec_sys_step ntop do_resolve) r r' /\ sim x' r') as K.
  { intros r' Hst ? ? ? ?. exists r'. split; [by apply rtc_once|]. split; try done.
    by apply (spec_step_inv ntop do_resolve r). }
  destruct r as [sp ws n]. cbn [sp_monitor sp_workers sp_signals] in *.
  destruct Hs as [o af addr result buflen s ws' n' out s' added Hres Hl Hb|s ws' n' Hw|s ws' n' i Hw|s ws' n' i Hw
    |s ws' n' i Hw|s ws' n' i a s' Hw Ht|s ws' n' i a hostname s1 b s' Hw Hans Hst Ht];
    cbn [monitor workers signals] in *; subst.
  - destruct (resolve_returned _ _ _ _ _ _ _ _ _ _ _ _ Hr Hl Hb Hres) as (nm & sp' & C' & E & Hr' & _).
    destruct (dnsresolution o =? 1); [|injection E as <- <- <-].
    + apply (K (SpecSys sp' ws' (if added then S n' else n'))); [by econstructor|by exists C'|done..].
    + exists (SpecSys sp ws' n'). split; [done|]. by split; [exists C'|..].
  - apply (K (SpecSys sp ws' n')); [by constructor|by exists C|done..].
  - apply (K (SpecSys sp (<[i := Woken]> ws') n')); [by constructor|by exists C|done..|].
    by eapply idle_valid.
  - apply (K (SpecSys sp (<[i := Woken]> ws') n')); [by constructor|by exists C|done..|].
    by eapply idle_valid.
  - apply (K (SpecSys sp (<[i := Waiting]> ws') n')); [by constructor|by exists C|done..|].
    by eapply idle_valid.
  - destruct (worker_take_spec s sp C Hr) as (s2 & Ht2 & Hr2). rewrite Ht2 in Ht. injection Ht as <- <-.
    eapply K; [by apply spec_step_take|by exists C|done..|]. eapply take_valid; [done|apply Hr|done].
  - pose proof (in_flight_valid ws' i a Hw Hf) as Ha.
    destruct (store_take_spec a hostname s sp C Hr Ha Hsz) as (s3 & s4 & C4 & Hst2 & Ht2 & Hr2 & Hq).
    rewrite Hst2 in Hst. injection Hst as <-. rewrite Ht2 in Ht. injection Ht as <- <-.
    eapply K; [by eapply (spec_step_store _ _ sp ws' n' i a hostname)|by exists C4|done..|].
    eapply take_valid; [done|done|done].
Qed.

Lemma sim_run ntop do_resolve x x' r :
  rtc (resolver_step ntop do_resolve) x x' -> sim x r -> exists r', rtc (spec_sys_step ntop do_resolve) r r' /\ sim x' r'.
Proof.
  intros Hs. revert r. induction Hs as [|x y z Hxy Hyz IH]; intros r Hr; [by exists r|].
  destruct (sim_step ntop do_resolve x y r Hxy Hr) as (r1 & H1 & Hr1). destruct (IH r1 Hr1) as (r2 & H2 & Hr2).
  exists r2. split; [by etrans|done].
Qed.

Lemma sim_reachable ntop do_resolve x :
  rtc (resolver_step ntop do_resolve) resolver_start x ->
  exists r, rtc (spec_sys_step ntop do_resolve) spec_start r /\ sim x r.
Proof. intros Hx. eapply sim_run; [exact Hx|apply sim_start]. Qed.

(** The strings alive are the entries' ones. *)
Lemma table_rep_size s m C : table_rep s [] m C -> size (names s) = size m.
Proof.
  intros Hr. rewrite (cells_rep_size _ _ _ (tr_names _ _ _ _ Hr)), <- (length_fmap snd).
  rewrite <- (size_dom (D := gset positive)).
  rewrite <- (size_list_to_set (C := gset positive)) by apply (tr_names _ _ _ _ Hr).
  f_equal. apply set_eq. intros p. rewrite elem_of_dom, elem_of_list_to_set. split; [apply Hr|].
  intros ([a q] & -> & Hin)%list_elem_of_fmap.
  destruct (cl_live _ _ _ (tr_names _ _ _ _ Hr) _ _ Hin) as (? & Hl & _). simpl. rewrite Hl. eauto.
Qed.

Lemma bindings_valid s held m C a p : table_rep s held m C -> (a, p) ∈ bindings s C -> valid_as a.
Proof.
  intros [_ Hh _ _ _ _] (x & Hx & Hn)%list_elem_of_omap.
  apply fmap_Some in Hn as (nd & Hn & [= -> _]).
  assert (exists l, x ∈ l /\ l ∈ C) as (l & Hl & (i & Hi)%list_elem_of_lookup_1).
  { apply list_elem_of_In, in_concat in Hx as (l & Hl & Hx). exists l. by rewrite !list_elem_of_In. }
  by apply (rep_nodes _ _ _ _ Hh i l x nd Hi Hl Hn).
Qed.

(** Two addresses never have the same string. *)
Lemma table_find_inj s m C a b p :
  table_rep s [] m C -> valid_as a -> valid_as b ->
  hash_find (ns_hash s) (r_mem s) a = Some (HASH_STATUS_OK, Some p) ->
  hash_find (ns_hash s) (r_mem s) b = Some (HASH_STATUS_OK, Some p) -> a = b.
Proof.
  intros [Ho Hh Hn _ _ _] Ha Hb.
  rewrite !(hash_find_spec valid_as _ _ C) by done. fold (bindings s C).
  destruct (first_match a _) as [q|] eqn:Ea; [|done]. destruct (first_match b _) as [q'|] eqn:Eb; [|done].
  intros [= ->] [= ->]. apply first_match_elem in Ea, Eb; try apply Hn.
  exact (NoDup_recs_inj _ _ _ _ (cl_recs _ _ _ Hn) Ea Eb).
Qed.

Lemma table_names s m C p :
  table_rep s [] m C ->
  is_Some (names s !! p) <-> exists a, valid_as a /\ hash_find (ns_hash s) (r_mem s) a = Some (HASH_STATUS_OK, Some p).
Proof.
  intros Hr. pose proof Hr as [Ho Hh Hn Hw _ _]. split.
  - intros ([a q] & -> & Hin)%Hw%list_elem_of_fmap. exists a. pose proof (bindings_valid _ _ _ _ _ _ Hr Hin) as Hv.
    split; [done|]. rewrite (hash_find_spec valid_as _ _ C) by done. fold (bindings s C).
    apply first_match_elem in Hin; [|apply Hn]. by rewrite Hin.
  - intros (a & Ha & Hf). pose proof (table_find s _ _ C a Hr Ha) as H. rewrite Hf in H.
    destruct (m !! a); [|done]. destruct H as (q & [= <-] & Hp & _). by rewrite Hp.
Qed.

(** ** Wake-ups *)
Definition active (ws : list worker) : Prop := exists i w, ws !! i = Some w /\ w <> Starting /\ w <> Waiting.
Definition attended (r : spec_sys) : Prop :=
  (exists i w, sp_workers r !! i = Some w /\ w <> Starting) /\
  (sp_queue (sp_monitor r) <> [] -> (0 < sp_signals r)%nat \/ active (sp_workers r)).

Lemma lookup_insert_self {A} (l : list A) i x y : l !! i = Some x -> <[i := y]> l !! i = Some y.
Proof. intros Hi. apply list_lookup_insert_eq. by eapply lookup_lt_Some. Qed.

(** A worker waits again only when the queue is empty. *)
Lemma take_attended sp ws n i w :
  ws !! i = Some w ->
  attended (SpecSys (spec_take sp).2 (<[i := next_job (spec_take sp).1]> ws) n).
Proof.
  intros Hi. unfold attended, spec_take. cbn [sp_monitor sp_workers sp_signals].
  split; [exists i; eexists; split; [by eapply lookup_insert_self|by destruct sp as [? []]]|].
  destruct sp as [m [|a q]]; [done|]. intros _. right. exists i, (Resolving a).
  by split; [eapply lookup_insert_self|].
Qed.

Lemma spec_step_attended ntop do_resolve r r' : spec_sys_step ntop do_resolve r r' -> attended r -> attended r'.
Proof.
  intros Hs [(i0 & w0 & Hi0 & Hw0) Hq].
  destruct Hs as [a sp ws n nm sp' added Hr|sp ws n Hn|sp ws n i Hi|sp ws n i Hi|sp ws n i Hi|sp ws n i Hi|sp ws n i a hostname Hi Hans sp1];
    cbn [sp_monitor sp_workers sp_signals] in *.
  - split; [by exists i0, w0|]. cbn [sp_monitor sp_workers sp_signals]. destruct added; [left; lia|].
    assert (sp_queue sp' = sp_queue sp) as ->; [|done].
    unfold spec_resolve in Hr. destruct (sp_names sp !! a); [by simplify_eq|].
    unfold spec_enqueue in Hr. destruct ((length (sp_queue sp) =? 19)%nat || stays_numeric a); by simplify_eq/=.
  - split; [by exists i0, w0|]. intros _. right. exists i0, w0. split_and!; [done..|].
    intros ->. apply Hn. by eapply list_elem_of_lookup_2.
  - split; [by exists i, Woken; split; [eapply lookup_insert_self|]|].
    intros _. right. by exists i, Woken; split; [eapply lookup_insert_self|].
  - split; [by exists i, Woken; split; [eapply lookup_insert_self|]|].
    intros _. right. by exists i, Woken; split; [eapply lookup_insert_self|].
  - split; [by exists i, Waiting; split; [eapply lookup_insert_self|]|].
    intros H. destruct (Hq H) as [|(j & w & Hj & Hw & Hw')]; [by left|]. right. exists j, w.
    split; [|done]. cbn [sp_workers]. rewrite list_lookup_insert_ne; [done|]. intros ->. congruence.
  - by apply (take_attended sp ws n i Woken).
  - by apply (take_attended sp1 ws n i (Resolving a)).
Qed.

(** ** The names are genuine *)

(** The address in numbers, or a name that do_resolve may find for it. *)
Definition genuine (ntop : addr_storage -> option string) (do_resolve : addr_storage -> string -> Prop) (a : addr_storage)
    (nm : string) : Prop := ntop a = Some nm \/ do_resolve a nm.

(** An entry without a name is of an address that inet_ntop refuses. *)
Definition entry_ok (ntop : addr_storage -> option string) (do_resolve : addr_storage -> string -> Prop) (a : addr_storage)
    (nm : option string) : Prop := match nm with Some nm => genuine ntop do_resolve a nm | None => ntop a = None end.

Lemma entry_ntop ntop do_resolve a : entry_ok ntop do_resolve a (ntop a).
Proof. unfold entry_ok. destruct (ntop a) eqn:E; [by left|done]. Qed.

Lemma spec_step_genuine ntop do_resolve r r' :
  spec_sys_step ntop do_resolve r r' -> map_Forall (entry_ok ntop do_resolve) (sp_names (sp_monitor r)) ->
  map_Forall (entry_ok ntop do_resolve) (sp_names (sp_monitor r')).
Proof.
  intros Hs Hg. assert (forall sp, sp_names (spec_take sp).2 = sp_names sp) as Ht
    by (intros [m [|a q]]; done).
  destruct Hs as [a sp ws n nm sp' added Hr| | | |sp ws n i Hi|sp ws n i Hi|sp ws n i a hostname Hi Hans sp1];
    cbn [sp_monitor] in *; try done.
  - unfold spec_resolve in Hr. destruct (sp_names sp !! a); [by simplify_eq|]. destruct (spec_enqueue _ _) as [q b].
    injection Hr as <- <- <-. cbn [sp_names]. apply map_Forall_insert_2; [apply entry_ntop|]. unfold spec_evict.
    by destruct (_ <=? _); [apply map_Forall_empty|].
  - by rewrite Ht.
  - rewrite Ht. destruct hostname as [nm|]; [|done]. apply map_Forall_insert_2; [by right|done].
Qed.

(** Every name of a reachable state is. *)
Lemma sim_genuine ntop do_resolve x :
  rtc (resolver_step ntop do_resolve) resolver_start x ->
  exists r, sim x r /\ map_Forall (entry_ok ntop do_resolve) (sp_names (sp_monitor r)).
Proof.
  intros Hx. destruct (sim_reachable ntop do_resolve x Hx) as (r & Hr & Hsim). exists r. split; [done|].
  assert (map_Forall (entry_ok ntop do_resolve) (sp_names (sp_monitor spec_start))) as H0 by apply map_Forall_empty.
  clear Hsim. revert H0. induction Hr as [|r1 r2 r3 H12 _ IH]; [done|]. intros H0. by eapply IH, spec_step_genuine.
Qed.

(** The name that resolve() finds then. *)
Lemma spec_resolve_entry ntop do_resolve a sp nm sp' added :
  spec_resolve ntop a sp = (nm, sp', added) -> map_Forall (entry_ok ntop do_resolve) (sp_names sp) ->
  entry_ok ntop do_resolve a nm.
Proof.
  unfold spec_resolve. intros E Hg. destruct (sp_names sp !! a) eqn:Ea; [simplify_eq; by apply Hg|].
  destruct (spec_enqueue _ _). simplify_eq. apply entry_ntop.
Qed.

(** Inputs of a call, and when it has something to copy: inet_ntop knows the
    family, nothing is copied, or nothing is looked up. *)
Definition call_ok (ntop : addr_storage -> option string) (o : options_t) (af : Z) (addr : list Z) (result : bool)
    (buflen : Z) : Prop :=
  length addr = (if Z.eqb af 2 then 4 else 16)%nat /\ bytes_ok addr /\
  (copies o result buflen = true -> is_Some (ntop (make_raddr af addr))).

(** What resolve() writes, in any reachable state. *)
Lemma resolve_genuine ntop do_resolve x o af addr result buflen :
  rtc (resolver_step ntop do_resolve) resolver_start x -> call_ok ntop o af addr result buflen ->
  exists out s' added, resolve o ntop af addr result buflen (monitor x) = Some (out, s', added) /\
    if copies o result buflen
    then exists nm, genuine ntop do_resolve (make_raddr af addr) nm /\ out = Some (strncpy (buflen - 1) nm)
    else out = None.
Proof.
  intros Hx (Hl & Hb & Hw). destruct (sim_genuine ntop do_resolve x Hx) as (r & [[C Hrep] _ _ _ _] & Hg).
  destruct (resolve_spec o ntop af addr result buflen _ _ C Hrep Hl Hb) as (s' & C' & H).
  destruct (if dnsresolution o =? 1 then _ else _) as [[nm sp'] added] eqn:E. destruct H as [H _].
  destruct (copies o result buflen) eqn:Ec; [|by exists None, s', added].
  assert (dnsresolution o =? 1 = true) as Ed by (unfold copies in Ec; by apply andb_prop in Ec as [[]%andb_prop _]).
  rewrite Ed in E. pose proof (spec_resolve_entry _ _ _ _ _ _ _ E Hg) as He. destruct nm as [nm|].
  - exists (Some (strncpy (buflen - 1) nm)), s', added. split; [exact H|]. by exists nm.
  - destruct (Hw eq_refl) as [t Ht]. cbn in He. congruence.
Qed.

(** One that returns has written a genuine name, whatever the family. *)
Lemma resolve_wrote ntop do_resolve x o af addr result buflen nm s' added :
  rtc (resolver_step ntop do_resolve) resolver_start x ->
  length addr = (if Z.eqb af 2 then 4 else 16)%nat -> bytes_ok addr ->
  resolve o ntop af addr result buflen (monitor x) = Some (Some nm, s', added) ->
  exists t, genuine ntop do_resolve (make_raddr af addr) t /\ nm = strncpy (buflen - 1) t.
Proof.
  intros Hx Hl Hb E. destruct (sim_genuine ntop do_resolve x Hx) as (r & [[C Hrep] _ _ _ _] & Hg).
  destruct (resolve_returned _ _ _ _ _ _ _ _ _ _ _ _ Hrep Hl Hb E) as (n & sp' & C' & Es & _ & Ho).
  destruct (copies o result buflen) eqn:Ec; [|done]. destruct Ho as (t & -> & [= ->]).
  assert (dnsresolution o =? 1 = true) as Ed by (unfold copies in Ec; by apply andb_prop in Ec as [[]%andb_prop _]).
  rewrite Ed in Es. exists t. split; [|done]. exact (spec_resolve_entry _ _ _ _ _ _ _ Es Hg).
Qed.

(** ** A concrete run: 10.0.0.1 is looked up while both workers wait *)
Definition demo_options : options_t :=
  Options "" 1 0 None 0 0 0 0 0 0 0 0 0 0 0 None 0 0 0 0 0 0 0 [] [] 0 [] [] 0 "" 0 0 0 0.
Definition demo_ntop (a : addr_storage) : option string :=
  if as_family a =? 2 then
    Some match as_addr a with
         | x :: b :: c :: d :: _ => dec x +:+ "." +:+ dec b +:+ "." +:+ dec c +:+ "." +:+ dec d
         | _ => ""
         end
  else if as_family a =? 10 then Some "2001:db8::1"
  else None.
(** Every address is one of the gateway's. *)
Definition demo_answers (a : addr_storage) (nm : string) : Prop := nm = "gateway"%string.

Definition demo_resolve (addr : list Z) (s : resolver) : resolver :=
  match resolve demo_options demo_ntop 2 addr true 256 s with Some (_, s, _) => s | None => s end.
Definition demo_take (s : resolver) : resolver :=
  match worker_take s with Some (_, s) => s | None => s end.
Definition demo_queued : resolver := demo_resolve [10; 0; 0; 1] resolver_initialise.
Definition demo_sys : resolver_sys :=
  ResolverSys (demo_take demo_queued) [Resolving (make_raddr 2 [10; 0; 0; 1]); Waiting] 0.

Lemma demo_resolve_step s out s' added ws n addr :
  length addr = 4%nat -> bytes_ok addr ->
  resolve demo_options demo_ntop 2 addr true 256 s = Some (out, s', added) ->
  resolver_step demo_ntop demo_answers (ResolverSys s ws n) (ResolverSys (demo_resolve addr s) ws (if added then S n else n)).
Proof. intros Hl Hb Hr. unfold demo_resolve. rewrite Hr. by eapply step_resolve. Qed.

Example demo_resolve_out :
  (fun r => (r.1.1, r.2)) <$> resolve demo_options demo_ntop 2 [10; 0; 0; 1] true 256 resolver_initialise =
  Some (Some "10.0.0.1"%string, true).
Proof. by vm_compute. Qed.

(** Both workers wait; then the address is queued and the signal is due. *)
Definition demo_idle : resolver_sys := ResolverSys resolver_initialise [Waiting; Waiting] 0.
Definition demo_pending : resolver_sys := ResolverSys demo_queued [Waiting; Waiting] 1.

Lemma demo_idle_reachable ntop do_resolve : rtc (resolver_step ntop do_resolve) resolver_start demo_idle.
Proof.
  eapply rtc_l; [by apply (step_start _ _ _ _ _ 0)|]. eapply rtc_l; [by apply (step_start _ _ _ _ _ 1)|]. done.
Qed.

Lemma demo_resolve_queued ws n :
  rtc (resolver_step demo_ntop demo_answers) (ResolverSys resolver_initialise ws n) (ResolverSys demo_queued ws (S n)).
Proof.
  assert (bytes_ok [10; 0; 0; 1]) as Hb by (repeat constructor; unfold is_byte; lia).
  pose proof demo_resolve_out as Hr.
  destruct (resolve demo_options demo_ntop 2 [10; 0; 0; 1] true 256 resolver_initialise)
    as [[[out s'] added]|] eqn:E; [|discriminate].
  injection Hr as -> ->. apply rtc_once. exact (demo_resolve_step _ _ _ _ _ n [10; 0; 0; 1] eq_refl Hb E).
Qed.

Lemma demo_resolver_reachable : rtc (resolver_step demo_ntop demo_answers) resolver_start demo_sys.
Proof.
  transitivity demo_idle; [apply demo_idle_reachable|].
  transitivity demo_pending; [apply demo_resolve_queued|].
  eapply rtc_l; [by apply (step_signal _ _ _ _ _ 0)|]. simpl. apply rtc_once. unfold demo_sys.
  assert (fst <$> worker_take demo_queued = Some (Some (make_raddr 2 [10; 0; 0; 1]))) as Ht by (by vm_compute).
  unfold demo_take. destruct (worker_take demo_queued) as [[a s1]|] eqn:Et; [|discriminate].
  simpl in Ht. injection Ht as ->.
  exact (step_take demo_ntop demo_answers demo_queued [Woken; Waiting] 0 0 (Some (make_raddr 2 [10; 0; 0; 1])) s1 eq_refl Et).
Qed.

(** ** Two things the code does not mean to do *)

(** An address queued before the workers wait: its signal is lost, both
    workers go to sleep and the queue is not looked at. *)
Lemma wakeup_lost_at_start :
  exists x, rtc (resolver_step demo_ntop demo_answers) resolver_start x /\ workers x = [Waiting; Waiting] /\
    signals x = 0%nat /\ r_head (monitor x) <> r_tail (monitor x).
Proof.
  exists (ResolverSys demo_queued [Waiting; Waiting] 0). split_and!; [|done|done|by vm_compute].
  etrans; [apply demo_resolve_queued|].
  eapply rtc_l; [by apply step_signal_lost; set_solver|].
  eapply rtc_l; [by apply (step_start _ _ _ _ _ 0)|]. eapply rtc_l; [by apply (step_start _ _ _ _ _ 1)|]. done.
Qed.

(** "Found => already resolved, or on the queue": an address met while the
    queue is full has an entry and is in neither state; no later call queues it. *)
Lemma full_queue_stays_numeric o ntop af addr nm s sp C :
  resolver_rep s sp C -> length addr = (if Z.eqb af 2 then 4 else 16)%nat -> bytes_ok addr ->
  dnsresolution o = 1 -> queue_full s = true -> sp_names sp !! make_raddr af addr = None ->
  ntop (make_raddr af addr) = Some nm ->
  exists out s' sp' C', resolve o ntop af addr true 256 s = Some (out, s', false) /\
    resolver_rep s' sp' C' /\ sp_queue sp' = sp_queue sp /\
    sp_names sp' !! make_raddr af addr = Some (Some nm) /\
    exists out' s'', resolve o ntop af addr true 256 s' = Some (out', s'', false) /\ resolver_rep s'' sp' C'.
Proof.
  intros Hr Hl Hb Ho Hfull Hm Hnm.
  destruct (resolve_spec o ntop af addr true 256 s sp C Hr Hl Hb) as (s' & C' & H).
  unfold copies in H. rewrite Ho in H. simpl in H.
  unfold spec_resolve, spec_enqueue in H. rewrite Hm, Hnm in H.
  unfold queue_full in Hfull. rewrite (ring_full _ _ _ _ (rr_queue _ _ _ Hr)) in Hfull. rewrite Hfull in H.
  simpl in H. destruct H as [H Hr']. do 4 eexists. split_and!; [exact H|exact Hr'|done|apply lookup_insert_eq|].
  unfold resolve. rewrite Ho. simpl.
  pose proof (table_find s' _ _ C' _ (rr_table _ _ _ Hr') (make_raddr_valid af addr Hl Hb)) as Hf.
  cbn [sp_names] in Hf. rewrite lookup_insert_eq in Hf. destruct Hf as (p & -> & Hp & _).
  cbn [mbind option_bind]. rewrite Hp. simpl. by do 2 eexists.
Qed.

(** An address of a family that inet_ntop does not know, asked for twice: the
    second call, which copies the name, reads a buffer that nobody wrote. *)
Lemma unknown_family_unwritten o ntop af addr s sp C :
  resolver_rep s sp C -> length addr = (if Z.eqb af 2 then 4 else 16)%nat -> bytes_ok addr ->
  dnsresolution o = 1 -> sp_names sp !! make_raddr af addr = None -> ntop (make_raddr af addr) = None ->
  (exists s' added, resolve o ntop af addr false 0 s = Some (None, s', added)) /\
  resolve o ntop af addr true 256 s = None.
Proof.
  intros Hr Hl Hb Ho Hm Hn.
  destruct (resolve_spec o ntop af addr false 0 s sp C Hr Hl Hb) as (s1 & C1 & H1).
  destruct (resolve_spec o ntop af addr true 256 s sp C Hr Hl Hb) as (s2 & C2 & H2).
  unfold copies in H1, H2. rewrite Ho in H1, H2. simpl in H1, H2. unfold spec_resolve in H1, H2. rewrite Hm, Hn in H1, H2.
  destruct (spec_enqueue _ _) as [q b]. destruct H1 as [H1 _], H2 as [H2 _]. eauto.
Qed.

(** ** Properties *)

(** C7: every state that resolve() and the worker threads can reach stands for
    a state that the specification reaches (a map of names and a first-in
    first-out queue), with the same threads: the table is that map, the ring
    that queue, [ns_hash_n_entries] the number of names. *)
Theorem resolver_refines (ntop : addr_storage -> option string) (do_resolve : addr_storage -> string -> Prop) (x : resolver_sys) :
  rtc (resolver_step ntop do_resolve) resolver_start x ->
  exists sp C, rtc (spec_sys_step ntop do_resolve) spec_start (SpecSys sp (workers x) (signals x)) /\
    resolver_rep (monitor x) sp C.
Proof.
  intros Hx. destruct (sim_reachable ntop do_resolve x Hx) as (r & Hr & [[C Hrep] Hw Hn _ _]).
  exists (sp_monitor r), C. rewrite <- Hw, <- Hn. by destruct r.
Qed.

Example resolver_refines_witness :
  exists sp C, rtc (spec_sys_step demo_ntop demo_answers) spec_start (SpecSys sp (workers demo_sys) (signals demo_sys)) /\
    resolver_rep (monitor demo_sys) sp C.
Proof. apply (resolver_refines demo_ntop demo_answers). exact demo_resolver_reachable. Defined.

(** C12: in every reachable state, resolve() returns, for any address of a
    family that inet_ntop knows when it is to copy the name and for any address
    otherwise; it writes a name exactly when resolution is on and there is a
    buffer of two bytes or more, and that name is the address in numbers or one
    that do_resolve found for it.  A worker takes the next address, stores what
    do_resolve found for the one it holds, and goes on: no name is read or
    freed after it was freed, or read before it is written.  The names alive
    are exactly those that the table gives for some address, no two addresses
    share one, and [ns_hash_n_entries] counts them. *)
Theorem resolver_never_stuck (ntop : addr_storage -> option string) (do_resolve : addr_storage -> string -> Prop) (x : resolver_sys) :
  rtc (resolver_step ntop do_resolve) resolver_start x ->
  (forall o af addr result buflen, call_ok ntop o af addr result buflen ->
    exists out s' added, resolve o ntop af addr result buflen (monitor x) = Some (out, s', added) /\
      if (dnsresolution o =? 1) && result && (1 <? buflen)
      then exists nm, (ntop (make_raddr af addr) = Some nm \/ do_resolve (make_raddr af addr) nm) /\
        out = Some (strncpy (buflen - 1) nm)
      else out = None) /\
  is_Some (worker_take (monitor x)) /\
  (forall i a hostname, workers x !! i = Some (Resolving a) ->
    exists s1, worker_store a hostname (monitor x) = Some s1 /\ is_Some (worker_take s1)) /\
  let find a := hash_find (ns_hash (monitor x)) (r_mem (monitor x)) a in
  (forall p, is_Some (names (monitor x) !! p) <-> exists a, valid_as a /\ find a = Some (HASH_STATUS_OK, Some p)) /\
  (forall a b p, valid_as a -> valid_as b -> find a = Some (HASH_STATUS_OK, Some p) ->
    find b = Some (HASH_STATUS_OK, Some p) -> a = b) /\
  Z.of_nat (size (names (monitor x))) = ns_hash_n_entries (monitor x).
Proof.
  intros Hx. destruct (sim_reachable ntop do_resolve x Hx) as (r & _ & Hsim). pose proof (sim_size _ _ Hsim).
  destruct Hsim as [[C Hr] _ _ Hf _]. pose proof (rr_table _ _ _ Hr) as Ht. cbv zeta. split_and!.
  - intros o af addr result buflen Hc. exact (resolve_genuine ntop do_resolve x o af addr result buflen Hx Hc).
  - destruct (worker_take_spec _ _ C Hr) as (s' & -> & _). by eexists.
  - intros i a hostname Hi.
    destruct (store_take_spec a hostname _ _ C Hr) as (s1 & s' & C' & -> & Hst & _);
      [by eapply in_flight_valid|done|]. exists s1. rewrite Hst. by split; [|eexists].
  - intros p. exact (table_names _ _ _ p Ht).
  - intros a b p. exact (table_find_inj _ _ _ a b p Ht).
  - rewrite (table_rep_size _ _ _ Ht). symmetry. apply Hr.
Qed.

Example resolver_never_stuck_witness :
  Z.of_nat (size (names (monitor demo_sys))) = ns_hash_n_entries (monitor demo_sys) /\
  (exists s1, worker_store (make_raddr 2 [10; 0; 0; 1]) (Some "gateway"%string) (monitor demo_sys) = Some s1 /\
    is_Some (worker_take s1)) /\
  exists out s' added, resolve demo_options demo_ntop 2 [10; 0; 0; 2] true 256 (monitor demo_sys) = Some (out, s', added).
Proof.
  destruct (resolver_never_stuck demo_ntop demo_answers demo_sys demo_resolver_reachable) as (Hc & _ & Hs & _ & _ & Hn).
  split; [exact Hn|]. split; [apply (Hs 0%nat); reflexivity|].
  destruct (Hc demo_options 2 [10; 0; 0; 2] true 256) as (out & s' & added & E & _);
    [split_and!; [reflexivity|repeat constructor; unfold is_byte; lia|by eexists]|].
  by exists out, s', added.
Defined.

(** C30: the table of names never has more than 16384 + 21 entries (the limit
    that resolve() enforces, plus at most 21 addresses that are queued or being
    resolved when it clears the table), and the ring indices stay in the ring. *)
Theorem resolver_bounded (ntop : addr_storage -> option string) (do_resolve : addr_storage -> string -> Prop) (x : resolver_sys) :
  rtc (resolver_step ntop do_resolve) resolver_start x ->
  0 <= ns_hash_n_entries (monitor x) <= NS_HASH_MAX_ENTRIES + 21 /\
  0 <= r_head (monitor x) < RESOLVE_QUEUE_LENGTH /\ 0 <= r_tail (monitor x) < RESOLVE_QUEUE_LENGTH.
Proof.
  intros Hx. destruct (sim_reachable ntop do_resolve x Hx) as (r & _ & Hsim). pose proof (sim_size _ _ Hsim).
  destruct Hsim as [[C [_ Hc [_ Hh Ht _ _] _]] _ _ _ _]. rewrite Hc. lia.
Qed.

Example resolver_bounded_witness :
  0 <= ns_hash_n_entries (monitor demo_sys) <= NS_HASH_MAX_ENTRIES + 21 /\
  0 <= r_head (monitor demo_sys) < RESOLVE_QUEUE_LENGTH /\ 0 <= r_tail (monitor demo_sys) < RESOLVE_QUEUE_LENGTH.
Proof. apply (resolver_bounded demo_ntop demo_answers). exact demo_resolver_reachable. Defined.

(** C27: once one worker waits for work and the queue is empty, no wake-up is
    ever lost: in every later state with a queued address, a signal is still to
    be sent or a worker is going to look at the queue. *)
Theorem resolver_no_lost_wakeup (ntop : addr_storage -> option string) (do_resolve : addr_storage -> string -> Prop) (x y : resolver_sys) i :
  rtc (resolver_step ntop do_resolve) resolver_start x ->
  workers x !! i = Some Waiting -> r_head (monitor x) = r_tail (monitor x) ->
  rtc (resolver_step ntop do_resolve) x y -> r_head (monitor y) <> r_tail (monitor y) ->
  (0 < signals y)%nat \/ active (workers y).
Proof.
  intros Hx Hi Hq Hxy Hy. destruct (sim_reachable ntop do_resolve x Hx) as (r & _ & Hr).
  assert (forall z r, sim z r -> r_head (monitor z) = r_tail (monitor z) <-> sp_queue (sp_monitor r) = []) as He.
  { intros z r0 [[C [_ _ Hz _]] _ _ _ _]. apply ring_empty in Hz. rewrite <- Z.eqb_eq, Hz.
    apply bool_decide_eq_true. }
  destruct (sim_run ntop do_resolve x y r Hxy Hr) as (r' & Hr' & Hs').
  assert (attended r') as [_ Ha].
  { assert (attended r) as Hat.
    { split; [exists i, Waiting; by rewrite (sim_workers _ _ Hr)|]. intros []. by apply (He x). }
    clear -Hr' Hat. induction Hr' as [|? ? ? H _ IH]; [done|]. eauto using spec_step_attended. }
  rewrite <- (sim_signals _ _ Hs'), <- (sim_workers _ _ Hs'). apply Ha. intros E. apply Hy. by apply (He y r').
Qed.

Example resolver_no_lost_wakeup_witness : (0 < signals demo_pending)%nat \/ active (workers demo_pending).
Proof.
  apply (resolver_no_lost_wakeup demo_ntop demo_answers demo_idle demo_pending 0).
  - apply demo_idle_reachable.
  - reflexivity.
  - reflexivity.
  - apply demo_resolve_queued.
  - vm_compute. discriminate.
Defined.

(** The name that do_resolve finds is the one the display shows next: a
    worker that stores it leaves a state in which resolve() gives it, queues
    nothing and changes nothing that matters. *)
Theorem resolved_name_is_shown (ntop : addr_storage -> option string) (do_resolve : addr_storage -> string -> Prop) (x : resolver_sys) i af addr nm
    (o : options_t) (buflen : Z) :
  rtc (resolver_step ntop do_resolve) resolver_start x -> dnsresolution o = 1 -> 1 < buflen ->
  length addr = (if Z.eqb af 2 then 4 else 16)%nat -> bytes_ok addr ->
  workers x !! i = Some (Resolving (make_raddr af addr)) ->
  exists s1 b s' s'', worker_store (make_raddr af addr) (Some nm) (monitor x) = Some s1 /\
    worker_take s1 = Some (b, s') /\
    resolve o ntop af addr true buflen s' = Some (Some (strncpy (buflen - 1) nm), s'', false).
Proof.
  intros Hx Ho Hn Hl Hb Hi. destruct (sim_reachable ntop do_resolve x Hx) as (r & _ & Hsim).
  pose proof (sim_size _ _ Hsim) as Hs. destruct Hsim as [[C Hr] _ _ Hf _].
  destruct (store_take_spec (make_raddr af addr) (Some nm) _ _ C Hr (in_flight_valid _ _ _ Hi Hf) Hs)
    as (s1 & s' & C' & Hst & Ht & Hr' & _).
  destruct (resolve_spec o ntop af addr true buflen s' _ C' Hr' Hl Hb) as (s'' & C'' & H).
  unfold copies in H. rewrite Ho, (proj2 (Z.ltb_lt _ _) Hn) in H. simpl in H. unfold spec_resolve in H.
  rewrite (proj2 (spec_take_queue _)) in H. cbn [spec_store sp_names] in H. rewrite lookup_insert_eq in H.
  destruct H as [H _].
  exists s1. by do 3 eexists.
Qed.

Example resolved_name_is_shown_witness :
  exists s1 b s' s'', worker_store (make_raddr 2 [10; 0; 0; 1]) (Some "gateway"%string) (monitor demo_sys) = Some s1 /\
    worker_take s1 = Some (b, s') /\
    resolve demo_options demo_ntop 2 [10; 0; 0; 1] true 256 s' = Some (Some (strncpy (256 - 1) "gateway"), s'', false).
Proof.
  apply (resolved_name_is_shown demo_ntop demo_answers demo_sys 0).
  - exact demo_resolver_reachable.
  - reflexivity.
  - lia.
  - reflexivity.
  - repeat constructor; unfold is_byte; lia.
  - reflexivity.
Defined.
