(* ===== verification/EdLine.v ===== *)
(** * Text input on a line of the screen (src/util/edline.c)

    The edited string is a C string in a buffer of [e_slen] bytes: a write past
    the buffer, a read past its terminator, or a call of isprint on a value it
    is not defined for, has no result.  The tests of characters depend on the
    locale and are arguments. *)

From S2P Require Import Prelude CStr.

Local Open Scope Z_scope.

(** ** Keys (curses.h) *)
Definition ERR : Z := -1.
Definition KEY_LEFT : Z := 260.
Definition KEY_RIGHT : Z := 261.
Definition KEY_HOME : Z := 262.
Definition KEY_BACKSPACE : Z := 263.
Definition KEY_DL : Z := 328.
Definition KEY_DC : Z := 330.
Definition KEY_CLEAR : Z := 333.
Definition KEY_ENTER : Z := 343.
Definition KEY_END : Z := 360.

Definition chr (c : Z) : ascii := ascii_of_N (Z.to_N (c mod 256)).

Record edit := Edit { e_str : string; e_slen : Z; e_pos : Z }.

Abbreviation len s := (Z.of_nat (String.length s)).

(** [str + i], within the string and its terminator. *)
Definition suffix_at (s : string) (i : Z) : option string :=
  if (0 <=? i) && (i <=? len s) then Some (str_drop (Z.to_nat i) s) else None.

(** [str[i]]; the terminator is at [strlen(str)]. *)
Definition char_at (s : string) (i : Z) : option ascii :=
  t ← suffix_at s i; Some (match t with String c _ => c | EmptyString => NUL end).

Definition prefix_to (s : string) (i : Z) : string := str_take (Z.to_nat i) s.

(** [memmove(str + i, str + j, strlen(str + j) + 1)], for [i <= j]. *)
Definition cut (s : string) (i j : Z) : option string :=
  t ← suffix_at s j; if 0 <=? i then Some (prefix_to s i +:+ t) else None.

(** The insertion at [pos], in a buffer of [slen] bytes. *)
Definition insert_char (e : edit) (c : ascii) : option edit :=
  let slen := if len (e_str e) =? e_slen e - 1 then e_slen e * 2 else e_slen e in
  t ← suffix_at (e_str e) (e_pos e);
  if len (e_str e) + 2 <=? slen then
    Some (Edit (prefix_to (e_str e) (e_pos e) +:+ String c t) slen (e_pos e + 1))
  else None.

Section edline.
Context (isprint : Z -> bool) (isspace : ascii -> bool) (COLS : Z).

(** [for (; i > 0; --i) if (p(str[i])) break;] *)
Fixpoint scan_back (p : ascii -> bool) (s : string) (i : nat) : option Z :=
  match i with
  | O => Some 0
  | S i' => c ← char_at s (Z.of_nat i); if p c then Some (Z.of_nat i) else scan_back p s i'
  end.

(** ^W.  The code passes a [char], which is negative for a byte above 127 where
    [char] is signed: C leaves isspace undefined there, and [isspace] is what
    glibc, whose tables reach down to -128, answers for the byte. *)
Definition erase_word (e : edit) : option edit :=
  i ← scan_back (fun c => negb (isspace c)) (e_str e) (Z.to_nat (e_pos e));
  i ← scan_back isspace (e_str e) (Z.to_nat i);
  if i =? e_pos e then Some e
  else s ← cut (e_str e) i (e_pos e); Some (Edit s (e_slen e) i).

(** isprint, defined for the values of an unsigned char and EOF. *)
Definition is_print (c : Z) : option bool :=
  if (-1 <=? c) && (c <=? 255) then Some (isprint c) else None.

Definition edit_key (c : Z) (e : edit) : option edit :=
  let at_pos p := Some (Edit (e_str e) (e_slen e) p) in
  if (c =? KEY_DL) || (c =? 21) then Some (Edit EmptyString (e_slen e) 0)
  else if c =? KEY_LEFT then at_pos (if e_pos e - 1 <? 0 then 0 else e_pos e - 1)
  else if c =? KEY_RIGHT then
    at_pos (if len (e_str e) <? e_pos e + 1 then len (e_str e) else e_pos e + 1)
  else if (c =? KEY_HOME) || (c =? 1) then at_pos 0
  else if (c =? KEY_END) || (c =? 5) then at_pos (len (e_str e))
  else if c =? KEY_DC then
    if e_pos e =? len (e_str e) then Some e
    else s ← cut (e_str e) (e_pos e) (e_pos e + 1); Some (Edit s (e_slen e) (e_pos e))
  else if c =? KEY_BACKSPACE then
    if e_pos e =? 0 then Some e
    else s ← cut (e_str e) (e_pos e - 1) (e_pos e); Some (Edit s (e_slen e) (e_pos e - 1))
  else if c =? 23 then erase_word e
  else if c =? ERR then Some e
  else
    p ← is_print c;
    if p && negb (c =? 9) then insert_char e (chr c) else Some e.

(** What is drawn: the text after the prompt and the column of the cursor. *)
Definition edit_view (xstart : Z) (e : edit) : option (string * Z) :=
  let room := COLS - xstart - 1 in
  let off := if room <? e_pos e then e_pos e - room else 0 in
  t ← suffix_at (e_str e) off;
  let n := Z.min (len t) room in
  Some (if n <? 0 then t else prefix_to t n, xstart + e_pos e - off).

Definition edit_start (initial : option string) : edit :=
  match initial with
  | Some s => Edit s (len s * 2 + 1) (len s)
  | None => Edit EmptyString 256 0
  end.

Definition ends_input (c : Z) : bool := (c =? KEY_ENTER) || (c =? 13) || (c =? 27) || (c =? 7).

(** What the editor makes of the keys typed: the line (or none when it is
    cancelled) with the keys left, or still waiting for a key. *)
Inductive edited :=
  | Finished (line : option string) (rest : list Z)
  | Editing (e : edit).

Fixpoint edit_loop (xstart : Z) (keys : list Z) (e : edit) : option edited :=
  match keys with
  | [] => Some (Editing e)
  | c :: keys =>
      e ← edit_key c e;
      _ ← edit_view xstart e;
      if ends_input c then
        Some (Finished (if (c =? KEY_ENTER) || (c =? 13) then Some (e_str e) else None) keys)
      else edit_loop xstart keys e
  end.

Definition edline (prompt : string) (initial : option string) (keys : list Z) : option edited :=
  edit_loop (len prompt + 2) keys (edit_start initial).
End edline.

(** ** Cutting strings *)
Lemma take_drop_str n s : str_take n s +:+ str_drop n s = s.
Proof. revert s. induction n as [|n IH]; intros [|c s]; try done. exact (f_equal (String c) (IH s)). Qed.

Lemma take_length n s : (n <= strlen s)%nat -> strlen (str_take n s) = n.
Proof. revert s. induction n as [|n IH]; intros [|c s] Hn; simpl in *; try lia. rewrite IH; lia. Qed.

Lemma drop_length n s : strlen (str_drop n s) = (strlen s - n)%nat.
Proof. revert s. induction n as [|n IH]; intros [|c s]; simpl; auto. Qed.

Lemma take_all s : str_take (strlen s) s = s.
Proof. induction s as [|c s IH]; [done|]. exact (f_equal (String c) IH). Qed.

Lemma drop_all s : str_drop (strlen s) s = EmptyString.
Proof. by induction s. Qed.

Lemma nul_free_parts n s : nul_free s = true -> nul_free (str_take n s) = true /\ nul_free (str_drop n s) = true.
Proof.
  unfold nul_free. intros Hs. rewrite <- (take_drop_str n s), all_chars_app in Hs.
  by apply andb_true_iff in Hs.
Qed.

Lemma suffix_at_Some s i : 0 <= i <= len s -> suffix_at s i = Some (str_drop (Z.to_nat i) s).
Proof. intros. unfold suffix_at. rewrite (proj2 (Z.leb_le _ _)), (proj2 (Z.leb_le i _)) by lia. done. Qed.

Lemma char_at_Some s i : 0 <= i <= len s -> is_Some (char_at s i).
Proof. intros. unfold char_at. rewrite suffix_at_Some by done. by eexists. Qed.

Lemma cut_spec s i j :
  0 <= i <= j -> j <= len s -> nul_free s = true ->
  exists s', cut s i j = Some s' /\ len s' = len s - (j - i) /\ nul_free s' = true.
Proof.
  intros Hi Hj Hn. unfold cut. rewrite suffix_at_Some by lia. simpl.
  rewrite (proj2 (Z.leb_le _ _)) by lia. eexists. split; [done|].
  unfold prefix_to. rewrite strlen_app, take_length, drop_length by lia. split; [lia|].
  unfold nul_free. rewrite all_chars_app. apply andb_true_iff. split.
  - by apply nul_free_parts.
  - by apply (nul_free_parts (Z.to_nat j) s).
Qed.

(** ** The editor *)
Record edit_ok (e : edit) : Prop := EditOk {
  eo_pos : 0 <= e_pos e <= len (e_str e);
  eo_fits : len (e_str e) < e_slen e;
  eo_nul : nul_free (e_str e) = true
}.

Definition valid_key (c : Z) : Prop :=
  -1 <= c <= 255 \/ c ∈ [KEY_DL; KEY_LEFT; KEY_RIGHT; KEY_HOME; KEY_END; KEY_DC; KEY_BACKSPACE].

#[export] Instance valid_key_dec c : Decision (valid_key c).
Proof. unfold valid_key. apply _. Defined.

Section safety.
Context (isprint : Z -> bool) (isspace : ascii -> bool) (COLS : Z).
Hypothesis isprint_NUL : isprint 0 = false.

Lemma scan_back_spec p s i :
  Z.of_nat i <= len s -> exists j, scan_back p s i = Some j /\ 0 <= j <= Z.of_nat i.
Proof.
  induction i as [|i IH]; intros Hi; [by exists 0|]. cbn [scan_back].
  destruct (char_at_Some s (Z.of_nat (S i))) as [c ->]; [lia|]. cbn [mbind option_bind].
  destruct (p c); [eexists; split; [done|lia]|]. destruct IH as (j & -> & Hj); [lia|]. exists j. split; [done|lia].
Qed.

Lemma chr_not_NUL c : 0 < c < 256 -> aeq (chr c) NUL = false.
Proof.
  intros Hc. apply bool_decide_eq_false. intros E. apply (f_equal N_of_ascii) in E.
  unfold chr in E. rewrite N_ascii_embedding in E.
  - rewrite Z.mod_small in E by lia. change (N_of_ascii NUL) with 0%N in E. lia.
  - rewrite Z.mod_small by lia. lia.
Qed.

Lemma insert_char_spec e c :
  edit_ok e -> aeq c NUL = false ->
  exists e', insert_char e c = Some e' /\ edit_ok e' /\
    e_str e' = prefix_to (e_str e) (e_pos e) +:+ String c (str_drop (Z.to_nat (e_pos e)) (e_str e)) /\
    e_pos e' = e_pos e + 1.
Proof.
  intros [Hp Hf Hn] Hc. unfold insert_char. rewrite suffix_at_Some by lia. cbn [mbind option_bind].
  set (slen := if _ =? _ then _ else _).
  assert (len (e_str e) + 2 <= slen) as Hs by (unfold slen; destruct (Z.eqb_spec (len (e_str e)) (e_slen e - 1)); lia).
  rewrite (proj2 (Z.leb_le _ _) Hs). eexists. split; [done|]. split; [|done].
  split; cbn [e_str e_slen e_pos].
  - unfold prefix_to. rewrite strlen_app. cbn [String.length]. rewrite take_length, drop_length by lia. lia.
  - unfold prefix_to. rewrite strlen_app. cbn [String.length]. rewrite take_length, drop_length by lia. lia.
  - unfold nul_free, prefix_to. rewrite all_chars_app. cbn [all_chars]. rewrite Hc.
    destruct (nul_free_parts (Z.to_nat (e_pos e)) _ Hn) as [H1 H2]. unfold nul_free in *. by rewrite H1, H2.
Qed.

Lemma erase_word_spec e : edit_ok e -> exists e', erase_word isspace e = Some e' /\ edit_ok e'.
Proof.
  intros [Hp Hf Hn]. unfold erase_word.
  destruct (scan_back_spec (fun c => negb (isspace c)) (e_str e) (Z.to_nat (e_pos e))) as (i & -> & Hi); [lia|].
  cbn [mbind option_bind].
  destruct (scan_back_spec isspace (e_str e) (Z.to_nat i)) as (j & -> & Hj); [lia|]. cbn [mbind option_bind].
  destruct (Z.eqb_spec j (e_pos e)); [by exists e|].
  destruct (cut_spec (e_str e) j (e_pos e)) as (s & -> & Hl & Hs); [lia|lia|done|].
  eexists. split; [done|]. split; simpl; [lia|lia|done].
Qed.

Lemma edit_key_spec c e :
  valid_key c -> edit_ok e -> exists e', edit_key isprint isspace c e = Some e' /\ edit_ok e'.
Proof.
  intros Hc He. pose proof He as [Hp Hf Hn]. unfold edit_key.
  destruct ((c =? KEY_DL) || (c =? 21)) eqn:?; [eexists; split; [done|]; split; simpl; [lia|lia|done]|].
  destruct (c =? KEY_LEFT) eqn:?.
  { eexists. split; [done|]. split; simpl; [|done..]. destruct (Z.ltb_spec (e_pos e - 1) 0); lia. }
  destruct (c =? KEY_RIGHT) eqn:?.
  { eexists. split; [done|]. split; simpl; [|done..]. destruct (Z.ltb_spec (len (e_str e)) (e_pos e + 1)); lia. }
  destruct ((c =? KEY_HOME) || (c =? 1)) eqn:?; [eexists; split; [done|]; split; simpl; [lia|done..]|].
  destruct ((c =? KEY_END) || (c =? 5)) eqn:?; [eexists; split; [done|]; split; simpl; [lia|done..]|].
  destruct (c =? KEY_DC) eqn:?.
  { destruct (Z.eqb_spec (e_pos e) (len (e_str e))); [by exists e|].
    destruct (cut_spec (e_str e) (e_pos e) (e_pos e + 1)) as (s & -> & Hl & Hs); [lia|lia|done|].
    eexists. split; [done|]. split; simpl; [lia|lia|done]. }
  destruct (c =? KEY_BACKSPACE) eqn:?.
  { destruct (Z.eqb_spec (e_pos e) 0); [by exists e|].
    destruct (cut_spec (e_str e) (e_pos e - 1) (e_pos e)) as (s & -> & Hl & Hs); [lia|lia|done|].
    eexists. split; [done|]. split; simpl; [lia|lia|done]. }
  destruct (c =? 23); [by apply erase_word_spec|]. destruct (Z.eqb_spec c ERR); [by exists e|].
  assert (-1 < c <= 255) as Hr.
  { destruct Hc as [Hc|Hc]; [unfold ERR in *; lia|]. exfalso.
    rewrite !elem_of_cons, elem_of_nil in Hc. lia. }
  unfold is_print. rewrite (proj2 (Z.leb_le _ _)), (proj2 (Z.leb_le c _)) by lia. cbn [mbind option_bind andb].
  destruct (isprint c) eqn:Ep; cbn [andb]; [|by exists e]. destruct (c =? 9); cbn [negb]; [by exists e|].
  assert (c <> 0) by (intros ->; congruence).
  destruct (insert_char_spec e (chr c) He (chr_not_NUL c ltac:(lia))) as (e' & -> & He' & _). eauto.
Qed.

(** With room for the prompt, the view is in the string and the cursor on the screen. *)
Lemma edit_view_spec xstart e :
  0 <= xstart -> xstart + 1 <= COLS -> edit_ok e ->
  exists t col, edit_view COLS xstart e = Some (t, col) /\ len t <= COLS - xstart - 1 /\ xstart <= col < COLS.
Proof.
  intros Hx Hc [Hp Hf Hn]. unfold edit_view.
  set (room := COLS - xstart - 1). set (off := if room <? e_pos e then _ else _).
  assert (0 <= off <= e_pos e /\ e_pos e - off <= room) as Ho.
  { unfold off. destruct (Z.ltb_spec room (e_pos e)); lia. }
  rewrite suffix_at_Some by lia. cbn [mbind option_bind].
  set (t := str_drop _ _). destruct (Z.ltb_spec (Z.min (len t) room) 0); [lia|].
  do 2 eexists. split; [done|]. split; [|lia]. unfold prefix_to. rewrite take_length by lia. lia.
Qed.

Lemma edit_loop_spec xstart keys e :
  0 <= xstart -> xstart + 1 <= COLS -> Forall valid_key keys -> edit_ok e ->
  exists r, edit_loop isprint isspace COLS xstart keys e = Some r /\
    match r with Editing e' => edit_ok e' | Finished (Some s) _ => nul_free s = true | _ => True end.
Proof.
  intros Hx Hc Hk. revert e. induction Hk as [|c keys Hv Hk IH]; intros e He; [by exists (Editing e)|].
  cbn [edit_loop]. destruct (edit_key_spec c e Hv He) as (e' & -> & He'). cbn [mbind option_bind].
  destruct (edit_view_spec xstart e' Hx Hc He') as (t & col & -> & _). cbn [mbind option_bind].
  destruct (ends_input c); [|by apply IH].
  eexists. split; [done|]. destruct ((c =? KEY_ENTER) || (c =? 13)); [apply He'|done].
Qed.

(** The keys left are the end of the keys typed. *)
Lemma edit_loop_rest xstart keys e line rest :
  edit_loop isprint isspace COLS xstart keys e = Some (Finished line rest) ->
  exists pre, keys = pre ++ rest /\ pre <> [].
Proof.
  revert e. induction keys as [|c keys IH]; intros e; [done|]. cbn [edit_loop].
  intros (e' & _ & H)%bind_Some. apply bind_Some in H as (v & _ & H).
  destruct (ends_input c).
  - injection H as _ <-. by exists [c].
  - destruct (IH e' H) as (pre & -> & _). by exists (c :: pre).
Qed.

Lemma edit_start_ok initial : (forall s, initial = Some s -> nul_free s = true) -> edit_ok (edit_start initial).
Proof. destruct initial as [s|]; intros Hs; split; simpl; try lia; auto. Qed.
End safety.

(** ** Properties *)

(** C17: with a terminal wide enough for the prompt, the line editor is safe
    for every sequence of characters and editing keys: it never writes past
    its buffer nor reads past the string, and the line it returns is a C
    string. *)
Theorem edline_safe (isprint : Z -> bool) (isspace : ascii -> bool) (COLS : Z)
    (prompt : string) (initial : option string) (keys : list Z) :
  isprint 0 = false -> len prompt + 3 <= COLS -> (forall s, initial = Some s -> nul_free s = true) ->
  Forall valid_key keys ->
  exists r, edline isprint isspace COLS prompt initial keys = Some r /\
    match r with Editing e' => edit_ok e' | Finished (Some s) _ => nul_free s = true | _ => True end.
Proof.
  intros Hp Hc Hi Hk. apply edit_loop_spec; [done|lia|lia|done|by apply edit_start_ok].
Qed.

Definition ascii_isprint (c : Z) : bool := (32 <=? c) && (c <=? 126).

Example edline_safe_witness :
  exists r, edline ascii_isprint is_space 80 "Net filter" (Some "port 80")
      [1; KEY_RIGHT; KEY_DC; 23; 120; KEY_BACKSPACE; KEY_LEFT; KEY_END; 23; 23; 121; 27] = Some r /\
    match r with Editing e' => edit_ok e' | Finished (Some s) _ => nul_free s = true | _ => True end.
Proof.
  apply (edline_safe ascii_isprint is_space 80 "Net filter" (Some "port 80"%string)).
  - reflexivity.
  - vm_compute. discriminate.
  - intros s [= <-]. reflexivity.
  - apply (bool_decide_unpack _). vm_compute. exact I.
Defined.

Definition code (c : ascii) : Z := Z.of_N (N_of_ascii c).

(** The key codes of a text. *)
Fixpoint typed (s : string) : list Z :=
  match s with EmptyString => [] | String c s => code c :: typed s end.

Lemma chr_code c : chr (code c) = c.
Proof.
  unfold chr, code. pose proof (N_ascii_bounded c). rewrite Z.mod_small by lia. rewrite N2Z.id.
  apply ascii_N_embedding.
Qed.

(** A printable character typed at the end of the line. *)
Lemma type_char isprint isspace c e :
  (forall k, 0 <= k < 32 -> isprint k = false) -> isprint (code c) = true -> edit_ok e ->
  e_pos e = len (e_str e) ->
  exists e', edit_key isprint isspace (code c) e = Some e' /\ edit_ok e' /\
    e_str e' = e_str e +:+ String c EmptyString /\ e_pos e' = len (e_str e').
Proof.
  intros Hctl Hp He Hpos. pose proof (N_ascii_bounded c) as Hb.
  assert (32 <= code c < 256) as Hc.
  { destruct (Z.ltb_spec (code c) 32); [|unfold code in *; lia]. rewrite Hctl in Hp; [done|]. unfold code in *. lia. }
  unfold edit_key, KEY_DL, KEY_LEFT, KEY_RIGHT, KEY_HOME, KEY_END, KEY_DC, KEY_BACKSPACE, ERR.
  do 12 (rewrite (proj2 (Z.eqb_neq (code c) _)) by lia). cbn [orb].
  unfold is_print. rewrite (proj2 (Z.leb_le _ _)), (proj2 (Z.leb_le (code c) _)) by lia. cbn [mbind option_bind andb].
  rewrite Hp. rewrite (proj2 (Z.eqb_neq (code c) _)) by lia. cbn [andb negb]. rewrite chr_code.
  assert (aeq c NUL = false) as Hn by (rewrite <- (chr_code c); apply chr_not_NUL; lia).
  destruct (insert_char_spec e c He Hn) as (e' & -> & He' & Hs & Hpe). exists e'. split_and!; [done|done|..].
  - rewrite Hs, Hpos. unfold prefix_to. by rewrite Nat2Z.id, take_all, drop_all.
  - rewrite Hpe, Hs, Hpos. unfold prefix_to. rewrite Nat2Z.id, take_all, drop_all, strlen_app. simpl. lia.
Qed.

Lemma end_key isprint isspace k e :
  (forall k, 0 <= k < 32 -> isprint k = false) -> k ∈ [13; 27; 7] -> edit_key isprint isspace k e = Some e.
Proof.
  intros Hctl Hk. rewrite !elem_of_cons, elem_of_nil in Hk.
  assert (isprint k = false) as Hp by (apply Hctl; lia).
  assert (is_print isprint k = Some false) as Hq.
  { unfold is_print. rewrite Hp. destruct Hk as [->|[->|[->|[]]]]; done. }
  unfold edit_key. rewrite Hq. by destruct Hk as [->|[->|[->|[]]]].
Qed.

(** Typing a printable text and Return at the prompt gives the initial
    line with the text appended, whatever its length; Escape or ^G gives none;
    the keys that follow are left for the next reader. *)
Theorem edline_types (isprint : Z -> bool) (isspace : ascii -> bool) (COLS : Z)
    (prompt : string) (initial : option string) (s : string) (k : Z) (rest : list Z) :
  (forall k, 0 <= k < 32 -> isprint k = false) -> len prompt + 3 <= COLS ->
  (forall s, initial = Some s -> nul_free s = true) ->
  all_chars (fun c => isprint (code c)) s = true -> k ∈ [13; 27; 7] ->
  edline isprint isspace COLS prompt initial (typed s ++ k :: rest) =
    Some (Finished (if k =? 13 then Some (default EmptyString initial +:+ s) else None) rest).
Proof.
  intros Hctl Hc Hi Hs Hk. unfold edline.
  assert (e_str (edit_start initial) = default EmptyString initial /\
    e_pos (edit_start initial) = len (e_str (edit_start initial))) as [<- Hpos] by (by destruct initial).
  pose proof (edit_start_ok initial Hi) as He. revert He Hpos. generalize (edit_start initial).
  induction s as [|c s IH]; intros e He Hpos; cbn [typed app edit_loop].
  - rewrite end_key by done. cbn [mbind option_bind].
    destruct (edit_view_spec COLS (len prompt + 2) e) as (t & col & -> & _); [lia|lia|done|]. cbn [mbind option_bind].
    rewrite app_empty_r. rewrite !elem_of_cons, elem_of_nil in Hk.
    by destruct Hk as [->|[->|[->|[]]]].
  - cbn [all_chars] in Hs. apply andb_true_iff in Hs as [Hp Hs].
    destruct (type_char isprint isspace c e Hctl Hp He Hpos) as (e' & -> & He' & Hs' & Hpos').
    cbn [mbind option_bind].
    destruct (edit_view_spec COLS (len prompt + 2) e') as (t & col & -> & _); [lia|lia|done|]. cbn [mbind option_bind].
    assert (ends_input (code c) = false) as ->.
    { destruct (Z.ltb_spec (code c) 32); [|pose proof (N_ascii_bounded c)].
      - rewrite Hctl in Hp; [done|]. unfold code in *. lia.
      - unfold ends_input, KEY_ENTER. do 4 (rewrite (proj2 (Z.eqb_neq (code c) _)) by (unfold code in *; lia)). done. }
    rewrite (IH Hs e' He' Hpos'), Hs', <- str_app_assoc. done.
Qed.

Example edline_types_witness :
  edline ascii_isprint is_space 80 "Net filter" (Some "port ") (typed "80" ++ 13 :: [113]) =
    Some (Finished (if 13 =? 13 then Some ("port " +:+ "80") else None) [113]).
Proof.
  apply (edline_types ascii_isprint is_space 80 "Net filter" (Some "port "%string)).
  - intros k Hk. unfold ascii_isprint. destruct (Z.leb_spec 32 k); [lia|reflexivity].
  - vm_compute. discriminate.
  - intros s [= <-]. reflexivity.
  - reflexivity.
  - rewrite !elem_of_cons. tauto.
Defined.

(** ** Undefined behaviour *)

(** The other keys of the keypad, the Enter key among them, reach isprint. *)
Lemma keypad_keys_reach_isprint isprint isspace e :
  edit_key isprint isspace KEY_ENTER e = None /\ edit_key isprint isspace 259 e = None.
Proof. done. Qed.

(** On a terminal narrower than the prompt, the drawing starts past the end. *)
Lemma narrow_terminal_reads_past isprint isspace prompt c keys :
  edline isprint isspace (len prompt + 2) prompt None (ERR :: c :: keys) = None.
Proof.
  unfold edline. cbn [edit_loop]. unfold edit_view.
  replace (len prompt + 2 - (len prompt + 2) - 1) with (-1) by lia. done.
Qed.
