(* ===== verification/Session.v ===== *)
(** * The clock of the program (src/entry/iftop.c tick, src/ui/ui.c ui_tick)

    tick() is called by every packet and every key: it rotates the histories,
    refreshes the process table and repaints, each at its own pace.  The state
    of a session holds the captured flows, the screen data, the options and the
    help line; what the program reads from outside is a [world] indexed by the
    number of readings made so far. *)

From S2P Require Import Prelude Chain Hash Pool AddrHash History CStr OptionsT OptionsCfg ProcInfo Packet Float SortedList Analyse.

Local Open Scope Z_scope.

Record timeval := Timeval { tv_sec : Z; tv_usec : Z }.

(** ** The world *)
Record world := World {
  w_gettimeofday : nat -> timeval;
  w_time : nat -> Z;
  w_proc : nat -> proc_sys;
  w_names : nat -> Z -> list Z -> option string;
  w_qsort : (positive -> positive -> Z) -> list positive -> list positive;
  w_regcomp : string -> bool;
  w_pcap_compile : string -> option string;
  w_pcap_setfilter : string -> option string;
  w_isprint : Z -> bool;
  w_isspace : ascii -> bool;
  w_COLS : Z
}.

(** 0.03, 0.25 and 1e6 as doubles. *)
Definition DISPLAY_RESOLUTION : spec_float := d_of 1080863910568919 (-55).
Definition PROCINFO_RESOLUTION : spec_float := d_of 1 (-2).
Definition MILLION : spec_float := d_of_Z 1000000.

Definition timeval_diff (a b : timeval) : spec_float :=
  d_add (d_of_Z (swrap 64 (tv_sec a - tv_sec b)))
        (d_div (d_of_Z (swrap 64 (tv_usec a - tv_usec b))) MILLION).

(** ** The state *)
Record clock := Clock {
  last_timestamp : timeval;
  last_display : timeval;
  last_procinfo : timeval;
  slot_elapsed : spec_float
}.

Record help := Help {
  showhelphint : Z;
  persistenthelp : Z;
  helptimer : Z;
  helpmsg : list ascii      (* HELP_MSG_SIZE bytes *)
}.

(** What reaches the screen or the output. *)
Inductive drawn := DScreen | DExport.

Record session := Session {
  s_options : options_t;
  s_capture : capture;
  s_display : display;
  s_procs : option sock_table_t;
  s_clock : clock;
  s_help : help;
  dontshowdisplay : Z;
  foad : Z;
  preg : option string;     (* the compiled screen filter *)
  output : list drawn;
  reads : nat
}.

Definition with_options (o : options_t) (s : session) : session :=
  Session o (s_capture s) (s_display s) (s_procs s) (s_clock s) (s_help s) (dontshowdisplay s) (foad s)
    (preg s) (output s) (reads s).
Definition with_data (c : capture) (d : display) (s : session) : session :=
  Session (s_options s) c d (s_procs s) (s_clock s) (s_help s) (dontshowdisplay s) (foad s)
    (preg s) (output s) (reads s).
Definition with_procs (t : option sock_table_t) (s : session) : session :=
  Session (s_options s) (s_capture s) (s_display s) t (s_clock s) (s_help s) (dontshowdisplay s) (foad s)
    (preg s) (output s) (reads s).
Definition with_clock (k : clock) (s : session) : session :=
  Session (s_options s) (s_capture s) (s_display s) (s_procs s) k (s_help s) (dontshowdisplay s) (foad s)
    (preg s) (output s) (reads s).
Definition with_help (h : help) (s : session) : session :=
  Session (s_options s) (s_capture s) (s_display s) (s_procs s) (s_clock s) h (dontshowdisplay s) (foad s)
    (preg s) (output s) (reads s).
Definition with_dontshow (b : Z) (s : session) : session :=
  Session (s_options s) (s_capture s) (s_display s) (s_procs s) (s_clock s) (s_help s) b (foad s)
    (preg s) (output s) (reads s).
Definition with_foad (b : Z) (s : session) : session :=
  Session (s_options s) (s_capture s) (s_display s) (s_procs s) (s_clock s) (s_help s) (dontshowdisplay s) b
    (preg s) (output s) (reads s).
Definition with_preg (p : option string) (s : session) : session :=
  Session (s_options s) (s_capture s) (s_display s) (s_procs s) (s_clock s) (s_help s) (dontshowdisplay s)
    (foad s) p (output s) (reads s).
Definition draw (x : drawn) (s : session) : session :=
  Session (s_options s) (s_capture s) (s_display s) (s_procs s) (s_clock s) (s_help s) (dontshowdisplay s)
    (foad s) (preg s) (output s ++ [x]) (reads s).
Definition next_read (s : session) : session :=
  Session (s_options s) (s_capture s) (s_display s) (s_procs s) (s_clock s) (s_help s) (dontshowdisplay s)
    (foad s) (preg s) (output s) (S (reads s)).

Section session.
Context (W : world).

(** ui_print, of which only the guard is modelled: drawing reads the state. *)
Definition ui_print (s : session) : session :=
  if truth (dontshowdisplay s) then s else draw DScreen s.

(** export_print *)
Definition export_print (s : session) : session :=
  if (export_mode (s_options s) =? 1) || (export_mode (s_options s) =? 2) then draw DExport s else s.

Definition HELP_TIME : Z := 2.

Definition ui_tick (print : bool) (s : session) : session :=
  if print then ui_print s
  else
    let h := s_help s in
    if truth (showhelphint h) then
      let now := w_time W (reads s) in
      let s := next_read s in
      if (HELP_TIME <? now - helptimer h) && negb (truth (persistenthelp h)) then
        ui_print (with_help (Help 0 (persistenthelp h) (helptimer h) (helpmsg h)) s)
      else s
    else s.

(** "History rotation at the original RESOLUTION" *)
Definition tick_rotate (now : timeval) (s : session) : option (session * bool) :=
  let k := s_clock s in
  if SFleb (d_of_Z RESOLUTION) (timeval_diff now (last_timestamp k)) then
    c ← history_rotate (s_capture s);
    Some (with_clock (Clock now (last_display k) (last_procinfo k) (slot_elapsed k))
            (with_data c (s_display s) s), true)
  else Some (s, false).

(** "Track how far into the current slot we are" *)
Definition clamp_slot (x : spec_float) : spec_float :=
  let x := if SFltb x (S754_zero false) then S754_zero false else x in
  if SFltb (d_of_Z RESOLUTION) x then d_of_Z RESOLUTION else x.

Definition tick_slot (now : timeval) (s : session) : session :=
  let k := s_clock s in
  with_clock (Clock (last_timestamp k) (last_display k) (last_procinfo k)
    (clamp_slot (timeval_diff now (last_timestamp k)))) s.

(** "Procinfo refresh at its own slower cadence" *)
Definition tick_procinfo (now : timeval) (s : session) : option session :=
  let k := s_clock s in
  if truth (show_processes (s_options s)) &&
     SFleb PROCINFO_RESOLUTION (timeval_diff now (last_procinfo k)) then
    t ← procinfo_refresh (w_proc W (reads s));
    Some (with_clock (Clock (last_timestamp k) (last_display k) now (slot_elapsed k))
            (with_procs (Some t) s))
  else Some s.

Definition tick_display (now : timeval) (did_rotate print : bool) (s : session) : option session :=
  let k := s_clock s in
  if did_rotate || SFleb DISPLAY_RESOLUTION (timeval_diff now (last_display k)) then
    '(c, d) ← analyse_data (w_qsort W) (s_options s) (w_names W (reads s)) (s_procs s) (slot_elapsed k)
                (s_capture s) (s_display s);
    let s := with_data c d s in
    let s := if truth (export_mode (s_options s)) then export_print s else ui_print s in
    Some (with_clock (Clock (last_timestamp k) now (last_procinfo k) (slot_elapsed k)) s)
  else Some (ui_tick print s).

(** What tick does between its locking and its unlocking. *)
Definition tick_at (now : timeval) (print : bool) (s : session) : option session :=
  '(s, did_rotate) ← tick_rotate now s;
  s ← tick_procinfo now (tick_slot now s);
  tick_display now did_rotate print s.

Definition tick (print : bool) (s : session) : option session :=
  tick_at (w_gettimeofday W (reads s)) print (next_read s).

(** ** What always holds of a session *)
Definition slot_in_range (x : spec_float) : Prop :=
  SFltb x (S754_zero false) = false /\ SFltb (d_of_Z RESOLUTION) x = false.

Record session_ok (s : session) : Prop := SessionOk {
  so_data : ui_ok (s_capture s, s_display s);
  so_slot : slot_in_range (slot_elapsed (s_clock s));
  so_help : length (helpmsg (s_help s)) = 80%nat
}.

(** What tick leaves alone. *)
Definition settings (s : session) := (s_options s, dontshowdisplay s, foad s, preg s, helpmsg (s_help s)).

Lemma clamp_slot_range x : slot_in_range (clamp_slot x).
Proof.
  unfold clamp_slot, slot_in_range.
  assert (SFltb (if SFltb x (S754_zero false) then S754_zero false else x) (S754_zero false) = false) as H0
    by (destruct (SFltb x (S754_zero false)) eqn:E; [done|exact E]).
  destruct (SFltb (d_of_Z RESOLUTION) _) eqn:E; [done|]. done.
Qed.

Lemma timeval_diff_refl t : timeval_diff t t = S754_zero false.
Proof. unfold timeval_diff. by rewrite !Z.sub_diag. Qed.

Lemma ui_print_same s :
  s_capture (ui_print s) = s_capture s /\ s_display (ui_print s) = s_display s /\
  s_clock (ui_print s) = s_clock s /\ s_help (ui_print s) = s_help s /\ settings (ui_print s) = settings s.
Proof. unfold ui_print. by destruct (truth (dontshowdisplay s)). Qed.

Lemma export_print_same s :
  s_capture (export_print s) = s_capture s /\ s_display (export_print s) = s_display s /\
  s_clock (export_print s) = s_clock s /\ s_help (export_print s) = s_help s /\
  settings (export_print s) = settings s.
Proof. unfold export_print. by destruct (_ || _). Qed.

Lemma ui_tick_same print s :
  s_capture (ui_tick print s) = s_capture s /\ s_display (ui_tick print s) = s_display s /\
  s_clock (ui_tick print s) = s_clock s /\ settings (ui_tick print s) = settings s.
Proof.
  unfold ui_tick. destruct print.
  { destruct (ui_print_same s) as (? & ? & ? & ? & ?). by split_and!. }
  destruct (truth (showhelphint (s_help s))); [|done]. destruct (_ && _); [|done].
  match goal with |- context [ui_print ?x] => destruct (ui_print_same x) as (-> & -> & -> & _ & ->) end. done.
Qed.

Lemma history_rotate_same_len c c' d :
  ui_ok (c, d) -> history_rotate c = Some c' -> ui_ok (c', d).
Proof.
  intros Hok Hr. destruct Hok as (f & m & F & HF & C & S & xs & ds & Hs & Hm & [Hw Hbal] & Hsl). cbn [fst snd] in *.
  destruct (cap_step_screen ERotate c f d m F HF C S Hs Hw) as (c1 & F' & C' & HF' & E & Hs').
  simpl in E. rewrite Hr in E. injection E as <-.
  exists (abs_step f ERotate), m, F', HF', C', S, xs, ds.
  cbn [fst snd]. split_and!; [done|done|by apply abs_step_wf|by apply (abs_run_balanced [ERotate])|done].
Qed.

Lemma ui_step_ok qsort `{!QSort qsort} e s : ui_ok s -> exists s', ui_step qsort e s = Some s' /\ ui_ok s'.
Proof.
  intros Hs. destruct (ui_run_ok qsort [e] s Hs) as (s' & H & Hs'). exists s'. split; [|done].
  cbn [ui_run] in H. by apply bind_Some in H as (s1 & -> & [= ->]).
Qed.

Context `{!QSort (w_qsort W)}.
Hypothesis proc_readable : forall k, is_Some (procinfo_refresh (w_proc W k)).

Lemma tick_rotate_spec now s :
  session_ok s -> exists s' b, tick_rotate now s = Some (s', b) /\ session_ok s' /\ settings s' = settings s /\
    s_help s' = s_help s.
Proof.
  intros [Hd Hs Hh]. unfold tick_rotate. destruct (SFleb _ _); [|by exists s, false].
  destruct (ui_step_ok (w_qsort W) (UCapture ERotate) _ Hd) as (r & E & _).
  cbn [ui_step cap_step fst snd] in E. apply bind_Some in E as (c & Hr & _).
  rewrite Hr. cbn [mbind option_bind]. do 2 eexists. split; [done|]. split_and!; [|done|done].
  split; [|done|done]. exact (history_rotate_same_len _ _ _ Hd Hr).
Qed.

Lemma tick_procinfo_spec now s :
  session_ok s -> exists s', tick_procinfo now s = Some s' /\ session_ok s' /\ settings s' = settings s.
Proof.
  intros [Hd Hs Hh]. unfold tick_procinfo. destruct (_ && _); [|by exists s].
  destruct (proc_readable (reads s)) as [t ->]. cbn [mbind option_bind]. eexists. split; [done|]. by split; [split|].
Qed.

Lemma ui_tick_ok print s : session_ok s -> session_ok (ui_tick print s).
Proof.
  intros [Hd Hs Hh]. destruct (ui_tick_same print s) as (E1 & E2 & E3 & E4). split.
  - by rewrite E1, E2.
  - by rewrite E3.
  - injection E4 as _ _ _ _ E. by rewrite E.
Qed.

Lemma tick_display_spec now b print s :
  session_ok s -> exists s', tick_display now b print s = Some s' /\ session_ok s' /\ settings s' = settings s.
Proof.
  intros Hok. pose proof Hok as [Hd Hs Hh]. unfold tick_display. destruct (_ || _).
  - destruct (ui_step_ok (w_qsort W) (UAnalyse (s_options s) (w_names W (reads s)) (s_procs s)
      (slot_elapsed (s_clock s))) _ Hd) as ([c d] & E & Hok').
    cbn [ui_step fst snd] in E. rewrite E. cbn [mbind option_bind]. eexists. split; [done|].
    set (s1 := with_data c d s).
    assert (forall s2, s_capture s2 = s_capture s1 -> s_display s2 = s_display s1 -> s_clock s2 = s_clock s1 ->
      s_help s2 = s_help s1 -> settings s2 = settings s1 ->
      session_ok (with_clock (Clock (last_timestamp (s_clock s)) now (last_procinfo (s_clock s))
        (slot_elapsed (s_clock s))) s2) /\
      settings (with_clock (Clock (last_timestamp (s_clock s)) now (last_procinfo (s_clock s))
        (slot_elapsed (s_clock s))) s2) = settings s) as K.
    { intros s2 E1 E2 E3 E4 E5. split; [split; cbn|exact E5]; [by rewrite E1, E2|done|by rewrite E4]. }
    destruct (truth (export_mode _)).
    + destruct (export_print_same s1) as (? & ? & ? & ? & ?). by apply K.
    + destruct (ui_print_same s1) as (? & ? & ? & ? & ?). by apply K.
  - eexists. split; [done|]. split; [by apply ui_tick_ok|]. apply ui_tick_same.
Qed.

Lemma tick_at_spec now print s :
  session_ok s -> exists s', tick_at now print s = Some s' /\ session_ok s' /\ settings s' = settings s.
Proof.
  intros Hs. unfold tick_at. destruct (tick_rotate_spec now s Hs) as (s1 & b & -> & Hs1 & E1 & _).
  cbn [mbind option_bind].
  assert (session_ok (tick_slot now s1)) as Hs2.
  { destruct Hs1. split; [done|apply clamp_slot_range|done]. }
  destruct (tick_procinfo_spec now _ Hs2) as (s2 & -> & Hs2' & E2). cbn [mbind option_bind].
  destruct (tick_display_spec now b print s2 Hs2') as (s3 & -> & Hs3 & E3).
  exists s3. split_and!; [done|done|]. rewrite E3, E2. exact E1.
Qed.

Lemma tick_spec print s :
  session_ok s -> exists s', tick print s = Some s' /\ session_ok s' /\ settings s' = settings s.
Proof. intros [? ? ?]. apply (tick_at_spec _ print (next_read s)). by split. Qed.
End session.

(** init_history, with the empty screen and the help line cleared. *)
Definition session_init (o : options_t) (now : timeval) : session :=
  Session o cap_init display_init None (Clock now now now (S754_zero false))
    (Help 0 0 0 (replicate 80 NUL)) 0 0 None [] 0.

Lemma session_init_ok o now : session_ok (session_init o now).
Proof. split; [apply ui_init_ok|split; reflexivity|reflexivity]. Qed.

(** *** Steps of tick seen from the clock *)
Section settle.
Context (W : world).

Lemma tick_rotate_clock now s s' b :
  tick_rotate now s = Some (s', b) ->
  SFleb (d_of_Z RESOLUTION) (timeval_diff now (last_timestamp (s_clock s'))) = false /\
  s_options s' = s_options s /\ reads s' = reads s.
Proof.
  unfold tick_rotate. destruct (SFleb _ _) eqn:E.
  - intros (c & _ & [= <- <-])%bind_Some. cbn. by rewrite timeval_diff_refl.
  - by intros [= <- <-].
Qed.

Lemma tick_procinfo_clock now s s' :
  tick_procinfo W now s = Some s' ->
  last_timestamp (s_clock s') = last_timestamp (s_clock s) /\ slot_elapsed (s_clock s') = slot_elapsed (s_clock s) /\
  truth (show_processes (s_options s')) && SFleb PROCINFO_RESOLUTION (timeval_diff now (last_procinfo (s_clock s'))) = false.
Proof.
  unfold tick_procinfo. destruct (_ && _) eqn:E.
  - intros (t & _ & [= <-])%bind_Some. cbn. rewrite timeval_diff_refl. by rewrite andb_false_r.
  - by intros [= <-].
Qed.

Lemma tick_display_clock now b print s s' :
  tick_display W now b print s = Some s' ->
  last_timestamp (s_clock s') = last_timestamp (s_clock s) /\ slot_elapsed (s_clock s') = slot_elapsed (s_clock s) /\
  last_procinfo (s_clock s') = last_procinfo (s_clock s) /\ s_options s' = s_options s /\
  SFleb DISPLAY_RESOLUTION (timeval_diff now (last_display (s_clock s'))) = false.
Proof.
  unfold tick_display. destruct (_ || _) eqn:E.
  - intros ([c d] & _ & [= <-])%bind_Some. cbn [with_clock s_clock last_timestamp slot_elapsed last_procinfo last_display].
    rewrite timeval_diff_refl. split_and!; [done..| |done].
    assert (forall x, s_options (export_print x) = s_options x) as H1.
    { intros x. destruct (export_print_same x) as (_ & _ & _ & _ & E1). by injection E1. }
    assert (forall x, s_options (ui_print x) = s_options x) as H2.
    { intros x. destruct (ui_print_same x) as (_ & _ & _ & _ & E1). by injection E1. }
    destruct (truth _); cbn [with_clock s_options]; by rewrite ?H1, ?H2.
  - intros [= <-]. apply orb_false_iff in E as [_ E]. destruct (ui_tick_same W print s) as (_ & _ & Ec & Es).
    rewrite Ec. injection Es as -> _ _ _ _. by split_and!.
Qed.
End settle.

Lemma tick_again (W : world) (now : timeval) (p1 p2 : bool) (s s1 : session) :
  tick_at W now p1 s = Some s1 -> tick_at W now p2 s1 = Some (ui_tick W p2 s1).
Proof.
  unfold tick_at. intros ([s2 b] & Hrot & H)%bind_Some. apply bind_Some in H as (s3 & Hproc & Hdisp).
  destruct (tick_rotate_clock _ _ _ _ Hrot) as (R & _).
  destruct (tick_procinfo_clock _ _ _ _ Hproc) as (P1 & P2 & P3).
  destruct (tick_display_clock _ _ _ _ _ _ Hdisp) as (D1 & D2 & D3 & D4 & D5).
  assert (last_timestamp (s_clock s1) = last_timestamp (s_clock s2)) as Et by (by rewrite D1, P1).
  unfold tick_rotate at 1. rewrite Et, R. cbn [mbind option_bind].
  assert (tick_slot now s1 = s1) as ->.
  { assert (slot_elapsed (s_clock s1) = clamp_slot (timeval_diff now (last_timestamp (s_clock s1)))) as Es
      by (by rewrite D2, P2, Et).
    unfold tick_slot. rewrite <- Es. by destruct s1 as [? ? ? ? [] ? ? ? ? ? ?]. }
  unfold tick_procinfo at 1. rewrite D4, D3, P3. cbn [mbind option_bind].
  unfold tick_display. rewrite D5. done.
Qed.

(** ** Properties *)

(** The help line has been shown long enough. *)
Definition help_expired (W : world) (s : session) : bool :=
  let h := s_help s in
  truth (showhelphint h) && (2 <? w_time W (reads s) - helptimer h) && negb (truth (persistenthelp h)).

(** C16: tick is paced by the clock alone: a second tick at the same reading,
    however the first went, rotates, refreshes and regroups nothing: the flows,
    the lines, the processes and the clock stay.  The screen is drawn again,
    with the same data, exactly when the caller asks for it (tick(1)) or the
    help line has expired, and the display is not off. *)
Theorem tick_settles (W : world) (now : timeval) (p1 p2 : bool) (s s1 : session) :
  tick_at W now p1 s = Some s1 ->
  exists s2, tick_at W now p2 s1 = Some s2 /\
    s_capture s2 = s_capture s1 /\ s_display s2 = s_display s1 /\ s_procs s2 = s_procs s1 /\ s_clock s2 = s_clock s1 /\
    output s2 = output s1 ++
      (if (p2 || help_expired W s1) && negb (truth (dontshowdisplay s1)) then [DScreen] else []).
Proof.
  intros Hs. exists (ui_tick W p2 s1). split; [by eapply tick_again|].
  destruct (ui_tick_same W p2 s1) as (-> & -> & -> & _).
  unfold ui_tick, help_expired, ui_print, HELP_TIME. destruct p2; cbn [orb].
  - destruct (truth (dontshowdisplay s1)); cbn [negb]; rewrite ?app_nil_r; by split_and!.
  - destruct (truth (showhelphint _)); cbn [andb]; [|rewrite app_nil_r; by split_and!].
    destruct (_ && _); [|rewrite app_nil_r; by split_and!]. cbn [dontshowdisplay with_help next_read].
    destruct (truth (dontshowdisplay s1)); cbn [negb andb]; rewrite ?app_nil_r; by split_and!.
Qed.

(** A world with no processes whose clock advances by a second per reading. *)
Definition demo_world : world :=
  World (fun k => Timeval (Z.of_nat k) 0) Z.of_nat (fun _ => ProcSys (fun _ => None) None) (fun _ _ _ => None)
    insertion_qsort (fun p => negb (String.eqb p "(")) (fun _ => None) (fun _ => None)
    (fun c => (32 <=? c) && (c <=? 126)) is_space 80.

#[export] Instance demo_world_qsort : QSort (w_qsort demo_world).
Proof. exact insertion_qsort_ok. Qed.

Definition demo_session : session := session_init (options_set_defaults (Some "eth0"%string) None) (Timeval 0 0).

Lemma demo_proc_readable k : is_Some (procinfo_refresh (w_proc demo_world k)).
Proof. by eexists. Qed.

Example tick_settles_witness :
  exists s1 s2, tick_at demo_world (Timeval 1 0) true demo_session = Some s1 /\
    tick_at demo_world (Timeval 1 0) false s1 = Some s2 /\
    s_capture s2 = s_capture s1 /\ s_display s2 = s_display s1 /\ s_procs s2 = s_procs s1 /\ s_clock s2 = s_clock s1 /\
    output s2 = output s1 ++
      (if (false || help_expired demo_world s1) && negb (truth (dontshowdisplay s1)) then [DScreen] else []).
Proof.
  destruct (tick_at_spec demo_world demo_proc_readable (Timeval 1 0) true demo_session (session_init_ok _ _))
    as (s1 & E & _).
  destruct (tick_settles demo_world (Timeval 1 0) true false demo_session s1 E) as (s2 & H).
  exists s1, s2. split; [exact E|exact H].
Defined.
