(* ===== verification/UiKeys.v ===== *)
(** * The keys (src/ui/ui.c ui_loop, src/util/screenfilter.c)

    One function per key, on the session of [Session]: the options it changes,
    the help line it shows, the ticks and repaints it asks for.  The lines
    typed at a prompt are read by [EdLine.edline] from the keys that follow. *)

From S2P Require Import Prelude Chain Hash Pool AddrHash History CStr OptionsT OptionsCfg ProcInfo Packet Float SortedList Analyse EdLine Session.

Local Open Scope Z_scope.

Definition HELP_MSG_SIZE : Z := 80.

(** [strncpy(helpmsg, message, HELP_MSG_SIZE)]: the bytes of the array. *)
Definition help_bytes (message : string) : list ascii :=
  take 80 (String.list_ascii_of_string message ++ replicate 80 NUL).

Definition upd (f : options_t -> options_t) (s : session) : session := with_options (f (s_options s)) s.

Definition flip (v : Z) : Z := if truth v then 0 else 1.

Definition persist (s : session) : session :=
  let h := s_help s in with_help (Help (showhelphint h) 1 (helptimer h) (helpmsg h)) s.

(** ** Screen filter *)
Definition screen_filter_set (regcomp : string -> bool) (pattern : string) (s : session) : session * bool :=
  let s := match screenfilter (s_options s) with
           | Some _ => with_preg None (upd (set_screenfilter None) s)
           | None => s
           end in
  if regcomp pattern then (with_preg (Some pattern) (upd (set_screenfilter (Some pattern)) s), true)
  else (with_preg None s, false).

(** [None]: a match against a pattern that is not compiled. *)
Definition screen_filter_match (regexec : string -> string -> bool) (s : session) (text : string) : option bool :=
  match screenfilter (s_options s) with
  | None => Some true
  | Some _ => p ← preg s; Some (regexec p text)
  end.

Section keys.
Context (W : world).

Definition showhelp (message : string) (s : session) : option session :=
  let h := Help 1 0 (w_time W (reads s)) (help_bytes message) in
  tick W true (with_help h (next_read s)).

Definition showportstatus (s : session) : option session :=
  let p := showports (s_options s) in
  if p =? OPTION_PORTS_ON then showhelp "Port display ON" s
  else if p =? OPTION_PORTS_OFF then showhelp "Port display OFF" s
  else if p =? OPTION_PORTS_DEST then showhelp "Port display DEST" s
  else if p =? OPTION_PORTS_SRC then showhelp "Port display SOURCE" s
  else Some s.

(** The bodies of the cases that read no further key. *)
Definition switch (get : options_t -> Z) (set : Z -> options_t -> options_t) (off on : string)
    (s : session) : option session :=
  if truth (get (s_options s)) then showhelp off (upd (set 0) s) else showhelp on (upd (set 1) s).

Definition source_ports (p : Z) : Z :=
  if p =? OPTION_PORTS_OFF then OPTION_PORTS_SRC
  else if p =? OPTION_PORTS_DEST then OPTION_PORTS_ON
  else if p =? OPTION_PORTS_ON then OPTION_PORTS_DEST
  else OPTION_PORTS_OFF.

Definition dest_ports (p : Z) : Z :=
  if p =? OPTION_PORTS_OFF then OPTION_PORTS_DEST
  else if p =? OPTION_PORTS_SRC then OPTION_PORTS_ON
  else if p =? OPTION_PORTS_ON then OPTION_PORTS_SRC
  else OPTION_PORTS_OFF.

Definition all_ports (p : Z) : Z := if p =? OPTION_PORTS_OFF then OPTION_PORTS_ON else OPTION_PORTS_OFF.

Definition set_ports (f : Z -> Z) (s : session) : option session :=
  showportstatus (upd (fun o => set_showports (f (showports o)) o) s).

Definition sort_by (v : Z) (message : string) (s : session) : option session :=
  showhelp message (upd (set_sort v) s).

Definition bar_key (s : session) : option session :=
  let s := upd (fun o => set_bar_interval (Z.rem (bar_interval o + 1) 3) o) s in
  let b := bar_interval (s_options s) in
  s ← (if b =? 0 then showhelp "Bars show 2s average" s
       else if b =? 1 then showhelp "Bars show 10s average" s
       else showhelp "Bars show 40s average" s);
  Some (ui_print s).

Definition line_key (s : session) : option session :=
  let s := upd (fun o => set_linedisplay (Z.rem (linedisplay o + 1) 4) o) s in
  let l := linedisplay (s_options s) in
  s ← (if l =? OPTION_LINEDISPLAY_TWO_LINE then showhelp "Two lines per host" s
       else if l =? OPTION_LINEDISPLAY_ONE_LINE_SENT then showhelp "Sent traffic only" s
       else if l =? OPTION_LINEDISPLAY_ONE_LINE_RECV then showhelp "Received traffic only" s
       else if l =? OPTION_LINEDISPLAY_ONE_LINE_BOTH then showhelp "One line per host" s
       else Some s);
  Some (ui_print s).

Definition scroll_up (s : session) : option session :=
  if 0 <? screen_offset (s_options s) then
    Some (ui_print (upd (fun o => set_screen_offset (screen_offset o - 1) o) s))
  else Some s.

Definition key_is (c : Z) (k : ascii) : bool := c =? code k.

(** The [switch] of ui_loop but for 'f' and 'l'. *)
Definition simple_key (c : Z) (s : session) : option session :=
  if key_is c "q" then Some (with_foad 1 s)
  else if key_is c "n" then s ← switch dnsresolution set_dnsresolution "DNS resolution off" "DNS resolution on" s; tick W true s
  else if key_is c "N" then s ← switch portresolution set_portresolution "Port resolution off" "Port resolution on" s; tick W true s
  else if key_is c "h" || key_is c "?" then tick W true (upd (fun o => set_showhelp (flip (OptionsT.showhelp o)) o) s)
  else if key_is c "b" then s ← switch showbars set_showbars "Bars off" "Bars on" s; tick W true s
  else if key_is c "B" then bar_key s
  else if key_is c "s" then switch aggregate_src set_aggregate_src "Show source host" "Hide source host" s
  else if key_is c "d" then switch aggregate_dest set_aggregate_dest "Show dest host" "Hide dest host" s
  else if key_is c "S" then set_ports source_ports s
  else if key_is c "D" then set_ports dest_ports s
  else if key_is c "p" then set_ports all_ports s
  else if key_is c "P" then
    if truth (paused (s_options s)) then showhelp "Display unpaused" (upd (set_paused 0) s)
    else s ← showhelp "Display paused" (upd (set_paused 1) s); Some (persist s)
  else if key_is c "o" then
    if truth (freezeorder (s_options s)) then showhelp "Order unfrozen" (upd (set_freezeorder 0) s)
    else s ← showhelp "Order frozen" (upd (set_freezeorder 1) s); Some (persist s)
  else if key_is c "1" then sort_by OPTION_SORT_DIV1 "Sort by col 1" s
  else if key_is c "2" then sort_by OPTION_SORT_DIV2 "Sort by col 2" s
  else if key_is c "3" then sort_by OPTION_SORT_DIV3 "Sort by col 3" s
  else if key_is c "<" then sort_by OPTION_SORT_SRC "Sort by source" s
  else if key_is c ">" then sort_by OPTION_SORT_DEST "Sort by dest" s
  else if key_is c "j" then Some (ui_print (upd (fun o => set_screen_offset (s32 (screen_offset o + 1)) o) s))
  else if key_is c "k" then scroll_up s
  else if key_is c "t" then line_key s
  else if key_is c "!" then showhelp "Sorry, subshells have been disabled." s
  else if key_is c "T" then
    let s := upd (fun o => set_show_totals (flip (show_totals o)) o) s in
    s ← showhelp (if truth (show_totals (s_options s)) then "Show cumulative totals" else "Hide cumulative totals") s;
    Some (ui_print s)
  else if key_is c "L" then
    let s := upd (fun o => set_log_scale (flip (log_scale o)) o) s in
    s ← showhelp (if truth (log_scale (s_options s)) then "Logarithmic scale" else "Linear scale") s;
    Some (ui_print s)
  else if key_is c "Z" then
    let s := upd (fun o => set_show_processes (flip (show_processes o)) o) s in
    s ← showhelp (if truth (show_processes (s_options s)) then "Process display on" else "Process display off") s;
    tick W true s
  else if (c =? KEY_CLEAR) || (c =? 12) || (c =? ERR) then Some s
  else showhelp "Press H or ? for help" s.

Definition prompt_keys (prompt : string) (initial : option string) (keys : list Z) : option edited :=
  edline (w_isprint W) (w_isspace W) (w_COLS W) prompt initial keys.

(** 'f' with the line typed *)
Definition filter_line (str : string) (s : session) : option session :=
  let filter := if bool_decide (skip_set (String " " (String TAB "")) str = "") then None else Some str in
  match set_filter_code (w_pcap_compile W) (w_pcap_setfilter W) filter with
  | None => showhelp "Installed new filter" (upd (set_filtercode filter) s)
  | Some m => showhelp m s
  end.

(** 'l' with the line typed *)
Definition screen_line (str : string) (s : session) : option session :=
  let '(s, ok) := screen_filter_set (w_regcomp W) str s in
  if ok then Some s else showhelp "Invalid regexp" s.

(** A key that reads a line: the keys left, or none while it waits for more. *)
Definition line_prompt (prompt : string) (initial : option string) (k : string -> session -> option session)
    (keys : list Z) (s : session) : option (session * option (list Z)) :=
  let s := with_dontshow 1 s in
  r ← prompt_keys prompt initial keys;
  match r with
  | Editing _ => Some (s, None)
  | Finished line rest =>
      s ← match line with Some str => k str s | None => Some s end;
      Some (ui_print (with_dontshow 0 s), Some rest)
  end.

Definition ui_key (c : Z) (keys : list Z) (s : session) : option (session * option (list Z)) :=
  if key_is c "f" then line_prompt "Net filter" (filtercode (s_options s)) filter_line keys s
  else if key_is c "l" then line_prompt "Screen filter" (screenfilter (s_options s)) screen_line keys s
  else s ← simple_key c s; Some (s, Some keys).

(** The keys are those that getch returns, [ERR] when none comes in time; the
    loop ends on 'q', or waits for more keys. *)
Fixpoint ui_loop (fuel : nat) (keys : list Z) (s : session) : option session :=
  match fuel with
  | O => None
  | S fuel =>
      if negb (foad s =? 0) then Some s
      else match keys with
      | [] => Some s
      | c :: keys =>
          '(s, rest) ← ui_key c keys s;
          match rest with
          | None => Some s
          | Some keys => s ← tick W false s; ui_loop fuel keys s
          end
      end
  end.

(** ui_init: "Listening on", cut to 19 bytes. *)
Definition ui_init (s : session) : option session :=
  showhelp (str_take 19 ("Listening on " +:+ interface (s_options s))) s.
End keys.

(** ** What the keys do to the options *)
Definition key_options (c : Z) (o : options_t) : options_t :=
  if key_is c "q" then o
  else if key_is c "n" then set_dnsresolution (flip (dnsresolution o)) o
  else if key_is c "N" then set_portresolution (flip (portresolution o)) o
  else if key_is c "h" || key_is c "?" then set_showhelp (flip (OptionsT.showhelp o)) o
  else if key_is c "b" then set_showbars (flip (showbars o)) o
  else if key_is c "B" then set_bar_interval (Z.rem (bar_interval o + 1) 3) o
  else if key_is c "s" then set_aggregate_src (flip (aggregate_src o)) o
  else if key_is c "d" then set_aggregate_dest (flip (aggregate_dest o)) o
  else if key_is c "S" then set_showports (source_ports (showports o)) o
  else if key_is c "D" then set_showports (dest_ports (showports o)) o
  else if key_is c "p" then set_showports (all_ports (showports o)) o
  else if key_is c "P" then set_paused (flip (paused o)) o
  else if key_is c "o" then set_freezeorder (flip (freezeorder o)) o
  else if key_is c "1" then set_sort OPTION_SORT_DIV1 o
  else if key_is c "2" then set_sort OPTION_SORT_DIV2 o
  else if key_is c "3" then set_sort OPTION_SORT_DIV3 o
  else if key_is c "<" then set_sort OPTION_SORT_SRC o
  else if key_is c ">" then set_sort OPTION_SORT_DEST o
  else if key_is c "j" then set_screen_offset (s32 (screen_offset o + 1)) o
  else if key_is c "k" then (if 0 <? screen_offset o then set_screen_offset (screen_offset o - 1) o else o)
  else if key_is c "t" then set_linedisplay (Z.rem (linedisplay o + 1) 4) o
  else if key_is c "!" then o
  else if key_is c "T" then set_show_totals (flip (show_totals o)) o
  else if key_is c "L" then set_log_scale (flip (log_scale o)) o
  else if key_is c "Z" then set_show_processes (flip (show_processes o)) o
  else o.

Definition is_bool (v : Z) : Prop := v = 0 \/ v = 1.

(** The type of the options: what the declarations in options.h mean. *)
Record options_ok (o : options_t) : Prop := OptionsOk {
  oo_dns : is_bool (dnsresolution o);
  oo_port : is_bool (portresolution o);
  oo_bars : is_bool (showbars o);
  oo_src : is_bool (aggregate_src o);
  oo_dest : is_bool (aggregate_dest o);
  oo_paused : is_bool (paused o);
  oo_help : is_bool (OptionsT.showhelp o);
  oo_freeze : is_bool (freezeorder o);
  oo_totals : is_bool (show_totals o);
  oo_log : is_bool (log_scale o);
  oo_procs : is_bool (show_processes o);
  oo_ports : 0 <= showports o <= 3;
  oo_interval : 0 <= bar_interval o <= 2;
  oo_line : 0 <= linedisplay o <= 3;
  oo_sort : 0 <= sort o <= 4;
  oo_offset : 0 <= screen_offset o
}.

Lemma flip_bool v : is_bool v -> is_bool (flip v).
Proof. intros [-> | ->]; [by right|by left]. Qed.

Lemma flip_flip v : is_bool v -> flip (flip v) = v.
Proof. by intros [-> | ->]. Qed.

Ltac key_cases c :=
  repeat match goal with
  | |- context [if key_is c ?k then _ else _] => destruct (key_is c k)
  | |- context [if key_is c ?k || key_is c ?k' then _ else _] => destruct (key_is c k || key_is c k')
  end.

(** Reads of a field after an assignment. *)
Ltac fields :=
  cbn [dnsresolution portresolution showbars aggregate_src aggregate_dest paused OptionsT.showhelp freezeorder
    show_totals log_scale show_processes showports bar_interval linedisplay sort screen_offset screenfilter
    set_dnsresolution set_portresolution set_showhelp set_showbars set_bar_interval set_aggregate_src
    set_aggregate_dest set_showports set_paused set_freezeorder set_sort set_screen_offset set_linedisplay
    set_show_totals set_log_scale set_show_processes set_filtercode set_screenfilter].

Lemma key_options_ok c o :
  options_ok o -> screen_offset o < 2 ^ 31 - 1 ->
  options_ok (key_options c o) /\ screen_offset (key_options c o) <= screen_offset o + 1 /\
  screenfilter (key_options c o) = screenfilter o.
Proof.
  intros Ho Hs. unfold key_options.
  assert (forall f, f = source_ports \/ f = dest_ports \/ f = all_ports -> 0 <= f (showports o) <= 3) as Hf.
  { intros f Hf. unfold source_ports, dest_ports, all_ports, OPTION_PORTS_OFF, OPTION_PORTS_SRC, OPTION_PORTS_DEST,
      OPTION_PORTS_ON in Hf. destruct Hf as [-> | [-> | ->]]; repeat (destruct (_ =? _)); lia. }
  assert (0 <= Z.rem (bar_interval o + 1) 3 <= 2) as Hb by (pose proof (oo_interval o Ho); Z.to_euclidean_division_equations; lia).
  assert (0 <= Z.rem (linedisplay o + 1) 4 <= 3) as Hl by (pose proof (oo_line o Ho); Z.to_euclidean_division_equations; lia).
  assert (s32 (screen_offset o + 1) = screen_offset o + 1) as Hj by (apply swrap_small; destruct Ho; lia).
  destruct Ho. unfold OPTION_SORT_DIV1, OPTION_SORT_DIV2, OPTION_SORT_DIV3, OPTION_SORT_SRC, OPTION_SORT_DEST.
  rewrite Hj. destruct (Z.ltb_spec 0 (screen_offset o));
    key_cases c; split_and!; try done; try (fields; lia); split; fields;
    first [assumption|by apply flip_bool|apply Hf; tauto|lia].
Qed.

(** ** What a key leaves behind *)
Section leaves.
Context (W : world) `{!QSort (w_qsort W)}.
Hypothesis proc_readable : forall k, is_Some (procinfo_refresh (w_proc W k)).

(** [r] returns a session that is well formed, with the options [o]. *)
Definition leaves (s : session) (r : option session) (o : options_t) : Prop :=
  exists s', r = Some s' /\ session_ok s' /\ s_options s' = o /\ preg s' = preg s.

Lemma session_ok_upd f s : session_ok s -> session_ok (upd f s).
Proof. intros []. by split. Qed.

Lemma leaves_upd s f r o : leaves (upd f s) r o -> leaves s r o.
Proof. done. Qed.

Lemma leaves_ret s s' : session_ok s' -> preg s' = preg s -> leaves s (Some s') (s_options s').
Proof. intros. by exists s'. Qed.

Lemma leaves_bind s r o1 k o2 :
  leaves s r o1 ->
  (forall s1, session_ok s1 -> s_options s1 = o1 -> leaves s1 (k s1) o2) -> leaves s (r ≫= k) o2.
Proof.
  intros (s1 & -> & H1 & E1 & P1) Hk. destruct (Hk s1 H1 E1) as (s2 & E & H2 & E2 & P2).
  exists s2. cbn [mbind option_bind]. split_and!; [done..|congruence].
Qed.

Lemma leaves_tick p s : session_ok s -> leaves s (tick W p s) (s_options s).
Proof.
  intros Hs. destruct (tick_spec W proc_readable p s Hs) as (s' & E & Hs' & Es). exists s'.
  injection Es as ? ? ? ? ?. done.
Qed.

Lemma help_bytes_length m : length (help_bytes m) = 80%nat.
Proof. unfold help_bytes. rewrite length_take, length_app, length_replicate. lia. Qed.

Lemma leaves_showhelp m s : session_ok s -> leaves s (showhelp W m s) (s_options s).
Proof.
  intros [Hd Hs _]. unfold showhelp. set (s1 := with_help _ _).
  assert (session_ok s1) as H1 by (split; [done|done|apply help_bytes_length]).
  destruct (leaves_tick true s1 H1) as (s2 & E & H2 & E2 & P2). by exists s2.
Qed.

Lemma session_ok_print s : session_ok s -> session_ok (ui_print s).
Proof.
  intros [Hd Hs Hh]. destruct (ui_print_same s) as (E1 & E2 & E3 & E4 & _). split; [by rewrite E1, E2|by rewrite E3|by rewrite E4].
Qed.

Lemma leaves_print s : session_ok s -> leaves s (Some (ui_print s)) (s_options s).
Proof.
  intros Hs. exists (ui_print s). destruct (ui_print_same s) as (_ & _ & _ & _ & E). injection E as ? ? ? ? ?.
  split_and!; [done|by apply session_ok_print|done..].
Qed.

Lemma leaves_persist s : session_ok s -> leaves s (Some (persist s)) (s_options s).
Proof. intros [? ? ?]. by eexists. Qed.

Lemma leaves_then s r o k :
  leaves s r o -> (forall s1, session_ok s1 -> leaves s1 (k s1) (s_options s1)) -> leaves s (r ≫= k) o.
Proof. intros Hr Hk. eapply leaves_bind; [exact Hr|]. intros s1 H1 <-. by apply Hk. Qed.

Lemma leaves_switch get set off on s :
  session_ok s -> leaves s (switch W get set off on s) (set (flip (get (s_options s))) (s_options s)).
Proof.
  intros Hs. unfold switch, flip. destruct (truth _).
  - exact (leaves_showhelp off (upd (set 0) s) (session_ok_upd (set 0) s Hs)).
  - exact (leaves_showhelp on (upd (set 1) s) (session_ok_upd (set 1) s Hs)).
Qed.

Lemma leaves_ports f s :
  session_ok s ->
  leaves s (set_ports W f s) (set_showports (f (showports (s_options s))) (s_options s)).
Proof.
  intros Hs. unfold set_ports, showportstatus. set (s1 := upd _ s).
  assert (session_ok s1) as H1 by (by apply session_ok_upd).
  repeat (destruct (_ =? _); [exact (leaves_showhelp _ s1 H1)|]). exact (leaves_ret s1 s1 H1 eq_refl).
Qed.

Hint Resolve session_ok_upd leaves_tick leaves_print leaves_persist leaves_showhelp : core.

Lemma simple_key_leaves c s :
  session_ok s -> leaves s (simple_key W c s) (key_options c (s_options s)).
Proof.
  intros Hs. assert (forall f, session_ok (upd f s)) as Hu by auto.
  assert (forall f m, leaves s (showhelp W m (upd f s)) (f (s_options s))) as Hm
    by (intros f m; exact (leaves_showhelp m (upd f s) (Hu f))).
  assert (forall f, leaves s (tick W true (upd f s)) (f (s_options s))) as Ht
    by (intros f; exact (leaves_tick true (upd f s) (Hu f))).
  assert (forall f, leaves s (Some (ui_print (upd f s))) (f (s_options s))) as Hp
    by (intros f; exact (leaves_print (upd f s) (Hu f))).
  assert (leaves s (Some s) (s_options s)) as Hid by (by apply leaves_ret).
  assert (forall f m k, (forall s1, session_ok s1 -> leaves s1 (k s1) (s_options s1)) ->
    leaves s (showhelp W m (upd f s) ≫= k) (f (s_options s))) as Hb
    by (intros f m k Hk; exact (leaves_then s _ _ k (Hm f m) Hk)).
  unfold simple_key, key_options.
  destruct (key_is c "q"); [by exists (with_foad 1 s); destruct Hs|].
  destruct (key_is c "n"); [apply leaves_then; [by apply leaves_switch|auto]|].
  destruct (key_is c "N"); [apply leaves_then; [by apply leaves_switch|auto]|].
  destruct (key_is c "h" || key_is c "?"); [exact (Ht _)|].
  destruct (key_is c "b"); [apply leaves_then; [by apply leaves_switch|auto]|].
  destruct (key_is c "B").
  { unfold bar_key. apply leaves_then; [|auto]. repeat (destruct (_ =? _); [exact (Hm _ _)|]). exact (Hm _ _). }
  do 2 (destruct (key_is c _); [by apply leaves_switch|]).
  do 3 (destruct (key_is c _); [by apply leaves_ports|]).
  destruct (key_is c "P").
  { unfold flip. destruct (truth (paused _)); [exact (Hm _ _)|apply (Hb (set_paused 1)); auto]. }
  destruct (key_is c "o").
  { unfold flip. destruct (truth (freezeorder _)); [exact (Hm _ _)|apply (Hb (set_freezeorder 1)); auto]. }
  do 5 (destruct (key_is c _); [exact (Hm _ _)|]).
  destruct (key_is c "j"); [exact (Hp _)|].
  destruct (key_is c "k"); [unfold scroll_up; destruct (0 <? _); [exact (Hp _)|exact Hid]|].
  destruct (key_is c "t").
  { unfold line_key. apply leaves_then; [|auto]. repeat (destruct (_ =? _); [exact (Hm _ _)|]).
    exact (leaves_ret s (upd _ s) (Hu _) eq_refl). }
  destruct (key_is c "!"); [auto|].
  destruct (key_is c "T"); [apply (Hb (fun o => set_show_totals (flip (show_totals o)) o)); auto|].
  destruct (key_is c "L"); [apply (Hb (fun o => set_log_scale (flip (log_scale o)) o)); auto|].
  destruct (key_is c "Z"); [apply (Hb (fun o => set_show_processes (flip (show_processes o)) o)); auto|].
  destruct (_ || _); [exact Hid|auto].
Qed.

(** ** Sessions that run *)
Record running (s : session) : Prop := Running {
  ru_ok : session_ok s;
  ru_options : options_ok (s_options s);
  ru_filter : screenfilter (s_options s) = preg s;
  ru_code f : filtercode (s_options s) = Some f -> nul_free f = true;
  ru_screen f : screenfilter (s_options s) = Some f -> nul_free f = true
}.

Lemma key_options_filtercode c o : filtercode (key_options c o) = filtercode o.
Proof. unfold key_options. key_cases c; try done. by destruct (0 <? _). Qed.

Lemma simple_key_running c s :
  running s -> screen_offset (s_options s) < 2 ^ 31 - 1 ->
  exists s', simple_key W c s = Some s' /\ running s' /\
    screen_offset (s_options s') <= screen_offset (s_options s) + 1.
Proof.
  intros [Hs Ho Hf Hc Hsc] Hb. destruct (simple_key_leaves c s Hs) as (s' & E & Hs' & Eo & Ep).
  destruct (key_options_ok c (s_options s) Ho Hb) as (Ho' & Hoff & Hsf). rewrite <- Eo in *.
  exists s'. split_and!; [done| |done]. split; [done|done|congruence| |].
  - intros f. rewrite Eo, key_options_filtercode. apply Hc.
  - intros f. rewrite Hsf. apply Hsc.
Qed.

Lemma leaves_same s r s1 :
  leaves s r (s_options s1) -> preg s = preg s1 -> running s1 ->
  exists s', r = Some s' /\ running s' /\ s_options s' = s_options s1.
Proof.
  intros (s' & E & Hs' & Eo & Ep) Hp [Hs Ho Hf Hc Hsc]. exists s'. split_and!; [done| |done].
  split; rewrite ?Eo; try done. congruence.
Qed.

Lemma filter_line_running str s :
  running s -> nul_free str = true ->
  exists s', filter_line W str s = Some s' /\ running s' /\
    screen_offset (s_options s') = screen_offset (s_options s).
Proof.
  intros Hr Hn. unfold filter_line. set (filter := if bool_decide _ then None else Some str).
  assert (running (upd (set_filtercode filter) s)) as Hu.
  { destruct Hr as [Hs Ho Hf Hc Hsc]. split; [by apply session_ok_upd| |done| |done].
    - destruct Ho. by split.
    - intros f. cbn. unfold filter. by case_bool_decide; intros [= <-]. }
  destruct (set_filter_code _ _ _) as [m|].
  - destruct (leaves_same s _ s (leaves_showhelp m s (ru_ok _ Hr)) eq_refl Hr) as (s' & E & Hr' & Eo).
    exists s'. by rewrite Eo.
  - destruct (leaves_same _ _ _ (leaves_showhelp "Installed new filter" _ (ru_ok _ Hu)) eq_refl Hu) as (s' & E & Hr' & Eo).
    exists s'. by rewrite Eo.
Qed.

Lemma screen_line_running str s :
  running s -> nul_free str = true ->
  exists s', screen_line W str s = Some s' /\ running s' /\
    screen_offset (s_options s') = screen_offset (s_options s).
Proof.
  intros Hr Hn. unfold screen_line, screen_filter_set.
  set (s1 := match screenfilter (s_options s) with Some _ => _ | None => s end).
  assert (session_ok s1 /\ options_ok (s_options s1) /\ filtercode (s_options s1) = filtercode (s_options s) /\
    screen_offset (s_options s1) = screen_offset (s_options s) /\ screenfilter (s_options s1) = None) as (H1 & H2 & H3 & H4 & H5).
  { destruct Hr as [[? ? ?] Ho Hf Hc Hsc]. unfold s1. destruct (screenfilter (s_options s)) eqn:E; [|by split_and!].
    split_and!; [by split|destruct Ho; by split|done..]. }
  destruct (w_regcomp W str).
  - eexists. split; [done|]. split; [|done]. destruct Hr as [_ _ _ Hc _]. destruct H1. split; try done.
    + destruct H2. by split.
    + intros f. cbn. rewrite H3. apply Hc.
    + by intros f [= <-].
  - assert (running (with_preg None s1)) as Hr1.
    { destruct Hr as [_ _ _ Hc _]. destruct H1. split; try done.
      - intros f. cbn. rewrite H3. apply Hc.
      - intros f. cbn. by rewrite H5. }
    destruct (leaves_same _ _ _ (leaves_showhelp "Invalid regexp" _ (ru_ok _ Hr1)) eq_refl Hr1) as (s' & E & Hr' & Eo).
    exists s'. rewrite Eo. by split_and!.
Qed.

Hypothesis isprint_NUL : w_isprint W 0 = false.
Hypothesis wide_enough : 16 <= w_COLS W.

Lemma running_dontshow b s : running s -> running (with_dontshow b s).
Proof. intros [[? ? ?] ? ? ? ?]. by split. Qed.

Lemma running_print s : running s -> running (ui_print s).
Proof.
  intros Hr. destruct (leaves_same s _ s (leaves_print s (ru_ok _ Hr)) eq_refl Hr) as (s' & [= <-] & Hr' & _). done.
Qed.

Lemma print_options s : s_options (ui_print s) = s_options s.
Proof. destruct (ui_print_same s) as (_ & _ & _ & _ & E). by injection E. Qed.

(** A key leaves the session running and some of the keys that follow. *)
Definition key_done (keys : list Z) (s : session) (r : option (session * option (list Z))) : Prop :=
  exists s' rest, r = Some (s', rest) /\ running s' /\
    screen_offset (s_options s') <= screen_offset (s_options s) + 1 /\
    (forall k, rest = Some k -> exists pre, keys = pre ++ k).

Lemma line_prompt_running prompt initial k keys s :
  running s -> len prompt <= 13 -> Forall valid_key keys ->
  (forall f, initial = Some f -> nul_free f = true) ->
  (forall str s1, running s1 -> nul_free str = true -> exists s', k str s1 = Some s' /\ running s' /\
    screen_offset (s_options s') = screen_offset (s_options s1)) ->
  key_done keys s (line_prompt W prompt initial k keys s).
Proof.
  intros Hr Hl Hk Hi Hline. unfold line_prompt, prompt_keys, edline.
  destruct (edit_loop_spec (w_isprint W) (w_isspace W) (w_COLS W) isprint_NUL (len prompt + 2) keys (edit_start initial))
    as (r & Er & Hres); [lia|lia|done|by apply edit_start_ok|].
  rewrite Er. cbn [mbind option_bind]. pose proof (running_dontshow 1 s Hr) as Hd.
  destruct r as [line rest|e].
  - destruct (edit_loop_rest _ _ _ _ _ _ _ _ Er) as (pre & Epre & _).
    assert (exists s1, match line with Some str => k str (with_dontshow 1 s) | None => Some (with_dontshow 1 s) end = Some s1 /\
      running s1 /\ screen_offset (s_options s1) = screen_offset (s_options s)) as (s1 & -> & H1 & E1).
    { destruct line as [str|]; [|by eexists].
      destruct (Hline str _ Hd Hres) as (s2 & ? & ? & ?). by exists s2. }
    cbn [mbind option_bind]. do 2 eexists. split; [done|].
    split; [by apply running_print, running_dontshow|]. rewrite print_options. cbn. split; [lia|].
    intros ? [= <-]. by exists pre.
  - do 2 eexists. split; [done|]. split; [done|]. cbn. split; [lia|done].
Qed.

Lemma ui_key_running c keys s :
  running s -> Forall valid_key keys -> screen_offset (s_options s) < 2 ^ 31 - 1 ->
  key_done keys s (ui_key W c keys s).
Proof.
  intros Hr Hk Hb. unfold ui_key. destruct (key_is c "f"); [|destruct (key_is c "l")].
  - apply line_prompt_running; [done|vm_compute; congruence|done|apply Hr|]. intros. by apply filter_line_running.
  - apply line_prompt_running; [done|vm_compute; congruence|done|apply Hr|]. intros. by apply screen_line_running.
  - destruct (simple_key_running c s Hr Hb) as (s' & -> & Hr' & Ho). cbn [mbind option_bind].
    exists s', (Some keys). split_and!; [done..|]. intros ? [= <-]. by exists [].
Qed.

Lemma tick_running p s :
  running s -> exists s', tick W p s = Some s' /\ running s' /\ s_options s' = s_options s.
Proof. intros Hr. exact (leaves_same s _ s (leaves_tick p s (ru_ok _ Hr)) eq_refl Hr). Qed.

Lemma ui_loop_running fuel keys s :
  running s -> Forall valid_key keys -> (length keys < fuel)%nat ->
  screen_offset (s_options s) + Z.of_nat (length keys) < 2 ^ 31 ->
  exists s', ui_loop W fuel keys s = Some s' /\ running s' /\
    screen_offset (s_options s') <= screen_offset (s_options s) + Z.of_nat (length keys).
Proof.
  revert keys s. induction fuel as [|fuel IH]; intros keys s Hr Hk Hf Hb; [lia|]. cbn [ui_loop].
  destruct (negb (foad s =? 0)); [exists s; split_and!; [done..|lia]|].
  destruct keys as [|c keys]; [exists s; split_and!; [done..|lia]|].
  apply Forall_cons in Hk as [_ Hk]. cbn [length] in *.
  destruct (ui_key_running c keys s Hr Hk) as (s1 & rest & -> & Hr1 & Ho1 & Hrest); [lia|].
  cbn [mbind option_bind]. destruct rest as [rest|]; [|exists s1; split_and!; [done..|lia]].
  destruct (Hrest rest eq_refl) as (pre & ->). rewrite length_app in *.
  destruct (tick_running false s1 Hr1) as (s2 & -> & Hr2 & Eo). cbn [mbind option_bind].
  apply Forall_app in Hk as [_ Hk].
  destruct (IH rest s2 Hr2 Hk) as (s3 & -> & Hr3 & Ho3); [lia|rewrite Eo; lia|].
  exists s3. split_and!; [done..|]. rewrite Eo in Ho3. lia.
Qed.
End leaves.

(** ** Sessions: packets of the capture thread between the keys *)
Inductive session_event :=
  | EvPacket (ap : addr_pair) (proc : option (Z * string)) (len : Z) (as_sent direction : bool)
  | EvTick                     (* tick(0) of handle_eth_packet *)
  | EvKeys (keys : list Z).    (* ui_loop, until it waits for another key *)

Definition session_step (W : world) (e : session_event) (s : session) : option session :=
  match e with
  | EvPacket ap proc len b d =>
      c ← packet_seen (s_capture s) ap proc len b d; Some (with_data c (s_display s) s)
  | EvTick => tick W false s
  | EvKeys keys => ui_loop W (S (length keys)) keys s
  end.

Fixpoint session_run (W : world) (es : list session_event) (s : session) : option session :=
  match es with
  | [] => Some s
  | e :: es => s ← session_step W e s; session_run W es s
  end.

Definition event_keys (e : session_event) : list Z := match e with EvKeys keys => keys | _ => [] end.
Definition keys_pressed (es : list session_event) : Z := Z.of_nat (length (es ≫= event_keys)).

Lemma packet_running W `{!QSort (w_qsort W)} ap proc len b d s :
  running s -> exists s', session_step W (EvPacket ap proc len b d) s = Some s' /\ running s' /\ s_options s' = s_options s.
Proof.
  intros [[Hd Hs Hh] Ho Hf Hc Hsc].
  destruct (ui_step_ok (w_qsort W) (UCapture (EPacket ap proc len b d)) _ Hd) as (r & E & Hok).
  cbn [ui_step cap_step fst snd] in E. apply bind_Some in E as (c & E & Er).
  cbn [session_step]. rewrite E. cbn [mbind option_bind]. eexists. split; [done|]. split; [|done].
  split; [split; [|done|done]|done..]. by injection Er as <-.
Qed.

(** ** Properties *)

(** C6: the screen session never gets stuck.  On a terminal of at least 16
    columns, from a well-formed session, any sequence of packets, ticks and keys
    that isprint may be given (characters, ERR, and of the keypad those that the
    line editor handles itself: see [valid_key]), with any readings of the clock
    and fewer than 2^31 keys, lines typed at the prompts included, runs to the
    end, and leaves the data of the screen well formed, the options inside their
    declared types, the elapsed part of the slot in [0, RESOLUTION], and the
    screen filter equal to the compiled pattern, so that it is never matched
    against a freed one. *)
Theorem session_never_stuck (W : world) `{!QSort (w_qsort W)} (es : list session_event) (s : session) :
  (forall k, is_Some (procinfo_refresh (w_proc W k))) -> w_isprint W 0 = false -> 16 <= w_COLS W ->
  running s -> Forall valid_key (es ≫= event_keys) ->
  screen_offset (s_options s) + keys_pressed es < 2 ^ 31 ->
  exists s', session_run W es s = Some s' /\ running s'.
Proof.
  intros Hp Hi Hw. revert s. induction es as [|e es IH]; intros s Hr Hk Hb; [by exists s|].
  cbn [session_run]. unfold keys_pressed in *. cbn [mbind list_bind] in *. rewrite length_app in Hb.
  apply Forall_app in Hk as [Hk1 Hk2].
  assert (exists s1, session_step W e s = Some s1 /\ running s1 /\
    screen_offset (s_options s1) <= screen_offset (s_options s) + Z.of_nat (length (event_keys e))) as (s1 & -> & H1 & O1).
  { destruct e as [ap proc l b d| |keys]; cbn [event_keys length] in *.
    - destruct (packet_running W ap proc l b d s Hr) as (s1 & -> & ? & Eo). exists s1.
      rewrite Eo. split_and!; [done..|lia].
    - destruct (tick_running W Hp false s Hr) as (s1 & E & ? & Eo). exists s1. rewrite Eo. split_and!; [done..|lia].
    - apply ui_loop_running; [done..|lia|lia]. }
  cbn [mbind option_bind]. apply IH; [done|done|lia].
Qed.

Lemma demo_session_running : running demo_session.
Proof.
  split; [apply session_init_ok| |done|done|done].
  split; unfold is_bool; vm_compute; try (intuition congruence).
Qed.

Definition demo_flow : addr_pair := AddrPair AF_INET 6 1000 (replicate 16 7) 80 (replicate 16 9).

(** A packet, a change of the view, a net filter, an invalid screen filter,
    more packets and the end. *)
Definition demo_events : list session_event :=
  [EvTick; EvPacket demo_flow None 1500 true true;
   EvKeys ([code "n"; ERR; code "f"] ++ typed "tcp" ++ [13; code "l"] ++ typed "(" ++ [13; code "t"; code "j"]);
   EvPacket demo_flow None 40 true false; EvTick; EvKeys [code "q"]].

Example session_never_stuck_witness :
  exists s', session_run demo_world demo_events demo_session = Some s' /\ running s'.
Proof.
  apply (session_never_stuck demo_world demo_events demo_session).
  - exact demo_proc_readable.
  - reflexivity.
  - vm_compute. discriminate.
  - exact demo_session_running.
  - apply (bool_decide_unpack _). vm_compute. exact I.
  - vm_compute. reflexivity.
Defined.

Definition toggle_keys : list ascii :=
  ["n"; "N"; "h"; "?"; "b"; "s"; "d"; "S"; "D"; "P"; "o"; "T"; "L"; "Z"]%char.

Lemma toggle_field (get : options_t -> Z) (set : Z -> options_t -> options_t) (f : Z -> Z) c o :
  (forall o, key_options c o = set (f (get o)) o) -> (forall v o, get (set v o) = v) ->
  (forall v w o, set v (set w o) = set v o) -> (forall o, set (get o) o = o) ->
  f (f (get o)) = get o -> key_options c (key_options c o) = o.
Proof. intros Hk Hgs Hss Hsg Hf. by rewrite !Hk, Hgs, Hss, Hf. Qed.

Lemma ports_twice p :
  0 <= p <= 3 -> source_ports (source_ports p) = p /\ dest_ports (dest_ports p) = p.
Proof. intros Hp. assert (p = 0 \/ p = 1 \/ p = 2 \/ p = 3) as [-> | [-> | [-> | ->]]] by lia; done. Qed.

Lemma toggle_options k o :
  options_ok o -> k ∈ toggle_keys -> key_options (code k) (key_options (code k) o) = o.
Proof.
  intros Ho Hk. unfold toggle_keys in Hk. rewrite !elem_of_cons, elem_of_nil in Hk.
  destruct (ports_twice (showports o) (oo_ports o Ho)) as [Hsrc Hdst]. destruct Ho.
  repeat destruct Hk as [-> | Hk]; [..|done].
  - apply (toggle_field dnsresolution set_dnsresolution flip); try done; [by intros []|by apply flip_flip].
  - apply (toggle_field portresolution set_portresolution flip); try done; [by intros []|by apply flip_flip].
  - apply (toggle_field OptionsT.showhelp set_showhelp flip); try done; [by intros []|by apply flip_flip].
  - apply (toggle_field OptionsT.showhelp set_showhelp flip); try done; [by intros []|by apply flip_flip].
  - apply (toggle_field showbars set_showbars flip); try done; [by intros []|by apply flip_flip].
  - apply (toggle_field aggregate_src set_aggregate_src flip); try done; [by intros []|by apply flip_flip].
  - apply (toggle_field aggregate_dest set_aggregate_dest flip); try done; [by intros []|by apply flip_flip].
  - apply (toggle_field showports set_showports source_ports); try done; by intros [].
  - apply (toggle_field showports set_showports dest_ports); try done; by intros [].
  - apply (toggle_field paused set_paused flip); try done; [by intros []|by apply flip_flip].
  - apply (toggle_field freezeorder set_freezeorder flip); try done; [by intros []|by apply flip_flip].
  - apply (toggle_field show_totals set_show_totals flip); try done; [by intros []|by apply flip_flip].
  - apply (toggle_field log_scale set_log_scale flip); try done; [by intros []|by apply flip_flip].
  - apply (toggle_field show_processes set_show_processes flip); try done; [by intros []|by apply flip_flip].
Qed.

(** The view keys are switches: pressed once, a key changes the options
    exactly as [key_options] says and reads no further key; pressed a second
    time, it restores every option, whatever ticks and help lines it caused.
    ('p' is not one of them: it turns one-sided port displays off.) *)
Theorem toggle_keys_undo (W : world) `{!QSort (w_qsort W)} (k : ascii) (keys : list Z) (s : session) :
  (forall k, is_Some (procinfo_refresh (w_proc W k))) -> running s -> k ∈ toggle_keys ->
  exists s1 s2, ui_key W (code k) keys s = Some (s1, Some keys) /\
    s_options s1 = key_options (code k) (s_options s) /\
    ui_key W (code k) keys s1 = Some (s2, Some keys) /\ s_options s2 = s_options s.
Proof.
  intros Hp Hr Hk.
  assert (forall x, session_ok x -> exists x', ui_key W (code k) keys x = Some (x', Some keys) /\ session_ok x' /\
    s_options x' = key_options (code k) (s_options x)) as H.
  { intros x Hx. destruct (simple_key_leaves W Hp (code k) x Hx) as (x' & E & Hx' & Eo & _). exists x'.
    split; [|done]. unfold ui_key. rewrite E. unfold toggle_keys in Hk. rewrite !elem_of_cons, elem_of_nil in Hk.
    by repeat destruct Hk as [-> | Hk]. }
  destruct (H s (ru_ok _ Hr)) as (s1 & E1 & H1 & O1). destruct (H s1 H1) as (s2 & E2 & H2 & O2).
  exists s1, s2. split; [exact E1|]. split; [exact O1|]. split; [exact E2|].
  rewrite O2, O1. apply toggle_options; [apply Hr|done].
Qed.

Example toggle_keys_undo_witness :
  exists s1 s2, ui_key demo_world (code "S") [] demo_session = Some (s1, Some []) /\
    s_options s1 = key_options (code "S") (s_options demo_session) /\
    ui_key demo_world (code "S") [] s1 = Some (s2, Some []) /\ s_options s2 = s_options demo_session.
Proof.
  apply (toggle_keys_undo demo_world "S" [] demo_session).
  - exact demo_proc_readable.
  - exact demo_session_running.
  - unfold toggle_keys. rewrite !elem_of_cons. tauto.
Defined.

(** The first 80 bytes of [m], padded as strncpy does. *)
Definition shows (m : string) (s : session) : Prop :=
  helpmsg (s_help s) = take 80 (String.list_ascii_of_string m ++ replicate 80 NUL).

(** C33: an error at a prompt changes no setting.  The line typed goes to
    libpcap inside "(...) and (ip or ip6)", or as "ip or ip6" when it is blank
    (spaces and tabs): when pcap_compile refuses it, or pcap_setfilter does, the
    message is shown (its first 80 bytes) and the filter in force and all the
    options stay; a line that both accept becomes the filter, with no filter
    for a blank one, and nothing else changes. *)
Theorem filter_error_keeps_options (W : world) `{!QSort (w_qsort W)} (str : string) (s : session) :
  (forall k, is_Some (procinfo_refresh (w_proc W k))) -> session_ok s ->
  let blank := all_chars (fun c => aeq c " " || aeq c TAB) str in
  let program := if blank then "ip or ip6" else "(" +:+ str +:+ ") and (ip or ip6)" in
  exists s', filter_line W str s = Some s' /\
    match w_pcap_compile W program, w_pcap_setfilter W program with
    | Some m, _ | None, Some m => s_options s' = s_options s /\ shows m s'
    | None, None => s_options s' = set_filtercode (if blank then None else Some str) (s_options s) /\
        shows "Installed new filter" s'
    end.
Proof.
  intros Hp Hs blank program. unfold filter_line.
  assert (bool_decide (skip_set (String " " (String TAB "")) str = "") = blank) as Eb.
  { unfold blank, skip_set. clear. induction str as [|c str IH]; [done|]. unfold drop_while in *. cbn [span all_chars one_of].
    destruct (aeq c " "), (aeq c TAB); cbn [orb andb]; try (by apply bool_decide_eq_false);
      destruct (span _ str); exact IH. }
  rewrite Eb. set (filter := if blank then None else Some str).
  assert (forall m x, session_ok x -> exists x', showhelp W m x = Some x' /\ s_options x' = s_options x /\ shows m x') as K.
  { intros m x [Hd Hsl _]. unfold showhelp. set (x1 := with_help _ _).
    assert (session_ok x1) as H1 by (split; [done|done|apply help_bytes_length]).
    destruct (tick_spec W Hp true x1 H1) as (x2 & E & _ & Es). injection Es as E1 _ _ _ E5. by exists x2. }
  assert (set_filter_code (w_pcap_compile W) (w_pcap_setfilter W) filter =
    match w_pcap_compile W program with Some err => Some err | None => w_pcap_setfilter W program end) as ->
    by (unfold filter, program; by destruct blank).
  destruct (w_pcap_compile W program) as [m|]; [|destruct (w_pcap_setfilter W program) as [m|]].
  - destruct (K m s Hs) as (s' & ? & ? & ?). by exists s'.
  - destruct (K m s Hs) as (s' & ? & ? & ?). by exists s'.
  - destruct (K "Installed new filter"%string (upd (set_filtercode filter) s)) as (s' & ? & ? & ?);
      [by apply session_ok_upd|by exists s'].
Qed.

Definition strict_world : world :=
  World (w_gettimeofday demo_world) (w_time demo_world) (w_proc demo_world) (w_names demo_world) insertion_qsort
    (w_regcomp demo_world) (fun _ => Some "syntax error"%string) (w_pcap_setfilter demo_world) (w_isprint demo_world)
    (w_isspace demo_world) 80.

#[export] Instance strict_world_qsort : QSort (w_qsort strict_world).
Proof. exact insertion_qsort_ok. Qed.

Example filter_error_keeps_options_witness :
  exists s', filter_line strict_world "prt 80" demo_session = Some s' /\
    s_options s' = s_options demo_session /\ shows "syntax error" s'.
Proof.
  apply (filter_error_keeps_options strict_world "prt 80" demo_session).
  - exact demo_proc_readable.
  - apply session_init_ok.
Defined.

(** ** What the code does not mean to do *)

(** "p" on a one-sided port display turns the ports off, not on. *)
Example all_ports_not_a_switch : all_ports (all_ports OPTION_PORTS_SRC) = OPTION_PORTS_ON.
Proof. reflexivity. Qed.

(** A help message of 80 characters or more leaves [helpmsg] without a
    terminator; error messages of libpcap may be that long. *)
Lemma long_help_unterminated m :
  all_chars (fun c => negb (aeq c NUL)) m = true -> (80 <= strlen m)%nat -> NUL ∉ help_bytes m.
Proof.
  intros Hm Hl Hin. unfold help_bytes in Hin.
  assert (forall s, length (String.list_ascii_of_string s) = strlen s) as Hlen.
  { induction s as [|c s IH]; [done|]. simpl. by rewrite IH. }
  assert (forall s, all_chars (fun c => negb (aeq c NUL)) s = true -> NUL ∉ String.list_ascii_of_string s) as Hn.
  { clear. induction s as [|c s IH]; simpl; [set_solver|]. intros [Hc Hs]%andb_true_iff [E|H]%elem_of_cons.
    - subst c. discriminate.
    - by apply IH. }
  apply (Hn m Hm). rewrite take_app_le in Hin by (rewrite Hlen; lia).
  by eapply elem_of_take in Hin as (i & Hi & _); eapply list_elem_of_lookup_2.
Qed.

(** An invalid pattern is refused and the filter in force is dropped. *)
Lemma invalid_pattern_drops_filter regcomp regexec pattern s text :
  regcomp pattern = false -> running s ->
  screen_filter_match regexec (screen_filter_set regcomp pattern s).1 text = Some true.
Proof.
  intros Hc Hr. unfold screen_filter_set, screen_filter_match. rewrite Hc. simpl.
  by destruct (screenfilter (s_options s)) eqn:E; simpl; rewrite ?E.
Qed.
