(* ===== verification/Colors.v ===== *)
(** * Colours (src/ui/ui.c getColors)

    The colour table and the file ~/.iftopcolors that changes it.  The file is
    a string read by fgetc, fscanf and fgets; a local buffer that is read
    before anything was stored in it has no value. *)

From S2P Require Import Prelude CStr.

Local Open Scope Z_scope.

Definition GREEN_FOREGROUND : Z := 4.
Definition RED_FOREGROUND : Z := 5.
Definition BLUE_FOREGROUND : Z := 6.
Definition YELLOW_FOREGROUND : Z := 7.
Definition MAGENTA_FOREGROUND : Z := 8.
Definition CYAN_FOREGROUND : Z := 9.
Definition BLACK_FOREGROUND : Z := 10.
Definition WHITE_FOREGROUND : Z := 11.
Definition BOLD : Z := 1.
Definition NONBOLD : Z := 0.

(** A global [int X_COLOR[] = {fg, bold}] with its name in the file and the
    local string that receives the colour read for it. *)
Record color := Color { c_name : string; c_fg : Z; c_bold : Z; c_text : string }.

(** The globals, in the order getColors tests them. *)
Definition color_globals : list (string * Z * Z) :=
  [("RECEIVE_BAR_COLOR", GREEN_FOREGROUND, BOLD);
   ("SENT_BAR_COLOR", BLUE_FOREGROUND, BOLD);
   ("BOTH_BAR_COLOR", RED_FOREGROUND, BOLD);
   ("SCALE_BAR_COLOR", BLUE_FOREGROUND, BOLD);
   ("SCALE_MARKERS_COLOR", BLUE_FOREGROUND, BOLD);
   ("DL_UL_INDICATOR_COLOR", BLUE_FOREGROUND, BOLD);
   ("HOST1_COLOR", CYAN_FOREGROUND, BOLD);
   ("HOST2_COLOR", MAGENTA_FOREGROUND, BOLD);
   ("TWO_SECOND_TRANSFER_COLUMN_COLOR", BLUE_FOREGROUND, NONBOLD);
   ("TEN_SECOND_TRANSFER_COLUMN_COLOR", CYAN_FOREGROUND, BOLD);
   ("FOURTY_SECOND_TRANSFER_COLUMN_COLOR", BLUE_FOREGROUND, BOLD);
   ("BOTTOM_BAR_COLOR", BLUE_FOREGROUND, BOLD);
   ("CUM_LABEL_COLOR", YELLOW_FOREGROUND, NONBOLD);
   ("PEAK_LABEL_COLOR", MAGENTA_FOREGROUND, BOLD);
   ("RATES_LABEL_COLOR", MAGENTA_FOREGROUND, BOLD);
   ("TOTAL_LABEL_COLOR", BLUE_FOREGROUND, BOLD);
   ("CUM_TRANSFER_COLUMN_COLOR", YELLOW_FOREGROUND, BOLD);
   ("PEAK_TRANSFER_COLUMN_COLOR", YELLOW_FOREGROUND, BOLD);
   ("PROC_NAME_COLOR", GREEN_FOREGROUND, BOLD)]%string.

(** The initial contents of the local strings. *)
Definition color_defaults : list string :=
  ["green"; "blue"; "magenta"; "magenta"; "blue"; "blue"; "cyan"; "magenta"; "blue"; "yellow"; "yellow";
   "blue"; "yellow"; "yellow"; "yellow"; "blue"; "yellow"; "yellow"; "green"]%string.

(** The table as a call of getColors finds it. *)
Definition color_table (globals : list (string * Z * Z)) : list color :=
  zip_with (fun '(n, f, b) t => Color n f b t) globals color_defaults.

Definition color_values (cs : list color) : list (string * Z * Z) :=
  (fun c => (c_name c, c_fg c, c_bold c)) <$> cs.

(** [tolower] in the C locale. *)
Definition tolower (c : ascii) : ascii :=
  let n := N_of_ascii c in
  if ((65 <=? n) && (n <=? 90))%N then ascii_of_N (n + 32) else c.

Fixpoint lower (s : string) : string :=
  match s with EmptyString => EmptyString | String c s => String (tolower c) (lower s) end.

(** The colour and the lower-case string left in the buffer. *)
Definition convertColorToInt (color : string) : Z :=
  let color := lower color in
  if String.eqb color "green" then 4
  else if String.eqb color "red" then 5
  else if String.eqb color "blue" then 6
  else if String.eqb color "yellow" then 7
  else if String.eqb color "magenta" then 8
  else if String.eqb color "cyan" then 9
  else if String.eqb color "black" then 10
  else if String.eqb color "white" then 11
  else -1.

Definition convertBoldToInt (bold : string) : Z :=
  let bold := lower bold in
  if String.eqb bold "bold" then 1
  else if String.eqb bold "nonbold" then 0
  else 0.

(** [fscanf(fp, "%<n>s", buf)]: the word stored, if any, and the rest. *)
Definition fscanf_s (n : nat) (f : string) : option string * string :=
  let f := drop_while is_space f in
  let w := str_take n (take_while (fun c => negb (is_space c)) f) in
  if bool_decide (w = EmptyString) then (None, f) else (Some w, str_drop (strlen w) f).

(** [ch == '\n'] counted to the end of the file. *)
Fixpoint count_lines (f : string) : nat :=
  match f with
  | EmptyString => 0
  | String c f => if aeq c NL then Datatypes.S (count_lines f) else count_lines f
  end.

(** One [if (strcmp(name, buffer) == 0)] block. *)
Definition color_block (buffer : string) (c : color) (f : string) : option (color * string) :=
  if String.eqb (c_name c) buffer then
    let '(w, f) := fscanf_s 99 f in
    let text := default (c_text c) w in
    let colorInt := convertColorToInt text in
    let fg := if colorInt =? -1 then c_fg c else colorInt in
    let '(b, f) := fscanf_s 49 f in
    boldBuffer ← b;
    Some (Color (c_name c) fg (convertBoldToInt boldBuffer) (lower text), f)
  else Some (c, f).

Fixpoint color_blocks (buffer : string) (cs : list color) (f : string) : option (list color * string) :=
  match cs with
  | [] => Some ([], f)
  | c :: cs =>
      '(c, f) ← color_block buffer c f;
      '(cs, f) ← color_blocks buffer cs f;
      Some (c :: cs, f)
  end.

(** The body of the loop over the lines. *)
Definition color_line (cs : list color) (f : string) : option (list color * string) :=
  let '(w, f) := fscanf_s 254 f in
  buffer ← w;
  match buffer with
  | String "#" _ => Some (cs, match fgets 255 f with Some (_, f) => f | None => f end)
  | _ => color_blocks buffer cs f
  end.

Fixpoint color_lines (lineCount : nat) (cs : list color) (f : string) : option (list color) :=
  match lineCount with
  | O => Some cs
  | Datatypes.S n => '(cs, f) ← color_line cs f; color_lines n cs f
  end.

(** [home]: the value of HOME; [pw_dir]: the directory in the password file;
    [access]: does the file exist; [fopen]: its contents, when it can be read. *)
Definition getColors (home pw_dir : option string) (access : string -> bool) (fopen : string -> option string)
    (globals : list (string * Z * Z)) : option (list (string * Z * Z)) :=
  match (match home with Some h => Some h | None => pw_dir end) with
  | None => Some globals
  | Some homedir =>
      let absolutePath := str_take 1023 (homedir +:+ "/.iftopcolors") in
      if access absolutePath then
        match fopen absolutePath with
        | None => Some globals
        | Some f =>
            let lineCount := count_lines f in
            if (0 <? lineCount)%nat then
              cs ← color_lines lineCount (color_table globals) f;
              Some (color_values cs)
            else Some globals
        end
      else Some globals
  end.

(** ** Every colour stays a pair that ui_curses_init initialises *)
Definition valid_value (v : string * Z * Z) : Prop := 4 <= v.1.2 <= 11 /\ (v.2 = 0 \/ v.2 = 1).
#[export] Instance valid_value_dec v : Decision (valid_value v).
Proof. unfold valid_value. apply _. Defined.
Definition valid_color (c : color) : Prop := 4 <= c_fg c <= 11 /\ (c_bold c = 0 \/ c_bold c = 1).

Lemma convertColorToInt_range s : convertColorToInt s = -1 \/ 4 <= convertColorToInt s <= 11.
Proof. unfold convertColorToInt. repeat (destruct (String.eqb _ _); [right; lia|]). by left. Qed.

Lemma convertBoldToInt_range s : convertBoldToInt s = 0 \/ convertBoldToInt s = 1.
Proof. unfold convertBoldToInt. destruct (String.eqb _ _); [by right|]. destruct (String.eqb _ _); by left. Qed.

Lemma color_block_valid buffer c f c' f' :
  color_block buffer c f = Some (c', f') -> valid_color c -> valid_color c' /\ c_name c' = c_name c.
Proof.
  unfold color_block. destruct (String.eqb _ _); [|by intros [= <- <-]].
  destruct (fscanf_s 99 f) as [w f1]. destruct (fscanf_s 49 f1) as [b f2].
  intros (b' & _ & [= <- <-])%bind_Some [Hf Hb]. split; [|done]. split; simpl; [|apply convertBoldToInt_range].
  destruct (Z.eqb_spec (convertColorToInt (default (c_text c) w)) (-1)); [done|].
  destruct (convertColorToInt_range (default (c_text c) w)); [done|lia].
Qed.

Lemma color_blocks_valid buffer cs f cs' f' :
  color_blocks buffer cs f = Some (cs', f') -> Forall valid_color cs ->
  Forall valid_color cs' /\ c_name <$> cs' = c_name <$> cs.
Proof.
  revert f cs'. induction cs as [|c cs IH]; intros f cs'; cbn [color_blocks]; [by intros [= <- _]|].
  intros ([c1 f1] & H1 & H)%bind_Some. apply bind_Some in H as ([cs1 f2] & H2 & [= <- <-]).
  intros [Hc Hcs]%Forall_cons. destruct (color_block_valid _ _ _ _ _ H1 Hc) as [Hc1 Hn].
  destruct (IH _ _ H2 Hcs) as [Hcs1 Hns]. split; [by apply Forall_cons|]. csimpl. by rewrite Hn, Hns.
Qed.

Lemma color_lines_valid n cs f cs' :
  color_lines n cs f = Some cs' -> Forall valid_color cs ->
  Forall valid_color cs' /\ c_name <$> cs' = c_name <$> cs.
Proof.
  revert cs f. induction n as [|n IH]; intros cs f; cbn [color_lines]; [by intros [= <-]|].
  intros ([cs1 f1] & H1 & H)%bind_Some Hv.
  assert (Forall valid_color cs1 /\ c_name <$> cs1 = c_name <$> cs) as [Hv1 Hn1].
  { unfold color_line in H1. destruct (fscanf_s 254 f) as [w f2]. apply bind_Some in H1 as (b & _ & H1).
    destruct b as [|a b]; [by eapply color_blocks_valid|].
    destruct a as [[] [] [] [] [] [] [] []]; try (by eapply color_blocks_valid). by injection H1 as <- _. }
  destruct (IH _ _ H Hv1) as [Hv2 Hn2]. by rewrite Hn2.
Qed.

(** ** Well-formed files *)
Inductive color_file_line :=
  | Comment (text : string)
  | Entry (name color bold : string).

Definition print_color_line (l : color_file_line) : string :=
  match l with
  | Comment t => String "#" (t +:+ String NL EmptyString)
  | Entry n c b => n +:+ " " +:+ c +:+ " " +:+ b +:+ String NL EmptyString
  end.

Fixpoint print_color_file (ls : list color_file_line) : string :=
  match ls with [] => EmptyString | l :: ls => print_color_line l +:+ print_color_file ls end.

Definition nonspace (c : ascii) : bool := negb (is_space c).
Definition word (n : nat) (s : string) : Prop := all_chars nonspace s = true /\ (0 < strlen s <= n)%nat.

Definition line_wf (names : list string) (l : color_file_line) : Prop :=
  match l with
  | Comment t => all_chars (fun c => negb (aeq c NL)) t = true /\ (strlen t <= 252)%nat
  | Entry n c b => n ∈ names /\ word 99 c /\ word 49 b
  end.

#[export] Instance line_wf_dec names l : Decision (line_wf names l).
Proof. destruct l; unfold line_wf, word; apply _. Defined.

(** What a line does to the table. *)
Definition apply_line (g : list (string * Z * Z)) (l : color_file_line) : list (string * Z * Z) :=
  match l with
  | Comment _ => g
  | Entry n c b =>
      (fun '(m, fg, bold) =>
        if String.eqb m n then
          (m, if convertColorToInt c =? -1 then fg else convertColorToInt c, convertBoldToInt b)
        else (m, fg, bold)) <$> g
  end.

Definition names (g : list (string * Z * Z)) : list string := (fun v => v.1.1) <$> g.

(** ** fscanf on printed text *)
Definition starts_space (s : string) : Prop := match s with String c _ => is_space c = true | EmptyString => True end.

Lemma take_while_word w rest :
  all_chars nonspace w = true -> starts_space rest ->
  take_while (fun c => negb (is_space c)) (w +:+ rest) = w.
Proof.
  intros Hw Hr. unfold take_while. destruct rest as [|c rest].
  - rewrite app_empty_r. by rewrite span_all.
  - rewrite span_stop; [done|done|]. unfold starts_space in Hr. by rewrite Hr.
Qed.

Lemma str_take_ge n s : (strlen s <= n)%nat -> str_take n s = s.
Proof. revert s. induction n as [|n IH]; intros [|c s] Hn; simpl in *; try done; [lia|]. rewrite IH; [done|lia]. Qed.

Lemma drop_spaces ws c s : all_chars is_space ws = true -> is_space c = false ->
  drop_while is_space (ws +:+ String c s) = String c s.
Proof. intros Hw Hc. unfold drop_while. by rewrite span_stop. Qed.

Lemma fscanf_word n ws w rest :
  all_chars is_space ws = true -> word n w -> starts_space rest ->
  fscanf_s n (ws +:+ w +:+ rest) = (Some w, rest).
Proof.
  intros Hws [Hw Hl] Hr. unfold fscanf_s. destruct w as [|c w]; [simpl in Hl; lia|].
  pose proof Hw as Hc. cbn [all_chars] in Hc. apply andb_true_iff in Hc as [Hc _].
  apply negb_true_iff in Hc.
  change (String c w +:+ rest) with (String c (w +:+ rest)). rewrite (drop_spaces ws c _ Hws Hc).
  change (String c (w +:+ rest)) with (String c w +:+ rest).
  rewrite (take_while_word _ _ Hw Hr), str_take_ge by lia. rewrite bool_decide_false by done.
  by rewrite str_drop_app.
Qed.

Lemma starts_space_NL s : starts_space (String NL s).
Proof. done. Qed.

Lemma count_lines_app s t : all_chars (fun c => negb (aeq c NL)) s = true -> count_lines (s +:+ t) = count_lines t.
Proof.
  induction s as [|c s IH]; [done|]. cbn [all_chars]. intros [Hc Hs]%andb_true_iff.
  change (String c s +:+ t) with (String c (s +:+ t)). cbn [count_lines].
  apply negb_true_iff in Hc. rewrite Hc. by apply IH.
Qed.

Lemma word_no_NL s : all_chars nonspace s = true -> all_chars (fun c => negb (aeq c NL)) s = true.
Proof.
  apply all_chars_impl. intros c Hc. apply negb_true_iff. apply not_true_iff_false. intros ->%aeq_true. discriminate.
Qed.

Lemma fgets_take_line n b rest :
  all_chars (fun c => negb (aeq c NL)) b = true -> (strlen b < n)%nat ->
  fgets_take n (b +:+ String NL rest) = (b +:+ String NL EmptyString, rest).
Proof.
  revert n. induction b as [|c b IH]; intros [|n] Hb Hn; simpl in Hn; try lia; [done|].
  cbn [all_chars] in Hb. apply andb_true_iff in Hb as [Hc Hb].
  change (String c b +:+ String NL rest) with (String c (b +:+ String NL rest)). cbn [fgets_take].
  apply negb_true_iff in Hc. rewrite Hc, (IH n Hb) by lia. done.
Qed.

Lemma comment_line cs ws t rest :
  all_chars is_space ws = true -> all_chars (fun c => negb (aeq c NL)) t = true -> (strlen t <= 252)%nat ->
  color_line cs (ws +:+ String "#" (t +:+ String NL rest)) = Some (cs, rest).
Proof.
  intros Hws Ht Hl. unfold color_line, fscanf_s. rewrite drop_spaces by done.
  set (a := take_while (fun c => negb (is_space c)) t). set (b := drop_while (fun c => negb (is_space c)) t).
  assert (t = a +:+ b) as Et by (symmetry; apply span_app).
  assert (take_while (fun c => negb (is_space c)) (String "#" (t +:+ String NL rest)) = String "#" a) as ->.
  { change (String "#" (t +:+ String NL rest)) with (String "#" EmptyString +:+ (t +:+ String NL rest)).
    rewrite Et, <- str_app_assoc, str_app_assoc. apply take_while_word.
    - cbn [all_chars]. apply (take_while_all nonspace).
    - destruct b as [|c b'] eqn:Eb; [done|]. unfold starts_space. cbn.
      clear - Eb. subst b. unfold drop_while in Eb. induction t as [|d t IH]; [done|]. simpl in Eb.
      destruct (is_space d) eqn:Ed; simpl in Eb; [injection Eb as -> _; exact Ed|]. by apply IH. }
  assert (strlen t = strlen a + strlen b)%nat as El by (rewrite Et at 1; apply strlen_app).
  rewrite str_take_ge by (simpl; lia). rewrite bool_decide_false by done. cbn [mbind option_bind].
  assert (str_drop (strlen (String "#" a)) (String "#" (t +:+ String NL rest)) = b +:+ String NL rest) as ->.
  { rewrite Et, <- str_app_assoc. exact (str_drop_app (String "#" a) (b +:+ String NL rest)). }
  unfold fgets. destruct (b +:+ String NL rest) as [|c r] eqn:Ebr; [by destruct b|].
  cbn [Z.leb Z.eqb Z.compare]. rewrite <- Ebr, fgets_take_line; [done| |change (Z.to_nat (255 - 1)) with 254%nat; lia].
  rewrite Et, all_chars_app in Ht. by apply andb_true_iff in Ht as [_ Ht].
Qed.

(** Among the other names, a word is passed over. *)
Lemma color_blocks_skip buffer cs f :
  buffer ∉ (c_name <$> cs) -> color_blocks buffer cs f = Some (cs, f).
Proof.
  induction cs as [|c cs IH]; csimpl; [done|]. intros Hn. cbn [color_blocks]. unfold color_block.
  destruct (String.eqb_spec (c_name c) buffer) as [E|_]; [set_solver|]. cbn [mbind option_bind].
  rewrite IH by set_solver. done.
Qed.

Lemma apply_line_skip g n c b : n ∉ names g -> apply_line g (Entry n c b) = g.
Proof.
  unfold names. induction g as [|[[m fg] bo] g IH]; csimpl; [done|]. intros Hn.
  destruct (String.eqb_spec m n) as [->|_]; [set_solver|]. f_equal. apply IH. set_solver.
Qed.

Lemma names_values cs : names (color_values cs) = c_name <$> cs.
Proof. unfold names, color_values. rewrite <- list_fmap_compose. done. Qed.

Lemma entry_blocks n c b cs rest :
  NoDup (c_name <$> cs) -> n ∈ (c_name <$> cs) -> word 99 c -> word 49 b ->
  exists cs', color_blocks n cs (" " +:+ c +:+ " " +:+ b +:+ String NL rest) = Some (cs', String NL rest) /\
    color_values cs' = apply_line (color_values cs) (Entry n c b).
Proof.
  intros Hnd Hin Hc Hb. induction cs as [|k cs IH]; csimpl in *; [set_solver|].
  apply NoDup_cons in Hnd as [Hk Hnd]. cbn [color_blocks]. unfold color_block.
  destruct (String.eqb_spec (c_name k) n) as [E|Hne].
  - rewrite (fscanf_word 99 " " c (" " +:+ b +:+ String NL rest)) by done. cbn [default].
    rewrite (fscanf_word 49 " " b (String NL rest)) by done. cbn [mbind option_bind].
    rewrite color_blocks_skip by (by rewrite <- E). cbn [mbind option_bind]. eexists. split; [done|].
    csimpl. rewrite E. f_equal.
    change (color_values cs = apply_line (color_values cs) (Entry n c b)).
    rewrite apply_line_skip; [done|]. rewrite names_values. by rewrite <- E.
  - cbn [mbind option_bind]. destruct IH as (cs' & -> & E); [done|set_solver|].
    cbn [mbind option_bind]. eexists. split; [done|]. unfold color_values. csimpl. fold (color_values cs'). rewrite E.
    destruct (String.eqb_spec (c_name k) n); done.
Qed.

Lemma entry_line n c b cs ws rest :
  NoDup (c_name <$> cs) -> n ∈ (c_name <$> cs) -> word 254 n -> (forall s, n <> String "#" s) ->
  word 99 c -> word 49 b -> all_chars is_space ws = true ->
  exists cs', color_line cs (ws +:+ print_color_line (Entry n c b) +:+ rest) = Some (cs', String NL rest) /\
    color_values cs' = apply_line (color_values cs) (Entry n c b).
Proof.
  intros Hnd Hin Hn Hh Hc Hb Hws. unfold print_color_line. rewrite <- !str_app_assoc.
  change (String NL "" +:+ rest) with (String NL rest).
  unfold color_line. rewrite (fscanf_word 254 ws n) by done. cbn [mbind option_bind].
  destruct (entry_blocks n c b cs rest Hnd Hin Hc Hb) as (cs' & E & Hv). exists cs'. split; [|done].
  rewrite E. destruct n as [|a n]; [destruct Hn as [_ Hn]; simpl in Hn; lia|].
  destruct a as [[] [] [] [] [] [] [] []]; try done. by destruct (Hh n).
Qed.

(** The loop over the printed lines. *)
Lemma color_lines_spec ls cs ws :
  NoDup (c_name <$> cs) -> Forall (line_wf (c_name <$> cs)) ls ->
  Forall (fun n => word 254 n /\ forall s, n <> String "#" s) (c_name <$> cs) ->
  all_chars is_space ws = true ->
  exists cs', color_lines (length ls) cs (ws +:+ print_color_file ls) = Some cs' /\
    color_values cs' = foldl apply_line (color_values cs) ls.
Proof.
  intros Hnd Hwf Hn. revert cs ws Hnd Hwf Hn.
  induction ls as [|l ls IH]; intros cs ws Hnd Hwf Hn Hws; cbn [length color_lines print_color_file foldl]; [by exists cs|].
  apply Forall_cons in Hwf as [Hl Hwf].
  destruct l as [t|n c b].
  - destruct Hl as [Ht Hl]. cbn [print_color_line apply_line].
    change (String "#" (t +:+ String NL "") +:+ print_color_file ls) with
      (String "#" ((t +:+ String NL "") +:+ print_color_file ls)).
    rewrite <- str_app_assoc. change (String NL "" +:+ print_color_file ls) with (String NL (print_color_file ls)).
    rewrite comment_line by done. cbn [mbind option_bind]. by apply (IH cs EmptyString).
  - destruct Hl as (Hin & Hc & Hb). pose proof (proj1 (Forall_forall _ _) Hn n Hin) as [Hw Hh].
    destruct (entry_line n c b cs ws (print_color_file ls)) as (cs1 & -> & E1); [done..|]. cbn [mbind option_bind].
    assert (c_name <$> cs1 = c_name <$> cs) as En.
    { rewrite <- !names_values, E1. unfold names, apply_line. rewrite <- list_fmap_compose.
      apply list_fmap_ext. intros i [[m fg] bo] _. simpl. by destruct (String.eqb m n). }
    rewrite <- E1. rewrite <- En in Hnd, Hwf, Hn.
    by apply (IH cs1 (String NL EmptyString)).
Qed.

Lemma count_lines_NL s : count_lines (String NL EmptyString +:+ s) = Datatypes.S (count_lines s).
Proof. done. Qed.

Lemma count_printed names ls :
  Forall (line_wf names) ls -> Forall (word 254) names -> count_lines (print_color_file ls) = length ls.
Proof.
  intros Hwf Hn. induction Hwf as [|l ls Hl Hwf IH]; [done|]. cbn [print_color_file length].
  destruct l as [t|n c b]; cbn [print_color_line].
  - destruct Hl as [Ht _]. change (String "#" ?x +:+ ?y) with (String "#" (x +:+ y)).
    change (count_lines (String "#" ((t +:+ String NL "") +:+ print_color_file ls)))
      with (count_lines ((t +:+ String NL "") +:+ print_color_file ls)).
    rewrite <- str_app_assoc, count_lines_app by done. by rewrite count_lines_NL, IH.
  - destruct Hl as (Hin & [Hc _] & [Hb _]). pose proof (proj1 (Forall_forall _ _) Hn n Hin) as [Hw _].
    rewrite <- !str_app_assoc. rewrite count_lines_app by (by apply word_no_NL).
    rewrite count_lines_app by done. rewrite count_lines_app by (by apply word_no_NL).
    rewrite count_lines_app by done. rewrite count_lines_app by (by apply word_no_NL). by rewrite count_lines_NL, IH.
Qed.

(** ** Properties *)

(** A file of comments and of lines "NAME colour weight" is read as it is
    meant: every line sets the weight of its entry and, when the colour is one
    of the eight names in any letter case, its colour; a later line wins; an
    unknown colour leaves the colour alone; nothing else changes. *)
Theorem getColors_reads_lines (ls : list color_file_line) (home : string) (access : string -> bool)
    (fopen : string -> option string) (globals : list (string * Z * Z)) :
  names globals = names color_globals -> Forall (line_wf (names color_globals)) ls ->
  access (str_take 1023 (home +:+ "/.iftopcolors")) = true ->
  fopen (str_take 1023 (home +:+ "/.iftopcolors")) = Some (print_color_file ls) ->
  getColors (Some home) None access fopen globals = Some (foldl apply_line globals ls).
Proof.
  intros Hn Hwf Ha Hf. unfold getColors. rewrite Ha, Hf.
  assert (Forall (fun n => word 254 n /\ forall s, n <> String "#" s) (names color_globals)) as Hw.
  { assert (forallb (fun n => all_chars nonspace n && (0 <? strlen n)%nat && (strlen n <=? 254)%nat &&
      match n with String "#" _ => false | _ => true end) (names color_globals) = true) as Hc by reflexivity.
    apply Forall_forall. intros n Hin%list_elem_of_In. rewrite forallb_forall in Hc. specialize (Hc n Hin).
    rewrite !andb_true_iff in Hc. destruct Hc as [[[H1 H2%Nat.ltb_lt] H3%Nat.leb_le] H4].
    split; [by split|]. intros s ->. discriminate. }
  assert (color_values (color_table globals) = globals /\ c_name <$> color_table globals = names color_globals) as [Ev En].
  { assert (color_values (color_table globals) = globals) as Ev; [|by rewrite <- names_values, Ev].
    assert (length globals = 19%nat) as Hl.
    { rewrite <- (length_fmap (fun v : string * Z * Z => v.1.1)). fold (names globals). by rewrite Hn. }
    clear -Hl. do 19 (destruct globals as [|[[? ?] ?] globals]; [done|]). by destruct globals. }
  rewrite (count_printed (names color_globals)) by (done || (eapply Forall_impl; [exact Hw|]; by intros ? [? _])).
  destruct ls as [|l ls]; [done|]. rewrite (proj2 (Nat.ltb_lt _ _)) by (simpl; lia).
  destruct (color_lines_spec (l :: ls) (color_table globals) EmptyString) as (cs & E & Hv); rewrite ?En; try done.
  - apply (bool_decide_unpack _). vm_compute. exact I.
  - change (EmptyString +:+ print_color_file (l :: ls)) with (print_color_file (l :: ls)) in E.
    rewrite E. cbn [mbind option_bind]. by rewrite Hv, Ev.
Qed.

Definition demo_colors : list color_file_line :=
  [Comment " my colours"; Entry "HOST1_COLOR" "RED" "bold"; Entry "PROC_NAME_COLOR" "pink" "nonbold";
   Entry "HOST1_COLOR" "Green" "-"].

Example getColors_reads_lines_witness :
  getColors (Some "/root"%string) None (fun _ => true) (fun _ => Some (print_color_file demo_colors)) color_globals =
    Some (foldl apply_line color_globals demo_colors).
Proof.
  apply (getColors_reads_lines demo_colors "/root" (fun _ => true) (fun _ => Some (print_color_file demo_colors))).
  - reflexivity.
  - apply (bool_decide_unpack _). vm_compute. exact I.
  - reflexivity.
  - reflexivity.
Defined.

(** C38: whatever the file contains, colours that are initialised stay so: if
    getColors returns, every entry is one of the eight colour pairs of
    ui_curses_init and is bold or not. *)
Theorem getColors_valid (home pw_dir : option string) (access : string -> bool) (fopen : string -> option string)
    (globals g : list (string * Z * Z)) :
  length globals = 19%nat -> Forall valid_value globals -> getColors home pw_dir access fopen globals = Some g ->
  Forall valid_value g /\ names g = names globals.
Proof.
  intros Hl Hv. unfold getColors. destruct (match home with Some h => Some h | None => pw_dir end) as [dir|];
    [|by intros [= <-]].
  destruct (access _); [|by intros [= <-]]. destruct (fopen _) as [f|]; [|by intros [= <-]].
  destruct (0 <? count_lines f)%nat; [|by intros [= <-]].
  intros (cs & Hcs & [= <-])%bind_Some.
  assert (color_values (color_table globals) = globals) as Ev.
  { clear -Hl. do 19 (destruct globals as [|[[? ?] ?] globals]; [done|]). by destruct globals. }
  assert (forall cs, Forall valid_color cs <-> Forall valid_value (color_values cs)) as Hval.
  { intros l. unfold color_values. rewrite Forall_fmap. done. }
  destruct (color_lines_valid _ _ _ _ Hcs) as [Hv' Hn]; [by rewrite Hval, Ev|].
  split; [by apply Hval|]. by rewrite names_values, Hn, <- names_values, Ev.
Qed.

Example getColors_valid_witness :
  Forall valid_value (foldl apply_line color_globals demo_colors) /\
  names (foldl apply_line color_globals demo_colors) = names color_globals.
Proof.
  apply (getColors_valid (Some "/root"%string) None (fun _ => true) (fun _ => Some (print_color_file demo_colors)) color_globals).
  - reflexivity.
  - apply (bool_decide_unpack _). vm_compute. exact I.
  - vm_compute. reflexivity.
Defined.

(** ** What the code does not mean to do *)

(** A blank line makes one more iteration than there are entries, which reads
    [buffer] before anything is stored in it. *)
Lemma blank_line_reads_uninitialised :
  getColors (Some "/root"%string) None (fun _ => true)
    (fun _ => Some ("HOST1_COLOR red bold" +:+ String NL (String NL EmptyString))) color_globals = None.
Proof. by vm_compute. Qed.

(** A last line without a newline is not read. *)
Lemma unterminated_line_ignored :
  getColors (Some "/root"%string) None (fun _ => true) (fun _ => Some "HOST1_COLOR red bold"%string) color_globals =
    Some color_globals.
Proof. by vm_compute. Qed.

(** The words after an unknown name count as lines of their own. *)
Lemma unknown_name_hides_lines :
  getColors (Some "/root"%string) None (fun _ => true)
    (fun _ => Some (print_color_file [Entry "BAR_COLOR" "red" "bold"; Entry "HOST1_COLOR" "red" "bold"])) color_globals =
    Some color_globals.
Proof. by vm_compute. Qed.
