(* ===== verification/Vector.v ===== *)
(** * Vectors (src/data/vector.c)

    A growing array of words.  A pointer into the vector is an index; an access
    outside the allocated cells has no value. *)

From S2P Require Import Prelude.

Local Open Scope Z_scope.

(** An item is the word of the union [_item], a number or a pointer; a null
    word is 0.  [items] has the allocated cells. *)
Record vector := Vec { items : list Z; capacity : Z; n_used : Z }.

Definition zero_cells (n : Z) : list Z := replicate (Z.to_nat n) 0.

(** memmove of [cnt] cells of one block, from [s] down to [d]. *)
Definition memmove (l : list Z) (d s cnt : Z) : option (list Z) :=
  if s + cnt <=? Z.of_nat (length l)
  then Some (take (Z.to_nat d) l ++ take (Z.to_nat cnt) (drop (Z.to_nat s) l) ++ drop (Z.to_nat (d + cnt)) l)
  else None.

Definition vector_new : vector := Vec (zero_cells 16) 16 0.

(** The cells from [n_used] on are cleared, whatever realloc gave. *)
Definition vector_reallocate (vec : vector) (cap : Z) : vector :=
  if (cap <? n_used vec) || (cap <=? 0) then vec
  else
    let clear_count := cap - n_used vec in
    Vec (take (Z.to_nat (n_used vec)) (items vec) ++ zero_cells clear_count) cap (n_used vec).

Definition vector_push_back (vec : vector) (elem : Z) : option vector :=
  let vec := if n_used vec =? capacity vec then vector_reallocate vec (u64 (capacity vec * 2)) else vec in
  its ← store_z (items vec) (n_used vec) elem;
  Some (Vec its (capacity vec) (n_used vec + 1)).

Definition vector_pop_back (vec : vector) : vector :=
  if 0 <? n_used vec then
    let vec := Vec (items vec) (capacity vec) (n_used vec - 1) in
    if n_used vec <? capacity vec / 2 then vector_reallocate vec (capacity vec / 2) else vec
  else vec.

Definition vector_back (vec : vector) : option Z := items vec !!z u64 (n_used vec - 1).

(** The pointer returned, or null, and the vector. *)
Definition vector_remove (vec : vector) (target : Z) : option (option Z * vector) :=
  if n_used vec <=? target then Some (None, vec)
  else
    its ← (if target <? n_used vec - 1
           then memmove (items vec) target (target + 1) (n_used vec - target)
           else Some (items vec));
    its ← store_z its (n_used vec) 0;
    let vec := Vec its (capacity vec) (n_used vec - 1) in
    Some (Some target,
          if (n_used vec <? capacity vec / 2) && (16 <? capacity vec)
          then vector_reallocate vec (capacity vec / 2) else vec).

(** The items that vector_iterate visits; vector_delete_free frees these pointers. *)
Definition vector_iterate (vec : vector) : list Z := take (Z.to_nat (n_used vec)) (items vec).
Definition vector_delete_free (vec : vector) : list Z := vector_iterate vec.

(** ** Sequences of operations *)
Inductive vector_op := PushBack (x : Z) | PopBack | Back | Remove (i : nat).

(** The words and the pointers that the operations return. *)
Fixpoint vector_run (ops : list vector_op) (v : vector) : option (list (option Z) * vector) :=
  match ops with
  | [] => Some ([], v)
  | PushBack x :: ops => v ← vector_push_back v x; vector_run ops v
  | PopBack :: ops => vector_run ops (vector_pop_back v)
  | Back :: ops => x ← vector_back v; '(out, v) ← vector_run ops v; Some (Some x :: out, v)
  | Remove i :: ops =>
      '(r, v) ← vector_remove v (Z.of_nat i); '(out, v) ← vector_run ops v; Some (r :: out, v)
  end.

(** The list that a vector stands for, with the number of its cells: taking
    the last element of nothing, and removing an element when no cell is free,
    have no result. *)
Definition shrink (floor : bool) (l : list Z) (cap : Z) : Z :=
  if (Z.of_nat (length l) <? cap / 2) && floor then cap / 2 else cap.

Fixpoint list_run (ops : list vector_op) (l : list Z) (cap : Z) : option (list (option Z) * list Z) :=
  match ops with
  | [] => Some ([], l)
  | PushBack x :: ops => list_run ops (l ++ [x]) (if Z.of_nat (length l) =? cap then cap * 2 else cap)
  | PopBack :: ops =>
      let l' := take (length l - 1) l in
      list_run ops l' (if bool_decide (l = []) then cap else shrink true l' cap)
  | Back :: ops => x ← last l; '(out, l) ← list_run ops l cap; Some (Some x :: out, l)
  | Remove i :: ops =>
      if bool_decide (length l <= i)%nat then '(out, l) ← list_run ops l cap; Some (None :: out, l)
      else if Z.of_nat (length l) =? cap then None
      else
        let l' := delete i l in
        '(out, l) ← list_run ops l' (shrink (16 <? cap) l' cap);
        Some (Some (Z.of_nat i) :: out, l)
  end.

(** ** The invariant *)
Record vector_rep (v : vector) (l : list Z) (cap : Z) : Prop := {
  vr_items : exists junk, items v = l ++ junk;
  vr_used : n_used v = Z.of_nat (length l);
  vr_cap : capacity v = cap;
  vr_cells : Z.of_nat (length (items v)) = cap;
  vr_pos : 1 <= cap < 2 ^ 62
}.

Lemma vector_new_rep : vector_rep vector_new [] 16.
Proof. split; try done. by exists (zero_cells 16). Qed.

Lemma vector_reallocate_rep v l cap cap' :
  vector_rep v l cap -> Z.of_nat (length l) <= cap' -> 1 <= cap' < 2 ^ 62 ->
  vector_rep (vector_reallocate v cap') l cap'.
Proof.
  intros [[junk Hi] Hu Hc Hl Hp] Hle Hc'. unfold vector_reallocate. rewrite Hu.
  rewrite (proj2 (Z.ltb_ge _ _)), (proj2 (Z.leb_gt _ _)) by lia. simpl.
  assert (take (Z.to_nat (Z.of_nat (length l))) (items v) = l) as ->.
  { rewrite Hi, Nat2Z.id. apply take_app_length. }
  split; simpl; try done; [by eexists|].
  rewrite length_app. unfold zero_cells. rewrite length_replicate. lia.
Qed.

Lemma vector_shrink_rep v l cap (floor : bool) :
  vector_rep v l cap ->
  vector_rep (if (n_used v <? capacity v / 2) && floor then vector_reallocate v (capacity v / 2) else v)
    l (shrink floor l cap).
Proof.
  intros Hr. pose proof Hr as [_ Hu Hc _ Hp]. unfold shrink. rewrite Hu, Hc.
  destruct (Z.ltb_spec (Z.of_nat (length l)) (cap / 2)); [|done]. destruct floor; [|done]. simpl.
  pose proof (Z.div_lt cap 2). apply (vector_reallocate_rep _ _ cap); [done|lia|lia].
Qed.

(** Fewer items: the cells stay. *)
Lemma vector_rep_take v l junk cap its :
  vector_rep v (l ++ junk) cap -> take (length l) its = l -> length its = length (items v) ->
  vector_rep (Vec its (capacity v) (Z.of_nat (length l))) l cap.
Proof.
  intros [_ _ Hc Hl Hp] Ht Hn. split; simpl; try done; [|by rewrite Hn].
  exists (drop (length l) its). by rewrite <- Ht at 1; rewrite take_drop.
Qed.

Lemma vector_push_back_spec v l cap x :
  vector_rep v l cap -> cap < 2 ^ 61 ->
  exists v', vector_push_back v x = Some v' /\
    vector_rep v' (l ++ [x]) (if Z.of_nat (length l) =? cap then cap * 2 else cap).
Proof.
  intros Hr Hc. unfold vector_push_back. rewrite (vr_used _ _ _ Hr), (vr_cap _ _ _ Hr).
  set (cap' := if Z.of_nat (length l) =? cap then cap * 2 else cap).
  assert (exists v1, (if Z.of_nat (length l) =? cap then vector_reallocate v (u64 (cap * 2)) else v) = v1 /\
    vector_rep v1 l cap' /\ Z.of_nat (length l) < cap') as (v1 & -> & H1 & Hlt).
  { eexists. split; [done|]. pose proof Hr as [[junk Hi] _ _ Hl Hp]. rewrite Hi, length_app in Hl. unfold cap'.
    destruct (Z.eqb_spec (Z.of_nat (length l)) cap); [|split; [done|lia]].
    rewrite uwrap_small by lia. split; [apply (vector_reallocate_rep _ _ cap); [done|lia|lia]|lia]. }
  destruct H1 as [[junk Hi] Hu Hcap Hl Hp]. rewrite Hu. unfold store_z.
  rewrite (proj2 (Z.leb_le _ _)), (proj2 (Z.ltb_lt _ _)) by lia. cbn [andb mbind option_bind].
  rewrite Nat2Z.id. rewrite Hi, length_app in Hl. destruct junk as [|y junk]; [simpl in Hl; lia|].
  eexists. split; [done|]. split; simpl; try done.
  - exists junk. rewrite Hi, <- (Nat.add_0_r (length l)), insert_app_r. simpl. by rewrite <- app_assoc.
  - rewrite length_app. simpl. lia.
  - rewrite length_insert, Hi, length_app. done.
Qed.

Lemma vector_pop_back_spec v l cap :
  vector_rep v l cap ->
  vector_rep (vector_pop_back v) (take (length l - 1) l)
    (if bool_decide (l = []) then cap else shrink true (take (length l - 1) l) cap).
Proof.
  intros Hr. unfold vector_pop_back. rewrite (vr_used _ _ _ Hr). destruct l as [|x l]; [done|].
  rewrite bool_decide_false by done. rewrite (proj2 (Z.ltb_lt _ _)) by (simpl; lia).
  set (l' := take _ _). assert (length l' = length l) as Hl' by (unfold l'; rewrite length_take; simpl; lia).
  assert (vector_rep (Vec (items v) (capacity v) (Z.of_nat (length (x :: l)) - 1)) l' cap) as H1.
  { replace (Z.of_nat (length (x :: l)) - 1) with (Z.of_nat (length l')) by (rewrite Hl'; simpl; lia).
    pose proof Hr as [[junk Hi] _ _ _ _].
    apply (vector_rep_take v l' (drop (length l') (x :: l)) cap); [|rewrite Hi|done].
    - replace (l' ++ drop (length l') (x :: l)) with (x :: l); [done|].
      rewrite Hl'. unfold l'. simpl length. rewrite Nat.sub_succ, Nat.sub_0_r. by rewrite take_drop.
    - rewrite take_app_le by (rewrite Hl'; simpl; lia). unfold l'. rewrite length_take. f_equal. simpl; lia. }
  pose proof (vector_shrink_rep _ _ _ true H1) as H2. by rewrite andb_true_r in H2.
Qed.

Lemma vector_back_spec v l cap : vector_rep v l cap -> vector_back v = last l.
Proof.
  intros [[junk Hi] Hu Hc Hl Hp]. unfold vector_back. rewrite Hu.
  destruct l as [|x l] using rev_ind; [|clear IHl].
  - change (u64 (Z.of_nat (length (@nil Z)) - 1)) with (2 ^ 64 - 1).
    destruct (_ !!z _) eqn:E; [|done]. apply lookup_z_Some in E as [_ E%lookup_lt_Some]. lia.
  - unfold lookup_z. rewrite last_snoc. rewrite Hi, length_app in Hl. rewrite length_app in *. simpl in *.
    rewrite uwrap_small by lia. rewrite (proj2 (Z.leb_le _ _)) by lia.
    rewrite Hi, <- app_assoc. apply list_lookup_middle. lia.
Qed.

Lemma memmove_delete (l junk : list Z) (x : Z) i :
  (i < length l)%nat ->
  memmove (l ++ x :: junk) (Z.of_nat i) (Z.of_nat i + 1) (Z.of_nat (length l) - Z.of_nat i) =
    Some (delete i l ++ x :: x :: junk).
Proof.
  intros Hi. unfold memmove. rewrite (proj2 (Z.leb_le _ _)) by (rewrite length_app; simpl; lia).
  f_equal. rewrite take_app_le by lia. rewrite Nat2Z.id. rewrite delete_take_drop, <- !app_assoc. f_equal.
  replace (Z.to_nat (Z.of_nat i + 1)) with (S i) by lia.
  replace (Z.to_nat (Z.of_nat (length l) - Z.of_nat i)) with (length l - i)%nat by lia.
  replace (Z.to_nat (Z.of_nat i + (Z.of_nat (length l) - Z.of_nat i))) with (length l) by lia.
  rewrite drop_app_length, drop_app_le by lia.
  replace (length l - i)%nat with (length (drop (S i) l) + 1)%nat by (rewrite length_drop; lia).
  rewrite take_app_add. simpl. by rewrite <- app_assoc.
Qed.

Lemma vector_remove_spec v l cap i :
  vector_rep v l cap -> (i < length l)%nat ->
  if Z.of_nat (length l) =? cap then vector_remove v (Z.of_nat i) = None
  else exists v', vector_remove v (Z.of_nat i) = Some (Some (Z.of_nat i), v') /\
    vector_rep v' (delete i l) (shrink (16 <? cap) (delete i l) cap).
Proof.
  intros Hr Hil. pose proof Hr as [[junk Hi] Hu Hc Hl Hp]. unfold vector_remove. rewrite Hu.
  rewrite (proj2 (Z.leb_gt _ _)) by lia. rewrite Hi, length_app in Hl.
  assert (length (delete i l) = (length l - 1)%nat) as Hd.
  { rewrite length_delete; [done|]. by apply lookup_lt_is_Some. }
  destruct junk as [|x junk].
  { rewrite (proj2 (Z.eqb_eq _ _)) by (simpl in Hl; lia). rewrite app_nil_r in Hi.
    destruct (Z.ltb_spec (Z.of_nat i) (Z.of_nat (length l) - 1)).
    - unfold memmove. by rewrite (proj2 (Z.leb_gt _ _)) by (rewrite Hi; lia).
    - cbn [mbind option_bind]. unfold store_z. by rewrite (proj2 (Z.ltb_ge _ _)), andb_false_r by (rewrite Hi; lia). }
  rewrite (proj2 (Z.eqb_neq _ _)) by (simpl in Hl; lia).
  set (its := if Z.of_nat i <? _ then _ else _).
  assert (exists y, its = Some (delete i l ++ y :: x :: junk)) as [y ->].
  { unfold its. rewrite Hi. destruct (Z.ltb_spec (Z.of_nat i) (Z.of_nat (length l) - 1)).
    - exists x. by apply memmove_delete.
    - destruct l as [|y l] using rev_ind; [simpl in Hil; lia|clear IHl]. rewrite length_app in *. simpl in *.
      exists y. assert (i = length l) as -> by lia. by rewrite delete_middle, app_nil_r, <- app_assoc. }
  cbn [mbind option_bind]. unfold store_z.
  rewrite (proj2 (Z.leb_le _ _)), (proj2 (Z.ltb_lt _ _)) by (rewrite ?length_app; simpl; lia).
  cbn [andb mbind option_bind]. eexists. split; [done|].
  replace (Z.of_nat (length l) - 1) with (Z.of_nat (length (delete i l))) by lia. rewrite Nat2Z.id.
  assert (vector_rep (Vec (<[length l := 0]> (delete i l ++ y :: x :: junk)) (capacity v)
    (Z.of_nat (length (delete i l)))) (delete i l) cap) as H1.
  { split; simpl; try done.
    - eexists. by rewrite insert_app_r_alt by lia.
    - rewrite length_insert, length_app. simpl in *. lia. }
  pose proof (vector_shrink_rep _ _ _ (16 <? cap) H1) as H2. simpl in H2. rewrite Hc in *. exact H2.
Qed.

Lemma shrink_bounds floor l cap : 1 <= cap -> shrink floor l cap <= cap.
Proof. intros. unfold shrink. pose proof (Z.div_lt cap 2). destruct (_ && _); lia. Qed.

Lemma vector_run_spec ops v l cap (k : nat) :
  vector_rep v l cap -> (length l <= k)%nat -> cap <= 16 + 2 * Z.of_nat k ->
  Z.of_nat k + Z.of_nat (length ops) < 2 ^ 59 ->
  (fun '(out, v) => (out, vector_iterate v)) <$> vector_run ops v = list_run ops l cap.
Proof.
  revert v l cap k. induction ops as [|[x| | |i] ops IH]; intros v l cap k Hr Hl Hc Hk; simpl in Hk.
  - cbn. do 2 f_equal. destruct Hr as [[junk Hi] Hu _ _ _]. unfold vector_iterate.
    rewrite Hi, Hu, Nat2Z.id. apply take_app_length.
  - cbn [vector_run list_run]. destruct (vector_push_back_spec v l cap x Hr) as (v' & -> & H'); [lia|].
    cbn [mbind option_bind]. apply (IH _ _ _ (S k)); [done|rewrite length_app; simpl; lia| |lia].
    destruct (Z.eqb_spec (Z.of_nat (length l)) cap); lia.
  - cbn [vector_run list_run]. pose proof (vr_pos _ _ _ Hr).
    apply (IH _ _ _ k); [by apply vector_pop_back_spec|rewrite length_take; lia| |lia].
    case_bool_decide; [done|]. pose proof (shrink_bounds true (take (length l - 1) l) cap). lia.
  - cbn [vector_run list_run]. rewrite (vector_back_spec _ _ _ Hr). destruct (last l); [|done].
    cbn [mbind option_bind]. rewrite <- (IH _ _ _ k Hr Hl Hc) by lia. by destruct (vector_run ops v) as [[]|].
  - cbn [vector_run list_run]. case_bool_decide as Hi.
    + unfold vector_remove. rewrite (vr_used _ _ _ Hr), (proj2 (Z.leb_le _ _)) by lia.
      cbn [mbind option_bind]. rewrite <- (IH _ _ _ k Hr Hl Hc) by lia. by destruct (vector_run ops v) as [[]|].
    + pose proof (vector_remove_spec v l cap i Hr ltac:(lia)) as Hrm. destruct (_ =? cap); [by rewrite Hrm|].
      destruct Hrm as (v' & -> & H'). cbn [mbind option_bind]. pose proof (vr_pos _ _ _ Hr).
      assert (length (delete i l) <= k)%nat as Hd.
      { rewrite length_delete by (apply lookup_lt_is_Some; lia). lia. }
      rewrite <- (IH _ _ _ k H' Hd) by (pose proof (shrink_bounds (16 <? cap) (delete i l) cap); lia).
      by destruct (vector_run ops v') as [[]|].
Qed.

(** A vector is a list: every sequence of pushes, pops, reads of the last
    item and removals by pointer gives the answers and leaves the items of the
    list, through every growth and shrinking of the block, and an operation has
    no result exactly when the last item of an empty vector is read or an item
    is removed while no cell is free, when the code leaves its block. *)
Theorem vector_refines_list (ops : list vector_op) :
  Z.of_nat (length ops) < 2 ^ 59 ->
  (fun '(out, v) => (out, vector_iterate v)) <$> vector_run ops vector_new = list_run ops [] 16.
Proof. intros. apply (vector_run_spec _ _ _ _ 0); [apply vector_new_rep|simpl; lia..]. Qed.

Lemma vector_refines_list_witness :
  let ops := (PushBack <$> seqZ 0 20) ++ [Remove 3; Back; Remove 40] ++ replicate 15 PopBack ++ [Back] in
  (fun '(out, v) => (out, vector_iterate v)) <$> vector_run ops vector_new =
    Some ([Some 3; Some 19; None; Some 4], [0; 1; 2; 4]).
Proof.
  intros ops. etransitivity; [apply vector_refines_list|]; vm_compute; reflexivity.
Defined.

(** Removing an item of a full vector moves and clears cells past its block. *)
Lemma vector_remove_full_overflows :
  (v ← foldl (fun v x => v ← v; vector_push_back v x) (Some vector_new) (seqZ 0 16); vector_remove v 0) = None /\
  (v ← foldl (fun v x => v ← v; vector_push_back v x) (Some vector_new) (seqZ 0 16); vector_remove v 15) = None.
Proof. split; vm_compute; reflexivity. Qed.
