(* ===== verification/Json.v ===== *)
(** * A reader of JSON

    The values, the tokens and the grammar of RFC 8259, less what the program
    never writes: fractions and exponents, [\u] and control escapes, literals. *)

From S2P Require Import Prelude CStr.

Local Open Scope Z_scope.

Inductive json :=
  | JStr (s : string)
  | JNum (z : Z)
  | JArr (vs : list json)
  | JObj (ms : list (string * json)).

Inductive token := TStr (s : string) | TNum (z : Z) | TComma | TColon | TOpenArr | TCloseArr | TOpenObj | TCloseObj.

(** ** Characters *)
Definition DQ : ascii := "034".
Definition BS : ascii := "092".

Definition is_blank (c : ascii) : bool := aeq c " " || aeq c NL || aeq c TAB || aeq c "013".
Definition is_control (c : ascii) : bool := (N_of_ascii c <? 32)%N.

Definition punct (c : ascii) : option token :=
  if aeq c "," then Some TComma else if aeq c ":" then Some TColon
  else if aeq c "[" then Some TOpenArr else if aeq c "]" then Some TCloseArr
  else if aeq c "{" then Some TOpenObj else if aeq c "}" then Some TCloseObj else None.

(** ** Tokens

    The state after a prefix: between tokens, in a string (its characters so
    far), after a backslash, after a minus sign, in the digits of a number. *)
Inductive lex_state := LPlain | LStr (acc : string) | LEsc (acc : string) | LNeg | LNum (neg : bool) (v : N).

Definition num (neg : bool) (v : N) : token := TNum (if neg then - Z.of_N v else Z.of_N v).

Definition snoc (s : string) (c : ascii) : string := s +:+ String c EmptyString.

Definition consume (ts : list token) (o : option (list token)) : option (list token) := l ← o; Some (ts ++ l).

Fixpoint lex (st : lex_state) (s : string) : option (list token) :=
  match s with
  | EmptyString =>
      match st with LPlain => Some [] | LNum neg v => Some [num neg v] | _ => None end
  | String c s =>
      let digit := Z.to_N (digit_val c) in
      let plain (_ : unit) :=
        if is_blank c then lex LPlain s
        else if aeq c DQ then lex (LStr EmptyString) s
        else if aeq c "-" then lex LNeg s
        else if is_digit c then lex (LNum false digit) s
        else t ← punct c; consume [t] (lex LPlain s) in
      match st with
      | LPlain => plain tt
      | LStr acc =>
          if aeq c DQ then consume [TStr acc] (lex LPlain s)
          else if aeq c BS then lex (LEsc acc) s
          else if is_control c then None
          else lex (LStr (snoc acc c)) s
      | LEsc acc => if aeq c DQ || aeq c BS || aeq c "/" then lex (LStr (snoc acc c)) s else None
      | LNeg => if is_digit c then lex (LNum true digit) s else None
      | LNum neg v =>
          if is_digit c then (if (v =? 0)%N then None else lex (LNum neg (10 * v + digit)) s)
          else consume [num neg v] (plain tt)
      end
  end.

(** ** Values *)
Fixpoint value (fuel : nat) (ts : list token) : option (json * list token) :=
  match fuel with
  | O => None
  | S fuel =>
      match ts with
      | TStr s :: ts => Some (JStr s, ts)
      | TNum z :: ts => Some (JNum z, ts)
      | TOpenArr :: TCloseArr :: ts => Some (JArr [], ts)
      | TOpenArr :: ts => '(vs, ts) ← elements fuel ts; Some (JArr vs, ts)
      | TOpenObj :: TCloseObj :: ts => Some (JObj [], ts)
      | TOpenObj :: ts => '(ms, ts) ← members fuel ts; Some (JObj ms, ts)
      | _ => None
      end
  end
with elements (fuel : nat) (ts : list token) : option (list json * list token) :=
  match fuel with
  | O => None
  | S fuel =>
      '(v, ts) ← value fuel ts;
      match ts with
      | TComma :: ts => '(vs, ts) ← elements fuel ts; Some (v :: vs, ts)
      | TCloseArr :: ts => Some ([v], ts)
      | _ => None
      end
  end
with members (fuel : nat) (ts : list token) : option (list (string * json) * list token) :=
  match fuel with
  | O => None
  | S fuel =>
      match ts with
      | TStr k :: TColon :: ts =>
          '(v, ts) ← value fuel ts;
          match ts with
          | TComma :: ts => '(ms, ts) ← members fuel ts; Some ((k, v) :: ms, ts)
          | TCloseObj :: ts => Some ([(k, v)], ts)
          | _ => None
          end
      | _ => None
      end
  end.

(** A text that is one value, with blanks around it. *)
Definition read_json (text : string) : option json :=
  ts ← lex LPlain text;
  '(v, rest) ← value (S (length ts)) ts;
  match rest with [] => Some v | _ => None end.

(** ** Texts and their tokens *)

(** The tokens of [s], whatever text follows. *)
Definition lexes (s : string) (ts : list token) : Prop :=
  forall rest, lex LPlain (s +:+ rest) = consume ts (lex LPlain rest).

Lemma consume_app ts ts' o : consume ts (consume ts' o) = consume (ts ++ ts') o.
Proof. destruct o; [|done]. cbn. by rewrite app_assoc. Qed.

Lemma consume_nil o : consume [] o = o.
Proof. by destruct o. Qed.

Lemma lexes_nil : lexes "" [].
Proof. intros rest. by rewrite consume_nil. Qed.

Lemma lexes_app s s' ts ts' : lexes s ts -> lexes s' ts' -> lexes (s +:+ s') (ts ++ ts').
Proof. intros H H' rest. by rewrite <- str_app_assoc, H, H', consume_app. Qed.

(** A text of blanks and punctuation. *)
Fixpoint marks (s : string) : option (list token) :=
  match s with
  | EmptyString => Some []
  | String c s =>
      if is_blank c then marks s
      else if aeq c DQ || aeq c "-" || is_digit c then None
      else t ← punct c; consume [t] (marks s)
  end.

Lemma lexes_marks s ts : marks s = Some ts -> lexes s ts.
Proof.
  revert ts. induction s as [|c s IH]; intros ts Hm rest; cbn [marks] in Hm.
  - injection Hm as <-. by rewrite consume_nil.
  - change (String c s +:+ rest) with (String c (s +:+ rest)). cbn [lex]. destruct (is_blank c); [by apply IH|].
    destruct (aeq c DQ), (aeq c "-"), (is_digit c); try done. destruct (punct c) as [t|]; [|done].
    cbn [orb mbind option_bind] in *. destruct (marks s) as [l|]; [|done]. injection Hm as <-.
    rewrite (IH l eq_refl). apply (consume_app [t]).
Qed.

(** *** Strings *)
Definition plain_char (c : ascii) : bool := negb (aeq c DQ) && negb (aeq c BS) && negb (is_control c).

Lemma lex_plain_str s acc rest :
  all_chars plain_char s = true -> lex (LStr acc) (s +:+ String DQ rest) = consume [TStr (acc +:+ s)] (lex LPlain rest).
Proof.
  revert acc. induction s as [|c s IH]; intros acc Hs; simpl in Hs.
  - assert (acc +:+ "" = acc) as -> by (induction acc as [|a acc IHa]; [done|exact (f_equal (String a) IHa)]). done.
  - apply andb_true_iff in Hs as [Hc Hs]. unfold plain_char in Hc.
    apply andb_true_iff in Hc as [[Hq Hb]%andb_true_iff Hn]. apply negb_true_iff in Hq, Hb, Hn.
    change (String c s +:+ String DQ rest) with (String c (s +:+ String DQ rest)). cbn [lex].
    rewrite Hq, Hb, Hn, IH by done. unfold snoc. by rewrite <- str_app_assoc.
Qed.

(** A string between quotes. *)
Definition quote (s : string) : string := String DQ (s +:+ String DQ EmptyString).

Lemma lexes_quote s : all_chars plain_char s = true -> lexes (quote s) [TStr s].
Proof.
  intros Hs rest. unfold quote.
  change (String DQ (s +:+ String DQ "") +:+ rest) with (String DQ ((s +:+ String DQ "") +:+ rest)).
  rewrite <- str_app_assoc. change (String DQ "" +:+ rest) with (String DQ rest).
  exact (lex_plain_str s "" rest Hs).
Qed.

(** *** Numbers *)
Definition ends_number (s : string) : bool :=
  match s with EmptyString => false | String c _ => negb (is_digit c) end.

Lemma digit_not_special c : is_digit c = true ->
  is_blank c = false /\ aeq c DQ = false /\ aeq c "-" = false.
Proof. destruct c as [[][][][][][][][]]; vm_compute; intros; by try done. Qed.

(** A digit carries a number on: from nothing, or from a number that is not 0. *)
Definition carries (st : lex_state) (neg : bool) (v : N) : Prop :=
  st = LNum neg v \/ v = 0%N /\ (st = LPlain /\ neg = false \/ st = LNeg /\ neg = true).

Lemma lex_digit st neg v x rest :
  carries st neg v -> (v <> 0%N \/ st <> LNum neg v) -> (x < 10)%N ->
  lex st (String (pretty_N_char x) rest) = lex (LNum neg (10 * v + x)) rest.
Proof.
  intros Hst Hv Hx. destruct (digit_of x Hx) as [Ev Hd].
  destruct (digit_not_special _ Hd) as (H1 & H2 & H3).
  assert (Z.to_N (digit_val (pretty_N_char x)) = x) as Ex by (rewrite Ev; lia).
  destruct Hst as [->|[-> [[-> ->]|[-> ->]]]]; cbn [lex]; rewrite ?H1, ?H2, ?H3, Hd, Ex; [|by rewrite N.mul_0_r, N.add_0_l..].
  destruct (N.eqb_spec v 0); [|done]. naive_solver.
Qed.

Lemma lex_pretty st neg x rest :
  carries st neg 0 -> st <> LNum neg 0 -> (0 < x)%N ->
  lex st (pretty_N_go x "" +:+ rest) = lex (LNum neg x) rest.
Proof.
  intros Hst Hn. revert rest. induction (N.lt_wf_0 x) as [x _ IH]; intros rest Hx.
  rewrite (pretty_N_go_step x) by done. rewrite pretty_N_go_app, <- str_app_assoc.
  change (String (pretty_N_char (x `mod` 10)) "" +:+ rest) with (String (pretty_N_char (x `mod` 10)) rest).
  assert (x `mod` 10 < 10)%N as Hm by (by apply N.mod_lt).
  pose proof (N.div_mod x 10) as Hdm.
  destruct (decide (x `div` 10 = 0)%N) as [E|E].
  - rewrite E. change (pretty_N_go 0 "" +:+ ?s) with s. rewrite (lex_digit _ neg 0) by auto. do 2 f_equal. lia.
  - rewrite IH by (try apply N.div_lt; lia). rewrite (lex_digit _ neg (x `div` 10)); [|by left|by left|done].
    f_equal. f_equal. lia.
Qed.

Lemma pretty_N_0 : pretty 0%N = "0".
Proof. done. Qed.

Lemma lex_pretty_N st neg x rest :
  carries st neg 0 -> st <> LNum neg 0 -> lex st (pretty x +:+ rest) = lex (LNum neg x) rest.
Proof.
  intros Hst Hn. destruct (decide (x = 0)%N) as [->|Hx].
  - rewrite pretty_N_0. change ("0" +:+ rest) with (String (pretty_N_char 0) rest).
    by rewrite (lex_digit _ neg 0) by (auto || lia).
  - unfold pretty, pretty_N. rewrite decide_False by done. apply lex_pretty; [done|done|lia].
Qed.

Lemma lex_number_end neg v rest :
  ends_number rest = true -> lex (LNum neg v) rest = consume [num neg v] (lex LPlain rest).
Proof.
  destruct rest as [|c rest]; [done|]. cbn [ends_number lex]. intros ->%negb_true_iff. done.
Qed.

Definition minus (neg : bool) : string := if neg then "-" else "".

Lemma lex_number neg x rest :
  ends_number rest = true ->
  lex LPlain ((minus neg +:+ pretty x) +:+ rest) = consume [num neg x] (lex LPlain rest).
Proof.
  intros Hr. destruct neg; cbn [minus].
  - change (("-" +:+ pretty x) +:+ rest) with (String "-" (pretty x +:+ rest)).
    change (lex LPlain (String "-" (pretty x +:+ rest))) with (lex LNeg (pretty x +:+ rest)).
    rewrite (lex_pretty_N LNeg true); [by apply lex_number_end|right; by auto|done].
  - change ("" +:+ pretty x) with (pretty x).
    rewrite (lex_pretty_N LPlain false); [by apply lex_number_end|right; by auto|done].
Qed.

Lemma dec_minus z : exists neg x, dec z = minus neg +:+ pretty x /\ num neg x = TNum z.
Proof.
  unfold dec. destruct z as [|p|p].
  - by exists false, 0%N.
  - by exists false, (N.pos p).
  - by exists true, (N.pos p).
Qed.

(** A number followed by a text of marks. *)
Lemma lexes_number neg x s ts :
  ends_number s = true -> marks s = Some ts -> lexes ((minus neg +:+ pretty x) +:+ s) (num neg x :: ts).
Proof.
  intros He Hm rest. rewrite <- (str_app_assoc _ s rest).
  rewrite lex_number by (by destruct s). rewrite (lexes_marks _ _ Hm). apply (consume_app [_]).
Qed.

Lemma lexes_dec z s ts : ends_number s = true -> marks s = Some ts -> lexes (dec z +:+ s) (TNum z :: ts).
Proof.
  intros He Hm. destruct (dec_minus z) as (neg & x & -> & <-). by apply lexes_number.
Qed.

(** ** Printing tokens *)
Fixpoint separated {A} (f : A -> list token) (l : list A) : list token :=
  match l with
  | [] => []
  | [x] => f x
  | x :: l => f x ++ TComma :: separated f l
  end.

Fixpoint json_tokens (v : json) : list token :=
  match v with
  | JStr s => [TStr s]
  | JNum z => [TNum z]
  | JArr vs => TOpenArr :: separated json_tokens vs ++ [TCloseArr]
  | JObj ms => TOpenObj :: separated (fun kv => TStr kv.1 :: TColon :: json_tokens kv.2) ms ++ [TCloseObj]
  end.

Definition member_tokens (kv : string * json) : list token := TStr kv.1 :: TColon :: json_tokens kv.2.

Lemma json_tokens_pos v : (1 <= length (json_tokens v))%nat.
Proof. destruct v; simpl; lia. Qed.

Lemma separated_head {A} (f : A -> list token) x l : exists ts, separated f (x :: l) = f x ++ ts.
Proof. destruct l as [|y l]; simpl; [exists []; by rewrite app_nil_r|by eexists]. Qed.

Lemma separated_length {A} (f : A -> list token) x l :
  length (separated f (x :: l)) = (length (f x) + match l with [] => 0 | _ => S (length (separated f l)) end)%nat.
Proof. destruct l; simpl; [lia|]. rewrite length_app. done. Qed.

Lemma separated_cons {A} (f : A -> list token) x y l :
  separated f (x :: y :: l) = f x ++ TComma :: separated f (y :: l).
Proof. done. Qed.

Lemma value_arr f ts :
  head ts <> Some TCloseArr -> value (S f) (TOpenArr :: ts) = '(vs, ts) ← elements f ts; Some (JArr vs, ts).
Proof. by destruct ts as [|[]]. Qed.

Lemma value_obj f ts :
  head ts <> Some TCloseObj -> value (S f) (TOpenObj :: ts) = '(ms, ts) ← members f ts; Some (JObj ms, ts).
Proof. by destruct ts as [|[]]. Qed.

Lemma read_tokens f :
  (forall v r, (length (json_tokens v) <= f)%nat -> value f (json_tokens v ++ r) = Some (v, r)) /\
  (forall v vs r, (length (separated json_tokens (v :: vs)) < f)%nat ->
    elements f (separated json_tokens (v :: vs) ++ TCloseArr :: r) = Some (v :: vs, r)) /\
  (forall kv ms r, (length (separated member_tokens (kv :: ms)) < f)%nat ->
    members f (separated member_tokens (kv :: ms) ++ TCloseObj :: r) = Some (kv :: ms, r)).
Proof.
  induction f as [|f (IHv & IHe & IHm)]; [split_and!; intros; try lia; pose proof (json_tokens_pos v); lia|].
  split_and!.
  - intros [s|z|vs|ms] r Hf; [done|done| |]; cbn [json_tokens] in *.
    + destruct vs as [|v vs]; [done|]. cbn [length] in Hf. rewrite length_app in Hf. cbn [length] in Hf.
      rewrite <- app_comm_cons, <- app_assoc, value_arr.
      * cbn [app]. by rewrite IHe by lia.
      * destruct (separated_head json_tokens v vs) as [ts ->]. by destruct v.
    + fold member_tokens in *. destruct ms as [|kv ms]; [done|]. cbn [length] in Hf. rewrite length_app in Hf.
      cbn [length] in Hf. rewrite <- app_comm_cons, <- app_assoc, value_obj.
      * change (fun kv : string * json => TStr kv.1 :: TColon :: json_tokens kv.2) with member_tokens in *.
        cbn [app]. by rewrite IHm by lia.
      * by destruct ms.
  - intros v vs r Hf. rewrite separated_length in Hf. cbn [elements]. destruct vs as [|w vs].
    + cbn [separated]. by rewrite IHv by lia.
    + rewrite separated_cons, <- app_assoc, IHv by lia. cbn [mbind option_bind app]. by rewrite IHe by lia.
  - intros [k v] ms r Hf. rewrite separated_length in Hf. unfold member_tokens in Hf at 1. simpl in Hf.
    cbn [members]. destruct ms as [|w ms].
    + cbn [separated member_tokens fst snd app]. by rewrite IHv by lia.
    + rewrite separated_cons. unfold member_tokens at 1. cbn [fst snd app]. rewrite <- app_assoc, IHv by lia.
      cbn [mbind option_bind app]. by rewrite IHm by lia.
Qed.

(** A text that has the tokens of a value is read as it. *)
Lemma read_json_tokens text v : lexes text (json_tokens v) -> read_json text = Some v.
Proof.
  intros Hl. unfold read_json. specialize (Hl ""). 
  assert (text +:+ "" = text) as E by (clear; induction text as [|a s IH]; [done|exact (f_equal (String a) IH)]).
  rewrite E in Hl. rewrite Hl. cbn [lex consume mbind option_bind]. rewrite app_nil_r.
  pose proof (proj1 (read_tokens (S (length (json_tokens v)))) v [] ltac:(lia)) as Hv.
  rewrite app_nil_r in Hv. by rewrite Hv.
Qed.
