(* ===== verification/Export.v ===== *)
(** * Export (src/ui/export.c)

    What the program prints in export mode: a JSON document or CSV rows.  The
    output is a string.  [timebuf] is the time of day as strftime prints it;
    a buffer that is read before it is written has no value. *)

From S2P Require Import Prelude CStr Hash Pool AddrHash History OptionsT OptionsCfg ProcInfo Packet Float FloatBounds SortedList Analyse ServHash Session Json.

Local Open Scope Z_scope.

Definition eol : string := String NL EmptyString.
Definition comma_eol : string := String "," eol.

(** ** [%.0Lf] *)

Definition fmt_0Lf (x : spec_float) : string :=
  match x with
  | S754_zero s => minus s +:+ pretty 0%N
  | S754_finite s m e => minus s +:+ pretty (Z.to_N (magnitude (Zpos m) e))
  | S754_infinity s => minus s +:+ "inf"
  | S754_nan => "nan"
  end.

(** ** Pieces *)
Definition protocol_name (proto : Z) : string :=
  if proto =? 6 then "TCP"
  else if proto =? 17 then "UDP"
  else if proto =? 1 then "ICMP"
  else if proto =? 58 then "ICMPv6"
  else "OTHER".

Fixpoint escape (s : string) : string :=
  match s with
  | EmptyString => EmptyString
  | String c s =>
      if aeq c DQ then String BS (String DQ (escape s))
      else if aeq c BS then String BS (String BS (escape s))
      else String c (escape s)
  end.

Definition json_escape_string (s : string) : string := String DQ (escape s +:+ String DQ EmptyString).

(** The lines in the order of the list. *)
Definition screen_lines (d : display) : option (list host_pair_line) :=
  rs ← list_items (S (size (sl_cells (screen_list d)))) (screen_list d) None;
  mapM (fun r => lines d !! r) rs.

Section export.
Context (timebuf : string) (inet_ntop : Z -> list Z -> option string).

(** When inet_ntop fails the buffer keeps what it held. *)
Definition sprint_addr (buf : option string) (af : Z) (addr : list Z) : option string :=
  match inet_ntop af addr with Some s => Some s | None => buf end.

(** ** JSON *)

(** A line [indent"name": value ending] *)
Definition field (indent name value ending : string) : string :=
  indent +:+ quote name +:+ ": " +:+ value +:+ ending.

(** The fields of the rates, on either side. *)
Definition rate_fields (indent : string) (prefix : string) (rs : list spec_float) : option string :=
  match rs with
  | [r0; r1; r2] =>
      Some (field indent (prefix +:+ "_2s") (fmt_0Lf r0) comma_eol +:+
            field indent (prefix +:+ "_10s") (fmt_0Lf r1) comma_eol +:+
            field indent (prefix +:+ "_40s") (fmt_0Lf r2) comma_eol)
  | _ => None
  end.

Definition indent4 : string := "    ".
Definition indent6 : string := "      ".

Definition json_flow (o : options_t) (s d : string) (line : host_pair_line) : option string :=
  let ap := l_ap line in
  sent ← rate_fields indent6 "sent" (l_sent line);
  recv ← rate_fields indent6 "recv" (l_recv line);
  Some ("    {" +:+ eol +:+
    field indent6 "source" (quote s) comma_eol +:+
    field indent6 "source_port" (dec (src_port ap)) comma_eol +:+
    field indent6 "destination" (quote d) comma_eol +:+
    field indent6 "destination_port" (dec (dst_port ap)) comma_eol +:+
    field indent6 "protocol" (quote (protocol_name (protocol ap))) comma_eol +:+
    (if truth (show_processes o) then
       field indent6 "pid" (dec (l_pid line)) comma_eol +:+
       field indent6 "process_name" (json_escape_string (process_name line)) comma_eol
     else "") +:+
    sent +:+ recv +:+
    field indent6 "total_sent" (dec (l_total_sent line)) comma_eol +:+
    field indent6 "total_recv" (dec (l_total_recv line)) eol +:+
    "    }").

Fixpoint json_flows (o : options_t) (first : bool) (s d : option string) (ls : list host_pair_line) :
    option string :=
  match ls with
  | [] => Some ""
  | line :: ls =>
      let s := sprint_addr s (address_family (l_ap line)) (src (l_ap line)) in
      let d := sprint_addr d (address_family (l_ap line)) (dst (l_ap line)) in
      st ← s; dt ← d;
      flow ← json_flow o st dt line;
      rest ← json_flows o false s d ls;
      Some ((if first then "" else comma_eol) +:+ flow +:+ rest)
  end.

Definition export_print_json (o : options_t) (c : capture) (d : display) : option string :=
  ls ← screen_lines d;
  flows ← json_flows o true None None ls;
  sent ← rate_fields indent4 "sent" (l_sent (totals d));
  recv ← rate_fields indent4 "recv" (l_recv (totals d));
  Some ("{" +:+ eol +:+
    field "  " "timestamp" (quote timebuf) comma_eol +:+
    field "  " "interface" (json_escape_string (interface o)) comma_eol +:+
    field "  " "flows" "[" eol +:+
    flows +:+
    eol +:+ "  ]" +:+ comma_eol +:+
    field "  " "totals" "{" eol +:+
    sent +:+ recv +:+
    field indent4 "cumulative_sent" (dec (total_sent (history_totals c))) comma_eol +:+
    field indent4 "cumulative_recv" (dec (total_recv (history_totals c))) comma_eol +:+
    field indent4 "peak_sent" (dec (peaksent d)) comma_eol +:+
    field indent4 "peak_recv" (dec (peakrecv d)) eol +:+
    "  }" +:+ eol +:+
    "}" +:+ eol).

(** ** CSV *)
Fixpoint join (sep : string) (l : list string) : string :=
  match l with
  | [] => ""
  | [x] => x
  | x :: l => x +:+ sep +:+ join sep l
  end.

Definition csv_header (o : options_t) : list string :=
  ["timestamp"; "source"; "source_port"; "destination"; "destination_port"; "protocol"] ++
  (if truth (show_processes o) then ["pid"; "process_name"] else []) ++
  ["sent_2s"; "sent_10s"; "sent_40s"; "recv_2s"; "recv_10s"; "recv_40s"; "total_sent"; "total_recv"].

Definition csv_row (o : options_t) (s d : string) (line : host_pair_line) : list string :=
  [timebuf; s; dec (src_port (l_ap line)); d; dec (dst_port (l_ap line)); protocol_name (protocol (l_ap line))] ++
  (if truth (show_processes o) then [dec (l_pid line); process_name line] else []) ++
  (fmt_0Lf <$> l_sent line) ++ (fmt_0Lf <$> l_recv line) ++
  [dec (l_total_sent line); dec (l_total_recv line)].

Fixpoint csv_rows (o : options_t) (s d : option string) (ls : list host_pair_line) : option string :=
  match ls with
  | [] => Some ""
  | line :: ls =>
      let s := sprint_addr s (address_family (l_ap line)) (src (l_ap line)) in
      let d := sprint_addr d (address_family (l_ap line)) (dst (l_ap line)) in
      st ← s; dt ← d;
      rest ← csv_rows o s d ls;
      Some (join "," (csv_row o st dt line) +:+ eol +:+ rest)
  end.

(** The text, and csv_header_printed. *)
Definition export_print_csv (csv_header_printed : bool) (o : options_t) (d : display) : option (string * bool) :=
  ls ← screen_lines d;
  rows ← csv_rows o None None ls;
  Some ((if csv_header_printed then "" else join "," (csv_header o) +:+ eol) +:+ rows, true).

Definition export_print (csv_header_printed : bool) (o : options_t) (c : capture) (d : display) :
    option (string * bool) :=
  if export_mode o =? 1 then text ← export_print_json o c d; Some (text, csv_header_printed)
  else if export_mode o =? 2 then export_print_csv csv_header_printed o d
  else Some ("", csv_header_printed).
End export.

(** ** The mode *)
Definition export_init (getprotobyname : string -> option Z) (ents : list (Z * string * string)) (d : display) :
    option (display * serv_table) :=
  services ← serv_table_init getprotobyname ents serv_table_create;
  Some (Display addr_hash_create (lines d) (lines_brk d) screen_list_init (totals d)
          (peaksent d) (peakrecv d) (peaktotal d), services).

(** A turn of the loop, which reads [foad] and time(): whether another follows. *)
Definition export_turn (W : world) (start foad now : Z) (s : session) : option (session * bool) :=
  if negb (foad =? 0) then Some (s, false)
  else if (0 <? export_duration (s_options s)) && (export_duration (s_options s) <=? now - start) then Some (s, false)
  else s ← tick W true s; Some (s, true).

Fixpoint export_loop (W : world) (turns : list (Z * Z)) (start : Z) (s : session) : option session :=
  match turns with
  | [] => None
  | (f, now) :: turns =>
      '(s, more) ← export_turn W start f now s;
      if more : bool then export_loop W turns start s else Some s
  end.

(** ** What the document says *)

(** The number that [fmt_0Lf] prints. *)
Definition rounded (x : spec_float) : Z :=
  match x with
  | S754_finite s m e => if s then - magnitude (Zpos m) e else magnitude (Zpos m) e
  | _ => 0
  end.

Definition rates_json (prefix : string) (rs : list spec_float) : list (string * json) :=
  zip_with (fun unit x => (prefix +:+ unit, JNum (rounded x))) ["_2s"; "_10s"; "_40s"] rs.

Definition flow_json (inet_ntop : Z -> list Z -> option string) (o : options_t) (line : host_pair_line) : json :=
  let ap := l_ap line in
  JObj ([("source", JStr (default "" (inet_ntop (address_family ap) (src ap))));
         ("source_port", JNum (src_port ap));
         ("destination", JStr (default "" (inet_ntop (address_family ap) (dst ap))));
         ("destination_port", JNum (dst_port ap));
         ("protocol", JStr (protocol_name (protocol ap)))] ++
        (if truth (show_processes o)
         then [("pid", JNum (l_pid line)); ("process_name", JStr (process_name line))] else []) ++
        rates_json "sent" (l_sent line) ++ rates_json "recv" (l_recv line) ++
        [("total_sent", JNum (l_total_sent line)); ("total_recv", JNum (l_total_recv line))]).

Definition document (timebuf : string) (inet_ntop : Z -> list Z -> option string) (o : options_t) (c : capture)
    (d : display) (ls : list host_pair_line) : json :=
  JObj [("timestamp", JStr timebuf);
        ("interface", JStr (interface o));
        ("flows", JArr (flow_json inet_ntop o <$> ls));
        ("totals", JObj (rates_json "sent" (l_sent (totals d)) ++ rates_json "recv" (l_recv (totals d)) ++
           [("cumulative_sent", JNum (total_sent (history_totals c)));
            ("cumulative_recv", JNum (total_recv (history_totals c)));
            ("peak_sent", JNum (peaksent d)); ("peak_recv", JNum (peakrecv d))]))].

(** Text that JSON can hold as the program writes it. *)
Definition no_control (s : string) : bool := all_chars (fun c => negb (is_control c)) s.
Definition rates_ok (rs : list spec_float) : bool :=
  (length rs =? 3)%nat && forallb finite rs.
Definition line_ok (o : options_t) (line : host_pair_line) : bool :=
  (negb (truth (show_processes o)) || no_control (process_name line)) && rates_ok (l_sent line) && rates_ok (l_recv line).

(** ** Tokens of the pieces *)
Lemma lex_escape s acc rest :
  no_control s = true ->
  lex (LStr acc) (escape s +:+ String DQ rest) = consume [TStr (acc +:+ s)] (lex LPlain rest).
Proof.
  revert acc. induction s as [|c s IH]; intros acc Hs; simpl in Hs.
  - assert (acc +:+ "" = acc) as -> by (induction acc as [|a acc IHa]; [done|exact (f_equal (String a) IHa)]). done.
  - apply andb_true_iff in Hs as [Hc%negb_true_iff Hs]. cbn [escape].
    assert (acc +:+ String c s = snoc acc c +:+ s) as -> by (unfold snoc; by rewrite <- str_app_assoc).
    destruct (aeq c DQ) eqn:Eq; [|destruct (aeq c BS) eqn:Eb].
    + apply aeq_true in Eq as ->.
      change (String BS (String DQ (escape s)) +:+ String DQ rest)
        with (String BS (String DQ (escape s +:+ String DQ rest))).
      rewrite <- IH by done. done.
    + apply aeq_true in Eb as ->.
      change (String BS (String BS (escape s)) +:+ String DQ rest)
        with (String BS (String BS (escape s +:+ String DQ rest))).
      rewrite <- IH by done. done.
    + change (String c (escape s) +:+ String DQ rest) with (String c (escape s +:+ String DQ rest)).
      cbn [lex]. rewrite Eq, Eb, Hc. by apply IH.
Qed.

Lemma lexes_escape s : no_control s = true -> lexes (json_escape_string s) [TStr s].
Proof.
  intros Hs rest. unfold json_escape_string.
  change (String DQ (escape s +:+ String DQ "") +:+ rest) with (String DQ ((escape s +:+ String DQ "") +:+ rest)).
  rewrite <- str_app_assoc. exact (lex_escape s "" rest Hs).
Qed.

Lemma fmt_minus x : finite x = true -> exists neg n, fmt_0Lf x = minus neg +:+ pretty n /\ num neg n = TNum (rounded x).
Proof.
  destruct x as [s|s| |s m e]; intros; try done; cbn [fmt_0Lf rounded].
  - exists s, 0%N. by destruct s.
  - exists s, (Z.to_N (magnitude (Zpos m) e)). split; [done|]. unfold num.
    rewrite Z2N.id by (by apply magnitude_nonneg). by destruct s.
Qed.

Lemma lexes_fmt x s ts :
  finite x = true -> ends_number s = true -> marks s = Some ts -> lexes (fmt_0Lf x +:+ s) (TNum (rounded x) :: ts).
Proof. intros Hx He Hm. destruct (fmt_minus x Hx) as (neg & n & -> & <-). by apply lexes_number. Qed.

(** A field whose value, with the ending, has the tokens [tv]. *)
Lemma lexes_field indent name value ending tv :
  marks indent = Some [] -> all_chars plain_char name = true -> lexes (value +:+ ending) tv ->
  lexes (field indent name value ending) (TStr name :: TColon :: tv).
Proof.
  intros Hi Hn Hv. unfold field. apply (lexes_app _ _ []); [by apply lexes_marks|].
  apply (lexes_app _ _ [TStr name]); [by apply lexes_quote|].
  apply (lexes_app _ _ [TColon]); [by apply lexes_marks|done].
Qed.

Lemma lexes_str_field indent name value ending s te :
  marks indent = Some [] -> all_chars plain_char name = true -> lexes value [TStr s] -> marks ending = Some te ->
  lexes (field indent name value ending) (member_tokens (name, JStr s) ++ te).
Proof.
  intros Hi Hn Hv He. apply lexes_field; [done|done|]. apply (lexes_app _ _ [TStr s]); [done|by apply lexes_marks].
Qed.

Lemma lexes_num_field indent name z ending te :
  marks indent = Some [] -> all_chars plain_char name = true -> ends_number ending = true -> marks ending = Some te ->
  lexes (field indent name (dec z) ending) (member_tokens (name, JNum z) ++ te).
Proof. intros Hi Hn He Hm. apply lexes_field; [done|done|]. by apply lexes_dec. Qed.

Lemma lexes_rate_field indent name x ending te :
  marks indent = Some [] -> all_chars plain_char name = true -> finite x = true -> ends_number ending = true ->
  marks ending = Some te ->
  lexes (field indent name (fmt_0Lf x) ending) (member_tokens (name, JNum (rounded x)) ++ te).
Proof. intros Hi Hn Hx He Hm. apply lexes_field; [done|done|]. by apply lexes_fmt. Qed.

(** Members that are each followed by a comma. *)
Definition listed (ms : list (string * json)) : list token := ms ≫= (fun kv => member_tokens kv ++ [TComma]).

Lemma separated_listed ms kv ms' :
  separated member_tokens (ms ++ kv :: ms') = listed ms ++ separated member_tokens (kv :: ms').
Proof.
  induction ms as [|kv' ms IH]; [done|]. change (listed (kv' :: ms)) with ((member_tokens kv' ++ [TComma]) ++ listed ms).
  assert (forall y l, separated member_tokens (kv' :: y :: l) = member_tokens kv' ++ TComma :: separated member_tokens (y :: l))
    as Hc by done.
  rewrite <- !app_assoc. cbn [app]. rewrite <- IH. destruct ms; [apply Hc|apply Hc].
Qed.

Lemma rate_fields_lexes indent prefix rs :
  marks indent = Some [] -> all_chars plain_char prefix = true -> rates_ok rs = true ->
  exists text, rate_fields indent prefix rs = Some text /\ lexes text (listed (rates_json prefix rs)).
Proof.
  intros Hi Hp Hr. unfold rates_ok in Hr. apply andb_true_iff in Hr as [Hlen Hf].
  destruct rs as [|r0 [|r1 [|r2 []]]]; try done. simpl in Hf.
  apply andb_true_iff in Hf as [H0 [H1 [H2 _]%andb_true_iff]%andb_true_iff].
  assert (forall u, all_chars plain_char u = true -> all_chars plain_char (prefix +:+ u) = true) as Hu.
  { intros u Hu. by rewrite all_chars_app, Hp, Hu. }
  eexists. split; [done|]. unfold listed, rates_json. cbn [zip_with mbind list_bind].
  apply lexes_app; [|apply lexes_app; [|rewrite app_nil_r]]; apply lexes_rate_field; auto; done.
Qed.

Lemma lexes_eq s ts ts' : lexes s ts -> ts = ts' -> lexes s ts'.
Proof. by intros ? <-. Qed.

Lemma listed_app ms ms' : listed (ms ++ ms') = listed ms ++ listed ms'.
Proof. apply bind_app. Qed.

Lemma object_tokens ms ms' kv :
  json_tokens (JObj (ms ++ ms' ++ [kv])) = TOpenObj :: listed ms ++ listed ms' ++ member_tokens kv ++ [TCloseObj].
Proof.
  cbn [json_tokens]. change (fun kv0 : string * json => _) with member_tokens.
  rewrite (app_assoc ms), separated_listed, listed_app, <- !app_assoc. done.
Qed.

#[local] Opaque field.

(** Every piece of a text by its lemma. *)
Ltac lex_text :=
  first [ eassumption
        | apply lexes_num_field; done
        | eapply lexes_str_field; [done|done| |done]; first [by apply lexes_escape|by apply lexes_quote]
        | by apply lexes_marks
        | eapply lexes_app; lex_text ].

Section read_back.
Context (timebuf : string) (inet_ntop : Z -> list Z -> option string) (o : options_t).
Hypothesis plain_time : all_chars plain_char timebuf = true.
Hypothesis plain_addresses : forall af a t, inet_ntop af a = Some t -> all_chars plain_char t = true.

Lemma plain_protocol p : all_chars plain_char (protocol_name p) = true.
Proof. unfold protocol_name. by repeat case_match. Qed.

Definition addresses_ok (line : host_pair_line) : Prop :=
  is_Some (inet_ntop (address_family (l_ap line)) (src (l_ap line))) /\
  is_Some (inet_ntop (address_family (l_ap line)) (dst (l_ap line))).

#[export] Instance addresses_ok_dec line : Decision (addresses_ok line).
Proof. unfold addresses_ok. apply _. Defined.

Lemma json_flow_lexes line s d :
  line_ok o line = true ->
  inet_ntop (address_family (l_ap line)) (src (l_ap line)) = Some s ->
  inet_ntop (address_family (l_ap line)) (dst (l_ap line)) = Some d ->
  exists text, json_flow o s d line = Some text /\ lexes text (json_tokens (flow_json inet_ntop o line)).
Proof.
  intros Hl Es Ed. unfold line_ok in Hl. apply andb_true_iff in Hl as [[Hn Hs]%andb_true_iff Hr].
  destruct (rate_fields_lexes indent6 "sent" _ eq_refl eq_refl Hs) as (ts & Hts & Ls).
  destruct (rate_fields_lexes indent6 "recv" _ eq_refl eq_refl Hr) as (tr & Htr & Lr).
  unfold json_flow. rewrite Hts, Htr. cbn [mbind option_bind]. eexists. split; [done|].
  pose proof (plain_addresses _ _ _ Es). pose proof (plain_addresses _ _ _ Ed).
  pose proof (plain_protocol (protocol (l_ap line))).
  unfold flow_json. rewrite Es, Ed. cbn [default from_option id].
  set (procs := if truth (show_processes o) then _ else _ : list (string * json)).
  assert (lexes (if truth (show_processes o)
    then field indent6 "pid" (dec (l_pid line)) comma_eol +:+
         field indent6 "process_name" (json_escape_string (process_name line)) comma_eol
    else "") (listed procs)) as Lp.
  { unfold procs. destruct (truth _); [|apply lexes_nil]. change (no_control (process_name line) = true) in Hn. eapply lexes_eq; [lex_text|done]. }
  clearbody procs.
  set (rates := rates_json "sent" _) in *. set (rates' := rates_json "recv" _) in *.
  change [?x; ?y] with ([x] ++ [y]). rewrite (app_assoc rates'), (app_assoc rates), (app_assoc procs).
  rewrite object_tokens, !listed_app. cbn [app].
  eapply lexes_eq; [lex_text|]. by rewrite <- !app_assoc.
Qed.

(** The values after the first. *)
Definition more (vs : list json) : list token := vs ≫= (fun v => TComma :: json_tokens v).

Lemma separated_more v vs : separated json_tokens (v :: vs) = json_tokens v ++ more vs.
Proof.
  revert v. induction vs as [|w vs IH]; intros v; [by rewrite app_nil_r|].
  rewrite separated_cons, IH. done.
Qed.

Lemma json_flows_lexes ls : forall first s d,
  Forall (fun l => line_ok o l = true /\ addresses_ok l) ls ->
  exists text, json_flows inet_ntop o first s d ls = Some text /\
    lexes text (let vs := flow_json inet_ntop o <$> ls in if first then separated json_tokens vs else more vs).
Proof.
  induction ls as [|line ls IH]; intros first s d Hls; [exists ""; split; [done|by destruct first; apply lexes_nil]|].
  apply Forall_cons in Hls as [[Hl [[st Es] [dt Ed]]] Hls]. cbn [json_flows]. unfold sprint_addr. rewrite Es, Ed.
  cbn [mbind option_bind]. destruct (json_flow_lexes line st dt Hl Es Ed) as (flow & -> & Lf).
  cbn [mbind option_bind]. destruct (IH false (Some st) (Some dt) Hls) as (rest & -> & Lr).
  cbn [mbind option_bind]. eexists. split; [done|]. rewrite fmap_cons.
  set (v := flow_json inet_ntop o line) in *. clearbody v. pose proof (lexes_app _ _ _ _ Lf Lr) as L. destruct first.
  - rewrite separated_more. exact (lexes_app "" _ [] _ lexes_nil L).
  - apply (lexes_app _ _ [TComma] (json_tokens v ++ more _)); [by apply lexes_marks|done].
Qed.

Lemma export_json_document (c : capture) (d : display) (ls : list host_pair_line) :
  no_control (interface o) = true -> screen_lines d = Some ls ->
  Forall (fun l => line_ok o l = true /\ addresses_ok l) ls ->
  rates_ok (l_sent (totals d)) = true -> rates_ok (l_recv (totals d)) = true ->
  exists text, export_print_json timebuf inet_ntop o c d = Some text /\
    read_json text = Some (document timebuf inet_ntop o c d ls).
Proof.
  intros Hi Hd Hls Hs Hr. unfold export_print_json. rewrite Hd. cbn [mbind option_bind].
  destruct (json_flows_lexes ls true None None Hls) as (flows & -> & Lf). cbn [mbind option_bind].
  destruct (rate_fields_lexes indent4 "sent" _ eq_refl eq_refl Hs) as (ts & -> & Ls).
  destruct (rate_fields_lexes indent4 "recv" _ eq_refl eq_refl Hr) as (tr & -> & Lr).
  cbn [mbind option_bind]. eexists. split; [done|]. apply read_json_tokens. unfold document.
  assert (forall name open t, all_chars plain_char name = true -> marks (open +:+ eol) = Some [t] ->
    lexes (field "  " name open eol) [TStr name; TColon; t]) as Ho.
  { intros name op t Hn Ht. apply lexes_field; [done|done|by apply lexes_marks]. }
  pose proof (Ho "flows" "[" TOpenArr eq_refl eq_refl). pose proof (Ho "totals" "{" TOpenObj eq_refl eq_refl).
  set (rates := rates_json "sent" _) in *. set (rates' := rates_json "recv" _) in *.
  set (vs := flow_json inet_ntop o <$> ls) in *. cbv zeta in Lf.
  match goal with |- lexes _ (json_tokens (JObj [?a; ?b; ?f; (?k, JObj (rates ++ rates' ++ [?p; ?q; ?r; ?t]))])) =>
    change [a; b; f; (k, JObj (rates ++ rates' ++ [p; q; r; t]))]
      with ([a; b; f] ++ [] ++ [(k, JObj (rates ++ rates' ++ [p; q; r] ++ [t]))]);
    rewrite object_tokens; unfold member_tokens at 1; cbn [fst snd];
    rewrite (app_assoc rates'), object_tokens, !listed_app
  end.
  eapply lexes_eq; [lex_text|]. cbn [listed mbind list_bind]. unfold member_tokens at 7. cbn [fst snd json_tokens].
  rewrite <- !app_assoc. by cbn [app member_tokens fst snd json_tokens]; rewrite <- ?app_assoc.
Qed.

(** C19: what the program prints in JSON mode is a JSON document, and reading
    it gives back the time, the interface, every line of the screen in order
    with its addresses, ports, process, rounded rates and totals, and the
    totals: quotes and backslashes in names included, as long as inet_ntop can
    print both addresses of every line (it cannot for the line of the pair of
    zeros whose family is 0: the code then prints what its buffer held), no name
    that is printed holds a control character and the rates are numbers. *)
Theorem export_json_reads_back (c : capture) (d : display) (ls : list host_pair_line) :
  no_control (interface o) = true -> screen_lines d = Some ls ->
  Forall (fun l => line_ok o l = true /\ addresses_ok l) ls ->
  rates_ok (l_sent (totals d)) = true -> rates_ok (l_recv (totals d)) = true ->
  exists text, export_print_json timebuf inet_ntop o c d = Some text /\
    read_json text = Some (document timebuf inet_ntop o c d ls).
Proof. apply export_json_document. Qed.
End read_back.

(** A screen of two lines whose processes have the names [a] and [b], and an
    interface with a backslash. *)
Definition demo_ntop (af : Z) (addr : list Z) : option string :=
  Some (if af =? AF_INET then "192.0.2.7" else "2001:db8::7").
Definition demo_export (a b : string) : display :=
  with_lines demo_next.2 (map_imap (fun r l => Some (Line (l_ap l) (l_total_recv l) (l_total_sent l) (l_recv l)
    (l_sent l) (cached_hostname l) 77 (if (r =? 2)%positive then a else b))) (lines demo_next.2)).
Definition demo_export_options : options_t :=
  set_export_mode 1 (set_show_processes 1 (set_interface (String BS "en0") demo_opt_record)).
Definition quoted_name : string := quote "x".

Lemma export_json_reads_back_witness :
  exists text,
    export_print_json "2024-01-01T00:00:00Z" demo_ntop demo_export_options demo_next.1
      (demo_export quoted_name "ssh") = Some text /\
    read_json text = Some (document "2024-01-01T00:00:00Z" demo_ntop demo_export_options demo_next.1
      (demo_export quoted_name "ssh") (default [] (screen_lines (demo_export quoted_name "ssh")))).
Proof.
  apply (export_json_reads_back "2024-01-01T00:00:00Z" demo_ntop demo_export_options).
  - reflexivity.
  - intros af a t [= <-]. by destruct (af =? AF_INET).
  - reflexivity.
  - vm_compute. reflexivity.
  - apply (bool_decide_unpack _). vm_compute. exact I.
  - vm_compute. reflexivity.
  - vm_compute. reflexivity.
Defined.

(** A control character in the name of a process is printed as it is, which JSON forbids. *)
Lemma control_character_not_json :
  (text ← export_print_json "2024-01-01T00:00:00Z" demo_ntop demo_export_options demo_next.1
     (demo_export (String TAB "x") "ssh"); Some (read_json text)) = Some None.
Proof. by vm_compute. Qed.

Fixpoint commas (s : string) : nat :=
  match s with EmptyString => 0 | String c s => (if aeq c "," then 1 else 0) + commas s end.

(** A comma in the name of a process splits its field: the row has more
    separators than the header. *)
Lemma csv_name_splits_row :
  commas (join "," (csv_header demo_export_options)) = 15%nat /\
  (l ← lines (demo_export "a,b" "ssh") !! 2%positive;
   Some (commas (join "," (csv_row "2024-01-01T00:00:00Z" demo_export_options "192.0.2.7" "192.0.2.7" l)))) = Some 16%nat.
Proof. split; vm_compute; reflexivity. Qed.

(** The loop ends at the first turn that sees the signal or the end of the
    duration, and never stops for another reason. *)
Lemma export_loop_ends (W : world) `{!QSort (w_qsort W)} (turns : list (Z * Z)) (start : Z) (s : session) :
  (forall k, is_Some (procinfo_refresh (w_proc W k))) -> session_ok s ->
  Exists (fun t => t.1 <> 0 \/ 0 < export_duration (s_options s) <= t.2 - start) turns ->
  exists s', export_loop W turns start s = Some s' /\ session_ok s' /\ settings s' = settings s.
Proof.
  intros Hp. revert s. induction turns as [|[f now] turns IH]; intros s Hs He; [by apply Exists_nil in He|].
  cbn [export_loop]. unfold export_turn. destruct (Z.eqb_spec f 0) as [->|Hf]; [|by exists s]. cbn [negb].
  destruct ((0 <? _) && _) eqn:Ed; [by exists s|].
  destruct (tick_spec W Hp true s Hs) as (s1 & -> & Hs1 & E1). cbn [mbind option_bind].
  assert (s_options s1 = s_options s) as Eo by (unfold settings in E1; congruence).
  destruct (IH s1 Hs1) as (s' & -> & Hs' & E').
  - apply Exists_cons in He as [[He|He]|He]; [done| |by rewrite Eo].
    simpl in He. apply andb_false_iff in Ed as [Ed%Z.ltb_ge|Ed%Z.leb_gt]; lia.
  - exists s'. split_and!; [done|done|]. by rewrite E', E1.
Qed.
