(* ===== verification/Pipeline.v ===== *)
(** * From the flows to the exported document

    The composition of the parts: any run of packets, rotations and repaints,
    then the repaint [analyse_data] and the document that export mode prints
    ([export_print_json]).  The rates that a repaint computes are numbers, the
    screen list reads as one line per group of flows, and the document reads
    back as those lines. *)

From S2P Require Import Prelude Records Chain Hash Pool AddrHash History CStr OptionsT OptionsCfg ProcInfo Packet Float FloatBounds SortedList Analyse Session Json Export.

Local Open Scope Z_scope.

(** ** The rates are numbers *)

(** A time within a slot as a double: zero, or a number up to 1 that is not tiny. *)
Definition regular_slot (x : spec_float) : bool :=
  match x with
  | S754_zero _ => true
  | S754_finite s m e =>
      negb s && (Zdigits2 (Zpos m) <=? 53) && (-900 <? Zdigits2 (Zpos m) + e) && (Zdigits2 (Zpos m) + e <=? 1) && (e <=? 0)
  | _ => false
  end.

(** A positive double between the smallest slot and a minute. *)
Definition span (x : spec_float) : Prop :=
  exists m e, x = S754_finite false m e /\ Zdigits2 (Zpos m) <= 53 /\ -900 < Zdigits2 (Zpos m) + e <= 10 /\ e <= 10.

Lemma span_intro x : finite x = true -> sign x = false -> precise 53 x -> below 10 x -> above (-900) x -> span x.
Proof.
  destruct x as [s|s| |s m e]; try done. simpl. intros _ -> Hp [H1 H2] Ha. exists m, e. split_and!; try done; lia.
Qed.

Lemma d_of_Z_span n : 0 < n < 2 ^ 6 -> span (d_of_Z n).
Proof.
  intros [H1 H2]. destruct (d_of_Z_range n 6) as (Hb & Hp & Hs & Ha); [done|done|lia|].
  apply span_intro; [by eapply below_finite|done|done|by eapply below_mono; [|exact Hb]|by eapply above_mono; [|exact Ha]].
Qed.

Lemma history_length_span slot hlen i :
  regular_slot slot = true -> 0 <= i < HISTORY_DIVISIONS ->
  exists hl, history_length slot hlen i = Some hl /\ span hl.
Proof.
  intros Hslot Hi. unfold history_length.
  assert (exists div, history_divs !!z i = Some div /\ 2 <= div <= 40) as (div & -> & Hdiv).
  { unfold HISTORY_DIVISIONS in Hi. assert (i = 0 \/ i = 1 \/ i = 2) as [->|[->| ->]] by lia; by eexists. }
  cbn [mbind option_bind]. set (full := if hlen <? div then hlen else div).
  assert (full <= 40) by (unfold full; destruct (Z.ltb_spec hlen div); lia). clearbody full.
  destruct slot as [s|s| |s m e]; try done; cbn [regular_slot] in Hslot.
  - assert (SFltb (S754_zero false) (S754_zero s) = false) as -> by done.
    destruct (Z.leb_spec full 1); (eexists; split; [done|]); [by apply d_of_Z_span|].
    unfold RESOLUTION. rewrite Z.mul_1_r. pose proof (d_of_Z_span (full - 1) ltac:(lia)) as Hf.
    destruct (d_of_Z (full - 1)) as [?|?| |? m e]; try (by destruct Hf as (? & ? & ? & _)). by destruct s.
  - rewrite !andb_true_iff, negb_true_iff, !Z.leb_le, Z.ltb_lt in Hslot.
    destruct Hslot as [[[[-> H1] H2] H3] H4]. destruct (Z.leb_spec full 1).
    + eexists. split; [done|]. exists m, e. split_and!; try done; lia.
    + eexists. split; [done|]. unfold RESOLUTION. rewrite Z.mul_1_r.
      destruct (d_of_Z_range (full - 1) 6) as (Hb & Hp & Hs & Ha); [lia|lia|lia|].
      destruct (d_of_Z (full - 1)) as [?|?| |s' m' e'] eqn:Ed; try done. simpl in Hs. subst s'.
      cbn [above] in Ha.
      destruct (SFadd_range 53 1024 ltac:(lia) m' e' m e 7 0) as (Kb & Kp & Ks & Ka).
      * done.
      * split; lia.
      * lia.
      * unfold emin. lia.
      * lia.
      * apply span_intro; [by eapply below_finite|done|done|by eapply below_mono; [|exact Kb]|by eapply above_mono; [|exact Ka]].
Qed.

Lemma span_positive x : span x -> SFltb (S754_zero false) x = true.
Proof. by intros (m & e & -> & _). Qed.

Lemma inverse_range x : span x -> exists k, k <= 1000 /\ -20 <= k /\ below k (d_div (d_of_Z 1) x).
Proof.
  intros (m & e & -> & Hd & Hr & He). change (d_of_Z 1) with (S754_finite false (2 ^ 52)%positive (-52)).
  pose proof (Zdigits2_pos (Zpos m) ltac:(lia)).
  set (D := Zdigits2 (Zpos m) + e) in *.
  destruct (SFdiv_range 53 1024 ltac:(lia) false (2 ^ 52) (-52) false m e 1 (D - 1)) as (Hb & _ & _ & _).
  - split; [lia|]. change (Zdigits2 (Zpos (2 ^ 52)%positive)) with 53. lia.
  - cbn [above]. fold D. lia.
  - lia.
  - fold D. change (Zdigits2 (Zpos (2 ^ 52)%positive)) with 53. unfold emin. lia.
  - unfold emin. lia.
  - lia.
  - eexists. split; [|split; [|exact Hb]]; lia.
Qed.

Lemma ld_of_d_below x k : below k x -> -1000 <= k <= 2000 -> below (k + 1) (ld_of_d x).
Proof. destruct x as [?|?| |s m e]; try done. intros [H1 H2] Hk. apply ld_of_d_range; lia. Qed.

Lemma ld_of_Z_below n : Z.abs n < 2 ^ 64 -> below 64 (ld_of_Z n).
Proof. intros Hn. destruct (ld_of_Z_range n Hn) as [[_ ->]|(s & m & e & -> & Hd & He)]; cbn [below]; [done|lia]. Qed.

Lemma rate_finite n x : Z.abs n < 2 ^ 64 -> span x -> finite (ld_mul (ld_of_Z n) (ld_of_d (d_div (d_of_Z 1) x))) = true.
Proof.
  intros Hn Hx. destruct (inverse_range x Hx) as (k & H1 & H2 & Hb).
  apply (below_finite (64 + (k + 1) + 1)).
  apply SFmul_below; [lia|by apply ld_of_Z_below|by apply ld_of_d_below; [exact Hb|lia]|unfold emin; lia|lia].
Qed.

Lemma total_finite n x : Z.abs n < 2 ^ 64 -> span x -> finite (ld_div (ld_of_Z n) (ld_of_d x)) = true.
Proof.
  intros Hn (m & e & -> & Hd & Hr & He).
  destruct (ld_of_d_range false m e (Zdigits2 (Zpos m) + e) ltac:(lia) ltac:(lia)) as (Hb & Hp & Hs & Ha).
  specialize (Ha ltac:(lia)). destruct (ld_of_d _) as [?|?| |s' m' e']; try done.
  cbn [below precise above] in Hb, Hp, Ha.
  destruct (ld_of_Z_range n Hn) as [[_ ->]|(s & q & eq & -> & Hq & Heq)]; [done|].
  eapply (below_finite (64 + eq - (Zdigits2 (Zpos m') + e' - 1) + 1)).
  apply SFdiv_range; try lia; try (unfold emin; lia); cbn [below above]; lia.
Qed.

(** The averages of a line, and the totals. *)
Definition all_spans (slot : spec_float) (hlen : Z) (hs : list spec_float) : Prop :=
  Forall2 (fun i hl => history_length slot hlen i = Some hl /\ span hl) (seqZ 0 HISTORY_DIVISIONS) hs.

Lemma all_spans_exist slot hlen : regular_slot slot = true -> exists h0 h1 h2, all_spans slot hlen [h0; h1; h2].
Proof.
  intros Hs. destruct (history_length_span slot hlen 0 Hs ltac:(done)) as (h0 & E0 & H0).
  destruct (history_length_span slot hlen 1 Hs ltac:(done)) as (h1 & E1 & H1).
  destruct (history_length_span slot hlen 2 Hs ltac:(done)) as (h2 & E2 & H2).
  exists h0, h1, h2. unfold all_spans. change (seqZ 0 HISTORY_DIVISIONS) with [0; 1; 2]. repeat constructor; done.
Qed.

Lemma inverse_lengths_spans slot hlen h0 h1 h2 :
  all_spans slot hlen [h0; h1; h2] ->
  inverse_lengths slot hlen = Some [d_div (d_of_Z 1) h0; d_div (d_of_Z 1) h1; d_div (d_of_Z 1) h2].
Proof.
  unfold all_spans, inverse_lengths. change (seqZ 0 HISTORY_DIVISIONS) with [0; 1; 2].
  intros ([E0 H0] & ([E1 H1] & ([E2 H2] & _)%Forall2_cons)%Forall2_cons)%Forall2_cons.
  cbn [mapM]. rewrite E0, E1, E2. cbn [mbind option_bind]. by rewrite !span_positive.
Qed.

Lemma divide_rates_spans slot hlen h0 h1 h2 a b x :
  all_spans slot hlen [h0; h1; h2] ->
  divide_rates slot hlen [a; b; x] = Some [ld_div a (ld_of_d h0); ld_div b (ld_of_d h1); ld_div x (ld_of_d h2)].
Proof.
  unfold all_spans, divide_rates. change (seqZ 0 HISTORY_DIVISIONS) with [0; 1; 2].
  intros ([E0 H0] & ([E1 H1] & ([E2 H2] & _)%Forall2_cons)%Forall2_cons)%Forall2_cons.
  cbn [zip zip_with mapM]. rewrite E0, E1, E2. cbn [mbind option_bind]. by rewrite !span_positive.
Qed.

Lemma all_spans_inv slot hlen h0 h1 h2 : all_spans slot hlen [h0; h1; h2] -> span h0 /\ span h1 /\ span h2.
Proof.
  unfold all_spans. change (seqZ 0 HISTORY_DIVISIONS) with [0; 1; 2].
  by intros ([_ H0] & ([_ H1] & ([_ H2] & _)%Forall2_cons)%Forall2_cons)%Forall2_cons.
Qed.

Lemma average_rates_finite pos inv slot hlen h0 h1 h2 (get : history_type -> list Z) g :
  all_spans slot hlen [h0; h1; h2] -> inverse_lengths slot hlen = Some inv ->
  slot_ok pos -> wf_flows g -> get = recv \/ get = sent -> gsum weight g < 2 ^ 64 ->
  Export.rates_ok (average_rates pos inv get g) = true.
Proof.
  intros Hh Hi Hp Hg Hget HW. rewrite (inverse_lengths_spans _ _ _ _ _ Hh) in Hi. apply (inj Some) in Hi as <-.
  destruct (all_spans_inv _ _ _ _ _ Hh) as (H0 & H1 & H2).
  unfold Export.rates_ok, average_rates, history_divs. cbn [zip_with length forallb].
  assert (forall n, n ∈ history_divs -> Z.abs (gsum (window pos n ∘ get) g) < 2 ^ 64) as Hn.
  { intros n Hn. pose proof (sums_bound pos g n get Hp Hg Hn Hget). lia. }
  rewrite !rate_finite by (try done; apply Hn; unfold history_divs; set_solver). done.
Qed.

Lemma total_rates_finite slot hlen h0 h1 h2 pos l r :
  all_spans slot hlen [h0; h1; h2] -> slot_ok pos -> Z.of_nat (length l) = HISTORY_LENGTH ->
  zsum (Z.abs <$> l) < 2 ^ 64 ->
  divide_rates slot hlen ((fun n => ld_of_Z (window pos n l)) <$> history_divs) = Some r ->
  Export.rates_ok r = true.
Proof.
  intros Hh Hp Hl HW. unfold history_divs. cbn [fmap list_fmap].
  rewrite (divide_rates_spans _ _ _ _ _ _ _ _ Hh). intros [= <-].
  destruct (all_spans_inv _ _ _ _ _ Hh) as (H0 & H1 & H2).
  assert (forall n, n ∈ history_divs -> Z.abs (window pos n l) < 2 ^ 64) as Hn.
  { intros n Hn. pose proof (window_abs pos n l Hp Hl Hn). lia. }
  unfold Export.rates_ok. cbn [length forallb].
  rewrite !total_finite by (try done; apply Hn; unfold history_divs; set_solver). done.
Qed.

(** ** The lines of the screen list *)
Lemma mapM_lines (ls : gmap positive host_pair_line) (m : gmap addr_pair host_pair_line) L :
  (forall k r, (k, r) ∈ L -> exists l, ls !! r = Some l /\ m !! k = Some l) -> lines_ok m ->
  exists xs, mapM (fun r => ls !! r) L.*2 = Some xs /\ l_ap <$> xs = L.*1 /\ Forall (fun x => m !! l_ap x = Some x) xs.
Proof.
  intros HL Hm. induction L as [|[k r] L IH]; [by exists []|].
  destruct (HL k r) as (l & Hl & Hk); [by left|]. destruct IH as (xs & E & Ek & Hxs).
  { intros k' r' Hin. apply HL. by right. }
  rewrite !fmap_cons. cbn [mapM snd]. rewrite Hl. cbn [mbind option_bind]. rewrite E. cbn [mbind option_bind]. exists (l :: xs).
  pose proof (proj1 (Hm k l Hk)) as Ea. csimpl. rewrite Ek, Ea. split_and!; [done|done|].
  constructor; [by rewrite Ea|done].
Qed.

Lemma screen_lines_spec c f d m F HF C S xs ds :
  screen_rep c f d m F HF C S -> lines_ok m -> sl_ok (screen_list d) xs ds -> ds ≡ₚ (bindings c S).*2 ->
  exists ls, screen_lines d = Some ls /\ NoDup (l_ap <$> ls) /\ (forall k, k ∈ l_ap <$> ls <-> is_Some (m !! k)) /\
    Forall (fun l => m !! l_ap l = Some l) ls.
Proof.
  intros Hs Hm Hsl Hds. unfold screen_lines. rewrite (sl_items _ _ _ Hsl). cbn [mbind option_bind].
  apply Permutation_map_inv in Hds as (L & -> & HL).
  pose proof (cells_rep_perm _ _ _ _ HL (sr_cells _ _ _ _ _ _ _ _ Hs)) as Hc.
  destruct (mapM_lines (lines d) m L) as (ls & E & Ek & Hls); [apply (cl_live _ _ _ Hc)|done|].
  exists ls. rewrite Ek. split_and!; [exact E|apply Hc| |done].
  intros k. split; [|apply (cl_dom _ _ _ Hc)].
  intros ([k' r] & -> & Hin)%list_elem_of_fmap. destruct (cl_live _ _ _ Hc _ _ Hin) as (l & _ & Hl). by exists l.
Qed.

Lemma grouped_line o hn pos inv l m0 k line :
  grouped o pos l m0 -> (finish_line o hn inv <$> m0) !! k = Some line ->
  let g := group o k l in
  l_total_recv line = u64 (gsum total_recv g) /\ l_total_sent line = u64 (gsum total_sent g) /\
  l_recv line = average_rates pos inv recv g /\ l_sent line = average_rates pos inv sent g.
Proof.
  intros Hgr. rewrite lookup_fmap. intros (l0 & E & ->)%fmap_Some. specialize (Hgr k). rewrite E in Hgr.
  by destruct (finish_line_sums o hn inv pos k _ l0 (proj2 Hgr)) as (_ & H).
Qed.

Lemma grouped_dom o hn pos inv l m0 k :
  grouped o pos l m0 -> is_Some ((finish_line o hn inv <$> m0) !! k) <-> group o k l <> [].
Proof.
  intros Hgr. rewrite lookup_fmap, fmap_is_Some. specialize (Hgr k). destruct (m0 !! k) as [x|].
  - split; [intros _; apply Hgr|by eexists].
  - rewrite Hgr. split; [by intros [? ?]|done].
Qed.

(** A line whose averages are those of its flows can be printed. *)
Lemma averaged_line_ok o line pos inv slot hlen h0 h1 h2 g :
  all_spans slot hlen [h0; h1; h2] -> inverse_lengths slot hlen = Some inv -> slot_ok pos -> wf_flows g ->
  gsum weight g < 2 ^ 64 ->
  l_recv line = average_rates pos inv recv g -> l_sent line = average_rates pos inv sent g ->
  (truth (show_processes o) = true -> no_control (process_name line) = true) -> Export.line_ok o line = true.
Proof.
  intros Hh Hi Hp Hg HW Er Es Hn. unfold Export.line_ok. rewrite Er, Es.
  rewrite !(average_rates_finite _ _ _ _ _ _ _ _ _ Hh Hi Hp Hg) by auto.
  destruct (truth _); [by rewrite Hn|done].
Qed.

(** ** A repaint *)

(** What each line of a list says of the flows [l]. *)
Definition true_lines (o : options_t) (pos : Z) (inv : list spec_float) (l : list (addr_pair * history_type))
    (ls : list host_pair_line) : Prop :=
  NoDup (l_ap <$> ls) /\ (forall k, k ∈ l_ap <$> ls <-> group o k l <> []) /\
  Forall (fun line => let g := group o (l_ap line) l in
    l_total_recv line = u64 (gsum total_recv g) /\ l_total_sent line = u64 (gsum total_sent g) /\
    l_recv line = average_rates pos inv recv g /\ l_sent line = average_rates pos inv sent g) ls.

(** Where the totals come from. *)
Record fresh_totals (slot : spec_float) (c c' : capture) (d' : display) : Prop := FreshTotals {
  ft_from : exists d3, calculate_totals (compute_hist_idx (history_pos c')) slot c' d3 = Some d' /\
    totals d3 = new_line zero_pair /\ peaksent d3 = 0 /\ peakrecv d3 = 0 /\ peaktotal d3 = 0;
  ft_totals : history_totals c' = history_totals c;
  ft_len : history_len c' = history_len c;
  ft_pos : history_pos c' = history_pos c
}.

Lemma ui_ok_reads c d l :
  ui_ok (c, d) -> flow_list c = Some l -> hist_wf (history_totals c) /\ slot_ok (history_pos c) /\ wf_flows l.
Proof.
  intros (f & m & F & HF & C & S & xs & ds & Hs & Hm & [Hw Hbal] & Hsl) Hl. cbn [fst snd] in *.
  pose proof (sr_cap _ _ _ _ _ _ _ _ Hs) as Hc. split_and!.
  - rewrite (cr_totals _ _ _ _ _ _ Hc). apply Hw.
  - rewrite (cr_pos _ _ _ _ _ _ Hc). apply Hw.
  - exact (flow_list_wf _ _ _ _ _ _ _ Hc Hw Hl).
Qed.

Lemma repaint_lines (qsort : (positive -> positive -> Z) -> list positive -> list positive) `{!QSort qsort}
    (o : options_t) (host_name : Z -> list Z -> option string) (procs : option sock_table_t)
    (slot : spec_float) (c : capture) (d : display) (l : list (addr_pair * history_type)) :
  (forall cmp items, qsort cmp items ≡ₚ items) -> ui_ok (c, d) -> flow_list c = Some l ->
  gsum weight l < 2 ^ 64 -> paused o <> 1 -> freezeorder o = 0 ->
  exists c' d' inv ls, analyse_data qsort o host_name procs slot c d = Some (c', d') /\
    inverse_lengths slot (history_len c) = Some inv /\ screen_lines d' = Some ls /\
    true_lines o (history_pos c) inv l ls /\ fresh_totals slot c c' d'.
Proof.
  intros Hqs Hok Hl HW Hp Hf. destruct (ui_ok_reads c d l Hok Hl) as (Hwh & Hpos & Hwl).
  destruct Hok as (f & m & F & HF & C & S & xs & ds & Hs & Hm & [Hw Hbal] & Hsl). cbn [fst snd] in *.
  destruct (analyse_data_spec qsort o host_name procs slot c f d m F HF C S xs ds l Hs Hm Hw Hsl Hl)
    as (c' & d' & f' & m' & F' & S' & xs' & ds' & Ea & Hs' & Hm' & _ & Hsl' & _ & Hg).
  destruct (Hg Hp Hf) as (lst' & m0 & inv & Eg & Ei & -> & -> & d3 & Et & Eh & Ehl & Ehp & E3 & P1 & P2 & P3).
  destruct (group_flows_sums o procs (history_pos c) l [] ∅ Hpos Hwl) as (l2 & m2 & Eg' & Hgr);
    [intros k; by rewrite lookup_empty|done|].
  assert (m2 = m0) as -> by congruence. cbn [app] in Hgr.
  destruct (screen_lines_spec _ _ _ _ _ _ _ _ _ _ Hs' Hm' Hsl') as (ls & Els & Hnd & Hdom & Hls).
  { unfold screen_order. case_bool_decide as Hi; [by rewrite Hi|apply Hqs]. }
  exists c', d', inv, ls. split_and!; [done..| |].
  - split_and!; [done|intros k; by rewrite Hdom, (grouped_dom _ _ _ _ _ _ _ Hgr)|].
    eapply Forall_impl; [exact Hls|]. intros line Hline. exact (grouped_line o host_name _ inv l m0 _ line Hgr Hline).
  - split; [|done..]. exists d3. rewrite Ehp. by split_and!.
Qed.

Lemma true_lines_rates o pos slot hlen inv l ls :
  inverse_lengths slot hlen = Some inv -> true_lines o pos inv l ls -> Forall rates3 ls.
Proof.
  intros Ei (_ & _ & H). destruct (inverse_lengths_some slot hlen) as (inv' & E & Hl). assert (inv' = inv) as -> by congruence.
  eapply Forall_impl; [exact H|]. intros line (_ & _ & Er & Es). unfold rates3. rewrite Er, Es.
  unfold average_rates. by rewrite !length_zip_with, Hl.
Qed.

Lemma fresh_totals_rates slot c c' d' :
  fresh_totals slot c c' d' -> hist_wf (history_totals c) -> slot_ok (history_pos c) -> rates3 (totals d').
Proof.
  intros [(d3 & Et & E3 & _) Eh _ Ep] Hwh Hp. unfold calculate_totals in Et. rewrite <- Eh in Hwh. rewrite <- Ep in Hp.
  apply bind_Some in Et as ([[ps pr] pt] & _ & Et). rewrite E3 in Et.
  destruct (accumulate_total (history_pos c') (history_totals c') (ld_zeros, ld_zeros) Hp Hwh) as ([r s] & E & [Hr Hs']);
    [done|]. cbn [new_line l_recv l_sent] in Et. rewrite E in Et. cbn [mbind option_bind] in Et.
  destruct (divide_rates_some slot (history_len c') r Hr) as (r' & E1 & L1).
  destruct (divide_rates_some slot (history_len c') s Hs') as (s' & E2 & L2).
  rewrite E1 in Et. cbn [mbind option_bind] in Et. rewrite E2 in Et. apply (inj Some) in Et. subst d'. by split.
Qed.

(** ** Properties *)

(** C3: export mode tells the truth about the traffic.  After any run of
    packets, rotations and repaints, a repaint (neither paused nor frozen)
    leaves a screen list of one line per group of captured flows, none twice;
    each line has the counters of its flows and the exact bytes of their newest
    slots times the inverse of the time these span; and the JSON document that
    is printed reads back as exactly those lines and totals, in the order of
    the list.  It asks that the counters fit their types, that the names that
    are printed hold no control character, that qsort permutes and that
    inet_ntop can write the addresses. *)
Theorem captured_flows_exported (qsort : (positive -> positive -> Z) -> list positive -> list positive)
    `{!QSort qsort} (timebuf : string) (inet_ntop : Z -> list Z -> option string) (es : list ui_event)
    (o : options_t) (host_name : Z -> list Z -> option string) (procs : option sock_table_t)
    (slot : spec_float) (c : capture) (d : display) (l : list (addr_pair * history_type)) :
  (forall cmp items, qsort cmp items ≡ₚ items) ->
  all_chars plain_char timebuf = true ->
  (forall af a t, inet_ntop af a = Some t -> all_chars plain_char t = true) ->
  no_control (interface o) = true ->
  ui_run qsort es (cap_init, display_init) = Some (c, d) -> flow_list c = Some l ->
  gsum weight l < 2 ^ 64 -> slots_fit (history_totals c) -> regular_slot slot = true ->
  paused o <> 1 -> freezeorder o = 0 ->
  exists c' d' inv ls, analyse_data qsort o host_name procs slot c d = Some (c', d') /\
    inverse_lengths slot (history_len c) = Some inv /\ screen_lines d' = Some ls /\
    true_lines o (history_pos c) inv l ls /\
    (Forall (fun line => addresses_ok inet_ntop line /\
       (truth (show_processes o) = true -> no_control (process_name line) = true)) ls ->
     exists text, export_print_json timebuf inet_ntop o c' d' = Some text /\
       read_json text = Some (document timebuf inet_ntop o c' d' ls)).
Proof.
  intros Hqs Htime Hntop Hif Hrun Hl HW Hfit Hslot Hp Hf. destruct (ui_run_ok qsort es _ ui_init_ok) as (s & E & Hok).
  assert (s = (c, d)) as -> by congruence.
  destruct (repaint_lines qsort o host_name procs slot c d l Hqs Hok Hl HW Hp Hf) as (c' & d' & inv & ls & Ea & Ei & Els & Htrue & Hft).
  destruct (ui_ok_reads c d l Hok Hl) as (Hwh & Hpos & Hwl).
  exists c', d', inv, ls. split_and!; [done..|]. destruct Htrue as (_ & _ & Hsums).
  intros Hlines. destruct (all_spans_exist slot (history_len c) Hslot) as (h0 & h1 & h2 & Hh).
  destruct Hft as [(d3 & Et & E3 & P1 & P2 & P3) Eh Ehl Ehp]. rewrite <- Ehp in Hpos.
  destruct (calculate_totals_exact slot c' d3 d' Et Hpos ltac:(by rewrite Eh) ltac:(by rewrite Eh) E3 P1 P2 P3)
    as (Er & Es & _).
  rewrite ?Eh, ?Ehl in Er, Es.
  assert (zsum (Z.abs <$> recv (history_totals c)) < 2 ^ 64 /\ zsum (Z.abs <$> sent (history_totals c)) < 2 ^ 64) as [B1 B2].
  { pose proof (slots_fit_weight _ Hwh Hfit) as B. unfold weight in B.
    pose proof (zsum_abs_nonneg (recv (history_totals c))). pose proof (zsum_abs_nonneg (sent (history_totals c))). lia. }
  apply (export_json_document timebuf inet_ntop o Htime Hntop); [done|done| |..].
  - rewrite Forall_forall in Hlines, Hsums |- *. intros line Hin. destruct (Hlines line Hin) as [Ha Hn].
    destruct (Hsums line Hin) as (_ & _ & E4 & E5). split; [|done].
    rewrite <- Ehp in E4, E5.
    apply (averaged_line_ok o line (history_pos c') inv slot (history_len c) h0 h1 h2 (group o (l_ap line) l)); try done.
    + by apply wf_group.
    + pose proof (gsum_group_le weight o (l_ap line) l weight_nonneg). lia.
  - exact (total_rates_finite _ _ _ _ _ _ _ _ Hh Hpos (proj2 Hwh) B2 Es).
  - exact (total_rates_finite _ _ _ _ _ _ _ _ Hh Hpos (proj1 Hwh) B1 Er).
Qed.

Lemma insertion_qsort_perm {A} cmp (l : list A) : insertion_qsort cmp l ≡ₚ l.
Proof.
  unfold insertion_qsort. destruct (insertions_sorted cmp l []) as [_ H]; [constructor|]. by rewrite app_nil_r in H.
Qed.

Example captured_flows_exported_witness :
  exists c' d' inv ls text,
    analyse_data insertion_qsort demo_opt_record (fun _ _ => None) None (d_of 1 (-1)) demo_ui.1 demo_ui.2 = Some (c', d') /\
    inverse_lengths (d_of 1 (-1)) (history_len demo_ui.1) = Some inv /\ screen_lines d' = Some ls /\
    true_lines demo_opt_record (history_pos demo_ui.1) inv demo_flows ls /\
    export_print_json "2024-01-01T00:00:00Z" demo_ntop demo_opt_record c' d' = Some text /\
    read_json text = Some (document "2024-01-01T00:00:00Z" demo_ntop demo_opt_record c' d' ls).
Proof.
  destruct (captured_flows_exported insertion_qsort "2024-01-01T00:00:00Z" demo_ntop demo_run demo_opt_record
    (fun _ _ => None) None (d_of 1 (-1)) demo_ui.1 demo_ui.2 demo_flows)
    as (c' & d' & inv & ls & Ea & Ei & Els & Htrue & Ht).
  - intros cmp items. apply insertion_qsort_perm.
  - reflexivity.
  - intros af a t [= <-]. by destruct (af =? AF_INET).
  - reflexivity.
  - rewrite <- pair_eta. exact demo_ui_run.
  - exact demo_flows_list.
  - vm_compute. reflexivity.
  - apply slots_fit_check. vm_compute. reflexivity.
  - vm_compute. reflexivity.
  - discriminate.
  - reflexivity.
  - destruct Ht as (text & Et & Er).
    { apply Forall_forall. intros line _. split; [split; by eexists|intros [=]]. }
    exists c', d', inv, ls, text. exact (conj Ea (conj Ei (conj Els (conj Htrue (conj Et Er))))).
Defined.
