(* ===== verification/Main.v ===== *)
(** * The program (src/entry/iftop.c main)

    The composition of the components: the start, from the command line to the
    first repaint, then the two threads.  The capture thread hands over frames
    ([packet_loop]); the main thread waits for a key, at a prompt, or between
    two exports.  An event is one frame, one key, one turn of the export loop,
    or the signal; the components of [Session], [UiKeys], [EdLine] and [Packet]
    do the work. *)

From S2P Require Import Prelude Bytes Chain Hash Pool AddrHash History CStr StringMap CfgFile OptionsT OptionsCfg ProcInfo Packet NetFilter Float SortedList Analyse ServHash EdLine Session UiKeys Json Export.

Local Open Scope Z_scope.

(** ** The IP packet of a frame *)

(** What the handlers of the link layers agree on: the IP packet inside a
    frame, with its direction, or none; [None] is a read past the frame. *)
Definition llc_packet (p : bytes) (dir : Z) : option (option (bytes * Z)) :=
  ssap ← rd1 p 1;
  if negb (ssap =? LLCSAP_SNAP) then Some None else
  dsap ← rd1 p 0;
  if negb (dsap =? LLCSAP_SNAP) then Some None else
  llcui ← rd1 p 2;
  if negb (llcui =? LLC_UI) then Some None else
  o ← rdn p 3 3;
  et ← rd2 p 6;
  let orgcode := be_val o in
  Some (if (orgcode =? OUI_ENCAP_ETHER) || (orgcode =? OUI_CISCO_90) ||
           ((orgcode =? OUI_APPLETALK) && (et =? ETHERTYPE_ATALK))
        then Some (advance p 8, dir) else None).

Definition hw_direction (i : iface) (shost dhost : bytes) : Z :=
  if have_hw_addr i && same_bytes shost (if_hw_addr i) then 1
  else if have_hw_addr i && same_bytes dhost (if_hw_addr i) then 0
  else if same_bytes broadcast_mac dhost then 0
  else -1.

Definition frame_packet (align : Z) (i : iface) (h : packet_handler) (p : bytes) : option (option (bytes * Z)) :=
  match h with
  | EthPacket =>
      t ← rd2 p 12;
      '(t, ip) ← (if t =? ETHERTYPE_8021Q then t ← rd2 p 16; Some (t, advance p 18) else Some (t, advance p 14));
      if (t =? ETHERTYPE_IP) || (t =? ETHERTYPE_IPV6) then
        shost ← rdn p 6 6; dhost ← rdn p 0 6; Some (Some (ip, hw_direction i shost dhost))
      else Some None
  | PflogPacket => n ← rd1 p 0; Some (Some (advance p (BPF_WORDALIGN align n), -1))
  | RawPacket => Some (Some (p, -1))
  | NullPacket => Some (Some (advance p 4, -1))
  | RadiotapPacket => lo ← rd1 p 2; hi ← rd1 p 3; Some (Some (advance p (lo + 256 * hi + 34), -1))
  | TokenringPacket =>
      shost ← rdn p 8 6;
      rif ← (if truth (Z.land (hd 0 shost) 0x80) then
               rcf ← rd2 p 14; Some (Z.shiftr (Z.land rcf 0x1f00) 8)
             else Some 0);
      dhost ← rdn p 2 6;
      fc ← rd1 p 1;
      if Z.shiftr (Z.land fc 0xC0) 6 =? TOKEN_FC_LLC then
        llc_packet (advance p (rif + TOKEN_HDRLEN))
          (if same_bytes shost (if_hw_addr i) then 1
           else if same_bytes dhost (if_hw_addr i) || same_bytes broadcast_mac dhost then 0 else -1)
      else Some None
  | PppPacket =>
      let caplen := Z.of_nat (length p) in
      if caplen <? 2 then Some None else
      b ← rd1 p 0;
      if negb (b =? PPP_ADDRESS) || (caplen <? 4) then Some None else
      proto ← rd2 p 2;
      Some (if (proto =? PPP_IP) || (proto =? ETHERTYPE_IP) || (proto =? ETHERTYPE_IPV6)
            then Some (advance p 4, -1) else None)
  | CookedPacket =>
      t ← rd2 p 0;
      Some (Some (advance p SLL_HDR_LEN, if t =? LINUX_SLL_HOST then 0 else if t =? LINUX_SLL_OUTGOING then 1 else -1))
  end.

(** The frames of which enough was captured. *)
Definition frame_whole (align : Z) (i : iface) (h : packet_handler) (p : bytes) : bool :=
  match frame_packet align i h p with
  | Some (Some (ip, _)) => ip_whole ip
  | Some None => true
  | None => false
  end.

(** ** The program *)

(** What the start of the program finds outside: the command line as getopt
    splits it, the files, the interfaces, libpcap, the services, and the
    outcome of pthread_create. *)
Record setup := Setup {
  x_uninit : Z;
  x_first_interface : option string;
  x_home : option string;
  x_opts : list (ascii * string);
  x_operands : bool;
  x_files : string -> option string;
  x_inet_aton : string -> option (list Z);
  x_inet_pton6 : string -> option (list Z);
  x_socket : bool;
  x_hw_addr : string -> option bytes;
  x_ifaddrs : option (list ifaddr);
  x_pcap_open : bool;
  x_datalink : Z;
  x_getprotobyname : string -> option Z;
  x_servent : list (Z * string * string);
  x_thread : bool
}.

(** Where the main thread waits: in getch, in edline (for the net filter or the
    screen filter), in usleep, or no more. *)
Inductive waiting := AtKey | AtPrompt (screen : bool) (e : edit) | AtTurn (start : Z) | Over.

Record program := Program {
  p_session : session;
  p_iface : iface;
  p_handler : packet_handler;
  p_services : serv_table;
  p_resolve : list resolve_call;   (* the calls of resolve, oldest first *)
  p_main : waiting;
  p_outer : list waiting           (* the loops that SIGQUIT interrupted, innermost first *)
}.

Section program.
Context (W : world) (align : Z).

(** *** main, up to the creation of the thread *)
Definition begin_export (x : setup) (s : session) : option (session * serv_table * waiting) :=
  '(d, services) ← export_init (x_getprotobyname x) (x_servent x) (s_display s);
  Some (next_read (with_data (s_capture s) d s), services, AtTurn (w_time W (reads s))).

Definition begin_screen (x : setup) (s : session) : option (session * serv_table * waiting) :=
  services ← serv_table_init (x_getprotobyname x) (x_servent x) serv_table_create;
  s ← ui_init W s;
  Some (s, services, AtKey).

(** The modes after packet_init and init_history. *)
Definition main_session (x : setup) (o : options_t) (i : iface) (h : packet_handler) : option (Z + program) :=
  let s := next_read (session_init o (w_gettimeofday W 0)) in
  '(s, services, w) ← (if truth (export_mode o) then begin_export x s else begin_screen x s);
  Some (if x_thread x then inr (Program s i h services [] w []) else inl 1).

Definition main (x : setup) : option (Z + program) :=
  r ← read_options (x_inet_aton x) (x_inet_pton6 x) (x_uninit x) (x_first_interface x) (x_home x) (x_opts x)
        (x_operands x) (x_files x);
  match r with
  | inl status => Some (inl status)
  | inr o =>
      addrs ← get_addrs_ioctl (x_socket x) (x_hw_addr x (interface o)) (x_ifaddrs x) (interface o)
                (replicate 4 0) (replicate 16 0);
      match packet_init addrs (x_pcap_open x) (x_datalink x)
              (set_filter_code (w_pcap_compile W) (w_pcap_setfilter W) (filtercode o)) with
      | inl status => Some (inl status)
      | inr (i, h) => main_session x o i h
      end
  end.

(** *** The capture thread: pcap_loop gives one frame to the handler *)
Definition packet_loop (i : iface) (h : packet_handler) (p : bytes) (s : session) :
    option (session * list resolve_call) :=
  s ← match h with EthPacket => _ ← rd2 p 12; tick W false s | _ => Some s end;
  '(c, calls) ← run_handler align (Env (s_options s) i (s_procs s)) Some h (s_capture s) p;
  Some (with_data c (s_display s) s, calls).

(** *** The main thread, one key at a time *)
Definition prompt_text (screen : bool) : string := if screen then "Screen filter" else "Net filter".

(** The end of the body of ui_loop. *)
Definition next_key (s : session) : option (session * waiting) :=
  s ← tick W false s;
  Some (s, if negb (foad s =? 0) then Over else AtKey).

Definition start_prompt (screen : bool) (initial : option string) (s : session) : option (session * waiting) :=
  Some (with_dontshow 1 s, AtPrompt screen (edit_start initial)).

Definition main_key (c : Z) (w : waiting) (s : session) : option (session * waiting) :=
  match w with
  | AtKey =>
      if key_is c "f" then start_prompt false (filtercode (s_options s)) s
      else if key_is c "l" then start_prompt true (screenfilter (s_options s)) s
      else s ← simple_key W c s; next_key s
  | AtPrompt screen e =>
      e ← edit_key (w_isprint W) (w_isspace W) c e;
      _ ← edit_view (w_COLS W) (len (prompt_text screen) + 2) e;
      if ends_input c then
        s ← (if (c =? KEY_ENTER) || (c =? 13) then (if screen then screen_line W else filter_line W) (e_str e) s
             else Some s);
        next_key (ui_print (with_dontshow 0 s))
      else Some (s, AtPrompt screen e)
  | _ => Some (s, w)
  end.

(** A turn of export_loop, after usleep. *)
Definition main_turn (w : waiting) (s : session) : option (session * waiting) :=
  match w with
  | AtTurn start =>
      '(s, more) ← export_turn W start (foad s) (w_time W (reads s)) (next_read s);
      Some (s, if more : bool then w else Over)
  | _ => Some (s, w)
  end.

(** *** The threads together *)
Inductive program_event :=
  | PFrame (p : bytes)
  | PKey (c : Z)
  | PTurn
  | PSignal (sig : Z)      (* finish *)
  | PQuit.                 (* SIGQUIT *)

(** A loop that ends returns to the one it interrupted. *)
Definition resume (w : waiting) (outer : list waiting) : waiting * list waiting :=
  match w, outer with Over, w' :: outer => (w', outer) | _, _ => (w, outer) end.

Definition with_main (r : session * waiting) (m : program) : program :=
  Program r.1 (p_iface m) (p_handler m) (p_services m) (p_resolve m) (resume r.2 (p_outer m)).1
    (resume r.2 (p_outer m)).2.

(** The handler of SIGQUIT, installed by ui_curses_init, runs ui_loop inside
    the loop it interrupts. *)
Definition eraseAndLoop (m : program) : program :=
  match p_main m with
  | AtTurn _ | Over => m
  | w => if negb (foad (p_session m) =? 0) then m
         else Program (p_session m) (p_iface m) (p_handler m) (p_services m) (p_resolve m) AtKey (w :: p_outer m)
  end.

Definition program_step (ev : program_event) (m : program) : option program :=
  match p_main m, ev with
  | Over, _ => Some m
  | w, PFrame p =>
      '(s, calls) ← packet_loop (p_iface m) (p_handler m) p (p_session m);
      Some (Program s (p_iface m) (p_handler m) (p_services m) (p_resolve m ++ calls) w (p_outer m))
  | w, PKey c => r ← main_key c w (p_session m); Some (with_main r m)
  | w, PTurn => r ← main_turn w (p_session m); Some (with_main r m)
  | w, PSignal sig => Some (with_main (with_foad sig (p_session m), w) m)
  | w, PQuit => Some (eraseAndLoop m)
  end.

Fixpoint program_run (evs : list program_event) (m : program) : option program :=
  match evs with
  | [] => Some m
  | ev :: evs => m ← program_step ev m; program_run evs m
  end.

(** Keys alone. *)
Fixpoint main_keys (keys : list Z) (w : waiting) (s : session) : option (session * waiting) :=
  match keys with
  | [] => Some (s, w)
  | c :: keys => '(s, w) ← main_key c w s; main_keys keys w s
  end.
End program.

(** ** Frames *)
Lemma handle_llc_packet_eq e c p dir :
  handle_llc_packet e c p dir =
  r ← llc_packet p dir; match r with Some (ip, dir) => handle_ip_packet e c ip dir | None => Some (c, []) end.
Proof.
  unfold handle_llc_packet, llc_packet. destruct (rd1 p 1); cbn [mbind option_bind]; [|done].
  destruct (negb _); [done|]. destruct (rd1 p 0); cbn [mbind option_bind]; [|done]. destruct (negb _); [done|].
  destruct (rd1 p 2); cbn [mbind option_bind]; [|done]. destruct (negb _); [done|].
  destruct (rdn p 3 3); cbn [mbind option_bind]; [|done]. destruct (rd2 p 6); cbn [mbind option_bind]; [|done].
  destruct (_ || _); cbn [orb]; [done|]. by destruct (_ && _).
Qed.

(** Every handler is: find the IP packet, and handle it. *)
Lemma run_handler_packet align e h c p :
  run_handler align e Some h c p =
  r ← frame_packet align (e_iface e) h p;
  match r with Some (ip, dir) => handle_ip_packet e c ip dir | None => Some (c, []) end.
Proof.
  destruct h; cbn [run_handler frame_packet].
  - unfold handle_eth_packet, hw_direction. destruct (rd2 p 12) as [t|]; cbn [mbind option_bind]; [|done].
    destruct (if t =? ETHERTYPE_8021Q then _ else _) as [[t' ip]|]; cbn [mbind option_bind]; [|done].
    destruct (_ || _); [|done]. destruct (rdn p 6 6); cbn [mbind option_bind]; [|done].
    by destruct (rdn p 0 6).
  - unfold handle_pflog_packet. by destruct (rd1 p 0).
  - done.
  - done.
  - unfold handle_radiotap_packet. destruct (rd1 p 2); cbn [mbind option_bind]; [|done]. by destruct (rd1 p 3).
  - unfold handle_tokenring_packet. destruct (rdn p 8 6) as [sh|]; cbn [mbind option_bind]; [|done].
    destruct (if truth _ then _ else _) as [rif|]; cbn [mbind option_bind]; [|done].
    destruct (rdn p 2 6) as [dh|]; cbn [mbind option_bind]; [|done].
    destruct (rd1 p 1); cbn [mbind option_bind]; [|done]. destruct (_ =? TOKEN_FC_LLC); [|done].
    apply handle_llc_packet_eq.
  - unfold handle_ppp_packet. cbv zeta. destruct (_ <? 2); [done|]. destruct (rd1 p 0) as [b|]; cbn [mbind option_bind]; [|done].
    destruct (b =? PPP_ADDRESS); cbn [negb orb]; [|done]. destruct (_ <? 4); [done|].
    destruct (rd2 p 2); cbn [mbind option_bind]; [|done]. by destruct (_ || _).
  - unfold handle_cooked_packet. by destruct (rd2 p 0).
Qed.

Lemma run_handler_returns align e h c p f F C HF X :
  frame_whole align (e_iface e) h p = true -> cap_rep c f F C HF X -> flows_wf f ->
  exists c' calls, run_handler align e Some h c p = Some (c', calls).
Proof.
  rewrite run_handler_packet. unfold frame_whole. intros Hf Hc Hw.
  destruct (frame_packet _ _ _ _) as [[[ip dir]|]|]; cbn [mbind option_bind]; [|by eauto|done].
  by eapply handle_ip_packet_returns.
Qed.

(** ** The options a run starts with *)
Lemma bool_of_bool m d v : is_bool v -> is_bool (bool_of m d v).
Proof. intros Hv. unfold bool_of. destruct (m !! d); [|done]. destruct (_ || _); [by right|by left]. Qed.

Lemma enum_of_range m d e v lo hi :
  Forall (fun nv => lo <= nv.2 <= hi) e -> lo <= v <= hi -> lo <= enum_of m d e v <= hi.
Proof.
  intros He Hv. unfold enum_of. destruct (m !! d) as [s|]; [|done].
  induction He as [|[n x] e Hx He IH]; [done|]. cbn [enum_value]. by destruct (String.eqb s n).
Qed.

Lemma configured_ok m first home o :
  configured m first (options_set_defaults first home) o -> options_ok o /\ screen_offset o = 0.
Proof.
  intros []. injection cf_view as E1 E2 E3 E4 E5.
  split; [|done]. split; rewrite ?cf_dns, ?cf_port, ?cf_bars, ?cf_src, ?cf_dest, ?cf_totals, ?cf_log, ?cf_proc, ?cf_ports,
    ?cf_line, ?cf_sort, ?E1, ?E2, ?E3, ?E4, ?E5;
    cbn [options_set_defaults dnsresolution portresolution showbars aggregate_src aggregate_dest paused OptionsT.showhelp
      freezeorder show_totals log_scale show_processes showports bar_interval linedisplay sort screen_offset];
    try (apply bool_of_bool; first [by left|by right]); try (by left); try lia;
    (apply enum_of_range; [repeat (constructor; [done|]); constructor|done]).
Qed.

Lemma arg_binding_value c a k v : arg_binding c a = Some (k, v) -> nul_free a = true -> nul_free v = true.
Proof.
  unfold arg_binding. intros H Ha. destruct c as [[] [] [] [] [] [] [] []]; try done; by injection H as _ <-.
Qed.

Lemma args_map_values opts :
  Forall (fun a => nul_free a.2 = true) opts -> nul_free_values (args_map opts).
Proof.
  intros Hf. unfold args_map.
  assert (forall m, nul_free_values m -> nul_free_values (foldl (fun (m : gmap string string) '(opt, optarg) =>
    match arg_binding opt optarg with Some (k, v) => <[k := v]> m | None => m end) m opts)) as H.
  { induction Hf as [|[c a] opts Ha Hf IH]; intros m Hm; [done|]. cbn [foldl]. apply IH.
    destruct (arg_binding c a) as [[k v]|] eqn:E; [|done].
    apply map_Forall_insert_2; [by eapply arg_binding_value|done]. }
  apply H, map_Forall_empty.
Qed.

(** ** What always holds of the program *)
Definition waiting_ok (w : waiting) : Prop := match w with AtPrompt _ e => edit_ok e | _ => True end.

Record program_ok (m : program) : Prop := ProgramOk {
  po_running : running (p_session m);
  po_waiting : waiting_ok (p_main m);
  po_outer : Forall waiting_ok (p_outer m);
  po_services : exists C names, serv_rep (p_services m) C names
}.

Section runs.
Context (W : world) `{!QSort (w_qsort W)} (align : Z).
Hypothesis proc_readable : forall k, is_Some (procinfo_refresh (w_proc W k)).

(** *** The start *)
Section start.
Context (x : setup).
Hypothesis files_nul_free : forall path text, x_files x path = Some text -> nul_free text = true.
Hypothesis args_nul_free : Forall (fun a => nul_free a.2 = true) (x_opts x).

Lemma session_init_running o m :
  configured m (x_first_interface x) (options_set_defaults (x_first_interface x) (x_home x)) o ->
  screenfilter o = None -> nul_free_values m -> running (next_read (session_init o (w_gettimeofday W 0))).
Proof.
  intros Hc Hs Hm. destruct (configured_ok _ _ _ _ Hc) as [Ho _].
  destruct (session_init_ok o (w_gettimeofday W 0)). split; [by split|done|done| |].
  - intros f. cbn. rewrite (cf_filter _ _ _ _ Hc). apply Hm.
  - intros f. cbn. by rewrite Hs.
Qed.

Lemma main_session_ok o i h s :
  s = next_read (session_init o (w_gettimeofday W 0)) -> running s -> screen_offset o = 0 ->
  match main_session W x o i h with
  | None => False
  | Some (inl status) => status = 1
  | Some (inr m) => program_ok m /\ p_iface m = i /\ p_handler m = h /\ screen_offset (s_options (p_session m)) = 0
  end.
Proof.
  intros -> Hr Ho. unfold main_session, begin_export, begin_screen, export_init.
  destruct (serv_table_init_spec (x_getprotobyname x) (x_servent x) _ _ _ serv_table_create_rep) as (t & C & -> & Ht).
  cbn [mbind option_bind]. destruct (truth (export_mode o)); cbn [mbind option_bind].
  - destruct (x_thread x); [|done]. split_and!; [|done..]. split; [|done|done|by eauto].
    destruct Hr as [[Hd Hs Hh] ? ? ? ?]. by split.
  - set (s := next_read _) in *. unfold ui_init.
    destruct (leaves_same s _ s (leaves_showhelp W proc_readable
      (str_take 19 ("Listening on " +:+ interface (s_options s))) s (ru_ok _ Hr)) eq_refl Hr) as (s' & -> & Hr' & Eo).
    cbn [mbind option_bind]. destruct (x_thread x); [|done]. split_and!; [|done..|exact (eq_trans (f_equal screen_offset Eo) Ho)]. by split; eauto.
Qed.

Hypothesis addresses_readable : forall name,
  is_Some (get_addrs_ioctl (x_socket x) (x_hw_addr x name) (x_ifaddrs x) name (replicate 4 0) (replicate 16 0)).

Lemma main_starts :
  match main W x with
  | None => exists m, run_config (x_home x) (x_opts x) (x_files x) m /\ prefix_overflow m
  | Some (inl status) => status = 0 \/ status = 1
  | Some (inr m) => program_ok m /\ screen_offset (s_options (p_session m)) = 0
  end.
Proof.
  unfold main.
  pose proof (read_options_spec (x_inet_aton x) (x_inet_pton6 x) (x_uninit x) (x_first_interface x) (x_home x) (x_opts x)
    (x_operands x) (x_files x) files_nul_free) as Hopt.
  pose proof (screen_filter_directive_ignored (x_inet_aton x) (x_inet_pton6 x) (x_uninit x) (x_first_interface x)
    (x_home x) (x_opts x) (x_operands x) (x_files x)) as Hscreen.
  destruct (read_options _ _ _ _ _ _ _ _) as [[status|o]|]; cbn [mbind option_bind]; [done| |done].
  destruct Hopt as (m & _ & Hv & Hc). destruct (addresses_readable (interface o)) as [[[[r hw] ip] ip6] ->].
  cbn [mbind option_bind]. unfold packet_init.
  destruct (r <? 0); [by right|]. destruct (x_pcap_open x); cbn [negb]; [|by right].
  destruct (datalink_handler _) as [h|]; [|by right]. destruct (set_filter_code _ _ _); [by right|].
  destruct (configured_ok _ _ _ _ Hc) as [_ Hoff].
  assert (running (next_read (session_init o (w_gettimeofday W 0)))) as Hr
    by (eapply session_init_running; [exact Hc|by apply (Hscreen o)|by apply Hv, args_map_values]).
  match goal with |- context [main_session W x o ?i h] =>
    pose proof (main_session_ok o i h _ eq_refl Hr Hoff) as Hmain end.
  destruct (main_session _ _ _ _ _) as [[status|p]|]; [by right|by destruct Hmain as (? & _ & _ & ?)|done].
Qed.
End start.
(** *** The capture thread *)
Lemma with_data_same s : with_data (s_capture s) (s_display s) s = s.
Proof. by destruct s. Qed.

Lemma packet_loop_running i h p s :
  running s -> frame_whole align i h p = true ->
  exists s' calls, packet_loop W align i h p s = Some (s', calls) /\ running s' /\ s_options s' = s_options s.
Proof.
  intros Hr Hf. unfold packet_loop.
  assert (exists s1, match h with EthPacket => _ ← rd2 p 12; tick W false s | _ => Some s end = Some s1 /\
    running s1 /\ s_options s1 = s_options s) as (s1 & -> & Hr1 & Eo).
  { destruct h; try by eexists. unfold frame_whole in Hf. cbn [frame_packet] in Hf.
    destruct (rd2 p 12); cbn [mbind option_bind]; [|done]. by apply tick_running. }
  cbn [mbind option_bind]. pose proof Hr1 as [[Hd _ _] _ _ _ _].
  destruct Hd as (f & m & F & HF & C & S & xs & ds & Hs & _ & [Hw _] & _). cbn [fst snd] in *.
  destruct (run_handler_returns align (Env (s_options s1) i (s_procs s1)) h (s_capture s1) p f F C HF
    (concat S) Hf (sr_cap _ _ _ _ _ _ _ _ Hs) Hw) as (c & calls & E).
  rewrite E. cbn [mbind option_bind]. do 2 eexists. split; [done|].
  apply run_handler_seen in E as (c1 & Hc1 & Hseen).
  assert (c1 = s_capture s1) as -> by (destruct Hc1; congruence).
  destruct Hseen as [->|(ap & proc & l & b & d & Hseen)]; [by rewrite with_data_same|].
  destruct (packet_running W ap proc l b d s1 Hr1) as (s2 & E2 & Hr2 & Eo2). cbn [session_step] in E2.
  rewrite Hseen in E2. cbn [mbind option_bind] in E2. injection E2 as <-. split; [done|]. by rewrite Eo2.
Qed.
(** *** The main thread *)
Hypothesis isprint_NUL : w_isprint W 0 = false.
Hypothesis wide_enough : 16 <= w_COLS W.

(** The thread goes on, at most one line further down. *)
Definition goes_on (s : session) (r : option (session * waiting)) : Prop :=
  exists s' w, r = Some (s', w) /\ running s' /\ waiting_ok w /\
    screen_offset (s_options s') <= screen_offset (s_options s) + 1.

Lemma next_key_goes_on s s0 :
  running s -> screen_offset (s_options s) <= screen_offset (s_options s0) + 1 -> goes_on s0 (next_key W s).
Proof.
  intros Hr Ho. unfold next_key. destruct (tick_running W proc_readable false s Hr) as (s1 & -> & H1 & E1).
  cbn [mbind option_bind]. do 2 eexists. split_and!; [done|done| |by rewrite E1].
  by destruct (negb (foad s1 =? 0)).
Qed.

Lemma prompt_key_goes_on c screen e s :
  running s -> edit_ok e -> valid_key c -> goes_on s (main_key W c (AtPrompt screen e) s).
Proof.
  intros Hr He Hc. cbn [main_key].
  destruct (edit_key_spec (w_isprint W) (w_isspace W) isprint_NUL c e Hc He) as (e' & -> & He').
  cbn [mbind option_bind]. assert (len (prompt_text screen) <= 13) by (by destruct screen).
  destruct (edit_view_spec (w_COLS W) (len (prompt_text screen) + 2) e') as (t & col & -> & _); [lia|lia|done|].
  cbn [mbind option_bind]. destruct (ends_input c); [|by do 2 eexists; split_and!; [done|done|done|lia]].
  assert (exists s1, (if (c =? KEY_ENTER) || (c =? 13) then
      (if screen then screen_line W else filter_line W) (e_str e') s else Some s) = Some s1 /\
    running s1 /\ screen_offset (s_options s1) = screen_offset (s_options s)) as (s1 & -> & H1 & E1).
  { destruct (_ || _); [|by eexists]. destruct screen.
    - by apply screen_line_running, He'.
    - by apply filter_line_running, He'. }
  cbn [mbind option_bind]. apply next_key_goes_on; [by apply running_print, running_dontshow|].
  rewrite print_options. cbn. lia.
Qed.

Lemma main_key_goes_on c w s :
  running s -> waiting_ok w -> valid_key c -> screen_offset (s_options s) < 2 ^ 31 - 1 ->
  goes_on s (main_key W c w s).
Proof.
  intros Hr Hw Hc Ho. destruct w as [|screen e|start|]; try (by do 2 eexists; split_and!; [done|done|done|lia]).
  - cbn [main_key]. unfold start_prompt.
    destruct (key_is c "f"); [|destruct (key_is c "l")]; try (do 2 eexists; split_and!;
      [done|by apply running_dontshow|apply edit_start_ok, Hr|cbn; lia]).
    destruct (simple_key_running W proc_readable c s Hr Ho) as (s1 & -> & H1 & E1). cbn [mbind option_bind].
    by apply next_key_goes_on.
  - by apply prompt_key_goes_on.
Qed.

Lemma running_read s : running s -> running (next_read s).
Proof. intros [[? ? ?] ? ? ? ?]. by split. Qed.

Lemma main_turn_goes_on w s : running s -> waiting_ok w -> goes_on s (main_turn W w s).
Proof.
  intros Hr Hw. destruct w as [| |start|]; try (by do 2 eexists; split_and!; [done|done|done|lia]).
  cbn [main_turn]. unfold export_turn. pose proof (running_read s Hr) as Hr'.
  destruct (negb _); [by do 2 eexists; split_and!; [done|done|done|cbn; lia]|].
  destruct (_ && _); [by do 2 eexists; split_and!; [done|done|done|cbn; lia]|].
  destruct (tick_running W proc_readable true _ Hr') as (s1 & -> & H1 & E1). cbn [mbind option_bind].
  do 2 eexists. split_and!; [done|done|done|]. rewrite E1. cbn. lia.
Qed.

(** *** Both *)
Definition event_ok (i : iface) (h : packet_handler) (ev : program_event) : Prop :=
  match ev with
  | PFrame p => frame_whole align i h p = true
  | PKey c => valid_key c
  | _ => True
  end.

Definition steps_to (m : program) (r : option program) : Prop :=
  exists m', r = Some m' /\ program_ok m' /\ p_iface m' = p_iface m /\ p_handler m' = p_handler m /\
    screen_offset (s_options (p_session m')) <= screen_offset (s_options (p_session m)) + 1.

Lemma resume_ok w outer :
  waiting_ok w -> Forall waiting_ok outer ->
  waiting_ok (resume w outer).1 /\ Forall waiting_ok (resume w outer).2.
Proof.
  intros Hw Ho. destruct w; try by split. destruct Ho as [|w' outer Hw' Ho]; [done|by split].
Qed.

Lemma with_main_ok s w m :
  program_ok m -> running s -> waiting_ok w -> program_ok (with_main (s, w) m).
Proof. intros [_ _ Ho Hs] Hr Hw. destruct (resume_ok w (p_outer m) Hw Ho). by split. Qed.

Lemma goes_on_steps m r : program_ok m -> goes_on (p_session m) r -> steps_to m (r ← r; Some (with_main r m)).
Proof.
  intros Hm (s' & w & -> & H1 & H2 & H3). cbn [mbind option_bind]. eexists. split; [done|].
  split_and!; [by apply with_main_ok|done..].
Qed.

Lemma program_step_ok ev m :
  program_ok m -> event_ok (p_iface m) (p_handler m) ev -> screen_offset (s_options (p_session m)) < 2 ^ 31 - 1 ->
  steps_to m (program_step W align ev m).
Proof.
  intros Hm Hev Ho. assert (steps_to m (Some m)) as Hid by (exists m; split_and!; [done..|lia]).
  pose proof Hm as [Hr Hw Hout Hs]. unfold program_step.
  destruct ev as [p|c| |sig|]; cbn [event_ok] in Hev.
  - destruct (packet_loop_running (p_iface m) (p_handler m) p (p_session m) Hr Hev) as (s & calls & E & H1 & E1).
    destruct (p_main m) eqn:Em; [..|done]; rewrite E; cbn [mbind option_bind]; (eexists; split; [done|]);
      (split_and!; [by split|done|done|cbn; rewrite E1; lia]).
  - destruct (p_main m) eqn:Em; [..|done]; apply goes_on_steps; try done; by apply main_key_goes_on.
  - destruct (p_main m) eqn:Em; [..|done]; apply goes_on_steps; try done; by apply main_turn_goes_on.
  - assert (running (with_foad sig (p_session m))) as Hf by (destruct Hr as [[? ? ?] ? ? ? ?]; by split).
    destruct (p_main m) eqn:Em; [..|done]; (eexists; split; [done|]);
      (split_and!; [by apply with_main_ok|done|done|cbn; lia]).
  - unfold eraseAndLoop. destruct (p_main m) eqn:Em; try done; destruct (negb _); try done;
      (eexists; split; [done|]); (split_and!; [split; [done|done|by constructor|done]|done|done|cbn; lia]).
Qed.

Lemma program_run_ok evs m :
  program_ok m -> Forall (event_ok (p_iface m) (p_handler m)) evs ->
  screen_offset (s_options (p_session m)) + Z.of_nat (length evs) < 2 ^ 31 ->
  exists m', program_run W align evs m = Some m' /\ program_ok m'.
Proof.
  revert m. induction evs as [|ev evs IH]; intros m Hm Hev Hb; [by exists m|].
  apply Forall_cons in Hev as [Hev Hevs]. cbn [program_run length] in *.
  destruct (program_step_ok ev m Hm Hev) as (m1 & -> & H1 & Ei & Eh & Eo); [lia|]. cbn [mbind option_bind].
  apply IH; [done|by rewrite Ei, Eh|lia].
Qed.
End runs.

(** *** Keys one at a time *)
Section keys.
Context (W : world).

Lemma main_keys_over keys s : main_keys W keys Over s = Some (s, Over).
Proof. induction keys as [|c keys IH]; [done|]. cbn [main_keys main_key mbind option_bind]. exact IH. Qed.

Definition line_end (screen : bool) (line : option string) (s : session) : option session :=
  match line with Some str => (if screen then screen_line W else filter_line W) str s | None => Some s end.

(** A prompt fed by key reads the keys that edline reads at once. *)
Lemma main_keys_prompt screen keys e s :
  main_keys W keys (AtPrompt screen e) s =
  r ← edit_loop (w_isprint W) (w_isspace W) (w_COLS W) (len (prompt_text screen) + 2) keys e;
  match r with
  | Editing e => Some (s, AtPrompt screen e)
  | Finished line rest =>
      s ← line_end screen line s;
      '(s, w) ← next_key W (ui_print (with_dontshow 0 s)); main_keys W rest w s
  end.
Proof.
  revert e. induction keys as [|c keys IH]; intros e; [done|]. cbn [main_keys main_key edit_loop].
  destruct (edit_key _ _ c e) as [e1|]; cbn [mbind option_bind]; [|done].
  destruct (edit_view _ _ e1) as [v|]; cbn [mbind option_bind]; [|done].
  destruct (ends_input c); cbn [mbind option_bind]; [|by rewrite IH].
  unfold line_end. destruct (_ || _); [|done]. by destruct (if screen then _ else _).
Qed.

Lemma next_key_loop fuel keys s :
  (length keys < fuel)%nat ->
  (forall s, foad s = 0 -> ui_loop W fuel keys s = fst <$> main_keys W keys AtKey s) ->
  (s ← tick W false s; ui_loop W fuel keys s) = fst <$> ('(s, w) ← next_key W s; main_keys W keys w s).
Proof.
  intros Hf IH. unfold next_key. destruct (tick W false s) as [s1|]; cbn [mbind option_bind]; [|done].
  destruct (Z.eqb_spec (foad s1) 0) as [E|E]; cbn [negb]; [by apply IH|].
  rewrite main_keys_over. destruct fuel as [|fuel]; [lia|]. cbn [ui_loop].
  by rewrite (proj2 (Z.eqb_neq _ _) E).
Qed.

Lemma ui_loop_keys fuel : forall keys s,
  (length keys < fuel)%nat -> foad s = 0 -> ui_loop W fuel keys s = fst <$> main_keys W keys AtKey s.
Proof.
  induction fuel as [|fuel IH]; intros keys s Hf E; [lia|]. cbn [ui_loop]. rewrite E. cbn [Z.eqb negb].
  destruct keys as [|c keys]; [done|]. cbn [length] in Hf. cbn [main_keys main_key].
  assert (forall prompt screen initial k, prompt = prompt_text screen -> (forall str s, k str s = (if screen then screen_line W else filter_line W) str s) ->
    ('(s, rest) ← line_prompt W prompt initial k keys s;
     match rest with None => Some s | Some keys => s ← tick W false s; ui_loop W fuel keys s end) =
    fst <$> main_keys W keys (AtPrompt screen (edit_start initial)) (with_dontshow 1 s)) as Hp.
  { intros prompt screen initial k -> Hk. rewrite main_keys_prompt. unfold line_prompt, prompt_keys, edline.
    destruct (edit_loop _ _ _ _ keys _) as [[line rest|e]|] eqn:Er; cbn [mbind option_bind]; [|done|done].
    destruct (edit_loop_rest _ _ _ _ _ _ _ _ Er) as (pre & -> & _). rewrite length_app in Hf.
    unfold line_end.
    assert (forall r : option session, (s ← r; Some (ui_print (with_dontshow 0 s), Some rest)) ≫=
      (fun '(s, rest) => match rest with None => Some s | Some keys => s ← tick W false s; ui_loop W fuel keys s end) =
      fst <$> (s ← r; '(s, w) ← next_key W (ui_print (with_dontshow 0 s)); main_keys W rest w s)) as H.
    { intros [s1|]; cbn [mbind option_bind]; [|done]. apply next_key_loop; [lia|]. intros; apply IH; [lia|done]. }
    destruct line as [str|]; rewrite ?Hk; apply H. }
  unfold ui_key, start_prompt. destruct (key_is c "f"); [by apply Hp|]. destruct (key_is c "l"); [by apply Hp|].
  destruct (simple_key W c s) as [s1|]; cbn [mbind option_bind]; [|done].
  apply next_key_loop; [lia|]. intros; apply IH; [lia|done].
Qed.
End keys.

(** ** Properties *)
Section whole.
Context (W : world) `{!QSort (w_qsort W)} (align : Z) (x : setup).
Hypothesis proc_readable : forall k, is_Some (procinfo_refresh (w_proc W k)).
Hypothesis isprint_NUL : w_isprint W 0 = false.
Hypothesis wide_enough : 16 <= w_COLS W.
Hypothesis files_nul_free : forall path text, x_files x path = Some text -> nul_free text = true.
Hypothesis args_nul_free : Forall (fun a => nul_free a.2 = true) (x_opts x).
Hypothesis addresses_readable : forall name,
  is_Some (get_addrs_ioctl (x_socket x) (x_hw_addr x name) (x_ifaddrs x) name (replicate 4 0) (replicate 16 0)).

Lemma whole_program :
  match main W x with
  | None => exists m, run_config (x_home x) (x_opts x) (x_files x) m /\ prefix_overflow m
  | Some (inl status) => status = 0 \/ status = 1
  | Some (inr m) => forall evs, Forall (event_ok align (p_iface m) (p_handler m)) evs -> Z.of_nat (length evs) < 2 ^ 31 ->
      exists m', program_run W align evs m = Some m' /\ program_ok m'
  end.
Proof.
  pose proof (main_starts W proc_readable x files_nul_free args_nul_free addresses_readable) as H.
  destruct (main W x) as [[status|m]|]; [done| |done]. destruct H as [Hm Ho]. intros evs Hev Hl.
  apply program_run_ok; try done. by rewrite Ho.
Qed.


(** C5: bytes are conserved by the program as a whole: in every state that a
    run of the program reaches from its start, whatever was captured, pressed
    and repainted (the flows may have been attributed to processes, regrouped,
    sorted or frozen), the flows in the table are distinct and their bytes add
    up, slot by slot, to the totals. *)
Theorem program_conserves_bytes (m : program) (evs : list program_event) (i : Z) :
  main W x = Some (inr m) -> Forall (event_ok align (p_iface m) (p_handler m)) evs ->
  Z.of_nat (length evs) < 2 ^ 31 -> 0 <= i < HISTORY_LENGTH ->
  exists m' l, program_run W align evs m = Some m' /\ flow_list (s_capture (p_session m')) = Some l /\ NoDup l.*1 /\
    u64 (zsum (slot_bytes i ∘ snd <$> l)) = u64 (slot_bytes i (history_totals (s_capture (p_session m')))).
Proof.
  intros Em Hev Hl Hi. pose proof whole_program as H. rewrite Em in H. destruct (H evs Hev Hl) as (m' & Hrun & Hok).
  destruct (ui_ok_conserves (s_capture (p_session m')) (s_display (p_session m')) i) as (l & Hc); [apply Hok|done|].
  by exists m', l.
Qed.
End whole.

(** *** A run: an IPv4 address, a configuration file, and an Ethernet capture *)
Definition demo_setup : setup :=
  Setup 0 (Some "eth0") None [("n"%char, ""); ("f"%char, "tcp")] false demo_files demo_aton demo_aton true
    (fun _ => Some (if_hw_addr demo_iface)) (Some [Ifaddr "eth0" (Some (AF_INET, [2; 0; 0; 0; 10; 0; 0; 1]))]) true 1
    (fun proto => if String.eqb proto "tcp" then Some 6 else None) [(80, "tcp", "http"); (7, "sctp", "echo")] true.

Definition started (d : program) (r : option (Z + program)) : program :=
  match r with Some (inr m) => m | _ => d end.

Lemma started_eq d r :
  match r with Some (inr _) => true | _ => false end = true -> r = Some (inr (started d r)).
Proof. by destruct r as [[]|]. Qed.

Definition demo_program : program :=
  started (Program demo_session demo_iface EthPacket serv_table_create [] Over []) (main demo_world demo_setup).

Lemma demo_main : main demo_world demo_setup = Some (inr demo_program).
Proof. apply started_eq. vm_compute. reflexivity. Qed.

(** A frame, the start of a net filter, a frame inside the prompt, SIGQUIT at
    the prompt of a screen filter, keys for the loop it starts, the signal that
    ends this loop, and the end of the prompt, an invalid pattern. *)
Definition demo_program_events : list program_event :=
  [PFrame demo_frame; PKey (code "f"); PKey (code "u"); PFrame demo_frame; PKey 13; PTurn; PKey (code "l");
   PQuit; PKey (code "n"); PFrame demo_frame; PSignal 2; PKey ERR; PKey (code "("); PKey 13; PFrame demo_frame].

Definition event_fits (m : program) (ev : program_event) : bool :=
  match ev with
  | PFrame p => frame_whole 4 (p_iface m) (p_handler m) p
  | PKey c => bool_decide (valid_key c)
  | _ => true
  end.

Lemma events_fit m evs : forallb (event_fits m) evs = true -> Forall (event_ok 4 (p_iface m) (p_handler m)) evs.
Proof.
  rewrite forallb_forall. intros H. apply Forall_forall. intros ev Hev. apply list_elem_of_In, H in Hev.
  destruct ev; simpl in *; try done. by apply bool_decide_eq_true in Hev.
Qed.

Lemma demo_program_events_ok :
  Forall (event_ok 4 (p_iface demo_program) (p_handler demo_program)) demo_program_events.
Proof. apply events_fit. vm_compute. reflexivity. Qed.

Lemma demo_addresses name :
  is_Some (get_addrs_ioctl true (Some (if_hw_addr demo_iface)) (x_ifaddrs demo_setup) name (replicate 4 0) (replicate 16 0)).
Proof.
  unfold get_addrs_ioctl. cbn [negb x_ifaddrs demo_setup ifaddrs_loop ifa_name got_ip_addr truth andb].
  destruct (String.eqb "eth0" name); by eexists.
Qed.

Lemma demo_files_ok path text : demo_files path = Some text -> nul_free text = true.
Proof. intros [= <-]. vm_compute. reflexivity. Qed.

Lemma demo_args_ok : Forall (fun a : ascii * string => nul_free a.2 = true) (x_opts demo_setup).
Proof. repeat constructor. Qed.


Example program_conserves_bytes_witness :
  exists m' l, program_run demo_world 4 demo_program_events demo_program = Some m' /\
    flow_list (s_capture (p_session m')) = Some l /\ NoDup l.*1 /\
    u64 (zsum (slot_bytes 0 ∘ snd <$> l)) = u64 (slot_bytes 0 (history_totals (s_capture (p_session m')))).
Proof.
  apply (program_conserves_bytes demo_world 4 demo_setup demo_proc_readable eq_refl ltac:(vm_compute; congruence)
    demo_files_ok demo_args_ok demo_addresses demo_program demo_program_events 0 demo_main demo_program_events_ok).
  - vm_compute. reflexivity.
  - split; [discriminate|reflexivity].
Defined.

(** The run ends by itself: the signal is seen at the end of the loop's turn,
    and the last frame is not handled. *)
Example demo_run_ends :
  (fun m => (p_main m, total_sent (history_totals (s_capture (p_session m))), filtercode (s_options (p_session m)))) <$>
    program_run demo_world 4 demo_program_events demo_program = Some (Over, 180, Some "tcpu").
Proof. vm_compute. reflexivity. Qed.

(** At a prompt the display is off: the loop that SIGQUIT starts there erases
    the screen and draws nothing, whatever its keys ask for. *)
Example quit_at_prompt_draws_nothing :
  (fun m => (length (output (p_session m)), length (p_outer m))) <$>
    program_run demo_world 4 [PKey (code "f"); PQuit; PKey (code "n"); PKey (code "b"); PKey (code "j")] demo_program =
  (fun m => (length (output (p_session m)), 1%nat)) <$> program_run demo_world 4 [PKey (code "f")] demo_program.
Proof. vm_compute. reflexivity. Qed.
