(* ===== verification/DataInv.v ===== *)
(** * Invariants of the data (src/ui/, src/entry/iftop.c)

    The flows and the screen change in three places only: a rotation, a repaint
    and a packet.  What these keep is kept by every key, tick, prompt, signal
    and frame of the program. *)

From S2P Require Import Prelude Chain Hash Pool AddrHash History CStr OptionsT ProcInfo Packet Float SortedList Analyse Session EdLine UiKeys ServHash Export Main.

Local Open Scope Z_scope.

(** ** A partial correctness logic for option *)

(** If [r] returns, what it returns satisfies [P]. *)
Definition returns {A} (P : A -> Prop) (r : option A) : Prop := forall a, r = Some a -> P a.

Lemma returns_ret {A} (P : A -> Prop) a : P a -> returns P (Some a).
Proof. by intros Ha b [= <-]. Qed.

Lemma returns_none {A} (P : A -> Prop) : returns P None.
Proof. by intros b. Qed.

Lemma returns_bind {A B} (P : A -> Prop) (Q : B -> Prop) r (k : A -> option B) :
  returns P r -> (forall a, P a -> returns Q (k a)) -> returns Q (r ≫= k).
Proof. intros Hr Hk b (a & Ha & Hb)%bind_Some. by eapply Hk; [apply Hr|]. Qed.

Lemma returns_any {A} (r : option A) : returns (fun _ => True) r.
Proof. done. Qed.

(** A value that does not matter. *)
Lemma returns_skip {A B} (Q : B -> Prop) (r : option A) (k : A -> option B) :
  (forall a, returns Q (k a)) -> returns Q (r ≫= k).
Proof. intros Hk. eapply returns_bind; [apply returns_any|]. intros a _. apply Hk. Qed.

(** ** The interface: what must keep the invariant [P] of the data, for frames
    that are [good] *)
Record data_invariant (W : world) (align : Z) (good : bytes -> Prop) (P : capture -> display -> Prop) : Prop := DataInvariant {
  di_rotate c d : P c d -> returns (fun c' => P c' d) (history_rotate c);
  di_analyse k o procs slot c d : P c d ->
    returns (fun r => P r.1 r.2) (analyse_data (w_qsort W) o (w_names W k) procs slot c d);
  di_packet e h c d p : good p -> P c d -> returns (fun r => P r.1 d) (run_handler align e Some h c p)
}.

Section threads.
Context (W : world) (align : Z) (good : bytes -> Prop) (P : capture -> display -> Prop).
Hypothesis inv : data_invariant W align good P.

Definition session_inv (s : session) : Prop := P (s_capture s) (s_display s).
Definition program_inv (m : program) : Prop := session_inv (p_session m).

Lemma ui_print_inv s : session_inv s -> session_inv (ui_print s).
Proof. unfold session_inv. destruct (ui_print_same s) as (-> & -> & _). exact id. Qed.

Lemma export_print_inv s : session_inv s -> session_inv (Session.export_print s).
Proof. unfold session_inv. destruct (export_print_same s) as (-> & -> & _). exact id. Qed.

Lemma tick_display_inv now rotated print s : session_inv s -> returns session_inv (tick_display W now rotated print s).
Proof.
  intros Hs. unfold tick_display. destruct (_ || _).
  - eapply returns_bind; [by apply (di_analyse _ _ _ _ inv)|]. intros [c d] Hd. apply returns_ret. unfold session_inv. cbn.
    destruct (truth _); [by apply export_print_inv|by apply ui_print_inv].
  - apply returns_ret. unfold session_inv. by destruct (ui_tick_same W print s) as (-> & -> & _).
Qed.

Lemma tick_inv print s : session_inv s -> returns session_inv (tick W print s).
Proof.
  intros Hs. unfold tick, tick_at.
  eapply (returns_bind (fun r => session_inv r.1)).
  { unfold tick_rotate. destruct (SFleb _ _); [|by apply returns_ret].
    eapply returns_bind; [by apply (di_rotate _ _ _ _ inv)|]. intros c Hc. by apply returns_ret. }
  intros [s1 b] H1. eapply (returns_bind session_inv); [|by intros s2 H2; apply tick_display_inv].
  unfold tick_procinfo. destruct (_ && _); [apply returns_skip; intros t|]; by apply returns_ret.
Qed.

Lemma showhelp_inv m s : session_inv s -> returns session_inv (showhelp W m s).
Proof. intros Hs. by apply tick_inv. Qed.

Hint Resolve tick_inv showhelp_inv ui_print_inv : data_inv.
Ltac keep_inv :=
  repeat match goal with
  | |- returns _ (if ?b then _ else _) => destruct b
  | |- returns _ (Some _) => apply returns_ret
  | |- returns session_inv (_ ≫= _) => eapply (returns_bind session_inv); [|intros ? ?]
  | |- session_inv (ui_print _) => apply ui_print_inv
  | |- _ => solve [by auto with data_inv]
  end.

Lemma simple_key_inv c s : session_inv s -> returns session_inv (simple_key W c s).
Proof.
  intros Hs. assert (forall f s, session_inv s -> session_inv (upd f s)) as Hu by done.
  assert (forall m f s, session_inv s -> returns session_inv (showhelp W m (upd f s))) as Hm
    by (intros; by apply showhelp_inv).
  assert (forall p f s, session_inv s -> returns session_inv (tick W p (upd f s))) as Ht
    by (intros; by apply tick_inv).
  assert (forall get set off on, returns session_inv (switch W get set off on s)) as Hw
    by (intros; unfold switch; keep_inv).
  assert (forall f, returns session_inv (set_ports W f s)) as Hp
    by (intros; unfold set_ports, showportstatus; keep_inv).
  unfold simple_key, bar_key, line_key, scroll_up, sort_by. keep_inv.
Qed.

Lemma next_key_inv s : session_inv s -> returns (fun r => session_inv r.1) (next_key W s).
Proof. intros Hs. unfold next_key. eapply returns_bind; [by apply tick_inv|]. intros s' H. by apply returns_ret. Qed.

Lemma typed_line_inv screen line s :
  session_inv s -> returns session_inv ((if screen : bool then screen_line W else filter_line W) line s).
Proof.
  intros Hs. destruct screen.
  - unfold screen_line, screen_filter_set. set (s1 := match screenfilter _ with Some _ => _ | None => s end).
    assert (session_inv s1) as H1 by (unfold s1; by destruct (screenfilter _)).
    destruct (w_regcomp W line); [by apply returns_ret|by apply showhelp_inv].
  - unfold filter_line. destruct (set_filter_code _ _ _); by apply showhelp_inv.
Qed.

Lemma main_key_inv c w s : session_inv s -> returns (fun r => session_inv r.1) (main_key W c w s).
Proof.
  intros Hs. destruct w; cbn [main_key]; try by apply returns_ret.
  - repeat (destruct (key_is c _); [by apply returns_ret|]).
    eapply returns_bind; [by apply simple_key_inv|]. apply next_key_inv.
  - apply returns_skip. intros e1. apply returns_skip. intros _. destruct (ends_input c); [|by apply returns_ret].
    eapply (returns_bind session_inv).
    + destruct (_ || _); [by apply typed_line_inv|by apply returns_ret].
    + intros s1 H1. by apply next_key_inv, ui_print_inv.
Qed.

Lemma main_turn_inv w s : session_inv s -> returns (fun r => session_inv r.1) (main_turn W w s).
Proof.
  intros Hs. destruct w; cbn [main_turn]; try by apply returns_ret.
  eapply (returns_bind (fun r => session_inv r.1)).
  - unfold export_turn. repeat (destruct (_ : bool); [by apply returns_ret|]).
    eapply returns_bind; [by apply tick_inv|]. intros s1 H1. by apply returns_ret.
  - intros [s1 more] H1. by apply returns_ret.
Qed.

Lemma packet_loop_inv i h p s : good p -> session_inv s -> returns (fun r => session_inv r.1) (packet_loop W align i h p s).
Proof.
  intros Hp Hs. unfold packet_loop. eapply (returns_bind session_inv).
  - destruct h; try by apply returns_ret. apply returns_skip. intros _. by apply tick_inv.
  - intros s1 H1. eapply returns_bind; [by apply (di_packet _ _ _ _ inv)|]. intros [c calls] Hc. by apply returns_ret.
Qed.

Definition event_good (ev : program_event) : Prop := match ev with PFrame p => good p | _ => True end.

Lemma program_step_inv ev m : event_good ev -> program_inv m -> returns program_inv (program_step W align ev m).
Proof.
  intros Hev Hm. unfold program_step.
  assert (forall r, returns (fun r => session_inv r.1) r -> returns program_inv (r ← r; Some (with_main r m))) as Hw.
  { intros r Hr. eapply returns_bind; [exact Hr|]. intros [s w] Hs. by apply returns_ret. }
  destruct (p_main m) eqn:Em; try (by apply returns_ret); destruct ev as [p|c| |sig|]; try (by apply returns_ret);
    try (by apply Hw, main_key_inv); try (by apply Hw, main_turn_inv);
    try (eapply returns_bind; [by apply packet_loop_inv|]; intros [s calls] Hs; by apply returns_ret);
    apply returns_ret; unfold eraseAndLoop; rewrite Em; [by destruct (negb _)..|exact Hm].
Qed.

(** The flows and the screen are empty at the start. *)
Lemma main_inv x m : P cap_init display_init -> main W x = Some (inr m) -> program_inv m.
Proof.
  intros Hn. unfold main. intros ([status|o] & _ & H)%bind_Some; [done|]. apply bind_Some in H as (addrs & _ & H).
  destruct (packet_init _ _ _ _) as [status|[i h]]; [done|]. unfold main_session in H.
  set (s0 := next_read _) in H. assert (session_inv s0) as H0 by exact Hn.
  apply bind_Some in H as ([[s services] w] & Hs & H).
  assert (session_inv s) as H1.
  { destruct (truth _).
    - unfold begin_export, export_init in Hs. apply bind_Some in Hs as ([d sv] & Hd & [= <- _ _]).
      by apply bind_Some in Hd as (sv' & _ & [= <- _]).
    - unfold begin_screen in Hs. apply bind_Some in Hs as (sv & _ & Hs). apply bind_Some in Hs as (s1 & H1 & [= <- _ _]).
      by eapply showhelp_inv. }
  destruct (x_thread x); by simplify_eq.
Qed.

Lemma program_run_inv evs : forall m, Forall event_good evs -> program_inv m -> returns program_inv (program_run W align evs m).
Proof.
  induction evs as [|ev evs IH]; intros m Hevs Hm; cbn [program_run]; [by apply returns_ret|].
  apply Forall_cons in Hevs as [Hev Hevs]. eapply returns_bind; [by apply program_step_inv|]. intros m1 H1. by apply IH.
Qed.
End threads.
