(* ===== verification/LineNames.v ===== *)
(** * Host names in the lines (src/ui/ui.c cached_hostname)

    make_screen_list asks for the name of a line's source or destination and
    keeps it in the line, which later sweeps reuse.  Whatever may be said of an
    address and the names that it is given holds of the names that the lines
    keep, from one sweep to the next, whatever keys are pressed and packets
    seen in between. *)

From S2P Require Import Prelude Chain Hash Pool AddrHash History CStr OptionsT ProcInfo Packet Float SortedList Analyse Session EdLine UiKeys ServHash Export Main DataInv.

Local Open Scope Z_scope.

Section named.
(** [Q af addr name]: the name may be given to the address. *)
Context (Q : Z -> list Z -> string -> Prop).

Definition line_named (l : host_pair_line) : Prop :=
  let named a := Q (address_family (l_ap l)) a (cached_hostname l) in
  cached_hostname l = "" \/ named (src (l_ap l)) \/ named (dst (l_ap l)).

Definition lines_named (ls : gmap positive host_pair_line) : Prop := map_Forall (fun _ => line_named) ls.
Definition display_named (d : display) : Prop := lines_named (lines d).

(** ** A sweep *)
Lemma new_line_named ap : line_named (new_line ap).
Proof. by left. Qed.

Lemma same_name_named l l' : line_named l -> l_ap l' = l_ap l -> cached_hostname l' = cached_hostname l -> line_named l'.
Proof. unfold line_named. by intros ? -> ->. Qed.

Lemma map_lines_named p t f fuel : forall node ls,
  (forall l, line_named l -> returns line_named (f l)) -> lines_named ls ->
  returns (fun r => lines_named r.1) (map_lines fuel p t f node ls).
Proof.
  induction fuel as [|fuel IH]; intros node ls Hf Hls; [apply returns_none|]. cbn [map_lines].
  apply returns_skip. intros [st [n|]]; destruct st; try by apply returns_ret.
  apply returns_skip. intros nd. destruct (ls !! n_record nd) as [l|] eqn:E; [|apply returns_none].
  cbn [mbind option_bind]. eapply returns_bind; [by eapply Hf, Hls|]. intros l' Hl'.
  eapply returns_bind; [apply IH; [done|by apply map_Forall_insert_2]|]. intros [ls' rest] H. by apply returns_ret.
Qed.

Lemma free_lines_named rs : forall ls, lines_named ls -> returns lines_named (free_lines ls rs).
Proof.
  induction rs as [|r rs IH]; intros ls Hls; [by apply returns_ret|]. cbn [free_lines].
  apply returns_skip. intros _. by apply IH, map_Forall_delete.
Qed.

Lemma screen_reset_named p d : display_named d -> returns (fun r => display_named r.2) (screen_reset p d).
Proof.
  intros Hd. unfold screen_reset, screen_list_clear.
  eapply (returns_bind display_named); [apply returns_skip; intros l; by apply returns_ret|].
  intros d' Hd'. apply returns_skip. intros [[p' t] rs].
  eapply returns_bind; [by apply free_lines_named|]. intros ls Hls. by apply returns_ret.
Qed.

Lemma screen_hash_clear_named p d : display_named d -> returns display_named (screen_hash_clear p d).
Proof.
  intros Hd. unfold screen_hash_clear. eapply returns_bind.
  - apply map_lines_named; [|done]. intros l Hl. apply returns_ret. by eapply same_name_named.
  - intros [ls rest] Hls. by apply returns_ret.
Qed.

Lemma line_of_named p d ap : display_named d -> returns (fun r => display_named r.1.2) (line_of p d ap).
Proof.
  intros Hd. unfold line_of. apply returns_skip. intros [st r].
  assert (returns (fun r => display_named r.1.2)
    ('(_, p, t) ← addr_hash_insert p (screen_hash d) ap (lines_brk d);
     Some (p, Display t (<[lines_brk d := new_line ap]> (lines d)) (Pos.succ (lines_brk d)) (screen_list d) (totals d)
                (peaksent d) (peakrecv d) (peaktotal d), lines_brk d))) as Hnew.
  { apply returns_skip. intros [[st' p'] t]. apply returns_ret. apply map_Forall_insert_2; [apply new_line_named|done]. }
  destruct st, r; try done. by apply returns_ret.
Qed.

Lemma attribute_names o procs key h l :
  l_ap (attribute o procs key h l).2 = l_ap l /\ cached_hostname (attribute o procs key h l).2 = cached_hostname l.
Proof.
  unfold attribute. destruct (_ && _); [|done]. destruct (truth _); [done|]. by destruct (flow_proc _ _) as [[]|].
Qed.

Lemma add_flow_named idx h l : line_named l -> returns line_named (add_flow idx h l).
Proof.
  intros Hl. unfold add_flow. apply returns_skip. intros [r s]. apply returns_ret. by eapply same_name_named.
Qed.

Lemma analyse_flow_named o procs idx n c d :
  display_named d -> returns (fun r => display_named r.2) (analyse_flow o procs idx n c d).
Proof.
  intros Hd. unfold analyse_flow. apply returns_skip. intros nd. apply returns_skip. intros h.
  eapply returns_bind; [by apply line_of_named|]. intros [[p d'] r] Hd'. cbn [fst snd] in Hd'.
  destruct (lines d' !! r) as [l|] eqn:E; [|apply returns_none]. cbn [mbind option_bind].
  pose proof (attribute_names o procs (n_key nd) h l) as [Ea Ec]. destruct (attribute _ _ _ _ _) as [h' l'].
  eapply returns_bind; [apply add_flow_named; by eapply same_name_named; [eapply Hd'|..]|].
  intros l2 Hl2. apply returns_ret. by apply map_Forall_insert_2.
Qed.

Lemma analyse_loop_named o procs idx fuel : forall node c d,
  display_named d -> returns (fun r => display_named r.2) (analyse_loop fuel o procs idx node c d).
Proof.
  induction fuel as [|fuel IH]; intros node c d Hd; [apply returns_none|]. cbn [analyse_loop].
  apply returns_skip. intros [st [n|]]; destruct st; try by apply returns_ret.
  eapply returns_bind; [by apply analyse_flow_named|]. intros [c' d'] Hd'. by apply IH.
Qed.

(** The names that a sweep is given. *)
Definition gives (names : Z -> list Z -> option string) : Prop :=
  forall af addr, returns (Q af addr) (names af addr).

Lemma name_line_named o names l : gives names -> line_named l -> line_named (name_line o names l).
Proof.
  intros Hn Hl. unfold name_line. destruct (names _ _) as [s|] eqn:E; [|done]. apply Hn in E.
  right. destruct (sort o =? OPTION_SORT_SRC); [by left|by right].
Qed.

Lemma name_lines_named o names items : forall ls,
  gives names -> lines_named ls -> returns lines_named (name_lines o names items ls).
Proof.
  induction items as [|r items IH]; intros ls Hn Hls; [by apply returns_ret|]. cbn [name_lines].
  destruct (ls !! r) as [l|] eqn:E; [|apply returns_none]. cbn [mbind option_bind].
  apply IH; [done|]. apply map_Forall_insert_2; [|done]. apply name_line_named; [done|]. by eapply Hls.
Qed.

Lemma make_screen_list_named qsort o names slot hlen p d :
  gives names -> display_named d -> returns display_named (make_screen_list qsort o names slot hlen p d).
Proof.
  intros Hn Hd. unfold make_screen_list. apply returns_skip. intros inv.
  eapply returns_bind; [apply map_lines_named; [|exact Hd]|].
  { intros l Hl. apply returns_ret. by eapply same_name_named. }
  intros [ls items] Hls. cbn [fst] in Hls. destruct (truth _); [by apply returns_ret|].
  eapply (returns_bind lines_named); [destruct (_ || _); [by apply name_lines_named|by apply returns_ret]|].
  intros ls' Hls'. apply returns_skip. intros [sl bl]. by apply returns_ret.
Qed.

Lemma calculate_totals_named idx slot c d : display_named d -> returns display_named (calculate_totals idx slot c d).
Proof.
  intros Hd. unfold calculate_totals. apply returns_skip. intros [[ps pr] pt]. apply returns_skip. intros [r s].
  apply returns_skip. intros r'. apply returns_skip. intros s'. by apply returns_ret.
Qed.

Lemma analyse_data_named qsort o names procs slot c d :
  gives names -> display_named d -> returns (fun r => display_named r.2) (analyse_data qsort o names procs slot c d).
Proof.
  intros Hn Hd. unfold analyse_data. destruct (_ =? _); [by apply returns_ret|].
  assert (display_named (zero_totals d)) as Hz by done.
  eapply (returns_bind (fun r => display_named r.2)).
  { destruct (truth _); [|by apply screen_reset_named]. eapply returns_bind; [by apply screen_hash_clear_named|].
    intros d' Hd'. by apply returns_ret. }
  intros [p d1] H1. eapply returns_bind; [by apply analyse_loop_named|]. intros [c' d2] H2.
  eapply returns_bind; [by apply make_screen_list_named|]. intros d3 H3.
  eapply returns_bind; [by apply calculate_totals_named|]. intros d4 H4. by apply returns_ret.
Qed.

(** ** The program *)
Definition program_named (m : program) : Prop := display_named (s_display (p_session m)).

Context (W : world) (align : Z).
Hypothesis names_given : forall k, gives (w_names W k).

Lemma named_data : data_invariant W align (fun _ => True) (fun _ => display_named).
Proof.
  split.
  - intros c d Hd c' _. exact Hd.
  - intros k o procs slot c d Hd. by apply analyse_data_named.
  - intros e h c d p _ Hd r _. exact Hd.
Qed.

Lemma program_step_named ev m : program_named m -> returns program_named (program_step W align ev m).
Proof. intros Hm. apply (program_step_inv _ _ _ _ named_data); [by destruct ev|exact Hm]. Qed.

(** No line has a name at the start. *)
Lemma main_named x m : main W x = Some (inr m) -> program_named m.
Proof. apply (main_inv _ _ _ _ named_data). apply map_Forall_empty. Qed.
End named.
