(* ===== verification/Pairs.v ===== *)
(** * The address pairs of the flows (src/entry/iftop.c assign_addr_pair)

    The keys of the flow table and the pairs of the lines on the screen are made
    from packets: two addresses of 16 bytes and the family of the packet, or,
    for a packet that none of the cases covers, the pair of zeros.  They stay so
    through rotations and repaints, which only hide parts of a pair. *)

From S2P Require Import Prelude Bytes Chain Hash Pool AddrHash History CStr OptionsT ProcInfo Packet Float SortedList Analyse Session Export Main DataInv.

Local Open Scope Z_scope.

(** A value of type [struct in6_addr]. *)
Definition in6_addr (a : list Z) : Prop := length a = 16%nat /\ bytes_ok a.

(** What a packet is accounted to. *)
Definition flow_pair (ap : addr_pair) : Prop :=
  in6_addr (src ap) /\ in6_addr (dst ap) /\
  (known_family (address_family ap) \/ src ap = zeros16 /\ dst ap = zeros16).

Lemma zeros_in6 : in6_addr zeros16.
Proof. split; [done|]. apply Forall_replicate. unfold is_byte. lia. Qed.

Lemma zero_flow_pair : flow_pair zero_pair.
Proof. split_and!; [apply zeros_in6..|by right]. Qed.

Lemma aggregate_flow_pair o ap : flow_pair ap -> flow_pair (aggregate o ap).
Proof.
  intros (Hs & Hd & Hf). pose proof zeros_in6. unfold aggregate.
  split_and!; cbn [src dst address_family]; [by destruct (truth _)..|].
  destruct Hf as [Hf|[-> ->]]; [by left|right]. by destruct (truth (aggregate_src o)), (truth (aggregate_dest o)).
Qed.

(** ** Packets *)
Lemma rdn_bytes p n : forall i l, bytes_ok p -> rdn p i n = Some l -> length l = n /\ bytes_ok l.
Proof.
  induction n as [|n IH]; intros i l Hp; cbn [rdn]; [intros [= <-]; split; [done|by constructor]|].
  intros (a & Ha & H)%bind_Some. apply bind_Some in H as (l' & Hl & [= <-]).
  destruct (IH _ _ Hp Hl) as [<- Hb]. split; [done|]. apply bytes_ok_cons. split; [|done].
  apply lookup_z_Some in Ha as [_ Ha]. by apply (Forall_lookup_1 _ _ _ _ Hp Ha).
Qed.

Lemma pad16_in6 a : length a = 4%nat -> bytes_ok a -> in6_addr (pad16 a).
Proof.
  intros Hl Hb. unfold pad16. split; [by rewrite length_app, Hl|]. apply Forall_app. split; [done|].
  apply Forall_replicate. unfold is_byte. lia.
Qed.

(** The IP packet is the end of the frame. *)
Definition ends (p : bytes) (r : option (bytes * Z)) : Prop := match r with Some (ip, _) => exists n, ip = drop n p | None => True end.

Lemma ends_advance p n dir : ends p (Some (advance p n, dir)).
Proof. by eexists. Qed.

Lemma llc_packet_ends q n p dir : p = advance q n -> returns (ends q) (llc_packet p dir).
Proof.
  intros ->. unfold llc_packet. repeat first [apply returns_skip; intros ?|destruct (negb _)|apply returns_ret; done].
  apply returns_ret. destruct (_ || _); [|done]. unfold advance. rewrite drop_drop. by eexists.
Qed.

Lemma frame_packet_ends align i h p : returns (ends p) (frame_packet align i h p).
Proof.
  destruct h; cbn [frame_packet].
  - apply returns_skip. intros t. eapply (returns_bind (fun r => exists n, r.2 = drop n p)).
    { destruct (_ =? _); [apply returns_skip; intros t'|]; apply returns_ret; by eexists. }
    intros [t' ip] [n Hn]. cbn [snd] in Hn. subst ip. destruct (_ || _); [|by apply returns_ret].
    do 2 (apply returns_skip; intros ?). apply returns_ret. by eexists.
  - apply returns_skip. intros n. apply returns_ret, ends_advance.
  - apply returns_ret. by exists 0%nat.
  - apply returns_ret, ends_advance.
  - do 2 (apply returns_skip; intros ?). apply returns_ret, ends_advance.
  - do 4 (apply returns_skip; intros ?). destruct (_ =? _); [|by apply returns_ret]. by eapply llc_packet_ends.
  - destruct (_ <? _); [by apply returns_ret|]. apply returns_skip. intros b.
    destruct (_ || _); [by apply returns_ret|]. apply returns_skip. intros t. apply returns_ret.
    destruct (_ || _); [apply ends_advance|done].
  - apply returns_skip. intros t. apply returns_ret, ends_advance.
Qed.


Lemma frame_packet_bytes align i h p :
  bytes_ok p -> returns (fun r => match r with Some (ip, _) => bytes_ok ip | None => True end) (frame_packet align i h p).
Proof.
  intros Hp r Hr. pose proof (frame_packet_ends align i h p r Hr) as H. destruct r as [[ip dir]|]; [|done].
  destruct H as [n ->]. by apply Forall_drop.
Qed.

Lemma assign_flow_pair p flip : bytes_ok p -> returns flow_pair (assign_addr_pair p flip).
Proof.
  intros Hp. unfold assign_addr_pair. apply returns_skip. intros v.
  destruct (v =? 4); [|destruct (v =? 6); [|by apply returns_ret, zero_flow_pair]]; apply returns_skip; intros proto.
  - apply returns_skip. intros hl. apply returns_skip. intros [sp dp].
    eapply returns_bind; [intros s Hs; exact (rdn_bytes _ _ _ _ Hp Hs)|]. intros s [Hs1 Hs2].
    eapply returns_bind; [intros d Hd; exact (rdn_bytes _ _ _ _ Hp Hd)|]. intros d [Hd1 Hd2].
    apply returns_ret. destruct flip; split_and!; cbn; try (by apply pad16_in6); by left; left.
  - apply returns_skip. intros [sp dp].
    eapply returns_bind; [intros s Hs; exact (rdn_bytes _ _ _ _ Hp Hs)|]. intros s Hs.
    eapply returns_bind; [intros d Hd; exact (rdn_bytes _ _ _ _ Hp Hd)|]. intros d Hd.
    apply returns_ret. destruct flip; split_and!; cbn; try done; by left; right.
Qed.

Definition verdict_pair (v : option (addr_pair * bool)) : Prop := match v with Some (ap, _) => flow_pair ap | None => True end.

Lemma choose_flow_pair p flip d : bytes_ok p -> returns verdict_pair (choose p flip d).
Proof.
  intros Hp. unfold choose. eapply returns_bind; [by apply assign_flow_pair|]. intros ap Hap. by apply returns_ret.
Qed.

Lemma direction_flow_pair e p v hw : bytes_ok p -> returns verdict_pair (direction e p v hw).
Proof.
  intros Hp. pose proof zero_flow_pair.
  assert (forall flip d, returns verdict_pair (choose p flip d)) as Hc by (intros; by apply choose_flow_pair).
  unfold direction, direction_unfiltered, direction_filter4, direction_filter6.
  repeat first [apply Hc|done|apply returns_skip; intros ?|apply returns_ret; done|case_match].
Qed.

Lemma finish_flow_pair e p v ap : flow_pair ap -> returns (fun r => flow_pair r.1) (finish_pair e p v ap).
Proof.
  intros Hap. unfold finish_pair.
  repeat first [apply returns_ret; exact Hap|apply returns_skip; intros ?|case_match].
Qed.

(** ** The nodes of the pool *)
Definition keys_ok (h : gmap positive node_key_pair) : Prop := map_Forall (fun _ nd => flow_pair (n_key nd)) h.
Definition pool_pairs (p : node_pool) : Prop := keys_ok (p_cells p).

Lemma keys_insert h x nd : keys_ok h -> flow_pair (n_key nd) -> keys_ok (<[x := nd]> h).
Proof. intros Hh Hn. by apply map_Forall_insert_2. Qed.

Lemma chain_items_pairs n base : forall i h, keys_ok h -> keys_ok (chain_items blank POOL_BLOCK_SIZE n base i h).
Proof.
  induction n as [|n IH]; intros i h Hh; cbn [chain_items]; [done|]. apply IH, keys_insert; [done|apply zero_flow_pair].
Qed.

Lemma pool_alloc_pairs p : pool_pairs p -> returns (fun r => pool_pairs r.2) (pool_alloc p).
Proof.
  intros Hp. unfold pool_alloc, item_alloc. destruct (free_list p).
  - apply returns_skip. intros nd. by apply returns_ret.
  - apply returns_ret. unfold pool_pairs. cbn [snd p_cells]. apply chain_items_pairs, keys_insert; [done|apply zero_flow_pair].
Qed.

Lemma pool_free_pairs p n : pool_pairs p -> returns pool_pairs (pool_free p n).
Proof.
  intros Hp. unfold pool_free, item_free. destruct (p_cells p !! n) as [nd|] eqn:E; [|apply returns_none].
  apply returns_ret. apply keys_insert; [done|]. exact (Hp n nd E).
Qed.

Lemma insert_pairs p t key rec : flow_pair key -> pool_pairs p -> returns (fun r => pool_pairs r.1.2) (addr_hash_insert p t key rec).
Proof.
  intros Hk Hp. unfold addr_hash_insert. eapply returns_bind; [by apply pool_alloc_pairs|]. intros [n p'] Hp'.
  do 2 (apply returns_skip; intros ?). apply returns_ret. by apply keys_insert.
Qed.

Lemma splice_pairs t p bucket prev n : pool_pairs p -> returns (fun r => keys_ok r.1) (splice t (p_mem p) bucket prev n).
Proof.
  intros Hp. unfold splice. do 2 (apply returns_skip; intros ?).
  eapply (returns_bind (fun r => keys_ok r.1)); [|intros [h p'] Hh; apply returns_skip; intros ?; by apply returns_ret].
  unfold unlink. destruct prev as [y|]; [|by apply returns_ret].
  change (nodes (p_mem p)) with (p_cells p). destruct (p_cells p !! y) as [nd|] eqn:E; [|apply returns_none].
  apply returns_ret. apply keys_insert; [done|]. exact (Hp y nd E).
Qed.

Lemma delete_node_pairs p t n : pool_pairs p -> returns (fun r => pool_pairs r.1) (addr_hash_delete_node p t n).
Proof.
  intros Hp. unfold addr_hash_delete_node. do 2 (apply returns_skip; intros ?). apply returns_skip.
  intros [prev [m|]]; [|by apply returns_ret]. eapply returns_bind; [by apply splice_pairs|]. intros [h tbl] Hh.
  eapply returns_bind; [by apply pool_free_pairs|]. intros p' Hp'. by apply returns_ret.
Qed.

Lemma free_chain_pairs fuel : forall p node, pool_pairs p -> returns (fun r => pool_pairs r.1) (addr_free_chain fuel p node).
Proof.
  induction fuel as [|fuel IH]; intros p node Hp; [apply returns_none|]. cbn [addr_free_chain].
  destruct node as [n|]; [|by apply returns_ret]. apply returns_skip. intros nd.
  eapply returns_bind; [by apply pool_free_pairs|]. intros p1 H1. eapply returns_bind; [by apply IH|].
  intros [p2 rs] H2. by apply returns_ret.
Qed.

Lemma free_buckets_pairs fuel tbl : forall p, pool_pairs p -> returns (fun r => pool_pairs r.1) (addr_free_buckets fuel p tbl).
Proof.
  induction tbl as [|head tbl IH]; intros p Hp; cbn [addr_free_buckets]; [by apply returns_ret|].
  eapply returns_bind; [by apply free_chain_pairs|]. intros [p1 rs] H1. eapply returns_bind; [by apply IH|].
  intros [p2 rs'] H2. by apply returns_ret.
Qed.

(** ** The flows *)
Definition capture_pairs (c : capture) : Prop := pool_pairs (nkp_pool c).

Lemma packet_seen_pairs c ap proc len b d : flow_pair ap -> capture_pairs c -> returns capture_pairs (packet_seen c ap proc len b d).
Proof.
  intros Hap Hc. unfold packet_seen. eapply (returns_bind (fun r => capture_pairs r.2)).
  - unfold flow_record. apply returns_skip. intros [st r].
    assert (returns (fun r => capture_pairs r.2)
      ('(hist, hp) ← history_create (hist_pool c);
       '(_, p, t) ← addr_hash_insert (nkp_pool c) (history c) ap hist;
       h ← get_hist hp hist;
       Some (hist, with_table_pool (with_hist_pool c (set_hist hp hist (set_proc h proc))) p t))) as Hnew.
    { apply returns_skip. intros [hist hp]. eapply returns_bind; [by apply insert_pairs|].
      intros [[st' p] t] Hp. apply returns_skip. intros h. by apply returns_ret. }
    destruct st, r; try done. by apply returns_ret.
  - intros [hist c'] Hc'. unfold account. do 3 (apply returns_skip; intros ?). by apply returns_ret.
Qed.

Lemma handle_ip_packet_pairs e c p dir : bytes_ok p -> capture_pairs c ->
  returns (fun r => capture_pairs r.1) (handle_ip_packet e c p dir).
Proof.
  intros Hp Hc. unfold handle_ip_packet. apply returns_skip. intros v.
  eapply returns_bind; [by apply direction_flow_pair|]. intros [[ap d]|] Hv; [|by apply returns_ret].
  apply returns_skip. intros []; [by apply returns_ret|]. eapply returns_bind; [by apply finish_flow_pair|].
  intros [ap' calls] Hap. do 2 (apply returns_skip; intros ?). eapply returns_bind; [by apply packet_seen_pairs|].
  intros c' Hc'. by apply returns_ret.
Qed.

Lemma rotate_loop_pairs fuel : forall c node, capture_pairs c -> returns capture_pairs (rotate_loop fuel c node).
Proof.
  induction fuel as [|fuel IH]; intros c node Hc; [apply returns_none|]. cbn [rotate_loop].
  destruct node as [n|]; [|by apply returns_ret]. do 2 (apply returns_skip; intros ?). apply returns_skip. intros [st next].
  destruct (_ =? _).
  - eapply returns_bind; [by apply delete_node_pairs|]. intros [p t] Hp. apply returns_skip. intros hp. by apply IH.
  - apply returns_skip. intros h. by apply IH.
Qed.

Lemma history_rotate_pairs c : capture_pairs c -> returns capture_pairs (history_rotate c).
Proof.
  intros Hc. unfold history_rotate. apply returns_skip. intros [st node].
  eapply returns_bind; [by apply rotate_loop_pairs|]. intros c' Hc'. apply returns_skip. intros tot. by apply returns_ret.
Qed.

(** ** The lines *)
Definition lines_pairs (ls : gmap positive host_pair_line) : Prop := map_Forall (fun _ l => flow_pair (l_ap l)) ls.

Lemma lines_insert ls r l l' :
  lines_pairs ls -> ls !! r = Some l -> l_ap l' = l_ap l -> lines_pairs (<[r := l']> ls).
Proof. intros Hls E El. apply map_Forall_insert_2; [|done]. rewrite El. exact (Hls r l E). Qed.

Lemma map_lines_pairs p t f fuel : forall node ls,
  (forall l, returns (fun l' => l_ap l' = l_ap l) (f l)) -> lines_pairs ls ->
  returns (fun r => lines_pairs r.1) (map_lines fuel p t f node ls).
Proof.
  induction fuel as [|fuel IH]; intros node ls Hf Hls; [apply returns_none|]. cbn [map_lines].
  apply returns_skip. intros [st [n|]]; destruct st; try by apply returns_ret.
  apply returns_skip. intros nd. destruct (ls !! n_record nd) as [l|] eqn:E; [|apply returns_none].
  cbn [mbind option_bind]. eapply returns_bind; [apply Hf|]. intros l' Hl'.
  eapply returns_bind; [apply IH; [done|by eapply lines_insert]|]. intros [ls' rest] H. by apply returns_ret.
Qed.

Lemma free_lines_pairs rs : forall ls, lines_pairs ls -> returns lines_pairs (free_lines ls rs).
Proof.
  induction rs as [|r rs IH]; intros ls Hls; [by apply returns_ret|]. cbn [free_lines].
  apply returns_skip. intros _. by apply IH, map_Forall_delete.
Qed.

Lemma screen_reset_pairs p d : pool_pairs p -> lines_pairs (lines d) ->
  returns (fun r => pool_pairs r.1 /\ lines_pairs (lines r.2)) (screen_reset p d).
Proof.
  intros Hp Hd. unfold screen_reset, screen_list_clear.
  eapply (returns_bind (fun d => lines_pairs (lines d))); [apply returns_skip; intros l; by apply returns_ret|].
  intros d' Hd'. eapply (returns_bind (fun r => pool_pairs r.1.1)).
  { unfold addr_hash_delete_all_free. eapply returns_bind; [by apply free_buckets_pairs|].
    intros [p' rs] Hp'. by apply returns_ret. }
  intros [[p' t] rs] Hp'. eapply returns_bind; [by apply free_lines_pairs|]. intros ls Hls. by apply returns_ret.
Qed.

Lemma line_of_pairs p d ap : flow_pair ap -> pool_pairs p -> lines_pairs (lines d) ->
  returns (fun r => pool_pairs r.1.1 /\ lines_pairs (lines r.1.2)) (line_of p d ap).
Proof.
  intros Hap Hp Hd. unfold line_of. apply returns_skip. intros [st r].
  assert (returns (fun r => pool_pairs r.1.1 /\ lines_pairs (lines r.1.2))
    ('(_, p, t) ← addr_hash_insert p (screen_hash d) ap (lines_brk d);
     Some (p, Display t (<[lines_brk d := new_line ap]> (lines d)) (Pos.succ (lines_brk d)) (screen_list d) (totals d)
                (peaksent d) (peakrecv d) (peaktotal d), lines_brk d))) as Hnew.
  { eapply returns_bind; [by apply insert_pairs|]. intros [[st' p'] t] Hp'. apply returns_ret. split; [done|].
    by apply map_Forall_insert_2. }
  destruct st, r; try done. by apply returns_ret.
Qed.

Lemma attribute_pair o procs key h l : l_ap (attribute o procs key h l).2 = l_ap l.
Proof.
  unfold attribute. destruct (_ && _); [|done]. destruct (truth _); [done|]. by destruct (flow_proc _ _) as [[]|].
Qed.

Definition data_pairs (c : capture) (d : display) : Prop := capture_pairs c /\ lines_pairs (lines d).

Lemma analyse_flow_pairs o procs idx n c d :
  data_pairs c d -> returns (fun r => data_pairs r.1 r.2) (analyse_flow o procs idx n c d).
Proof.
  intros [Hc Hd]. unfold analyse_flow. change (nodes (p_mem (nkp_pool c))) with (p_cells (nkp_pool c)).
  destruct (p_cells (nkp_pool c) !! n) as [nd|] eqn:En; [|apply returns_none]. cbn [mbind option_bind].
  apply returns_skip. intros h.
  eapply returns_bind; [apply line_of_pairs; [apply aggregate_flow_pair; exact (Hc n nd En)|done..]|].
  intros [[p d'] r] [Hp Hd']. cbn [fst snd] in Hp, Hd'.
  destruct (lines d' !! r) as [l|] eqn:E; [|apply returns_none]. cbn [mbind option_bind].
  pose proof (attribute_pair o procs (n_key nd) h l) as Ea. destruct (attribute _ _ _ _ _) as [h' l']. cbn [snd] in Ea.
  eapply (returns_bind (fun l2 => l_ap l2 = l_ap l)).
  { unfold add_flow. apply returns_skip. intros [r' s']. by apply returns_ret. }
  intros l2 Hl2. apply returns_ret. split; [done|]. by eapply lines_insert.
Qed.

Lemma analyse_loop_pairs o procs idx fuel : forall node c d,
  data_pairs c d -> returns (fun r => data_pairs r.1 r.2) (analyse_loop fuel o procs idx node c d).
Proof.
  induction fuel as [|fuel IH]; intros node c d Hd; [apply returns_none|]. cbn [analyse_loop].
  apply returns_skip. intros [st [n|]]; destruct st; try by apply returns_ret.
  eapply returns_bind; [by apply analyse_flow_pairs|]. intros [c' d'] Hd'. by apply IH.
Qed.

Lemma name_lines_pairs o names items : forall ls, lines_pairs ls -> returns lines_pairs (name_lines o names items ls).
Proof.
  induction items as [|r items IH]; intros ls Hls; [by apply returns_ret|]. cbn [name_lines].
  destruct (ls !! r) as [l|] eqn:E; [|apply returns_none]. cbn [mbind option_bind].
  apply IH. eapply lines_insert; [done|exact E|]. unfold name_line. by destruct (names _ _).
Qed.

Lemma make_screen_list_pairs qsort o names slot hlen p d :
  lines_pairs (lines d) -> returns (fun d => lines_pairs (lines d)) (make_screen_list qsort o names slot hlen p d).
Proof.
  intros Hd. unfold make_screen_list. apply returns_skip. intros inv.
  eapply returns_bind; [apply map_lines_pairs; [|exact Hd]; intros l; by apply returns_ret|].
  intros [ls items] Hls. cbn [fst] in Hls. destruct (truth _); [by apply returns_ret|].
  eapply (returns_bind lines_pairs); [destruct (_ || _); [by apply name_lines_pairs|by apply returns_ret]|].
  intros ls' Hls'. apply returns_skip. intros [sl bl]. by apply returns_ret.
Qed.

Lemma analyse_data_pairs qsort o names procs slot c d :
  data_pairs c d -> returns (fun r => data_pairs r.1 r.2) (analyse_data qsort o names procs slot c d).
Proof.
  intros Hcd. pose proof Hcd as [Hc Hd]. unfold analyse_data. destruct (_ =? _); [by apply returns_ret|].
  eapply (returns_bind (fun r => pool_pairs r.1 /\ lines_pairs (lines r.2))).
  { destruct (truth _); [|by apply screen_reset_pairs]. unfold screen_hash_clear.
    eapply (returns_bind (fun d => lines_pairs (lines d))).
    - eapply returns_bind; [apply map_lines_pairs; [|exact Hd]; intros l; by apply returns_ret|].
      intros [ls rest] Hls. by apply returns_ret.
    - intros d' Hd'. by apply returns_ret. }
  intros [p d1] [Hp H1]. eapply returns_bind; [by apply analyse_loop_pairs|]. intros [c' d2] [H2 H2'].
  eapply returns_bind; [by apply make_screen_list_pairs|]. intros d3 H3.
  eapply (returns_bind (fun d => lines_pairs (lines d))).
  { unfold calculate_totals. apply returns_skip. intros [[ps pr] pt]. apply returns_skip. intros [r s].
    do 2 (apply returns_skip; intros ?). by apply returns_ret. }
  intros d4 H4. by apply returns_ret.
Qed.

(** ** The program *)
Lemma pairs_data W align : data_invariant W align bytes_ok data_pairs.
Proof.
  split.
  - intros c d [Hc Hd]. intros c' E. split; [by eapply history_rotate_pairs|done].
  - intros k o procs slot c d. by apply analyse_data_pairs.
  - intros e h c d p Hp [Hc Hd]. rewrite run_handler_packet.
    eapply returns_bind; [by apply frame_packet_bytes|]. intros [[ip dir]|] Hip; [|by apply returns_ret].
    intros r E. split; [|done]. by eapply handle_ip_packet_pairs.
Qed.

Definition program_pairs (m : program) : Prop := program_inv data_pairs m.

(** No flow and no line at the start. *)
Lemma main_pairs W (align : Z) x m : main W x = Some (inr m) -> program_pairs m.
Proof. apply (main_inv _ _ _ _ (pairs_data W align)). split; apply map_Forall_empty. Qed.

(** The lines of the list are lines of the table. *)
Lemma screen_lines_pairs d ls : lines_pairs (lines d) -> screen_lines d = Some ls -> Forall (fun l => flow_pair (l_ap l)) ls.
Proof.
  intros Hd (items & _ & H)%bind_Some. apply mapM_Some in H. apply Forall_forall.
  intros l (i & Hi)%list_elem_of_lookup. destruct (Forall2_lookup_r _ _ _ _ _ H Hi) as (r & _ & Hr). exact (Hd r l Hr).
Qed.
