(* ===== verification/UiFormat.v ===== *)
(** * Text of the screen (src/ui/ui.c readable_size, sprint_host)

    A bandwidth as a number with a unit, and a host with its port in a field of
    a given width. *)

From S2P Require Import Prelude CStr AddrHash OptionsT OptionsCfg Float Hash ServHash.

Local Open Scope Z_scope.

(** ** printf *)
Definition spaces (n : Z) : string := repeat_char " " (Z.to_nat n).
Definition pad_left (w : Z) (s : string) : string := spaces (w - Z.of_nat (strlen s)) +:+ s.
Definition pad_right (w : Z) (s : string) : string := s +:+ spaces (w - Z.of_nat (strlen s)).

(** [%.df] of a double. *)
Definition fixed_point (d : Z) (x : spec_float) : string :=
  let digits (n : Z) : string :=
    let frac := dec (n mod 10 ^ d) in
    dec (n / 10 ^ d) +:+
    (if d =? 0 then "" else "." +:+ repeat_char "0" (Z.to_nat d - strlen frac) +:+ frac) in
  match x with
  | S754_zero s => (if s then "-" else "") +:+ digits 0
  | S754_finite s m e => (if s then "-" else "") +:+ digits (magnitude (Zpos m * 10 ^ d) e)
  | S754_infinity s => (if s then "-" else "") +:+ "inf"
  | S754_nan => "nan"
  end.

(** What snprintf leaves in a buffer of [n] bytes. *)
Definition snprintf (n : Z) (s : string) : string := str_take (Z.to_nat (n - 1)) s.

(** ** Bandwidths *)
Definition unit_bits : list string := ["b"; "kb"; "Mb"; "Gb"].
Definition unit_bytes : list string := ["B"; "kB"; "MB"; "GB"].

Definition size_text (d : Z) (x : spec_float) (u : string) : string := " " +:+ pad_left 4 (fixed_point d x) +:+ u.

(** The units from the [i]-th on; the last one takes what is left. *)
Fixpoint size_loop (bandwidth size : spec_float) (ksize : Z) (units : list string) : string :=
  match units with
  | [] => ""
  | [u] => size_text 0 (f_div bandwidth size) u
  | u :: (v :: _) as units =>
      if SFltb bandwidth (f_mul size (f_of_Z 1000)) then size_text 0 (f_div bandwidth size) u
      else
        let size := f_mul size (f_of_Z ksize) in
        if SFltb bandwidth (f_mul size (f_of_Z 10)) then size_text 2 (f_div bandwidth size) v
        else if SFltb bandwidth (f_mul size (f_of_Z 100)) then size_text 1 (f_div bandwidth size) v
        else size_loop bandwidth size ksize units
  end.

Definition readable_size (bandwidth : spec_float) (bsize ksize : Z) (bytes : Z) : string :=
  let bandwidth := if bytes =? 0 then f_mul bandwidth (f_of_Z 8) else bandwidth in
  snprintf bsize (size_loop bandwidth (f_of_Z 1) ksize (if truth bytes then unit_bytes else unit_bits)).

(** ** Hosts *)
Definition HOSTNAME_LENGTH : Z := 256.

(** What resolve() and inet_ntop leave in the buffer [hostname]; [None] when
    they write nothing: resolve() into a buffer of one byte, either for a family
    that inet_ntop does not know.  The buffer is on the stack, and has no text
    then. *)
Section host.
Context (resolve : Z -> list Z -> Z -> option string) (inet_ntop : Z -> list Z -> option string).

Definition host_text (o : options_t) (af : Z) (addr : list Z) (maxlen : Z) : option string :=
  if bool_decide (addr = zeros16) then Some " * "
  else if truth (dnsresolution o) then resolve af addr maxlen
  else inet_ntop af addr.

Definition service_text (o : options_t) (service_hash : serv_table) (port protocol : Z) : option string :=
  if port =? 0 then Some ""
  else
    s_name ← (if truth (portresolution o) then serv_table_lookup service_hash port protocol else Some None);
    Some (snprintf HOSTNAME_LENGTH (":" +:+ match s_name with Some n => n | None => dec port end)).

(** The text in [line], a buffer of HOSTNAME_LENGTH bytes. *)
Definition sprint_host (o : options_t) (service_hash : serv_table) (af : Z) (addr : list Z) (port protocol maxlen : Z) :
    option string :=
  hostname ← host_text o af addr maxlen;
  service ← service_text o service_hash port protocol;
  let len s := Z.of_nat (strlen s) in
  if HOSTNAME_LENGTH <? maxlen + 1 then None
  else
    let line := snprintf (maxlen + 1) (pad_right maxlen hostname) in
    let left := len hostname in
    let left := if maxlen - len service <? left then Z.max 0 (maxlen - len service) else left in
    Some (str_take (Z.to_nat left) line +:+ snprintf (maxlen - left + 1) (pad_right (maxlen - left) service)).
End host.

(** ** Lengths *)
Lemma strlen_repeat c n : strlen (repeat_char c n) = n.
Proof. unfold repeat_char. induction n as [|n IH]; [done|]. exact (f_equal S IH). Qed.

Lemma strlen_spaces n : 0 <= n -> Z.of_nat (strlen (spaces n)) = n.
Proof. intros. unfold spaces. rewrite strlen_repeat. lia. Qed.

Lemma str_take_app n s t : str_take n (s +:+ t) = str_take n s +:+ str_take (n - strlen s) t.
Proof.
  revert n. induction s as [|c s IH]; intros n; [by rewrite Nat.sub_0_r; destruct n|].
  destruct n as [|n]; [by destruct t|]. exact (f_equal (String c) (IH n)).
Qed.

Lemma str_take_all n s : (strlen s <= n)%nat -> str_take n s = s.
Proof.
  revert n. induction s as [|c s IH]; intros [|n] H; simpl in *; try done; [lia|]. rewrite IH; [done|lia].
Qed.

Lemma strlen_take n s : strlen (str_take n s) = Nat.min n (strlen s).
Proof. revert n. induction s as [|c s IH]; intros [|n]; simpl; try done. by rewrite IH. Qed.

Lemma str_take_take n m s : str_take n (str_take m s) = str_take (Nat.min n m) s.
Proof. revert n m. induction s as [|c s IH]; intros [|n] [|m]; simpl; try done. by rewrite IH. Qed.

(** A padded field, cut at its width. *)
Lemma snprintf_pad_right w s :
  0 <= w -> snprintf (w + 1) (pad_right w s) = str_take (Z.to_nat w) s +:+ spaces (w - Z.of_nat (strlen s)).
Proof.
  intros Hw. unfold snprintf, pad_right. replace (w + 1 - 1) with w by lia. rewrite str_take_app. f_equal.
  apply str_take_all. unfold spaces. rewrite strlen_repeat. lia.
Qed.

Lemma service_text_spec o t C m port protocol :
  serv_rep t C m ->
  service_text o t port protocol =
    Some (if port =? 0 then "" else snprintf HOSTNAME_LENGTH (":" +:+
      match (if truth (portresolution o) then m !! IpService port protocol else None) with
      | Some n => n
      | None => dec port
      end)).
Proof.
  intros Hr. unfold service_text. destruct (port =? 0); [done|]. destruct (truth _); [|done].
  by rewrite (serv_table_lookup_spec _ _ _ _ _ Hr).
Qed.

(** The layout of a field. *)
Lemma sprint_host_field (resolve : Z -> list Z -> Z -> option string)
    (inet_ntop : Z -> list Z -> option string) (o : options_t) (t : serv_table) (C : list (list positive))
    (m : gmap ip_service string) (af : Z) (addr : list Z) (hostname : string) (port protocol maxlen : Z) :
  serv_rep t C m -> 1 <= maxlen < HOSTNAME_LENGTH ->
  (if bool_decide (addr = zeros16) then Some " * "
   else if truth (dnsresolution o) then resolve af addr maxlen else inet_ntop af addr) = Some hostname ->
  let service := if port =? 0 then "" else str_take 255 (":" +:+
    match (if truth (portresolution o) then m !! IpService port protocol else None) with
    | Some name => name
    | None => dec port
    end) in
  let left := Z.min (Z.of_nat (strlen hostname)) (Z.max 0 (maxlen - Z.of_nat (strlen service))) in
  exists text, sprint_host resolve inet_ntop o t af addr port protocol maxlen = Some text /\
    Z.of_nat (strlen text) = maxlen /\
    text = str_take (Z.to_nat left) hostname +:+ str_take (Z.to_nat (maxlen - left)) service +:+
           spaces (maxlen - left - Z.of_nat (strlen service)).
Proof.
  intros Hr Hm Hh service left. unfold sprint_host, host_text. rewrite Hh, (service_text_spec _ _ _ _ _ _ Hr).
  change (snprintf HOSTNAME_LENGTH) with (str_take 255). fold service. cbn [mbind option_bind].
  rewrite (proj2 (Z.ltb_ge _ _)) by lia. eexists. split; [done|]. unfold left. clear left Hh. cbv zeta.
  set (n := Z.of_nat (strlen hostname)). set (k := Z.of_nat (strlen service)).
  assert ((if maxlen - k <? n then Z.max 0 (maxlen - k) else n) = Z.min n (Z.max 0 (maxlen - k))) as ->
    by (destruct (Z.ltb_spec (maxlen - k) n); lia).
  set (l := Z.min _ _). assert (0 <= l <= maxlen /\ l <= n) as [Hl Hln] by lia.
  rewrite (snprintf_pad_right maxlen hostname), (snprintf_pad_right (maxlen - l) service) by lia. fold n k.
  assert (str_take (Z.to_nat l) (str_take (Z.to_nat maxlen) hostname +:+ spaces (maxlen - n)) =
    str_take (Z.to_nat l) hostname) as ->.
  { rewrite str_take_app, str_take_take, strlen_take. rewrite Nat.min_l by lia.
    replace (Z.to_nat l - Nat.min (Z.to_nat maxlen) (strlen hostname))%nat with 0%nat by lia.
    assert (forall s, s +:+ "" = s) as -> by (intros s; induction s as [|c s IH]; [done|exact (f_equal (String c) IH)]).
    done. }
  split; [|done]. rewrite !strlen_app, !strlen_take. unfold spaces. rewrite strlen_repeat. lia.
Qed.

(** C20: for a width of 1 to 255, and when the host has been written (the
    address is all zero, or resolve() or inet_ntop gave it a text: resolve()
    writes nothing at width 1, and neither does for an unknown family), the field of a
    host has exactly the width asked for: as much of the host name as the port
    leaves room for, then the port by its service name or number, then spaces;
    a port that is wider than the field is cut.  The table of services is any
    that its operations build. *)
Theorem sprint_host_fits (resolve : Z -> list Z -> Z -> option string)
    (inet_ntop : Z -> list Z -> option string) (o : options_t) (t : serv_table) (C : list (list positive))
    (m : gmap ip_service string) (af : Z) (addr : list Z) (hostname : string) (port protocol maxlen : Z) :
  serv_rep t C m -> 1 <= maxlen < HOSTNAME_LENGTH ->
  (if bool_decide (addr = zeros16) then Some " * "
   else if truth (dnsresolution o) then resolve af addr maxlen else inet_ntop af addr) = Some hostname ->
  let service := if port =? 0 then "" else str_take 255 (":" +:+
    match (if truth (portresolution o) then m !! IpService port protocol else None) with
    | Some name => name
    | None => dec port
    end) in
  let left := Z.min (Z.of_nat (strlen hostname)) (Z.max 0 (maxlen - Z.of_nat (strlen service))) in
  exists text, sprint_host resolve inet_ntop o t af addr port protocol maxlen = Some text /\
    Z.of_nat (strlen text) = maxlen /\
    text = str_take (Z.to_nat left) hostname +:+ str_take (Z.to_nat (maxlen - left)) service +:+
           spaces (maxlen - left - Z.of_nat (strlen service)).
Proof. exact (sprint_host_field resolve inet_ntop o t C m af addr hostname port protocol maxlen). Qed.

Definition demo_services : serv_table := default serv_table_create (serv_table_insert serv_table_create 443 6 "https").

Lemma demo_services_rep : exists C m, serv_rep demo_services C m.
Proof.
  destruct (serv_table_insert_spec _ _ _ 443 6 "https" serv_table_create_rep) as (t & C & E & Hr & _).
  exists C, (<[IpService 443 6 := "https"]> ∅). unfold demo_services. by rewrite E.
Qed.

Lemma sprint_host_fits_witness :
  exists text,
    sprint_host (fun _ _ n => if n <=? 1 then None else Some "host.example.org") (fun _ _ => Some "192.0.2.7")
      (set_portresolution 1 (set_dnsresolution 1 (options_set_defaults None None)))
      demo_services 2 (192 :: replicate 15 0) 443 6 12 = Some text /\
    Z.of_nat (strlen text) = 12.
Proof.
  destruct demo_services_rep as (C & m & Hr).
  destruct (sprint_host_fits (fun _ _ n => if n <=? 1 then None else Some "host.example.org") (fun _ _ => Some "192.0.2.7")
    (set_portresolution 1 (set_dnsresolution 1 (options_set_defaults None None))) demo_services C m 2 (192 :: replicate 15 0)
    "host.example.org" 443 6 12 Hr) as (text & H1 & H2 & _); [unfold HOSTNAME_LENGTH; lia|reflexivity|].
  by exists text.
Defined.

(** A field of 256 characters, which a wide terminal asks for, does not fit the
    buffer with its terminator. *)
Lemma sprint_host_wide_overflows resolve inet_ntop o t af addr port protocol :
  sprint_host resolve inet_ntop o t af addr port protocol HOSTNAME_LENGTH = None.
Proof. unfold sprint_host. destruct (host_text _ _ _ _ _ _); [|done]. by destruct (service_text _ _ _ _). Qed.

(** A field of one character, which a narrow terminal asks for: resolve()
    leaves the buffer alone, and what is on the stack is measured and printed. *)
Lemma sprint_host_narrow_unwritten resolve inet_ntop o t af addr port protocol :
  resolve af addr 1 = None -> truth (dnsresolution o) = true -> addr <> zeros16 ->
  sprint_host resolve inet_ntop o t af addr port protocol 1 = None.
Proof. intros Hw Hd Ha. unfold sprint_host, host_text. by rewrite bool_decide_false, Hd, Hw. Qed.
