(* ===== verification/UiPrint.v ===== *)
(** * Painting the screen (src/ui/ui.c ui_print and what it draws)

    A repaint as the list of curses calls it makes, over the state that the
    bars keep between repaints.  An index outside a table and a conversion that
    C does not define have no result. *)

From S2P Require Import Prelude CStr Hash AddrHash History OptionsT OptionsCfg Float SortedList Analyse ServHash Colors Export UiFormat.

Local Open Scope Z_scope.

(** ** Curses *)
Inductive cmd :=
  | Erase
  | Move (y x : Z)
  | ClrToEol
  | HLine (y x n : Z)
  | AddCh (y x : Z) (c : string)
  | AddStr (y x : Z) (s : string)
  | ChgAt (y x n : Z) (reverse : bool) (pair : Z)
  | AttrOn (a : Z + unit)    (* a colour pair, or bold *)
  | AttrOff (a : Z + unit)
  | Refresh.

(** ** The bar chart *)

(** The [max] of [scale]; the [interval]s are never read. *)
Definition scale : list Z := [64000; 128000; 256000; 1000000; 10000000; 100000000; 1000000000].

Record bars := Bars {
  rateidx : Z;
  rateidx_init : Z;
  wantbiggerrate : Z;
  bar_smooth : list spec_float
}.

Definition BAR_SMOOTH_MAX_ROWS : Z := 256.
(** 0.15f *)
Definition BAR_SMOOTH_FACTOR : spec_float := S754_finite false 10066330 (-26).

Definition bars_init : bars := Bars 0 0 0 (replicate (Z.to_nat BAR_SMOOTH_MAX_ROWS) (S754_zero false)).

(** [while (rate > scale[i++].max) {}] from the entry [i], of which [rest] is left. *)
Fixpoint init_loop (rate i : Z) (rest : list Z) : option Z :=
  match rest with
  | [] => None
  | m :: rest => if m <? rate then init_loop rate (i + 1) rest else Some (i + 1)
  end.

(** The part of get_bar_length_eighths that moves the scale. *)
Definition rescale (rate : Z) (b : bars) : option bars :=
  m ← scale !!z rateidx b;
  if m <? rate then
    if rateidx_init b =? 0 then
      i ← init_loop rate 0 scale;
      Some (Bars i i 1 (bar_smooth b))
    else Some (Bars (rateidx b) (rateidx_init b) 1 (bar_smooth b))
  else Some b.

(** "Bar chart auto scale", at the end of a repaint. *)
Definition auto_scale (o : options_t) (b : bars) : bars :=
  if truth (wantbiggerrate b) && (max_bandwidth o =? 0)
  then Bars (rateidx b + 1) (rateidx_init b) 0 (bar_smooth b) else b.

Definition get_bar_interval (bandwidth : spec_float) : Z :=
  if SFltb (f_of_Z 100000000) bandwidth then 100 else 10.

Definition get_max_bandwidth (o : options_t) (b : bars) : option spec_float :=
  if 0 <? max_bandwidth o then Some (f_of_Z (max_bandwidth o))
  else m ← scale !!z rateidx b; Some (f_of_Z m).

Definition history_column (l : list spec_float) (j : Z) : option spec_float := l !!z j.

Section print.
Context (o : options_t) (COLS LINES : Z) (has_colors : bool) (log : spec_float -> spec_float).
Context (color : string -> Z * Z).

Definition get_bar_length_eighths (rate : Z) (b : bars) : option (Z * bars) :=
  if rate <=? 0 then Some (0, b)
  else
    b ← rescale rate b;
    m ← get_max_bandwidth o b;
    let bar_length :=
      if truth (log_scale o) then f_of (d_div (log (d_of_Z rate)) (log m))
      else f_div (f_of_Z rate) m in
    n ← int_of (f_mul (f_mul bar_length (f_of_Z COLS)) (f_of_Z 8));
    Some (n, b).

Definition get_bar_length (rate : Z) (b : bars) : option (Z * bars) :=
  '(n, b) ← get_bar_length_eighths rate b; Some (Z.quot n 8, b).

(** ** Colours *)
Definition turnOnColor (c : string) : list cmd :=
  AttrOn (inl (color c).1) :: (if (color c).2 =? 1 then [AttrOn (inr tt)] else []).
Definition turnOffColor (c : string) : list cmd :=
  AttrOff (inl (color c).1) :: (if (color c).2 =? 1 then [AttrOff (inr tt)] else []).
Definition colored (c : string) (cs : list cmd) : list cmd := turnOnColor c ++ cs ++ turnOffColor c.

(** ** The scale *)
Definition scale_text (marker : spec_float) : string :=
  skip_set " " (readable_size marker 40 (if truth (log_scale o) then 1000 else 1024) (bandwidth_in_bytes o)).

Fixpoint marker_loop (fuel : nat) (row : Z) (max interval marker stop : spec_float) (b : bars) :
    option (bars * list cmd) :=
  match fuel with
  | O => None
  | S fuel =>
      if SFleb marker stop then
        let label := scale_text marker in
        rate ← int_of (f_mul marker (f_of_Z 8));
        '(xpos, b) ← get_bar_length rate b;
        let len := Z.of_nat (strlen label) in
        let xpos' := if u64 COLS <=? u64 (xpos + len) then COLS - len else xpos in
        let marker' := if truth (log_scale o) then f_mul marker interval
                       else f_add marker (f_div max (f_of_Z 40)) in
        '(b, cs) ← marker_loop fuel row max interval marker' stop b;
        Some (b, AddCh (row + 1) xpos "ACS_BTEE" ::
                 colored "SCALE_MARKERS_COLOR" [AddStr row xpos' label] ++ cs)
      else Some (b, [])
  end.

Definition MARKERS : nat := 64.

(** The row below the scale, the bars and the calls. *)
Definition draw_bar_scale (row : Z) (b : bars) : option (Z * bars * list cmd) :=
  max ← get_max_bandwidth o b;
  let interval := f_of_Z (get_bar_interval max) in
  if truth (showbars o) then
    let marker := if truth (log_scale o) then f_div (f_of_Z 5) (f_of_Z 4) else f_div max (f_of_Z 40) in
    '(b, cs) ← marker_loop MARKERS row max interval marker (f_div max (f_of_Z 8)) b;
    Some (row + 2, b, [Move row 0; ClrToEol; HLine (row + 1) 0 COLS] ++ cs ++ [AddCh (row + 1) 0 "ACS_LLCORNER"])
  else Some (row + 1, b, [HLine row 0 COLS]).

(** ** A line *)

(** One column of a line; no value outside the enumeration. *)
Definition column_bandwidth (sent recv : spec_float) (display : Z) : option spec_float :=
  if display =? OPTION_LINEDISPLAY_ONE_LINE_SENT then Some sent
  else if display =? OPTION_LINEDISPLAY_ONE_LINE_RECV then Some recv
  else if display =? OPTION_LINEDISPLAY_ONE_LINE_BOTH then Some (f_add recv sent)
  else None.

Definition draw_one_total (sent recv : spec_float) (row col display bytes : Z) : option (list cmd) :=
  bandwidth ← column_bandwidth sent recv display;
  Some (colored (if SFeqb bandwidth sent then "TWO_SECOND_TRANSFER_COLUMN_COLOR"
                 else if SFeqb bandwidth recv then "TEN_SECOND_TRANSFER_COLUMN_COLOR"
                 else "FOURTY_SECOND_TRANSFER_COLUMN_COLOR")
          [AddStr row col (readable_size bandwidth 10 1024 bytes)]).

Definition draw_line_total (sent recv : spec_float) (row col display bytes : Z) : option (list cmd) :=
  if display =? OPTION_LINEDISPLAY_TWO_LINE then
    a ← draw_one_total sent recv row col OPTION_LINEDISPLAY_ONE_LINE_SENT bytes;
    b ← draw_one_total sent recv (row + 1) col OPTION_LINEDISPLAY_ONE_LINE_RECV bytes;
    Some (a ++ b)
  else draw_one_total sent recv row col display bytes.

Definition draw_bar (bandwidth : spec_float) (row colorpair : Z) (b : bars) : option (bars * list cmd) :=
  let pair := if has_colors then colorpair else 0 in
  rate ← int_of (f_mul (f_of_Z 8) bandwidth);
  '(n, b) ← get_bar_length_eighths rate b;
  let target := f_div (f_of_Z n) (f_of_Z 8) in
  let half := f_div (f_of_Z 1) (f_of_Z 2) in
  '(b, length) ←
    (if (0 <=? row) && (row <? BAR_SMOOTH_MAX_ROWS) then
       prev ← bar_smooth b !!z row;
       let v := if SFltb prev half && SFltb target half then S754_zero false
                else f_add prev (f_mul (f_sub target prev) BAR_SMOOTH_FACTOR) in
       smooth ← store_z (bar_smooth b) row v;
       length ← int_of (f_add v half);
       Some (Bars (rateidx b) (rateidx_init b) (wantbiggerrate b) smooth, length)
     else length ← int_of (f_add target half); Some (b, length));
  Some (b, ChgAt row 0 0 false 0 ::
           (if 0 <? length then [ChgAt row 0 (if COLS <? length then COLS else length) true pair] else [])).

(** A bar in its colour; the bold attribute is set apart. *)
Definition colored_bar (bandwidth : spec_float) (row : Z) (c : string) (b : bars) : option (bars * list cmd) :=
  '(b, cs) ← draw_bar bandwidth row (color c).1 b;
  Some (b, (if (color c).2 =? BOLD then [AttrOn (inr tt)] else []) ++ cs ++
           (if (color c).2 =? BOLD then [AttrOff (inr tt)] else [])).

Definition draw_line_bars (row : Z) (line : host_pair_line) (display : Z) (b : bars) : option (bars * list cmd) :=
  let i := bar_interval o in
  if display =? OPTION_LINEDISPLAY_TWO_LINE then
    s ← l_sent line !!z i;
    '(b, c1) ← colored_bar (f_of s) row "SENT_BAR_COLOR" b;
    r ← l_recv line !!z i;
    '(b, c2) ← colored_bar (f_of r) (row + 1) "RECEIVE_BAR_COLOR" b;
    Some (b, c1 ++ c2)
  else if display =? OPTION_LINEDISPLAY_ONE_LINE_SENT then
    s ← l_sent line !!z i; colored_bar (f_of s) row "SENT_BAR_COLOR" b
  else if display =? OPTION_LINEDISPLAY_ONE_LINE_RECV then
    r ← l_recv line !!z i; colored_bar (f_of r) row "RECEIVE_BAR_COLOR" b
  else if display =? OPTION_LINEDISPLAY_ONE_LINE_BOTH then
    r ← l_recv line !!z i; s ← l_sent line !!z i;
    colored_bar (f_of (ld_add r s)) row "BOTH_BAR_COLOR" b
  else Some (b, []).

(** The columns from the [j]-th on. *)
Fixpoint columns (js : list Z) (row x : Z) (line : host_pair_line) (display : Z) : option (list cmd) :=
  match js with
  | [] => Some []
  | j :: js =>
      s ← l_sent line !!z j; r ← l_recv line !!z j;
      c ← draw_line_total (f_of s) (f_of r) row x display (bandwidth_in_bytes o);
      cs ← columns js row (x + 8) line display;
      Some (c ++ cs)
  end.

Definition first_column : Z := COLS - 8 * HISTORY_DIVISIONS.

Definition draw_line_totals (row : Z) (line : host_pair_line) (display : Z) (b : bars) : option (bars * list cmd) :=
  cs ← columns [0; 1; 2] row first_column line display;
  '(b, bs) ← (if truth (showbars o) then draw_line_bars row line display b else Some (b, []));
  Some (b, cs ++ bs).
(** The columns of the sums, in [draw_totals]. *)
Fixpoint sum_columns (js : list Z) (y x : Z) (totals : host_pair_line) : option (list cmd) :=
  match js with
  | [] => Some []
  | j :: js =>
      s ← l_sent totals !!z j; r ← l_recv totals !!z j;
      cs ← sum_columns js y (x + 8) totals;
      Some (colored "TOTAL_LABEL_COLOR"
              [AddStr y x (readable_size (f_of (ld_add s r)) 10 1024 (bandwidth_in_bytes o))] ++ cs)
  end.

Definition draw_totals (totals : host_pair_line) (b : bars) : option (bars * list cmd) :=
  let y := LINES - 3 in
  '(b, c) ← draw_line_totals y totals OPTION_LINEDISPLAY_TWO_LINE b;
  cs ← sum_columns [0; 1; 2] (y + 2) first_column totals;
  Some (b, c ++ cs).

(** ** The lines *)
Context (resolve : Z -> list Z -> Z -> option string) (inet_ntop : Z -> list Z -> option string).
Context (filter_match : string -> option bool) (service_hash : serv_table).

(** [L]: the width of a host. *)
Definition host_width : Z :=
  let L := Z.quot (COLS - 8 * HISTORY_DIVISIONS - 4) 2 in
  let L := if truth (show_totals o) then L - 4 else L in
  let L := if truth (show_processes o) then L - 8 else L in
  let L := if HOSTNAME_LENGTH <? L then HOSTNAME_LENGTH else L in
  if L <? 1 then 1 else L.

Definition line_hosts (line : host_pair_line) : option (string * string) :=
  let ap := l_ap line in
  let host := sprint_host resolve inet_ntop o service_hash (address_family ap) in
  host1 ← host (src ap) (src_port ap) (protocol ap) host_width;
  host2 ← host (dst ap) (dst_port ap) (protocol ap) host_width;
  Some (host1, host2).

(** [screen_filter_match(host1) || screen_filter_match(host2)] *)
Definition line_matches (hosts : string * string) : option bool :=
  m ← filter_match hosts.1;
  if m : bool then Some true else filter_match hosts.2.

Definition arrows (y x : Z) : list cmd :=
  let display := linedisplay o in
  if display =? OPTION_LINEDISPLAY_TWO_LINE then [AddStr y x " => "; AddStr (y + 1) x " <= "]
  else if display =? OPTION_LINEDISPLAY_ONE_LINE_BOTH then [AddStr y x "<=> "]
  else if display =? OPTION_LINEDISPLAY_ONE_LINE_SENT then [AddStr y x " => "]
  else if display =? OPTION_LINEDISPLAY_ONE_LINE_RECV then [AddStr y x " <= "]
  else [].

(** [" [%d:%.12s]"] *)
Definition proc_label (line : host_pair_line) : string :=
  snprintf 80 (" [" +:+ dec (l_pid line) +:+ ":" +:+ str_take 12 (process_name line) +:+ "]").

Definition draw_entry (y : Z) (hosts : string * string) (line : host_pair_line) (b : bars) : option (bars * list cmd) :=
  let L := host_width in
  let x2 := L + 4 in
  let names := colored "HOST1_COLOR" [AddStr y 0 hosts.1] ++
    colored "DL_UL_INDICATOR_COLOR" (arrows y L) ++
    colored "HOST2_COLOR" [AddStr y x2 hosts.2] in
  let proc := if truth (show_processes o) && negb (String.eqb (process_name line) "")
              then colored "PROC_NAME_COLOR" [AddStr y (x2 + L) (proc_label line)] else [] in
  tot ← (if truth (show_totals o)
         then draw_line_total (f_of_Z (l_total_sent line)) (f_of_Z (l_total_recv line)) y
                (COLS - 8 * (HISTORY_DIVISIONS + 1)) (linedisplay o) 1
         else Some []);
  '(b, cs) ← draw_line_totals y line (linedisplay o) b;
  Some (b, names ++ proc ++ tot ++ cs).

(** The rows of a line. *)
Definition step : Z := if linedisplay o =? OPTION_LINEDISPLAY_TWO_LINE then 2 else 1.

(** The loop over the lines after the offset, from the row [y]. *)
Fixpoint page_loop (ls : list host_pair_line) (y : Z) (b : bars) : option (bars * list cmd) :=
  match ls with
  | [] => Some (b, [])
  | line :: ls =>
      if y <? LINES - 5 then
        hosts ← line_hosts line;
        m ← line_matches hosts;
        if negb m then page_loop ls y b
        else
          '(b, c) ← draw_entry y hosts line b;
          '(b, cs) ← page_loop ls (y + step) b;
          Some (b, c ++ cs)
      else Some (b, [])
  end.

(** ** The whole screen *)

(** What snprintf writes into [line], of [COLS + 1] bytes. *)
Definition in_line (text : string) : option string :=
  if Z.of_nat (strlen text) <=? COLS then Some text else None.

(** The three rows of a column of [readable_size]s, at the bottom. *)
Definition bottom_column (y x : Z) (bytes : Z) (sent recv total : spec_float) : option (list cmd) :=
  let text v := in_line (readable_size v 10 1024 bytes) in
  a ← text sent; c ← text recv; t ← text total;
  Some [AddStr y x a; AddStr (y + 1) x c; AddStr (y + 2) x t].

Definition draw_bottom (h : history_type) (d : display) : option (list cmd) :=
  let y := LINES - 3 in
  cum ← bottom_column y 22 1 (f_of_Z (total_sent h)) (f_of_Z (total_recv h))
          (f_of_Z (u64 (total_recv h + total_sent h)));
  let peak p := f_div (f_of_Z p) (f_of_Z RESOLUTION) in
  peaks ← bottom_column y 39 (bandwidth_in_bytes o) (peak (peaksent d)) (peak (peakrecv d)) (peak (peaktotal d));
  Some (colored "BOTTOM_BAR_COLOR" [HLine (y - 1) 0 COLS] ++
        [AddStr y 0 "TX: "; AddStr (y + 1) 0 "RX: "] ++
        colored "TOTAL_LABEL_COLOR" [AddStr (y + 2) 0 "TOTAL: "] ++
        colored "CUM_LABEL_COLOR" [AddStr y 16 "cum: "] ++
        turnOnColor "CUM_TRANSFER_COLUMN_COLOR" ++ cum ++ turnOffColor "CUM_TRANSFER_COLUMN_COLOR" ++
        colored "PEAK_LABEL_COLOR" [AddStr y 32 "peak: "] ++
        colored "PEAK_TRANSFER_COLUMN_COLOR" peaks ++
        colored "RATES_LABEL_COLOR" [AddStr y (COLS - 8 * HISTORY_DIVISIONS - 8) "rates:"]).

Definition draw_help (showhelphint : Z) (helpmsg : string) : list cmd :=
  if truth showhelphint then
    let n := Z.of_nat (strlen helpmsg) in
    [AddStr 0 0 " "; AddStr 0 1 helpmsg; AddStr 0 (1 + n) " "; ChgAt 0 0 (n + 2) true 0]
  else [].

(** The lines of the sorted list, after the first [screen_offset]; the loop over
    the offset stops at the end of the list. *)
Definition offset_lines (ls : list host_pair_line) : list host_pair_line := drop (Z.to_nat (screen_offset o)) ls.

Definition ui_print (help_message : string) (dontshowdisplay : Z) (h : history_type) (d : display)
    (showhelphint : Z) (helpmsg : string) (b : bars) : option (bars * list cmd) :=
  if truth dontshowdisplay then Some (b, [])
  else
    '(y, b, top) ← draw_bar_scale 0 b;
    '(b, page) ← (if truth (OptionsT.showhelp o) then Some (b, [AddStr y 0 help_message])
                  else ls ← screen_lines d; page_loop (offset_lines ls) y b);
    bottom ← draw_bottom h d;
    '(b, tot) ← draw_totals (totals d) b;
    Some (auto_scale o b,
          Erase :: colored "SCALE_BAR_COLOR" top ++ page ++ bottom ++ tot ++
          draw_help showhelphint helpmsg ++ [Move (LINES - 1) (COLS - 1); Refresh]).
End print.

(** ** The page *)

(** The row that a call writes. *)
Definition cmd_row (c : cmd) : option Z :=
  match c with
  | Move y _ | HLine y _ _ | AddCh y _ _ | AddStr y _ _ | ChgAt y _ _ _ _ => Some y
  | _ => None
  end.

Definition within (lo hi : Z) (c : cmd) : Prop :=
  match cmd_row c with Some y => lo <= y < hi | None => True end.

Lemma host_width_range o COLS : 1 <= host_width o COLS /\ (COLS < 540 -> host_width o COLS < HOSTNAME_LENGTH).
Proof.
  unfold host_width, HOSTNAME_LENGTH. change (8 * HISTORY_DIVISIONS) with 24.
  assert (COLS < 540 -> Z.quot (COLS - 24 - 4) 2 <= 255) as Hq.
  { Z.to_euclidean_division_equations; lia. }
  revert Hq. generalize (Z.quot (COLS - 24 - 4) 2) as q. intros q Hq.
  destruct (truth (show_totals o)), (truth (show_processes o));
    repeat match goal with |- context [?a <? ?b] => destruct (Z.ltb_spec a b) end; lia.
Qed.

Section page.
Context (o : options_t) (COLS LINES : Z) (has_colors : bool) (log : spec_float -> spec_float).
Context (color : string -> Z * Z) (resolve : Z -> list Z -> Z -> option string) (inet_ntop : Z -> list Z -> option string).
Context (filter_match : string -> option bool) (t : serv_table).
(** The hosts of a line as they are printed, and the texts that pass the filter. *)
Context (hosts : host_pair_line -> string * string) (passes : string -> bool).

Definition hosts_printed (line : host_pair_line) : Prop := line_hosts o COLS resolve inet_ntop t line = Some (hosts line).
Definition shown (line : host_pair_line) : bool := passes (hosts line).1 || passes (hosts line).2.

(** The lines [ls] one below the other, from the row [y] on. *)
Fixpoint draw_entries (ls : list host_pair_line) (y : Z) (b : bars) : option (bars * list cmd) :=
  match ls with
  | [] => Some (b, [])
  | line :: ls =>
      '(b, c) ← draw_entry o COLS has_colors log color y (hosts line) line b;
      '(b, cs) ← draw_entries ls (y + step o) b;
      Some (b, c ++ cs)
  end.

(** *** The page, spelled out: which text stands at which row and column *)
Definition text_of (c : cmd) : option (Z * Z * string) :=
  match c with AddStr y x s => Some (y, x, s) | _ => None end.
Definition texts (cs : list cmd) : list (Z * Z * string) := omap text_of cs.

Definition rate_texts (row x bytes : Z) (sent recv : spec_float) : list (Z * Z * string) :=
  let size v := readable_size v 10 1024 bytes in
  if linedisplay o =? 0 then [(row, x, size sent); (row + 1, x, size recv)]
  else if linedisplay o =? 1 then [(row, x, size (f_add recv sent))]
  else if linedisplay o =? 2 then [(row, x, size recv)]
  else [(row, x, size sent)].

Definition arrow_texts (row x : Z) : list (Z * Z * string) :=
  if linedisplay o =? 0 then [(row, x, " => "); (row + 1, x, " <= ")]
  else if linedisplay o =? 1 then [(row, x, "<=> ")]
  else if linedisplay o =? 2 then [(row, x, " <= ")]
  else [(row, x, " => ")].

Definition entry_texts (row : Z) (line : host_pair_line) : list (Z * Z * string) :=
  let L := host_width o COLS in
  [(row, 0, (hosts line).1)] ++ arrow_texts row L ++ [(row, L + 4, (hosts line).2)] ++
  (if truth (show_processes o) && negb (String.eqb (process_name line) "")
   then [(row, 2 * L + 4, proc_label line)] else []) ++
  (if truth (show_totals o)
   then rate_texts row (COLS - 32) 1 (f_of_Z (l_total_sent line)) (f_of_Z (l_total_recv line)) else []) ++
  match l_sent line, l_recv line with
  | [s2; s10; s40], [r2; r10; r40] =>
      let rates x s r := rate_texts row x (bandwidth_in_bytes o) (f_of s) (f_of r) in
      rates (COLS - 24) s2 r2 ++ rates (COLS - 16) s10 r10 ++ rates (COLS - 8) s40 r40
  | _, _ => []
  end.

Fixpoint page_texts (row : Z) (ls : list host_pair_line) : list (Z * Z * string) :=
  match ls with
  | [] => []
  | line :: ls => entry_texts row line ++ page_texts (row + (if linedisplay o =? 0 then 2 else 1)) ls
  end.

(** How many lines there is room for above the totals. *)
Definition room (y : Z) : nat := Z.to_nat ((LINES - 5 - y + step o - 1) / step o).

Lemma step_cases : step o = 1 \/ step o = 2.
Proof. unfold step. destruct (_ =? _); auto. Qed.

Lemma room_more y : y < LINES - 5 -> room y = S (room (y + step o)).
Proof.
  intros Hy. unfold room. pose proof step_cases.
  replace (LINES - 5 - y + step o - 1) with (LINES - 5 - (y + step o) + step o - 1 + 1 * step o) by lia.
  rewrite Z.div_add by lia. rewrite <- Z2Nat.inj_succ; [f_equal; lia|]. apply Z.div_pos; lia.
Qed.

Lemma room_none y : LINES - 5 <= y -> room y = 0%nat.
Proof.
  intros Hy. unfold room. pose proof step_cases.
  assert ((LINES - 5 - y + step o - 1) / step o < 1); [|lia]. apply Z.div_lt_upper_bound; lia.
Qed.

Lemma page_loop_entries ls y b :
  Forall hosts_printed ls -> (forall s, filter_match s = Some (passes s)) ->
  page_loop o COLS LINES has_colors log color resolve inet_ntop filter_match t ls y b =
    draw_entries (take (room y) (filter shown ls)) y b.
Proof.
  intros Hh Hf. revert y b. induction Hh as [|line ls Hline _ IH]; intros y b; [by rewrite filter_nil, take_nil|].
  cbn [page_loop]. destruct (Z.ltb_spec y (LINES - 5)) as [Hy|Hy]; [|by rewrite room_none].
  rewrite Hline. cbn [mbind option_bind].
  assert (line_matches filter_match (hosts line) = Some (shown line)) as ->.
  { unfold line_matches, shown. rewrite !Hf. cbn [mbind option_bind]. by destruct (passes (hosts line).1). }
  cbn [mbind option_bind]. rewrite filter_cons. destruct (shown line) eqn:Ed; cbn [negb].
  - rewrite decide_True by done. rewrite (room_more y Hy). cbn [take draw_entries].
    destruct (draw_entry _ _ _ _ _ _ _ _ _) as [[b1 c]|]; [|done]. cbn [mbind option_bind]. by rewrite IH.
  - rewrite decide_False by (by intros []). apply IH.
Qed.

(** *** Texts *)
Lemma Some_pair_inv {A B} (a a' : A) (b b' : B) : Some (a, b) = Some (a', b') -> a = a' /\ b = b'.
Proof. by intros [= -> ->]. Qed.

Lemma texts_app cs cs' : texts (cs ++ cs') = texts cs ++ texts cs'.
Proof. apply omap_app. Qed.

Lemma texts_colored c cs : texts (colored color c cs) = texts cs.
Proof.
  unfold colored, turnOnColor, turnOffColor. rewrite !texts_app.
  destruct (_ =? _); simpl; by rewrite app_nil_r.
Qed.

Lemma draw_one_total_texts sent recv row col display bytes cs v :
  column_bandwidth sent recv display = Some v ->
  draw_one_total color sent recv row col display bytes = Some cs -> texts cs = [(row, col, readable_size v 10 1024 bytes)].
Proof. unfold draw_one_total. intros ->. cbn [mbind option_bind]. intros [= <-]. by rewrite texts_colored. Qed.

Lemma draw_line_total_texts sent recv row col bytes cs :
  0 <= linedisplay o <= 3 ->
  draw_line_total color sent recv row col (linedisplay o) bytes = Some cs -> texts cs = rate_texts row col bytes sent recv.
Proof.
  intros Hd. assert (linedisplay o = 0 \/ linedisplay o = 1 \/ linedisplay o = 2 \/ linedisplay o = 3) as Hc by lia.
  unfold draw_line_total, rate_texts. destruct Hc as [-> |[-> |[-> | ->]]]; cbn [Z.eqb Pos.eqb OPTION_LINEDISPLAY_TWO_LINE];
    [|by intros H; eapply draw_one_total_texts in H..].
  intros (a & Ha & (b & Hb & [= <-])%bind_Some)%bind_Some.
  apply (draw_one_total_texts _ _ _ _ _ _ _ sent) in Ha; [|done].
  apply (draw_one_total_texts _ _ _ _ _ _ _ recv) in Hb; [|done]. by rewrite texts_app, Ha, Hb.
Qed.

Lemma columns_texts row x line cs :
  0 <= linedisplay o <= 3 -> columns o color [0; 1; 2] row x line (linedisplay o) = Some cs -> rates3 line ->
  texts cs = match l_sent line, l_recv line with
             | [s2; s10; s40], [r2; r10; r40] =>
                 let rates x s r := rate_texts row x (bandwidth_in_bytes o) (f_of s) (f_of r) in
                 rates x s2 r2 ++ rates (x + 8) s10 r10 ++ rates (x + 16) s40 r40
             | _, _ => []
             end.
Proof.
  intros Hd H [Hs Hr]. destruct (l_sent line) as [|s0 [|s1 [|s2 []]]] eqn:Es; try done.
  destruct (l_recv line) as [|r0 [|r1 [|r2 []]]] eqn:Er; try done.
  cbn [columns] in H. rewrite Es, Er in H. unfold lookup_z in H. simpl in H.
  apply bind_Some in H as (c1 & H1 & H). apply bind_Some in H as (cs1 & H & [= <-]).
  apply bind_Some in H as (c2 & H2 & H). apply bind_Some in H as (cs2 & H & [= <-]).
  apply bind_Some in H as (c3 & H3 & [= <-]).
  apply draw_line_total_texts in H1, H2, H3; try done. rewrite !texts_app, H1, H2, H3.
  replace (x + 8 + 8) with (x + 16) by lia. cbn [texts omap list_omap]. by rewrite app_nil_r.
Qed.

Lemma draw_line_bars_texts row line b b' cs :
  draw_line_bars o COLS has_colors log color row line (linedisplay o) b = Some (b', cs) -> texts cs = [].
Proof.
  assert (forall bandwidth row c b b' cs,
    colored_bar o COLS has_colors log color bandwidth row c b = Some (b', cs) -> texts cs = []) as Hb.
  { intros ? ? ? ? ? ? ([b1 c1] & H & [= <- <-])%bind_Some.
    apply bind_Some in H as (rate & _ & ([n b2] & _ & ([b3 len] & _ & [= <- <-])%bind_Some)%bind_Some).
    by repeat case_match. }
  unfold draw_line_bars. destruct (linedisplay o =? _).
  - intros (s & _ & ([b1 c1] & H1 & (r & _ & ([b2 c2] & H2 & [= <- <-])%bind_Some)%bind_Some)%bind_Some)%bind_Some.
    rewrite texts_app. by rewrite (Hb _ _ _ _ _ _ H1), (Hb _ _ _ _ _ _ H2).
  - intros H. repeat case_match; simplify_option_eq; try done; by eapply Hb.
Qed.

Lemma arrows_texts row x : 0 <= linedisplay o <= 3 -> texts (arrows o row x) = arrow_texts row x.
Proof.
  intros Hd. assert (linedisplay o = 0 \/ linedisplay o = 1 \/ linedisplay o = 2 \/ linedisplay o = 3) as Hc by lia.
  unfold arrows, arrow_texts. by destruct Hc as [-> |[-> |[-> | ->]]].
Qed.

Lemma draw_entry_texts row line b b' cs :
  0 <= linedisplay o <= 3 -> rates3 line ->
  draw_entry o COLS has_colors log color row (hosts line) line b = Some (b', cs) -> texts cs = entry_texts row line.
Proof.
  intros Hd Hl. unfold draw_entry, draw_line_totals, entry_texts.
  intros (tot & Ht & ([b1 c1] & H1 & [_ <-]%Some_pair_inv)%bind_Some)%bind_Some.
  apply bind_Some in H1 as (cols & Hc & ([b2 c2] & H2 & [= <- <-])%bind_Some).
  apply columns_texts in Hc; [|done|done]. rewrite !texts_app, !texts_colored, arrows_texts, Hc by done.
  assert (texts c2 = []) as ->.
  { destruct (truth (showbars o)); [by eapply draw_line_bars_texts|by injection H2 as _ <-]. }
  assert (texts tot = if truth (show_totals o)
    then rate_texts row (COLS - 32) 1 (f_of_Z (l_total_sent line)) (f_of_Z (l_total_recv line)) else []) as ->.
  { destruct (truth (show_totals o)); [|by injection Ht as <-].
    apply draw_line_total_texts in Ht; [|done]. rewrite Ht. f_equal. }
  unfold first_column. change (8 * HISTORY_DIVISIONS) with 24.
  replace (COLS - 24 + 8) with (COLS - 16) by lia. replace (COLS - 24 + 16) with (COLS - 8) by lia.
  rewrite app_nil_r, <- !app_assoc. cbn [texts omap list_omap text_of]. f_equal. f_equal. f_equal.
  destruct (_ && _); [|done]. rewrite texts_colored. cbn [texts omap list_omap text_of]. do 4 f_equal. lia.
Qed.

Lemma draw_entries_texts ls : forall row b b' cs,
  0 <= linedisplay o <= 3 -> Forall rates3 ls -> draw_entries ls row b = Some (b', cs) -> texts cs = page_texts row ls.
Proof.
  induction ls as [|line ls IH]; intros row b b' cs Hd Hls; cbn [draw_entries page_texts]; [by intros [= _ <-]|].
  apply Forall_cons in Hls as [Hl Hls].
  intros ([b1 c1] & H1 & ([b2 c2] & H2 & [= _ <-])%bind_Some)%bind_Some.
  apply draw_entry_texts in H1; [|done|done]. by rewrite texts_app, H1, (IH _ _ _ _ Hd Hls H2).
Qed.

(** *** Rows *)
Ltac rows := repeat first [apply Forall_nil_2 | apply Forall_cons; split | apply Forall_app; split | case_match];
  unfold within; cbn [cmd_row]; try done; try lia.

Lemma colored_rows lo hi c cs : Forall (within lo hi) cs -> Forall (within lo hi) (colored color c cs).
Proof. intros H. unfold colored, turnOnColor, turnOffColor. rows; done. Qed.

Lemma draw_one_total_rows sent recv row col display bytes cs :
  draw_one_total color sent recv row col display bytes = Some cs -> Forall (within row (row + 1)) cs.
Proof.
  unfold draw_one_total. destruct (column_bandwidth _ _ _); [|done]. intros [= <-]. apply colored_rows. rows.
Qed.

Lemma within_mono lo hi lo' hi' cs : lo' <= lo -> hi <= hi' -> Forall (within lo hi) cs -> Forall (within lo' hi') cs.
Proof. intros ? ? H. eapply Forall_impl; [exact H|]. intros c. unfold within. destruct (cmd_row c); lia. Qed.

Lemma draw_line_total_rows sent recv row col bytes cs :
  draw_line_total color sent recv row col (linedisplay o) bytes = Some cs -> Forall (within row (row + step o)) cs.
Proof.
  unfold draw_line_total, step. destruct (linedisplay o =? _).
  - intros (a & Ha & (b & Hb & [= <-])%bind_Some)%bind_Some. apply draw_one_total_rows in Ha, Hb.
    apply Forall_app. split; (eapply within_mono; [| |done]); lia.
  - by intros ?%draw_one_total_rows.
Qed.

Lemma columns_rows js row x line cs :
  columns o color js row x line (linedisplay o) = Some cs -> Forall (within row (row + step o)) cs.
Proof.
  revert x cs. induction js as [|j js IH]; intros x cs; cbn [columns]; [intros [= <-]; constructor|].
  intros (s & _ & (r & _ & (c & Hc & (cs' & Hcs & [= <-])%bind_Some)%bind_Some)%bind_Some)%bind_Some.
  apply Forall_app. split; [by eapply draw_line_total_rows|by eapply IH].
Qed.

Lemma colored_bar_rows bandwidth row c b b' cs :
  colored_bar o COLS has_colors log color bandwidth row c b = Some (b', cs) -> Forall (within row (row + 1)) cs.
Proof.
  unfold colored_bar, draw_bar.
  intros ([b1 c1] & Hb & [= <- <-])%bind_Some.
  apply bind_Some in Hb as (rate & _ & ([n b2] & _ & ([b3 len] & _ & [= <- <-])%bind_Some)%bind_Some).
  rows.
Qed.

Lemma draw_line_bars_rows row line b b' cs :
  draw_line_bars o COLS has_colors log color row line (linedisplay o) b = Some (b', cs) ->
  Forall (within row (row + step o)) cs.
Proof.
  unfold draw_line_bars, step. destruct (linedisplay o =? _).
  - intros (s & _ & ([b1 c1] & H1 & (r & _ & ([b2 c2] & H2 & [= <- <-])%bind_Some)%bind_Some)%bind_Some)%bind_Some.
    apply colored_bar_rows in H1, H2. apply Forall_app. split; (eapply within_mono; [| |done]); lia.
  - intros H. repeat case_match; simplify_option_eq; try constructor; by eapply colored_bar_rows.
Qed.

Lemma draw_entry_rows y hs line b b' cs :
  draw_entry o COLS has_colors log color y hs line b = Some (b', cs) -> Forall (within y (y + step o)) cs.
Proof.
  unfold draw_entry, draw_line_totals.
  intros (tot & Ht & ([b1 c1] & H1 & [<- <-]%Some_pair_inv)%bind_Some)%bind_Some.
  apply bind_Some in H1 as (cols & Hc & ([b2 c2] & H2 & [= <- <-])%bind_Some).
  assert (Forall (within y (y + step o)) (arrows o y (host_width o COLS))) as Ha.
  { unfold arrows, step. destruct (linedisplay o =? _); rows. }
  pose proof step_cases. rewrite !Forall_app. split_and!.
  - apply colored_rows. rows.
  - by apply colored_rows.
  - apply colored_rows. rows.
  - destruct (_ && _); [|constructor]. apply colored_rows. rows.
  - destruct (truth (show_totals o)); [by eapply draw_line_total_rows|]. injection Ht as <-. constructor.
  - by eapply columns_rows.
  - destruct (truth (showbars o)); [by eapply draw_line_bars_rows|]. injection H2 as _ <-. constructor.
Qed.

Lemma draw_entries_rows ls y b b' cs :
  (ls <> [] -> y + step o * Z.of_nat (length ls) <= LINES - 4) ->
  draw_entries ls y b = Some (b', cs) -> Forall (within y (LINES - 4)) cs.
Proof.
  revert y b b' cs. induction ls as [|line ls IH]; intros y b b' cs Hl; cbn [draw_entries]; [intros [= <- <-]; constructor|].
  intros ([b1 c1] & H1 & ([b2 c2] & H2 & [= <- <-])%bind_Some)%bind_Some. specialize (Hl ltac:(done)). cbn [length] in Hl. pose proof step_cases.
  apply Forall_app. split.
  - apply draw_entry_rows in H1. eapply within_mono; [| |done]; lia.
  - apply IH in H2; [|lia]. eapply within_mono; [| |done]; lia.
Qed.
(** *** Without bars every line can be drawn *)
Lemma draw_line_total_some sent recv row col bytes :
  0 <= linedisplay o <= 3 -> is_Some (draw_line_total color sent recv row col (linedisplay o) bytes).
Proof.
  intros Hd. assert (linedisplay o = 0 \/ linedisplay o = 1 \/ linedisplay o = 2 \/ linedisplay o = 3) as Hc by lia.
  unfold draw_line_total, draw_one_total. by destruct Hc as [-> |[-> |[-> | ->]]]; eexists.
Qed.

Lemma columns_some row x line :
  0 <= linedisplay o <= 3 -> rates3 line -> is_Some (columns o color [0; 1; 2] row x line (linedisplay o)).
Proof.
  intros Hd [Hs Hr]. destruct (l_sent line) as [|s0 [|s1 [|s2 []]]] eqn:Es; try done.
  destruct (l_recv line) as [|r0 [|r1 [|r2 []]]] eqn:Er; try done.
  cbn [columns]. rewrite Es, Er. unfold lookup_z. simpl.
  repeat match goal with
  | |- context [draw_line_total color ?a ?b row ?c ?d ?e] =>
      destruct (draw_line_total_some a b row c e Hd) as [? ->]; cbn [mbind option_bind]
  end. eauto.
Qed.

Lemma draw_entries_some ls y b :
  truth (showbars o) = false -> 0 <= linedisplay o <= 3 -> Forall rates3 ls -> is_Some (draw_entries ls y b).
Proof.
  intros Hb Hd. revert y. induction ls as [|line ls IH]; intros y Hls; [by eexists|].
  apply Forall_cons in Hls as [Hl Hls]. cbn [draw_entries]. unfold draw_entry, draw_line_totals. rewrite Hb.
  destruct (columns_some y (first_column COLS) line Hd Hl) as [cs ->]. cbn [mbind option_bind].
  assert (is_Some (if truth (show_totals o)
    then draw_line_total color (f_of_Z (l_total_sent line)) (f_of_Z (l_total_recv line)) y
           (COLS - 8 * (HISTORY_DIVISIONS + 1)) (linedisplay o) 1
    else Some [])) as [tot ->] by (destruct (truth (show_totals o)); [by apply draw_line_total_some|by eexists]).
  cbn [mbind option_bind]. destruct (IH (y + step o) Hls) as [[b' cs'] ->]. by eexists.
Qed.

Lemma room_fits y n : (n <= room y)%nat -> n <> 0%nat -> y + step o * Z.of_nat n <= LINES - 4.
Proof.
  intros Hn Hz. unfold room in Hn. pose proof step_cases as Hs.
  pose proof (Z.mul_div_le (LINES - 5 - y + step o - 1) (step o) ltac:(lia)).
  set (q := (LINES - 5 - y + step o - 1) / step o) in *. assert (Z.of_nat n <= q) by lia.
  destruct Hs as [E|E]; rewrite E in *; lia.
Qed.

(** The page of the screen shows, from the row below the scale on and each
    one below the other, the first lines after the scroll offset of which a
    host passes the screen filter, in the order of the list and as many as fit;
    every text of a line is at its row and column (the source first, the
    destination after the arrow, then the columns of rates); no line writes
    above its row or on the rows of the totals; and without bars every page is
    drawn. *)
Theorem page_shows_lines (ls : list host_pair_line) (y : Z) (b : bars) :
  Forall hosts_printed ls -> (forall s, filter_match s = Some (passes s)) ->
  0 <= linedisplay o <= 3 -> Forall rates3 ls ->
  let page := page_loop o COLS LINES has_colors log color resolve inet_ntop filter_match t (offset_lines o ls) y b in
  (forall b' cs, page = Some (b', cs) -> Forall (within y (LINES - 4)) cs /\
    texts cs = page_texts y (take (room y)
      (filter (fun line => passes (hosts line).1 || passes (hosts line).2) (drop (Z.to_nat (screen_offset o)) ls)))) /\
  (truth (showbars o) = false -> is_Some page).
Proof.
  intros Hh Hf Hd Hr page.
  assert (page = draw_entries (take (room y) (filter shown (offset_lines o ls))) y b) as E.
  { apply page_loop_entries; [|done]. by apply Forall_drop. }
  assert (Forall rates3 (take (room y) (filter shown (offset_lines o ls)))) as Hr'.
  { apply Forall_take, Forall_forall. intros line [_ Hin]%list_elem_of_filter.
    apply (Forall_drop _ (Z.to_nat (screen_offset o))) in Hr. rewrite Forall_forall in Hr. by apply Hr. }
  rewrite E. split.
  - intros b' cs Hcs. split; [|by eapply draw_entries_texts].
    apply draw_entries_rows in Hcs; [done|]. intros Hn. apply room_fits; [apply firstn_le_length|].
    by destruct (take _ _).
  - intros Hb. by apply draw_entries_some.
Qed.

End page.

(** Which hosts are printed: those of a family that inet_ntop and resolve()
    know, in a field that is wide enough for resolve(), and all-zero ones. *)
Definition printable_pair (ap : addr_pair) : Prop :=
  known_family (address_family ap) \/ src ap = zeros16 /\ dst ap = zeros16.

Section hosts.
Context (o : options_t) (COLS : Z) (t : serv_table).
Context (resolve : Z -> list Z -> Z -> option string) (inet_ntop : Z -> list Z -> option string).
Hypothesis inet_ntop_known : forall af addr, known_family af -> is_Some (inet_ntop af addr).
Hypothesis resolve_writes : forall af addr n, known_family af -> 2 <= n -> is_Some (resolve af addr n).

Lemma host_text_some af addr maxlen :
  known_family af \/ addr = zeros16 -> (truth (dnsresolution o) = true -> 2 <= maxlen) ->
  is_Some (host_text resolve inet_ntop o af addr maxlen).
Proof.
  intros Hk Hw. unfold host_text. case_bool_decide; [by eexists|]. destruct Hk as [Hk|]; [|done].
  destruct (truth _); auto.
Qed.

Lemma sprint_host_some C m af addr port protocol :
  serv_rep t C m -> COLS < 540 -> known_family af \/ addr = zeros16 ->
  (truth (dnsresolution o) = true -> 2 <= host_width o COLS) ->
  exists text, sprint_host resolve inet_ntop o t af addr port protocol (host_width o COLS) = Some text.
Proof.
  intros Hr Hc Hk Hw. pose proof (host_width_range o COLS) as [H1 H2].
  destruct (host_text_some af addr (host_width o COLS) Hk Hw) as [h Hh].
  destruct (sprint_host_field resolve inet_ntop o t C m af addr h port protocol (host_width o COLS) Hr) as (text & E & _);
    [lia|exact Hh|by exists text].
Qed.

Lemma line_hosts_some C m line :
  serv_rep t C m -> COLS < 540 -> printable_pair (l_ap line) ->
  (truth (dnsresolution o) = true -> 2 <= host_width o COLS) ->
  is_Some (line_hosts o COLS resolve inet_ntop t line).
Proof.
  intros Hr Hc Hk Hw. unfold line_hosts. set (ap := l_ap line) in *.
  destruct (sprint_host_some C m (address_family ap) (src ap) (src_port ap) (protocol ap) Hr Hc) as [h1 ->];
    [destruct Hk as [|[]]; auto|done|].
  destruct (sprint_host_some C m (address_family ap) (dst ap) (dst_port ap) (protocol ap) Hr Hc) as [h2 ->];
    [destruct Hk as [|[]]; auto|done|].
  by eexists.
Qed.
End hosts.

(** ** The scale over time *)
Fixpoint rescale_all (rates : list Z) (b : bars) : option bars :=
  match rates with
  | [] => Some b
  | r :: rates => b ← rescale r b; rescale_all rates b
  end.

(** Repaints, each with the rates of its bars. *)
Fixpoint repaints (o : options_t) (frames : list (list Z)) (b : bars) : option bars :=
  match frames with
  | [] => Some b
  | rates :: frames => b ← rescale_all rates b; repaints o frames (auto_scale o b)
  end.

Definition scale_ok (b : bars) : Prop :=
  0 <= rateidx b /\ (rateidx_init b = 0 -> rateidx b = 0 /\ wantbiggerrate b = 0) /\
  (rateidx b <= 5 \/ rateidx b = 6 /\ wantbiggerrate b = 0).

Lemma rescale_ok r b : 0 < r <= 10000000 -> scale_ok b -> exists b', rescale r b = Some b' /\ scale_ok b'.
Proof.
  intros Hr (H0 & Hi & Hb). unfold rescale.
  assert (rateidx b = 0 \/ rateidx b = 1 \/ rateidx b = 2 \/ rateidx b = 3 \/ rateidx b = 4 \/ rateidx b = 5 \/
    rateidx b = 6) as Hc by lia.
  assert (exists i, init_loop r 0 scale = Some i /\ 1 <= i <= 5) as (i & Ei & Hi5).
  { cbn [init_loop scale].
    repeat match goal with |- context [?a <? r] => destruct (Z.ltb_spec a r); [|by eexists; split; [done|lia]] end. lia. }
  destruct Hc as [E|[E|[E|[E|[E|[E|E]]]]]]; rewrite E;
    (match goal with |- context [scale !!z ?k] => let v := eval vm_compute in (scale !!z k) in
       change (scale !!z k) with v end; cbn [mbind option_bind]);
    (match goal with |- context [?a <? r] => destruct (Z.ltb_spec a r) end; [|exists b; split; [done|unfold scale_ok; lia]]);
    try lia; destruct (Z.eqb_spec (rateidx_init b) 0); try lia;
    try (change (init_loop r 0 _) with (init_loop r 0 scale); rewrite Ei; cbn [mbind option_bind]);
    (eexists; split; [done|]; unfold scale_ok; cbn [rateidx rateidx_init wantbiggerrate]; lia).
Qed.

Lemma auto_scale_ok o b : scale_ok b -> scale_ok (auto_scale o b).
Proof.
  intros (H0 & Hi & Hb). unfold auto_scale, truth. destruct (Z.eqb_spec (wantbiggerrate b) 0); [done|].
  destruct (max_bandwidth o =? 0); [|done]. unfold scale_ok. cbn [andb negb rateidx rateidx_init wantbiggerrate]. lia.
Qed.

(** What moves the scale: a bar of at most 10 Mbit/s, a marker of the scale,
    which is at most the full scale, and the end of a repaint. *)
Inductive bars_step (o : options_t) : bars -> bars -> Prop :=
  | bar_drawn r b b' : 0 < r <= 10000000 -> rescale r b = Some b' -> bars_step o b b'
  | marker_drawn r m b b' : scale !!z rateidx b = Some m -> r <= m -> rescale r b = Some b' -> bars_step o b b'
  | repaint_ended b : bars_step o b (auto_scale o b).

Lemma bars_step_ok o b b' : bars_step o b b' -> scale_ok b -> scale_ok b'.
Proof.
  intros [r b1 b2 Hr E|r m b1 b2 Hm Hr E|b1] Hb; [| |by apply auto_scale_ok].
  - destruct (rescale_ok r b1 Hr Hb) as (b3 & E3 & H3). by simplify_eq.
  - unfold rescale in E. rewrite Hm in E. cbn [mbind option_bind] in E.
    rewrite (proj2 (Z.ltb_ge _ _)) in E by done. by injection E as <-.
Qed.

(** As long as no bar shows a rate above 10 Mbit/s, the automatic scale of
    the bar chart stays in its table through every sequence of bars, markers
    and repaints, and the next such bar finds its entry. *)
Theorem bar_scale_in_table (o : options_t) (b : bars) :
  rtc (bars_step o) bars_init b ->
  0 <= rateidx b < Z.of_nat (length scale) /\
  forall r, 0 < r <= 10000000 -> exists b', rescale r b = Some b' /\ 0 <= rateidx b' < Z.of_nat (length scale).
Proof.
  intros Hs. assert (scale_ok b) as Hb.
  { assert (scale_ok bars_init) as H0 by (unfold scale_ok, bars_init; simpl; lia). revert H0.
    induction Hs; [done|]. eauto using bars_step_ok. }
  assert (forall b, scale_ok b -> 0 <= rateidx b < Z.of_nat (length scale)) as Hin
    by (intros b1 (H0 & _ & H6); simpl; lia).
  split; [auto|]. intros r Hr. destruct (rescale_ok r b Hr Hb) as (b' & E & H'). exists b'. auto.
Qed.

Definition demo_bars : bars := default bars_init (rescale 300000 bars_init).

Lemma bar_scale_in_table_witness :
  0 <= rateidx (auto_scale (options_set_defaults None None) demo_bars) < Z.of_nat (length scale) /\
  forall r, 0 < r <= 10000000 -> exists b', rescale r (auto_scale (options_set_defaults None None) demo_bars) = Some b' /\
    0 <= rateidx b' < Z.of_nat (length scale).
Proof.
  apply (bar_scale_in_table (options_set_defaults None None)).
  eapply rtc_l; [apply (bar_drawn _ 300000 _ demo_bars); [lia|vm_compute; reflexivity]|].
  eapply rtc_l; [apply repaint_ended|apply rtc_refl].
Defined.

(** The first bar above 10 Mbit/s takes the scale past the end of its table,
    from which the next repaint reads: the first search steps over the entry it
    finds, and the repaint steps once more. *)
Lemma fast_link_leaves_scale :
  repaints (options_set_defaults None None) [[20000000]; [20000000]] bars_init = None /\
  repaints (options_set_defaults None None) [[200000000; 1]] bars_init = None.
Proof. split; vm_compute; reflexivity. Qed.

(** A rate above 2^31 bits per second has no conversion to [int]. *)
Lemma fast_bar_overflows_int :
  draw_bar (options_set_defaults None None) 80 true (fun x => x) (f_of_Z 300000000) 0 0 bars_init = None.
Proof. by vm_compute. Qed.

(** Nine characters of a sum do not fit a line of fewer columns. *)
Lemma narrow_line_overflows :
  in_line 6 (readable_size (f_of_Z 1000) 10 1024 1) = None.
Proof. by vm_compute. Qed.

Definition demo_page_options : options_t := set_showbars 0 (set_screen_offset 1 (options_set_defaults None None)).
Definition demo_line (port : Z) : host_pair_line :=
  Line (AddrPair 2 6 port (10 :: replicate 15 0) 443 (11 :: replicate 15 0)) 5 9 [f_of_Z 1; f_of_Z 2; f_of_Z 3]
    [f_of_Z 4; f_of_Z 5; f_of_Z 6] "" 0 "".

Definition demo_hosts (line : host_pair_line) : string * string :=
  default ("", "")%string
    (line_hosts demo_page_options 80 (fun _ _ _ => Some "host") (fun _ _ => Some "10.0.0.1") demo_services line).

Lemma page_shows_lines_witness :
  let ls := [demo_line 1; demo_line 2; demo_line 3; demo_line 4] in
  let passes s := negb (String.eqb (str_take 9 s) "10.0.0.1:") in
  is_Some (page_loop demo_page_options 80 10 true (fun x => x) (fun _ => (4, 1)) (fun _ _ _ => Some "host")
    (fun _ _ => Some "10.0.0.1") (fun s => Some (passes s)) demo_services (offset_lines demo_page_options ls) 1 bars_init).
Proof.
  intros ls passes.
  apply (page_shows_lines demo_page_options 80 10 true (fun x => x) (fun _ => (4, 1)) (fun _ _ _ => Some "host")
    (fun _ _ => Some "10.0.0.1") (fun s => Some (passes s)) demo_services demo_hosts passes ls 1 bars_init);
    [|done|done| |done]; repeat constructor; vm_compute; reflexivity.
Defined.
