(* ===== verification/Bars.v ===== *)
(** * The bars of the screen stay in range (src/ui/ui.c)

    The state that the bar chart keeps from one repaint to the next: the entry
    of the scale, and for each row the length that the smoothing of draw_bar
    has reached.  With the linear, automatic scale (the default), and no bar
    above 10 Mbit/s or the scale reached before, every bar and every marker of a repaint can be drawn and
    leaves that state in range; the smoothing never leaves the interval
    between the old length and the new one. *)

From S2P Require Import Prelude CStr Hash AddrHash History OptionsT OptionsCfg Float FloatBounds FloatOrder SortedList Analyse ServHash Colors Export UiFormat UiPrint.

Local Open Scope Z_scope.

Lemma emin_24 : emin 24 128 <= 0.
Proof. vm_compute. congruence. Qed.

(** A call that leaves the rows from [lo] up to [hi] as they are; a call is
    taken to write on its own row. *)
Definition off_page (lo hi : Z) (c : cmd) : Prop :=
  match c with
  | Erase | ClrToEol => False
  | _ => match cmd_row c with Some y => y < lo \/ hi <= y | None => True end
  end.

(** ** Floats between zero and a power of two *)
Abbreviation worth := (valued 24 128) (only parsing).

Definition fits (k : Z) (x : spec_float) : Prop := exists v, worth x v /\ 0 <= v <= 2 ^ (k + 149).

Lemma fits_mono k k' x : 0 <= k <= k' -> fits k x -> fits k' x.
Proof.
  intros Hk (v & Hv & Hr). exists v. split; [done|].
  assert (2 ^ (k + 149) <= 2 ^ (k' + 149)) by (apply Z.pow_le_mono_r; lia). lia.
Qed.

Lemma fits_zero k s : fits k (S754_zero s).
Proof. exists 0. split; [done|]. split; [done|]. by apply Z.pow_nonneg. Qed.

#[local] Hint Resolve fits_zero : core.

Lemma f_of_Z_fits n k : 0 <= k <= 100 -> 0 <= n <= 2 ^ k ->
  exists v, worth (f_of_Z n) v /\ 0 <= v <= 2 ^ (k + 149) /\ v <= 2 * (n * 2 ^ 149).
Proof.
  intros Hk Hn. destruct (binary_normalize_order 24 128 eq_refl emin_24 n 0 false k) as (v & Hv & H1 & H2 & H3 & _);
    change (emin 24 128) with (-149) in *; try lia.
  - change (0 - -149) with 149. replace (k - -149) with (k + 149) by lia. rewrite Z.pow_add_r by lia. nia.
  - change (0 - -149) with 149 in *. replace (k - -149) with (k + 149) in H1 by lia.
    exists v. specialize (H3 ltac:(lia)). split_and!; [done|lia..].
Qed.

Lemma f_add_fits x y v w k :
  worth x v -> worth y w -> 0 <= v + w <= 2 ^ (k + 149) -> 0 <= k <= 100 -> fits k (f_add x y).
Proof.
  intros Hx Hy Hle Hk.
  destruct (SFadd_order 24 128 eq_refl emin_24 x y v w k Hx Hy) as (u & Hu & H1 & _ & H3 & _);
    change (emin 24 128) with (-149) in *; replace (k - -149) with (k + 149) in * by lia; try lia.
  exists u. specialize (H3 ltac:(lia)). split; [done|lia].
Qed.

Lemma f_mul_fits x y i j : 0 <= i -> 0 <= j -> i + j <= 100 -> fits i x -> fits j y -> fits (i + j) (f_mul x y).
Proof.
  intros Hi Hj Hij (v & Hx & Hv) (w & Hy & Hw).
  assert (v * w <= 2 ^ (i + j + 149 + 149)) as Hle.
  { replace (i + j + 149 + 149) with (i + 149 + (j + 149)) by lia. rewrite Z.pow_add_r by lia. nia. }
  destruct (SFmul_order 24 128 eq_refl emin_24 x y v w (i + j) Hx Hy) as (u & Hu & H1 & _ & H3 & _);
    change (emin 24 128) with (-149) in *; try lia.
  - replace (i + j - -149 - -149) with (i + j + 149 + 149) by lia. rewrite Z.abs_eq by nia. done.
  - exists u. specialize (H3 ltac:(nia)). replace (i + j - -149) with (i + j + 149) in H1 by lia. split; [done|lia].
Qed.

Lemma f_div_fits x y v w k :
  worth x v -> worth y w -> 0 <= v -> 0 < w -> 0 <= k <= 100 -> v <= 2 ^ k * w -> fits k (f_div x y).
Proof.
  intros Hx Hy Hv Hw Hk Hle.
  destruct (SFdiv_order 24 128 eq_refl emin_24 x y v w k Hx Hy Hv Hw) as (u & Hu & H1);
    [lia|done|]. change (emin 24 128) with (-149) in *. replace (k - -149) with (k + 149) in * by lia. by exists u.
Qed.

Lemma int_of_fits x k : 0 <= k <= 30 -> fits k x -> exists n, int_of x = Some n /\ 0 <= n <= 2 ^ k.
Proof.
  intros Hk (v & Hx & Hv). assert (2 ^ (k + 149) < 2 ^ (31 + 149)) by (apply Z.pow_lt_mono_r; lia).
  rewrite (int_of_valued 24 128 x v) by (change (emin 24 128) with (-149); try done; try lia).
  eexists. split; [done|]. change (- emin 24 128) with 149. rewrite Z.pow_add_r in Hv by lia.
  split; [apply Z.div_pos; [lia|done]|]. apply Z.div_le_upper_bound; lia.
Qed.

(** ** The smoothing *)
Lemma smoothing_fits prev target k :
  0 <= k <= 29 -> fits k prev -> fits k target ->
  fits k (f_add prev (f_mul (f_sub target prev) BAR_SMOOTH_FACTOR)).
Proof.
  intros Hk (p & Hp & Hpr) (t & Ht & Htr).
  assert (2 ^ (k + 149) <= 2 ^ 178) by (apply Z.pow_le_mono_r; lia).
  destruct (SFsub_order 24 128 eq_refl emin_24 target prev t p k Ht Hp) as (d & Hd & D1 & D2 & D3 & D4);
    change (emin 24 128) with (-149) in *; replace (k - -149) with (k + 149) in * by lia; try lia.
  assert (worth BAR_SMOOTH_FACTOR (10066330 * 2 ^ 123)) as Hf by (split; [vm_compute; congruence|reflexivity]).
  destruct (SFmul_order 24 128 eq_refl emin_24 _ _ d _ k Hd Hf) as (u & Hu & U1 & U2 & U3 & U4);
    change (emin 24 128) with (-149) in *; try lia.
  - replace (k - -149 - -149) with (k + 149 + 149) by lia. rewrite Z.abs_mul, (Z.pow_add_r 2 (k + 149)) by lia.
    apply Z.mul_le_mono_nonneg; [lia|done|lia|vm_compute; congruence].
  - change (- -149) with (26 + 123) in U2. rewrite Z.pow_add_r, Z.abs_mul in U2 by lia.
    change (Z.abs (10066330 * 2 ^ 123)) with (10066330 * 2 ^ 123) in U2.
    assert (Z.abs u * 2 ^ 26 <= 2 * (Z.abs d * 10066330)) as U5 by lia.
    assert (same_sign u (t - p)) as [S1 S2] by (split; intros; [apply U3|apply U4]; specialize (D3 ltac:(lia)) || specialize (D4 ltac:(lia)); lia).
    change (2 ^ 26) with 67108864 in U5. apply (f_add_fits prev _ p u k); try done; try lia.
Qed.

(** ** The state of the chart *)

(** In range, for bars of up to [lim] bits per second: any that 10 Mbit/s or
    the current scale covers. *)
Record bars_ok (lim : Z) (b : bars) : Prop := BarsOk {
  bo_scale : scale_ok b;
  bo_limit : lim <= 10000000 \/ exists m, scale !!z rateidx b = Some m /\ lim <= m;
  bo_rows : Z.of_nat (length (bar_smooth b)) = BAR_SMOOTH_MAX_ROWS;
  bo_smooth : Forall (fits 29) (bar_smooth b)
}.

Lemma bars_init_ok : bars_ok 10000000 bars_init.
Proof.
  split; [unfold scale_ok, bars_init; simpl; lia|by left|done|]. apply Forall_replicate, fits_zero.
Qed.

(** An entry of the scale, which a float holds exactly. *)
Lemma scale_entry b : scale_ok b ->
  exists m, scale !!z rateidx b = Some m /\ 64000 <= m <= 1000000000 /\ worth (f_of_Z m) (m * 2 ^ 149).
Proof.
  intros (H0 & _ & H6). assert (rateidx b = 0 \/ rateidx b = 1 \/ rateidx b = 2 \/ rateidx b = 3 \/ rateidx b = 4 \/
    rateidx b = 5 \/ rateidx b = 6) as Hc by lia.
  destruct Hc as [-> |[-> |[-> |[-> |[-> |[-> | ->]]]]]]; (eexists; split; [reflexivity|]; split; [lia|]);
    (split; [vm_compute; congruence|vm_compute; reflexivity]).
Qed.

Lemma auto_scale_bars lim o b : bars_ok lim b -> bars_ok lim (auto_scale o b).
Proof.
  intros [H1 H2 H3 H4]. pose proof (auto_scale_ok o b H1) as H1'. split; [done| |by unfold auto_scale; destruct (_ && _)..].
  destruct H2 as [|(m & Em & Hm)]; [by left|right]. destruct (scale_entry _ H1') as (m' & Em' & _). exists m'. split; [done|].
  revert Em'. unfold auto_scale. destruct (_ && _) eqn:E; [|intros Em'; assert (m' = m) by congruence; lia].
  apply andb_prop in E as [E _]. destruct H1 as (H0 & _ & H6). cbn [rateidx]. intros Em'.
  assert (rateidx b <> 6) as Hn6.
  { intros E6. destruct H6 as [|[_ Ew]]; [lia|]. by rewrite Ew in E. }
  assert (rateidx b = 0 \/ rateidx b = 1 \/ rateidx b = 2 \/ rateidx b = 3 \/ rateidx b = 4 \/ rateidx b = 5) as Hc by lia.
  destruct Hc as [Eq|[Eq|[Eq|[Eq|[Eq|Eq]]]]]; rewrite Eq in Em, Em'; vm_compute in Em, Em'; simplify_eq; lia.
Qed.

Lemma rescale_smooth r b b' : rescale r b = Some b' -> bar_smooth b' = bar_smooth b.
Proof.
  unfold rescale. intros (m & _ & H)%bind_Some. destruct (m <? r); [|by injection H as <-].
  destruct (_ =? 0); [apply bind_Some in H as (i & _ & H)|]; by injection H as <-.
Qed.

Lemma rescale_bars lim r b : 0 < r -> bars_ok lim b -> r <= lim \/ (exists m, scale !!z rateidx b = Some m /\ r <= m) ->
  exists b' m, rescale r b = Some b' /\ bars_ok lim b' /\ scale !!z rateidx b' = Some m /\ r <= 256 * m.
Proof.
  intros Hr [H1 H2 H3 H4] Hm. assert ((exists m, scale !!z rateidx b = Some m /\ r <= m) \/ r <= 10000000 /\ lim <= 10000000)
    as [(m & Em & Hm')|[Hs Hl]].
  { destruct Hm as [Hm|?]; [|by left]. destruct H2 as [?|(m & Em & ?)]; [right; lia|left; exists m; split; [done|lia]]. }
  - exists b, m. unfold rescale. rewrite Em. cbn [mbind option_bind]. rewrite (proj2 (Z.ltb_ge _ _)) by lia.
    split_and!; [done|done|done|]. lia.
  - destruct (rescale_ok r b ltac:(lia) H1) as (b' & E & Hb'). destruct (scale_entry b' Hb') as (m & Em & Hmr & _).
    pose proof (rescale_smooth _ _ _ E) as Es. exists b', m. split_and!; [done| |done|lia].
    split; [done|by left|by rewrite Es..].
Qed.

Section chart.
Context (o : options_t) (COLS LINES : Z) (has_colors : bool) (log : spec_float -> spec_float).
Context (color : string -> Z * Z).
Hypothesis auto : max_bandwidth o = 0.
Hypothesis linear : truth (log_scale o) = false.
Hypothesis wide : 0 <= COLS <= 1024.

Lemma bar_length_ok lim r b :
  bars_ok lim b -> r <= lim \/ (exists m, scale !!z rateidx b = Some m /\ r <= m) ->
  exists n b', get_bar_length_eighths o COLS log r b = Some (n, b') /\ 0 <= n <= 2 ^ 22 /\ bars_ok lim b' /\
    (forall m, scale !!z rateidx b = Some m -> r <= m -> b' = b).
Proof.
  intros Hb Hr. unfold get_bar_length_eighths, get_max_bandwidth. rewrite auto, linear.
  destruct (Z.leb_spec r 0); [by exists 0, b|].
  destruct (rescale_bars lim r b ltac:(lia) Hb Hr) as (b' & m & E & Hb' & Em & Hm). rewrite E. cbn [mbind option_bind].
  change (0 <? 0) with false. cbv iota. rewrite Em. cbn [mbind option_bind].
  destruct (scale_entry b' (bo_scale _ _ Hb')) as (m' & Em' & Hmr & Hw). assert (m' = m) as -> by congruence.
  destruct (f_of_Z_fits r 38) as (v & Hv & Hv1 & Hv2); [lia|lia|].
  assert (fits 9 (f_div (f_of_Z r) (f_of_Z m))) as H9.
  { apply (f_div_fits _ _ v (m * 2 ^ 149)); try done; try lia. }
  assert (fits 10 (f_of_Z COLS)) as HC by (destruct (f_of_Z_fits COLS 10) as (c & ? & ? & _); [lia..|]; by exists c).
  assert (fits 3 (f_of_Z 8)) as H8 by (destruct (f_of_Z_fits 8 3) as (c & ? & ? & _); [lia..|]; by exists c).
  destruct (int_of_fits _ 22 ltac:(lia) (f_mul_fits _ _ 19 3 ltac:(lia) ltac:(lia) ltac:(lia)
    (f_mul_fits _ _ 9 10 ltac:(lia) ltac:(lia) ltac:(lia) H9 HC) H8)) as (n & -> & Hn).
  cbn [mbind option_bind]. exists n, b'. split_and!; [done|lia|lia|done|]. intros m0 Em0 Hm0.
  unfold rescale in E. rewrite Em0 in E. cbn [mbind option_bind] in E. rewrite (proj2 (Z.ltb_ge _ _)) in E by lia.
  by injection E as <-.
Qed.

(** A rate of at most [lim] bits per second. *)
Definition slow_rate (lim : Z) (bandwidth : spec_float) : bool :=
  match int_of (f_mul (f_of_Z 8) bandwidth) with Some r => r <=? lim | None => false end.

Lemma draw_bar_ok lim bandwidth row pair b :
  bars_ok lim b -> slow_rate lim bandwidth = true ->
  exists b' cs, draw_bar o COLS has_colors log bandwidth row pair b = Some (b', cs) /\ bars_ok lim b' /\
    (forall lo hi, row < lo \/ hi <= row -> Forall (off_page lo hi) cs).
Proof.
  intros Hb Hs. unfold slow_rate in Hs. unfold draw_bar. destruct (int_of _) as [r|]; [|done]. cbn [mbind option_bind].
  destruct (bar_length_ok lim r b Hb) as (n & b1 & -> & Hn & [S1 S0 S2 S3] & _); [left; lia|]. cbn [mbind option_bind].
  destruct (f_of_Z_fits n 22) as (v & Hv & Hv1 & _); [lia..|].
  assert (fits 29 (f_div (f_of_Z n) (f_of_Z 8))) as Ht.
  { apply (f_div_fits _ _ v (2 ^ 152)); try done; try lia. }
  assert (forall x, fits 29 x -> exists l, int_of (f_add x (f_div (f_of_Z 1) (f_of_Z 2))) = Some l) as Hint.
  { intros x (w & Hw & Hwr). edestruct (int_of_fits (f_add x (f_div (f_of_Z 1) (f_of_Z 2))) 30) as (l & -> & _); [lia| |by eexists].
    apply (f_add_fits _ _ w (2 ^ 148)); [done|split; vm_compute; congruence| |lia].
    change (2 ^ (29 + 149)) with (2 ^ 178) in Hwr. change (2 ^ (30 + 149)) with (2 ^ 178 + 2 ^ 178).
    assert (2 ^ 148 <= 2 ^ 178) by (apply Z.pow_le_mono_r; lia). assert (0 <= 2 ^ 148) by lia. lia. }
  assert (forall len lo hi, row < lo \/ hi <= row -> Forall (off_page lo hi) (ChgAt row 0 0 false 0 ::
    (if 0 <? len then [ChgAt row 0 (if COLS <? len then COLS else len) true (if has_colors then pair else 0)] else []))) as Hrow.
  { intros len lo hi Hr. constructor; [done|]. destruct (0 <? len); repeat (apply Forall_cons; split; [done|]); apply Forall_nil_2. }
  destruct (Z.leb_spec 0 row) as [H0|H0], (Z.ltb_spec row BAR_SMOOTH_MAX_ROWS) as [H1|H1]; cbn [andb];
    try (destruct (Hint _ Ht) as (len & ->); cbn [mbind option_bind]; eexists _, _; split; [done|]; split; [by split|by apply Hrow]).
  destruct (proj2 (lookup_z_lt_is_Some (bar_smooth b1) row) ltac:(lia)) as [prev Ep]. rewrite Ep. cbn [mbind option_bind].
  assert (fits 29 prev) as Hprev.
  { apply lookup_z_Some in Ep as [_ Ep]. rewrite Forall_forall in S3. apply S3. by eapply list_elem_of_lookup_2. }
  set (x := if _ && _ then _ else _). assert (fits 29 x) as Hx by (unfold x; destruct (_ && _); [done|by apply smoothing_fits]).
  destruct (store_z (bar_smooth b1) row x) as [l|] eqn:El.
  2:{ exfalso. assert (store_z (bar_smooth b1) row x = Some (<[Z.to_nat row := x]> (bar_smooth b1))); [|congruence].
      apply store_z_Some. split; [lia|done]. }
  cbn [mbind option_bind]. destruct (Hint x Hx) as (len & ->). cbn [mbind option_bind]. eexists _, _. split; [done|].
  split; [|by apply Hrow]. apply store_z_Some in El as [_ ->]. split; cbn [bar_smooth]; [done|done|by rewrite length_insert|].
  by apply Forall_insert.
Qed.

Lemma colored_bar_ok lim bandwidth row c b :
  bars_ok lim b -> slow_rate lim bandwidth = true ->
  exists b' cs, colored_bar o COLS has_colors log color bandwidth row c b = Some (b', cs) /\ bars_ok lim b' /\
    (forall lo hi, row < lo \/ hi <= row -> Forall (off_page lo hi) cs).
Proof.
  intros Hb Hs. unfold colored_bar. destruct (draw_bar_ok lim bandwidth row (color c).1 b Hb Hs) as (b' & cs & -> & Hb' & Hcs).
  cbn [mbind option_bind]. eexists _, _. split_and!; [done|done|]. intros lo hi Hr. rewrite !Forall_app.
  split_and!; [by destruct (_ =? BOLD); repeat constructor|by apply Hcs|by destruct (_ =? BOLD); repeat constructor].
Qed.

(** A line whose bars, over the averages [i], show at most [lim]. *)
Definition slow_line (lim i : Z) (line : host_pair_line) : bool :=
  match l_sent line !!z i, l_recv line !!z i with
  | Some s, Some r => slow_rate lim (f_of s) && slow_rate lim (f_of r) && slow_rate lim (f_of (ld_add r s))
  | _, _ => false
  end.

Lemma draw_line_bars_ok lim row line display b :
  0 <= display <= 3 -> bars_ok lim b -> slow_line lim (bar_interval o) line = true ->
  exists b' cs, draw_line_bars o COLS has_colors log color row line display b = Some (b', cs) /\ bars_ok lim b' /\
    (forall lo hi, row + 1 < lo \/ hi <= row -> Forall (off_page lo hi) cs).
Proof.
  intros Hd Hb Hs. unfold slow_line in Hs. unfold draw_line_bars.
  destruct (l_sent line !!z _) as [s|]; [|done]. destruct (l_recv line !!z _) as [r|]; [|done].
  apply andb_prop in Hs as [[Hs Hr]%andb_prop Hsr]. cbn [mbind option_bind].
  assert (display = 0 \/ display = 1 \/ display = 2 \/ display = 3) as Hc by lia.
  assert (forall x c, slow_rate lim x = true -> exists b' cs, colored_bar o COLS has_colors log color x row c b = Some (b', cs) /\
    bars_ok lim b' /\ (forall lo hi, row + 1 < lo \/ hi <= row -> Forall (off_page lo hi) cs)) as H1.
  { intros x c Hx. destruct (colored_bar_ok lim x row c b Hb Hx) as (b' & cs & E & Hb' & Hcs). exists b', cs.
    split_and!; [done..|]. intros lo hi Hrow. apply Hcs. lia. }
  destruct Hc as [-> |[-> |[-> | ->]]]; cbn -[colored_bar];
    [|by apply H1..].
  destruct (H1 (f_of s) "SENT_BAR_COLOR" Hs) as (b1 & c1 & -> & Hb1 & Hc1). cbn [mbind option_bind].
  destruct (colored_bar_ok lim (f_of r) (row + 1) "RECEIVE_BAR_COLOR" b1 Hb1 Hr) as (b2 & c2 & -> & Hb2 & Hc2).
  cbn [mbind option_bind]. eexists _, _. split_and!; [done|done|]. intros lo hi Hrow. apply Forall_app.
  split; [by apply Hc1|apply Hc2; lia].
Qed.

(** ** The scale *)
Fixpoint markers_fit (fuel : nat) (m : Z) (max marker stop : spec_float) : bool :=
  match fuel with
  | O => false
  | S fuel =>
      if SFleb marker stop then
        match int_of (f_mul marker (f_of_Z 8)) with
        | Some r => (r <=? m) && markers_fit fuel m max (f_add marker (f_div max (f_of_Z 40))) stop
        | None => false
        end
      else true
  end.

Lemma marker_loop_ok lim fuel row m max interval marker stop b :
  bars_ok lim b -> scale !!z rateidx b = Some m -> markers_fit fuel m max marker stop = true ->
  exists cs, marker_loop o COLS log color fuel row max interval marker stop b = Some (b, cs).
Proof.
  intros Hb Em. revert marker. induction fuel as [|fuel IH]; intros marker; [done|].
  cbn [markers_fit marker_loop]. destruct (SFleb marker stop); [|by eexists].
  destruct (int_of _) as [r|]; [|done]. intros [Hr H]%andb_prop. apply Z.leb_le in Hr. cbn [mbind option_bind].
  unfold get_bar_length. destruct (bar_length_ok lim r b Hb) as (n & b' & -> & _ & _ & Hsame); [right; by exists m|].
  rewrite (Hsame m Em Hr). cbn [mbind option_bind]. rewrite linear. destruct (IH _ H) as [cs ->]. by eexists.
Qed.

Lemma scale_markers_fit i m : scale !!z i = Some m ->
  markers_fit MARKERS m (f_of_Z m) (f_div (f_of_Z m) (f_of_Z 40)) (f_div (f_of_Z m) (f_of_Z 8)) = true.
Proof.
  assert (Forall (fun m => markers_fit MARKERS m (f_of_Z m) (f_div (f_of_Z m) (f_of_Z 40)) (f_div (f_of_Z m) (f_of_Z 8)) = true)
    scale) as H by (repeat (apply Forall_cons; split; [vm_compute; reflexivity|]); apply Forall_nil_2).
  intros [_ Em]%lookup_z_Some. rewrite Forall_forall in H. apply (H m). by eapply list_elem_of_lookup_2.
Qed.

Lemma auto_bandwidth b m : scale !!z rateidx b = Some m -> get_max_bandwidth o b = Some (f_of_Z m).
Proof. intros Em. unfold get_max_bandwidth. by rewrite auto, Em. Qed.

Lemma draw_bar_scale_ok lim b :
  bars_ok lim b -> truth (showbars o) = true ->
  exists cs, draw_bar_scale o COLS log color 0 b = Some (2, b, cs).
Proof.
  intros Hb Hs. destruct (scale_entry b (bo_scale _ _ Hb)) as (m & Em & _).
  destruct (marker_loop_ok lim MARKERS 0 m (f_of_Z m) (f_of_Z (get_bar_interval (f_of_Z m))) (f_div (f_of_Z m) (f_of_Z 40))
    (f_div (f_of_Z m) (f_of_Z 8)) b Hb Em (scale_markers_fit _ m Em)) as [cs E].
  revert E. unfold draw_bar_scale. generalize (marker_loop o COLS log color) as markers. intros markers E.
  rewrite (auto_bandwidth b m Em), Hs, linear. cbn [mbind option_bind]. rewrite E. by eexists.
Qed.
End chart.

(** With a limit given (-m) the bars are not cut to it before the conversion to int. *)
Lemma small_limit_overflows_int :
  draw_bar (set_max_bandwidth 1 (options_set_defaults None None)) 80 true (fun x => x) (f_of_Z 1250000) 0 0 bars_init = None.
Proof. by vm_compute. Qed.
