(* ===== verification/Paint.v ===== *)
(** * From the captured flows to the screen

    The composition of the program ([Main]) with a repaint ([UiPrint], [Bars]):
    what tick draws, in any state the program reaches, is the page of the
    captured flows.  With bars, the scale is the linear automatic one and no bar
    exceeds 10 Mbit/s or what the scale has reached: it may leave its table (see
    [UiPrint.fast_link_leaves_scale]). *)

From S2P Require Import Prelude Bytes Chain Hash Pool AddrHash History CStr OptionsT OptionsCfg ProcInfo Packet NetFilter Float SortedList Analyse ServHash EdLine Session UiKeys Export Pipeline Main DataInv Pairs Colors UiFormat UiPrint Bars.

Local Open Scope Z_scope.

(** ** A repaint *)

Lemma readable_size_short v ksize bytes : (strlen (readable_size v 10 ksize bytes) <= 9)%nat.
Proof. unfold readable_size, snprintf. rewrite strlen_take. lia. Qed.

Section repaint.
Context (o : options_t) (COLS LINES : Z) (has_colors : bool) (log : spec_float -> spec_float).
Context (color : string -> Z * Z) (resolve : Z -> list Z -> Z -> option string) (inet_ntop : Z -> list Z -> option string).
Context (filter_match : string -> option bool) (t : serv_table).
Context (hosts : host_pair_line -> string * string) (passes : string -> bool).
Hypothesis chart : truth (showbars o) = true -> max_bandwidth o = 0 /\ truth (log_scale o) = false.
Hypothesis display_ok : 0 <= linedisplay o <= 3.
Hypothesis wide : 16 <= COLS < 540.

Ltac rows := repeat first [apply Forall_nil_2 | apply Forall_cons; split | apply Forall_app; split | case_match];
  unfold off_page; cbn [cmd_row]; try done; try lia.

Lemma colored_off lo hi c cs : Forall (off_page lo hi) cs -> Forall (off_page lo hi) (colored color c cs).
Proof. intros H. unfold colored, turnOnColor, turnOffColor. rows; done. Qed.

(** The bars of the line, if there are any, can be drawn. *)
Definition bar_fits (lim : Z) (line : host_pair_line) : bool := negb (truth (showbars o)) || slow_line lim (bar_interval o) line.

Lemma line_bars_some lim row line display b :
  0 <= display <= 3 -> bars_ok lim b -> bar_fits lim line = true ->
  exists b' cs, (if truth (showbars o) then draw_line_bars o COLS has_colors log color row line display b else Some (b, [])) =
    Some (b', cs) /\ bars_ok lim b' /\ (forall lo hi, row + 1 < lo \/ hi <= row -> Forall (off_page lo hi) cs).
Proof.
  intros Hd Hb Hf. unfold bar_fits in Hf. destruct (truth (showbars o)); [|by exists b, []]. destruct (chart eq_refl).
  apply draw_line_bars_ok; try done. lia.
Qed.

Lemma draw_entries_ok lim ls y b :
  bars_ok lim b -> Forall rates3 ls -> Forall (bar_fits lim) ls ->
  exists b' cs, draw_entries o COLS has_colors log color hosts ls y b = Some (b', cs) /\ bars_ok lim b'.
Proof.
  intros Hb Hl. revert y b Hb. induction Hl as [|line ls Hl _ IH]; intros y b Hb Hf; [by exists b, []|].
  apply Forall_cons in Hf as [Hline%Is_true_true Hf]. cbn [draw_entries]. unfold draw_entry, draw_line_totals.
  destruct (columns_some o color y (first_column COLS) line display_ok Hl) as [cs ->]. cbn [mbind option_bind].
  assert (is_Some (if truth (show_totals o)
    then draw_line_total color (f_of_Z (l_total_sent line)) (f_of_Z (l_total_recv line)) y
           (COLS - 8 * (HISTORY_DIVISIONS + 1)) (linedisplay o) 1
    else Some [])) as [tot ->] by (destruct (truth (show_totals o)); [by apply draw_line_total_some|by eexists]).
  destruct (line_bars_some lim y line (linedisplay o) b display_ok Hb Hline) as (b1 & c1 & E1 & Hb1 & _).
  cbn [mbind option_bind]. rewrite E1. cbn [mbind option_bind]. destruct (IH (y + step o) b1 Hb1 Hf) as (b2 & c2 & -> & Hb2).
  by eexists _, _.
Qed.

Lemma off_page_mono lo lo' hi cs : lo <= lo' -> Forall (off_page lo hi) cs -> Forall (off_page lo' hi) cs.
Proof. intros Hl H. eapply Forall_impl; [exact H|]. intros c. unfold off_page. destruct c; cbn [cmd_row]; try done; lia. Qed.

Lemma bottom_column_some y x bytes sent recv total :
  exists cs, bottom_column COLS y x bytes sent recv total = Some cs /\ Forall (off_page 1 y) cs.
Proof.
  assert (forall v, in_line COLS (readable_size v 10 1024 bytes) = Some (readable_size v 10 1024 bytes)) as Hin.
  { intros v. unfold in_line. pose proof (readable_size_short v 1024 bytes). rewrite (proj2 (Z.leb_le _ _)) by lia. done. }
  unfold bottom_column. rewrite !Hin. cbn [mbind option_bind]. eexists. split; [done|]. rows.
Qed.

Lemma draw_bottom_some h d :
  exists cs, draw_bottom o COLS LINES color h d = Some cs /\ Forall (off_page 1 (LINES - 4)) cs.
Proof.
  unfold draw_bottom. cbv beta zeta.
  destruct (bottom_column_some (LINES - 3) 22 1 (f_of_Z (total_sent h)) (f_of_Z (total_recv h))
    (f_of_Z (u64 (total_recv h + total_sent h)))) as (c1 & -> & H1). cbn [mbind option_bind].
  destruct (bottom_column_some (LINES - 3) 39 (bandwidth_in_bytes o) (f_div (f_of_Z (peaksent d)) (f_of_Z RESOLUTION))
    (f_div (f_of_Z (peakrecv d)) (f_of_Z RESOLUTION)) (f_div (f_of_Z (peaktotal d)) (f_of_Z RESOLUTION))) as (c2 & -> & H2). cbn [mbind option_bind]. eexists. split; [done|].
  assert (forall cs, Forall (off_page 1 (LINES - 3)) cs -> Forall (off_page 1 (LINES - 4)) cs) as Hm.
  { intros cs H. eapply Forall_impl; [exact H|]. intros c. unfold off_page. destruct c; cbn [cmd_row]; try done; lia. }
  apply Hm in H1, H2. rewrite !Forall_app. split_and!; try (apply colored_off); try done; unfold turnOnColor, turnOffColor; rows.
Qed.

Lemma draw_one_total_some sent recv row col display bytes :
  1 <= display <= 3 -> exists cs, draw_one_total color sent recv row col display bytes = Some cs /\
    Forall (off_page 1 row) cs.
Proof.
  intros Hd. assert (display = 1 \/ display = 2 \/ display = 3) as Hc by lia.
  unfold draw_one_total, column_bandwidth. destruct Hc as [-> |[-> | ->]]; (eexists; split; [done|]; apply colored_off; rows).
Qed.

Lemma two_columns_some js row x line :
  Forall (fun j => 0 <= j < 3) js -> rates3 line ->
  exists cs, columns o color js row x line OPTION_LINEDISPLAY_TWO_LINE = Some cs /\ Forall (off_page 1 row) cs.
Proof.
  intros Hj [Hs Hr]. revert x. induction Hj as [|j js Hj _ IH]; intros x; [by exists []|]. cbn [columns].
  destruct (lookup_z_lt_is_Some (l_sent line) j) as [_ Ls]. destruct Ls as [s ->]; [lia|].
  destruct (lookup_z_lt_is_Some (l_recv line) j) as [_ Lr]. destruct Lr as [r ->]; [lia|]. cbn [mbind option_bind].
  unfold draw_line_total. rewrite Z.eqb_refl.
  destruct (draw_one_total_some (f_of s) (f_of r) row x OPTION_LINEDISPLAY_ONE_LINE_SENT (bandwidth_in_bytes o)) as (c1 & -> & H1);
    [done|].
  destruct (draw_one_total_some (f_of s) (f_of r) (row + 1) x OPTION_LINEDISPLAY_ONE_LINE_RECV (bandwidth_in_bytes o))
    as (c2 & -> & H2); [done|]. cbn [mbind option_bind].
  destruct (IH (x + 8)) as (c3 & -> & H3). cbn [mbind option_bind]. eexists. split; [done|].
  rewrite !Forall_app. split_and!; [done| |done].
  eapply Forall_impl; [exact H2|]. intros c. unfold off_page. destruct c; cbn [cmd_row]; try done; lia.
Qed.

Lemma sum_columns_some js y x line :
  Forall (fun j => 0 <= j < 3) js -> rates3 line ->
  exists cs, sum_columns o color js y x line = Some cs /\ Forall (off_page 1 y) cs.
Proof.
  intros Hj [Hs Hr]. revert x. induction Hj as [|j js Hj _ IH]; intros x; [by exists []|]. cbn [sum_columns].
  destruct (lookup_z_lt_is_Some (l_sent line) j) as [_ Ls]. destruct Ls as [s ->]; [lia|].
  destruct (lookup_z_lt_is_Some (l_recv line) j) as [_ Lr]. destruct Lr as [r ->]; [lia|]. cbn [mbind option_bind].
  destruct (IH (x + 8)) as (cs & -> & H). cbn [mbind option_bind]. eexists. split; [done|].
  apply Forall_app. split; [apply colored_off; rows|done].
Qed.

Lemma draw_totals_some lim line b :
  rates3 line -> bars_ok lim b -> bar_fits lim line = true ->
  exists b' cs, draw_totals o COLS LINES has_colors log color line b = Some (b', cs) /\ bars_ok lim b' /\
    Forall (off_page 1 (LINES - 4)) cs.
Proof.
  intros Hr Hb Hf. unfold draw_totals, draw_line_totals.
  destruct (two_columns_some [0; 1; 2] (LINES - 3) (first_column COLS) line) as (c1 & -> & H1); [repeat constructor; lia|done|].
  destruct (line_bars_some lim (LINES - 3) line OPTION_LINEDISPLAY_TWO_LINE b ltac:(done) Hb Hf) as (b1 & c2 & E2 & Hb1 & H2).
  cbn [mbind option_bind]. rewrite E2. cbn [mbind option_bind].
  destruct (sum_columns_some [0; 1; 2] (LINES - 3 + 2) (first_column COLS) line) as (c3 & -> & H3); [repeat constructor; lia|done|].
  cbn [mbind option_bind]. eexists _, _. split; [done|]. split; [done|]. rewrite !Forall_app. split_and!; [|apply H2; lia|];
    (eapply Forall_impl; [eassumption|]); intros c; unfold off_page; destruct c; cbn [cmd_row]; try done; lia.
Qed.

(** The first row of the page. *)
Definition page_top : Z := if truth (showbars o) then 2 else 1.

Lemma draw_bar_scale_some lim b :
  bars_ok lim b -> exists cs, draw_bar_scale o COLS log color 0 b = Some (page_top, b, cs).
Proof.
  intros Hb. unfold page_top. destruct (truth (showbars o)) eqn:Eb.
  - destruct (chart eq_refl). apply (draw_bar_scale_ok o COLS log color) with lim; try done. lia.
  - destruct (scale_entry b (bo_scale _ _ Hb)) as (m & Em & _). unfold draw_bar_scale, get_max_bandwidth. rewrite Eb, Em.
    destruct (0 <? max_bandwidth o); by eexists.
Qed.

(** What stays of the page when the repaint is over. *)
Lemma ui_print_page lim help_message h d hint helpmsg b ls :
  Forall (hosts_printed o COLS resolve inet_ntop t hosts) ls -> (forall s, filter_match s = Some (passes s)) -> bars_ok lim b ->
  OptionsT.showhelp o = 0 -> screen_lines d = Some ls -> Forall rates3 ls -> rates3 (totals d) ->
  Forall (bar_fits lim) (totals d :: ls) ->
  exists b2 pre page post,
    ui_print o COLS LINES has_colors log color resolve inet_ntop filter_match t help_message 0 h d hint helpmsg b =
      Some (b2, pre ++ page ++ post) /\ bars_ok lim b2 /\
    texts page = page_texts o COLS hosts page_top (take (room o LINES page_top)
      (filter (fun line => passes (hosts line).1 || passes (hosts line).2) (drop (Z.to_nat (screen_offset o)) ls))) /\
    Forall (within page_top (LINES - 4)) page /\ Forall (off_page page_top (LINES - 4)) post.
Proof.
  intros Hh Hf Hb Hhelp Hls Hr3 Htot [Hft%Is_true_true Hfl]%Forall_cons.
  pose proof (page_shows_lines o COLS LINES has_colors log color resolve inet_ntop filter_match t hosts passes ls
    page_top b Hh Hf display_ok Hr3) as [Hpage _].
  assert (forall P : host_pair_line -> Prop, Forall P ls -> Forall P (take (room o LINES page_top)
    (filter (shown hosts passes) (offset_lines o ls)))) as Hsub.
  { intros P HP. apply (Forall_drop _ (Z.to_nat (screen_offset o))) in HP. fold (offset_lines o ls) in HP.
    apply Forall_take, Forall_forall. intros x [_ Hx]%list_elem_of_filter. rewrite Forall_forall in HP. by apply HP. }
  destruct (draw_entries_ok lim _ page_top b Hb (Hsub _ Hr3) (Hsub _ Hfl)) as (b1 & page & E & Hb1).
  assert (page_loop o COLS LINES has_colors log color resolve inet_ntop filter_match t (offset_lines o ls) page_top b =
    Some (b1, page)) as Epage.
  { rewrite <- E. apply page_loop_entries; [by apply Forall_drop|done]. }
  destruct (Hpage b1 page Epage) as [Hrows Htexts].
  destruct (draw_bar_scale_some lim b Hb) as (c0 & E0). unfold ui_print. rewrite Hhelp, Hls, E0.
  change (truth 0) with false. cbn [mbind option_bind]. rewrite Epage. cbn [mbind option_bind].
  destruct (draw_bottom_some h d) as (c1 & -> & H1). cbn [mbind option_bind].
  destruct (draw_totals_some lim (totals d) b1 Htot Hb1 Hft) as (b2 & c2 & -> & Hb2 & H2). cbn [mbind option_bind].
  exists (auto_scale o b2), (Erase :: colored color "SCALE_BAR_COLOR" c0), page,
    (c1 ++ c2 ++ draw_help hint helpmsg ++ [Move (LINES - 1) (COLS - 1); Refresh]).
  split_and!; [by rewrite !app_assoc|by apply auto_scale_bars|done|done|].
  apply (off_page_mono 1); [unfold page_top; destruct (truth _); lia|].
  rewrite !Forall_app. split_and!; [done|done| |rows]. unfold draw_help. rows.
Qed.
End repaint.

(** ** What tick draws *)

(** ui_print on a session; [text] is what printw reads at [helpmsg]. *)
Definition session_paint (W : world) (LINES : Z) (has_colors : bool) (log : spec_float -> spec_float)
    (color : string -> Z * Z) (resolve : Z -> list Z -> Z -> option string) (inet_ntop : Z -> list Z -> option string)
    (regexec : string -> string -> bool) (help_message text : string) (services : serv_table) (s : session) (b : bars) :
    option (bars * list cmd) :=
  UiPrint.ui_print (s_options s) (w_COLS W) LINES has_colors log color resolve inet_ntop (screen_filter_match regexec s)
    services help_message (dontshowdisplay s) (history_totals (s_capture s)) (s_display s) (showhelphint (s_help s)) text b.

(** The screen is on and live, without the help page; its bars, if it has any,
    are on the linear scale that adapts itself. *)
Record plain_screen (s : session) : Prop := PlainScreen {
  ps_shown : dontshowdisplay s = 0;
  ps_screen : export_mode (s_options s) = 0;
  ps_live : paused (s_options s) <> 1;
  ps_order : freezeorder (s_options s) = 0;
  ps_help : OptionsT.showhelp (s_options s) = 0;
  ps_bars : truth (showbars (s_options s)) = true -> max_bandwidth (s_options s) = 0 /\ truth (log_scale (s_options s)) = false
}.

Lemma tick_display_paints W `{!QSort (w_qsort W)} now rotated print s l :
  (forall cmp items, w_qsort W cmp items ≡ₚ items) -> running s -> plain_screen s ->
  rotated || SFleb DISPLAY_RESOLUTION (timeval_diff now (last_display (s_clock s))) = true ->
  flow_list (s_capture s) = Some l -> gsum weight l < 2 ^ 64 ->
  exists s' inv ls, tick_display W now rotated print s = Some s' /\ output s' = output s ++ [DScreen] /\
    settings s' = settings s /\
    inverse_lengths (slot_elapsed (s_clock s)) (history_len (s_capture s)) = Some inv /\
    screen_lines (s_display s') = Some ls /\ true_lines (s_options s) (history_pos (s_capture s)) inv l ls /\
    rates3 (totals (s_display s')).
Proof.
  intros Hqs Hr Hp Hdue Hl HW. pose proof (so_data _ (ru_ok _ Hr)) as Hok.
  destruct (repaint_lines (w_qsort W) (s_options s) (w_names W (reads s)) (s_procs s) (slot_elapsed (s_clock s))
    (s_capture s) (s_display s) l Hqs Hok Hl HW (ps_live s Hp) (ps_order s Hp)) as (c' & d' & inv & ls & Ea & Ei & Els & Ht & Hft).
  destruct (ui_ok_reads _ _ _ Hok Hl) as (Hwh & Hpos & _).
  unfold tick_display. rewrite Hdue, Ea. cbn [mbind option_bind with_data s_options]. rewrite (ps_screen s Hp).
  change (truth 0) with false. cbv iota. unfold Session.ui_print.
  match goal with |- context [dontshowdisplay ?z] => change (dontshowdisplay z) with (dontshowdisplay s) end. rewrite (ps_shown s Hp).
  change (truth 0) with false. cbv iota. eexists _, inv, ls. split; [done|]. split_and!; try done.
  by eapply fresh_totals_rates.
Qed.

(** A text passes when there is no compiled filter or the filter matches it. *)
Definition passes_filter (regexec : string -> string -> bool) (s : session) (text : string) : bool :=
  match preg s with Some p => regexec p text | None => true end.

Lemma screen_filter_match_passes regexec s text :
  screenfilter (s_options s) = preg s -> screen_filter_match regexec s text = Some (passes_filter regexec s text).
Proof. intros E. unfold screen_filter_match, passes_filter. rewrite E. by destruct (preg s). Qed.

Section paints.
Context (W : world) `{!QSort (w_qsort W)} (align : Z) (x : setup).
Hypothesis proc_readable : forall k, is_Some (procinfo_refresh (w_proc W k)).
Hypothesis isprint_NUL : w_isprint W 0 = false.
Hypothesis wide_enough : 16 <= w_COLS W < 540.
Hypothesis files_nul_free : forall path text, x_files x path = Some text -> nul_free text = true.
Hypothesis args_nul_free : Forall (fun a => nul_free a.2 = true) (x_opts x).
Hypothesis addresses_readable : forall name,
  is_Some (get_addrs_ioctl (x_socket x) (x_hw_addr x name) (x_ifaddrs x) name (replicate 4 0) (replicate 16 0)).
Hypothesis qsort_permutes : forall cmp items, w_qsort W cmp items ≡ₚ items.
Context (LINES : Z) (has_colors : bool) (log : spec_float -> spec_float) (color : string -> Z * Z).
Context (resolve : Z -> list Z -> Z -> option string) (inet_ntop : Z -> list Z -> option string).
Context (regexec : string -> string -> bool) (help_message text : string).
Hypothesis inet_ntop_known : forall af addr, known_family af -> is_Some (inet_ntop af addr).
Hypothesis resolve_writes : forall af addr n, known_family af -> 2 <= n -> is_Some (resolve af addr n).

(** The addresses of the lines are those of packets, or zeros. *)
Lemma lines_printable m m' evs now rotated print s' ls :
  main W x = Some (inr m) -> Forall (event_good bytes_ok) evs -> program_run W align evs m = Some m' ->
  tick_display W now rotated print (p_session m') = Some s' -> screen_lines (s_display s') = Some ls ->
  Forall (fun line => printable_pair (l_ap line)) ls.
Proof.
  intros Em Hev Hrun Et Hls. pose proof (pairs_data W align) as Hinv.
  pose proof (program_run_inv _ _ _ _ Hinv evs m Hev (main_pairs W align x m Em) m' Hrun) as Hm'.
  destruct (tick_display_inv _ _ _ _ Hinv now rotated print _ Hm' s' Et) as [_ Hd].
  eapply Forall_impl; [exact (screen_lines_pairs _ _ Hd Hls)|]. by intros line (_ & _ & H).
Qed.

(** C4: the screen tells the truth about the traffic, on a terminal of 16 to
    539 columns, for frames of bytes of which enough was captured, for keys and
    typed lines that the editor accepts ([valid_key]), and while the names of
    the hosts do not change.  In any state that a run of the program reaches, a
    tick that repaints (screen mode, neither paused nor frozen, no help page)
    lists one line per group of captured flows, none twice, each with the
    counters and averages of its flows.  Suppose that no bar to draw exceeds
    [lim], which is 10 Mbit/s or what the scale has reached (or that there are
    no bars), and that with name resolution on a host has two columns or more
    (resolve() writes nothing into one).  Then ui_print draws, from any state of
    the bar chart in that range, the first of these lines after the scroll
    offset of which the one host or the other passes the compiled screen filter,
    as many as fit, below the scale; the texts of a line are the source as
    sprint_host writes it in column 0, the arrow, the destination after it, the
    label of the process, and, in the last columns of 8 characters, the totals
    if they are on and the averages of 2, 10 and 40 seconds; nothing that is
    drawn after them touches their rows; and the bar chart is left in range for
    the next repaint. *)
Theorem program_paints (m m' : program) (evs : list program_event) (l : list (addr_pair * history_type))
    (lim : Z) (b : bars) (now : timeval) (rotated print : bool) :
  main W x = Some (inr m) -> Forall (event_ok align (p_iface m) (p_handler m)) evs -> Forall (event_good bytes_ok) evs ->
  Z.of_nat (length evs) < 2 ^ 31 -> program_run W align evs m = Some m' ->
  let s := p_session m' in let o := s_options s in let top := page_top o in
  plain_screen s -> flow_list (s_capture s) = Some l -> gsum weight l < 2 ^ 64 ->
  rotated || SFleb DISPLAY_RESOLUTION (timeval_diff now (last_display (s_clock s))) = true -> bars_ok lim b ->
  exists s' inv ls, tick_display W now rotated print s = Some s' /\ output s' = output s ++ [DScreen] /\
    inverse_lengths (slot_elapsed (s_clock s)) (history_len (s_capture s)) = Some inv /\
    screen_lines (s_display s') = Some ls /\ true_lines o (history_pos (s_capture s)) inv l ls /\
    (Forall (bar_fits o lim) (totals (s_display s') :: ls) ->
     (truth (dnsresolution o) = true -> 2 <= host_width o (w_COLS W)) ->
     exists (hosts : host_pair_line -> string * string) b2 pre page post,
       Forall (fun line =>
         let field := sprint_host resolve inet_ntop o (p_services m') (address_family (l_ap line)) in
         field (src (l_ap line)) (src_port (l_ap line)) (protocol (l_ap line)) (host_width o (w_COLS W)) = Some (hosts line).1 /\
         field (dst (l_ap line)) (dst_port (l_ap line)) (protocol (l_ap line)) (host_width o (w_COLS W)) = Some (hosts line).2) ls /\
       session_paint W LINES has_colors log color resolve inet_ntop regexec help_message text (p_services m') s' b =
         Some (b2, pre ++ page ++ post) /\ bars_ok lim b2 /\
       texts page = page_texts o (w_COLS W) hosts top (take (room o LINES top)
         (filter (fun line => passes_filter regexec s (hosts line).1 || passes_filter regexec s (hosts line).2)
           (drop (Z.to_nat (screen_offset o)) ls))) /\
       Forall (within top (LINES - 4)) page /\ Forall (off_page top (LINES - 4)) post).
Proof.
  intros Em Hev Hbytes Hn Hrun s o top Hp Hl HW Hdue Hb.
  pose proof (whole_program W align x proc_readable isprint_NUL (proj1 wide_enough) files_nul_free args_nul_free
    addresses_readable) as H. rewrite Em in H. destruct (H evs Hev Hn) as (m1 & E1 & [Hr _ _ (C & names & Hs)]).
  assert (m1 = m') as -> by congruence. fold s in Hr.
  destruct (tick_display_paints W now rotated print s l qsort_permutes Hr Hp Hdue Hl HW)
    as (s' & inv & ls & Et & Eout & Eset & Ei & Els & Htrue & Htot).
  exists s', inv, ls. split_and!; try done. intros Hfit Hwide.
  pose proof (lines_printable m m' evs now rotated print s' ls Em Hbytes Hrun Et Els) as Hknown.
  unfold settings in Eset. injection Eset as Eo Eshow _ Epreg _.
  set (hosts line := default ("", "")%string (line_hosts o (w_COLS W) resolve inet_ntop (p_services m') line)).
  assert (Forall (hosts_printed o (w_COLS W) resolve inet_ntop (p_services m') hosts) ls) as Hh.
  { eapply Forall_impl; [exact Hknown|]. intros line Hk. unfold hosts_printed, hosts.
    destruct (line_hosts_some o (w_COLS W) (p_services m') resolve inet_ntop inet_ntop_known resolve_writes C names line Hs)
      as [hs ->]; [lia|done..]. }
  destruct (ui_print_page o (w_COLS W) LINES has_colors log color resolve inet_ntop (screen_filter_match regexec s)
    (p_services m') hosts (passes_filter regexec s) (ps_bars s Hp) (oo_line _ (ru_options _ Hr)) wide_enough lim help_message
    (history_totals (s_capture s')) (s_display s') (showhelphint (s_help s')) text b ls Hh)
    as (b2 & pre & page & post & Ep & Hb2 & Htexts & Hrows & Hpost); try done.
  - intros str. apply screen_filter_match_passes, Hr.
  - apply Hp.
  - by eapply true_lines_rates.
  - exists hosts, b2, pre, page, post. split_and!; try done.
    + eapply Forall_impl; [exact Hh|]. intros line H1. unfold hosts_printed, line_hosts in H1.
      apply bind_Some in H1 as (h1 & E2 & (h2 & E3 & Eh)%bind_Some). injection Eh as Eh. rewrite <- Eh. by split.
    + unfold session_paint. assert (screen_filter_match regexec s' = screen_filter_match regexec s) as ->
        by (unfold screen_filter_match; by rewrite Eo, Epreg).
      by rewrite Eo, Eshow, (ps_shown s Hp).
Qed.
End paints.

(** *** A run: two frames, the sums of the lines switched on in between *)
Definition plain_setup : setup :=
  Setup 0 (Some "eth0") None [("n"%char, "")] false (fun _ => None) demo_aton demo_aton true
    (fun _ => Some (if_hw_addr demo_iface)) (x_ifaddrs demo_setup) true 1
    (fun proto => if String.eqb proto "tcp" then Some 6 else None) [(80, "tcp", "http")] true.

Lemma plain_files_ok path text : x_files plain_setup path = Some text -> nul_free text = true.
Proof. done. Qed.

Lemma plain_args_ok : Forall (fun a : ascii * string => nul_free a.2 = true) (x_opts plain_setup).
Proof. repeat constructor. Qed.

Definition painted_events : list program_event := [PFrame demo_frame; PKey (code "T"); PFrame demo_frame].

Definition plain_now (s : session) : bool :=
  (dontshowdisplay s =? 0) && (export_mode (s_options s) =? 0) && negb (paused (s_options s) =? 1) &&
  (freezeorder (s_options s) =? 0) && (OptionsT.showhelp (s_options s) =? 0) && (max_bandwidth (s_options s) =? 0) &&
  negb (truth (log_scale (s_options s))).

Lemma plain_now_screen s : plain_now s = true -> plain_screen s.
Proof.
  unfold plain_now. rewrite !andb_true_iff, !Z.eqb_eq, !negb_true_iff, Z.eqb_neq. intros H. by split; intuition.
Qed.

(** The lines of the frame, which are there and have bars. *)
Definition good_frame (s : session) : bool :=
  match tick_display demo_world (Timeval 5 0) true false s with
  | Some s' => match screen_lines (s_display s') with
               | Some ls => truth (showbars (s_options s)) && (0 <? length ls)%nat &&
                   forallb (bar_fits (s_options s) 10000000) (totals (s_display s') :: ls) &&
                   (2 <=? host_width (s_options s) (w_COLS demo_world))
               | None => false
               end
  | None => false
  end.

Lemma good_frame_lines s s' ls :
  good_frame s = true -> tick_display demo_world (Timeval 5 0) true false s = Some s' ->
  screen_lines (s_display s') = Some ls ->
  Forall (bar_fits (s_options s) 10000000) (totals (s_display s') :: ls) /\
  2 <= host_width (s_options s) (w_COLS demo_world).
Proof.
  unfold good_frame. intros H E1 E2. rewrite E1, E2 in H. apply andb_prop in H as [[_ Hb]%andb_prop Hw].
  split; [|by apply Z.leb_le].
  apply Forall_forall. intros line Hin. rewrite forallb_forall in Hb. apply Is_true_true, Hb. by apply list_elem_of_In.
Qed.

Lemma painted_bytes : Forall (event_good bytes_ok) painted_events.
Proof.
  assert (bytes_ok demo_frame) as H by (apply (bool_decide_unpack _); vm_compute; exact I).
  unfold painted_events. rewrite !Forall_cons. split_and!; [exact H|exact I|exact H|apply Forall_nil_2].
Qed.

(** The whole run, evaluated once. *)
Definition painted_run (r : option (Z + program)) : bool :=
  match r with
  | Some (inr m) =>
      match program_run demo_world 4 painted_events m with
      | Some m' =>
          forallb (event_fits m) painted_events && plain_now (p_session m') && good_frame (p_session m') &&
          match flow_list (s_capture (p_session m')) with Some l => gsum weight l <? 2 ^ 64 | None => false end
      | None => false
      end
  | _ => false
  end.

Lemma painted_run_ok : painted_run (main demo_world plain_setup) = true.
Proof. vm_compute. reflexivity. Qed.

Lemma painted r :
  painted_run r = true ->
  exists m m' l, r = Some (inr m) /\
    Forall (event_ok 4 (p_iface m) (p_handler m)) painted_events /\ program_run demo_world 4 painted_events m = Some m' /\
    plain_screen (p_session m') /\ good_frame (p_session m') = true /\
    flow_list (s_capture (p_session m')) = Some l /\ gsum weight l < 2 ^ 64.
Proof.
  intros H. unfold painted_run in H. destruct r as [[|m]|]; [discriminate H| |discriminate H].
  destruct (program_run demo_world 4 painted_events m) as [m'|] eqn:Er; [|discriminate H].
  apply andb_prop in H as [[[He Hp]%andb_prop Hg]%andb_prop Hl].
  destruct (flow_list (s_capture (p_session m'))) as [l|] eqn:El; [|discriminate Hl].
  exists m, m', l. refine (conj eq_refl (conj _ (conj Er (conj (plain_now_screen _ Hp) (conj Hg (conj El (proj1 (Z.ltb_lt _ _) Hl))))))).
  by apply events_fit.
Qed.

(** inet_ntop and resolve, of the known families. *)
Definition known_text (text : string) (af : Z) : option string := if (af =? 2) || (af =? 10) then Some text else None.

Lemma known_text_some text af : known_family af -> is_Some (known_text text af).
Proof. intros [-> | ->]; by eexists. Qed.

Example program_paints_witness :
  let resolve af (_ : list Z) n := if n <=? 1 then None else known_text "host" af in
  let inet_ntop af (_ : list Z) := known_text "10.0.0.1" af in
  exists m m' s' b2 pre page post, program_run demo_world 4 painted_events m = Some m' /\
    tick_display demo_world (Timeval 5 0) true false (p_session m') = Some s' /\
    session_paint demo_world 24 true (fun v => v) (fun _ => (4, 1)) resolve inet_ntop (fun _ _ => true) "" ""
      (p_services m') s' bars_init = Some (b2, pre ++ page ++ post) /\ bars_ok 10000000 b2.
Proof.
  intros resolve inet_ntop. destruct (painted _ painted_run_ok) as (m & m' & l & Em & Hev & Hrun & Hp & Hg & Hl & HW).
  destruct (program_paints demo_world 4 plain_setup demo_proc_readable eq_refl
    ltac:(split; vm_compute; congruence) plain_files_ok plain_args_ok demo_addresses (fun cmp items => insertion_qsort_perm cmp items)
    24 true (fun v => v) (fun _ => (4, 1)) resolve inet_ntop (fun _ _ => true) "" ""
    (fun af addr => known_text_some "10.0.0.1" af)
    (fun af addr n Hk Hn => ltac:(unfold resolve; rewrite (proj2 (Z.leb_gt n 1)) by lia; by apply known_text_some))
    m m' painted_events l 10000000 bars_init (Timeval 5 0) true false Em Hev painted_bytes ltac:(vm_compute; reflexivity) Hrun Hp Hl HW
    eq_refl bars_init_ok) as (s' & inv & ls & E & _ & _ & Els & _ & H).
  destruct (good_frame_lines _ s' ls Hg E Els) as (Hb & Hw).
  destruct (H Hb (fun _ => Hw)) as (hosts & b2 & pre & page & post & _ & Ep & Hb2 & _).
  exists m, m', s', b2, pre, page, post. exact (conj Hrun (conj E (conj Ep Hb2))).
Defined.
