(* ===== verification/Whole.v ===== *)
(** * The program with its resolver (src/entry/iftop.c, src/util/resolver.c)

    [Main] runs the two main threads with the names of the hosts left open;
    [Resolver] runs the table of names and its two worker threads.  Here the
    capture thread's calls of resolve enter the resolver, in their order and
    with anything the other threads do in between, and the sweeps of the screen
    read their names from the table. *)

From S2P Require Import Prelude Bytes Chain Hash Pool AddrHash History CStr OptionsT OptionsCfg ProcInfo Packet Float SortedList Analyse NsHash Resolver Session EdLine UiKeys ServHash Export NetFilter UiFormat Main DataInv LineNames Pairs.

Local Open Scope Z_scope.

(** ** The calls that a frame makes *)

Definition calls_ok (calls : list resolve_call) : Prop := Forall (fun call => in6_addr call.2) calls.

Lemma finish_pair_calls e p v ap : bytes_ok p -> returns (fun r => calls_ok r.2) (finish_pair e p v ap).
Proof.
  intros Hp. unfold finish_pair. destruct (v =? 4); [|destruct (v =? 6); [|by apply returns_ret, Forall_nil_2]];
    apply returns_skip; intros proto; (destruct (truth _); [|by apply returns_ret, Forall_nil_2]);
    (eapply returns_bind; [by intros s Hs; apply (rdn_bytes _ _ _ _ Hp Hs)|]; intros s [Hs1 Hs2]);
    (eapply returns_bind; [by intros d Hd; apply (rdn_bytes _ _ _ _ Hp Hd)|]; intros d [Hd1 Hd2]);
    apply returns_ret; cbn [snd]; apply Forall_cons; (split; [|apply Forall_singleton]); cbn [snd]; try (by apply pad16_in6); by split.
Qed.

Lemma handle_ip_packet_calls e c p dir : bytes_ok p -> returns (fun r => calls_ok r.2) (handle_ip_packet e c p dir).
Proof.
  intros Hp. unfold handle_ip_packet. apply returns_skip. intros v. apply returns_skip.
  intros [[ap d]|]; [|by apply returns_ret, Forall_nil_2]. apply returns_skip.
  intros []; [by apply returns_ret; constructor|]. eapply returns_bind; [by apply finish_pair_calls|].
  intros [ap' calls] Hc. apply returns_skip. intros len. apply returns_skip. intros b. apply returns_skip. intros c'.
  by apply returns_ret.
Qed.

Lemma packet_loop_calls W align i h p s : bytes_ok p -> returns (fun r => calls_ok r.2) (packet_loop W align i h p s).
Proof.
  intros Hp. unfold packet_loop. apply returns_skip. intros s1.
  eapply (returns_bind (fun r => calls_ok r.2)); [|intros [c calls] H; by apply returns_ret].
  rewrite run_handler_packet. eapply returns_bind; [apply frame_packet_ends|].
  intros [[ip dir]|] H; [|by apply returns_ret, Forall_nil_2]. destruct H as [n ->].
  by apply handle_ip_packet_calls, Forall_drop.
Qed.

(** ** The composition *)
Definition with_names (W : world) (names : nat -> Z -> list Z -> option string) : world :=
  World (w_gettimeofday W) (w_time W) (w_proc W) names (w_qsort W) (w_regcomp W) (w_pcap_compile W)
    (w_pcap_setfilter W) (w_isprint W) (w_isspace W) (w_COLS W).

(** The bytes that resolve copies from a [struct in6_addr]. *)
Definition raddr_bytes (af : Z) (addr : list Z) : list Z := take (if Z.eqb af 2 then 4 else 16)%nat addr.

(** The calls that have been added to the list of the first program. *)
Definition new_calls (m m' : program) : list resolve_call := drop (length (p_resolve m)) (p_resolve m').

Section whole.
Context (W : world) (align : Z) (ntop : addr_storage -> option string) (do_resolve : addr_storage -> string -> Prop).

Abbreviation threads_run := (rtc (resolver_step ntop do_resolve)).

(** resolve() returned [added]: pthread_cond_signal is due. *)
Definition after_call (s : resolver) (added : bool) (x : resolver_sys) : resolver_sys :=
  ResolverSys s (workers x) (if added then S (signals x) else signals x).

(** The calls in their order, with other steps before, between and after. *)
Inductive calls_made (o : options_t) : list resolve_call -> resolver_sys -> resolver_sys -> Prop :=
  | calls_over x x' : threads_run x x' -> calls_made o [] x x'
  | call_made af addr calls x x1 out s added x' :
      threads_run x x1 -> resolve o ntop af (raddr_bytes af addr) false 0 (monitor x1) = Some (out, s, added) ->
      calls_made o calls (after_call s added x1) x' -> calls_made o ((af, addr) :: calls) x x'.

(** What a sweep that begins at [x] may get for an address: what resolve
    copies out of the table, now or when the other threads have gone on; or,
    with name resolution off, what inet_ntop writes. *)
Inductive name_read (x : resolver_sys) (af : Z) (addr : list Z) : string -> Prop :=
  | read_table o x' nm s added :
      threads_run x x' ->
      resolve o ntop af (raddr_bytes af addr) true HOSTNAME_LENGTH (monitor x') = Some (Some nm, s, added) ->
      name_read x af addr nm
  | read_numbers nm : ntop (make_raddr af addr) = Some nm -> name_read x af addr nm.

(** For a family that inet_ntop does not know, a sweep may be given any text:
    inet_ntop leaves the name as it was, resolve copies a buffer that need not
    have been written. *)
Definition names_read (x : resolver_sys) (names : nat -> Z -> list Z -> option string) : Prop :=
  forall k af addr nm, in6_addr addr -> known_family af -> names k af addr = Some nm -> name_read x af addr nm.

(** An event of the program, with the sweeps it causes given [names]. *)
Definition whole_event (names : nat -> Z -> list Z -> option string) (ev : program_event)
    (w w' : program * resolver_sys) : Prop :=
  program_step (with_names W names) align ev w.1 = Some w'.1 /\
  calls_made (s_options (p_session w.1)) (new_calls w.1 w'.1) w.2 w'.2.

Inductive whole_run : list program_event -> program * resolver_sys -> program * resolver_sys -> Prop :=
  | whole_idle m x x' : threads_run x x' -> whole_run [] (m, x) (m, x')
  | whole_next names ev evs m x x1 w w' :
      threads_run x x1 -> names_read x1 names -> whole_event names ev (m, x1) w -> whole_run evs w w' ->
      whole_run (ev :: evs) (m, x) w'.

(** Frames are bytes of which enough was captured. *)
Definition whole_event_ok (i : iface) (h : packet_handler) (ev : program_event) : Prop :=
  event_ok align i h ev /\ event_good bytes_ok ev.

(** What may stand in a line for an address of a known family: the address in
    numbers, or a name that do_resolve finds for it, or what fits of these into
    the buffer. *)
Definition shown (af : Z) (addr : list Z) (text : string) : Prop :=
  in6_addr addr -> known_family af -> exists nm, genuine ntop do_resolve (make_raddr af addr) nm /\
    (text = nm \/ text = strncpy (HOSTNAME_LENGTH - 1) nm).

(** *** The resolver's side *)
Lemma raddr_bytes_ok af addr :
  in6_addr addr -> length (raddr_bytes af addr) = (if Z.eqb af 2 then 4 else 16)%nat /\ bytes_ok (raddr_bytes af addr).
Proof.
  intros [Hl Hb]. unfold raddr_bytes. split; [rewrite length_take, Hl; by destruct (af =? 2)|by apply Forall_take].
Qed.

Lemma make_raddr_bytes af addr : make_raddr af (raddr_bytes af addr) = make_raddr af addr.
Proof.
  unfold make_raddr, raddr_bytes. destruct (af =? 2); cbn [Z.to_nat]; rewrite take_take; do 3 f_equal; lia.
Qed.

Lemma call_step o af addr x :
  threads_run resolver_start x -> in6_addr addr ->
  exists out s added, resolve o ntop af (raddr_bytes af addr) false 0 (monitor x) = Some (out, s, added) /\
    resolver_step ntop do_resolve x (after_call s added x).
Proof.
  intros Hx Ha. destruct (raddr_bytes_ok af addr Ha) as [Hl Hb].
  destruct (resolve_genuine ntop do_resolve x o af (raddr_bytes af addr) false 0 Hx) as (out & s & added & E & _).
  { split_and!; [done|done|]. unfold copies. by rewrite andb_false_r. }
  exists out, s, added. split; [exact E|]. destruct x as [s0 ws n]. by eapply step_resolve.
Qed.

Lemma calls_possible o calls : forall x,
  threads_run resolver_start x -> calls_ok calls -> exists x', calls_made o calls x x'.
Proof.
  induction calls as [|[af addr] calls IH]; intros x Hx Hc; [exists x; by apply calls_over|].
  apply Forall_cons in Hc as [Ha Hc]. destruct (call_step o af addr x Hx Ha) as (out & s & added & Hr & Hs).
  destruct (IH (after_call s added x)) as [x' Hx']; [by eapply rtc_r|done|]. exists x'. by eapply call_made.
Qed.

Lemma calls_reach o calls x x' :
  threads_run resolver_start x -> calls_ok calls -> calls_made o calls x x' -> threads_run resolver_start x'.
Proof.
  intros Hx Hc Hm. induction Hm as [x x' H|af addr calls x x1 out s added x' H Hr _ IH]; [by etrans|].
  apply Forall_cons in Hc as [Ha Hc]. apply IH; [|done]. assert (threads_run resolver_start x1) as H1 by (by etrans).
  destruct (call_step o af addr x1 H1 Ha) as (out' & s' & added' & Hr' & Hs).
  rewrite Hr in Hr'. simplify_eq. by eapply rtc_r.
Qed.

Lemma name_read_shown x af addr nm :
  threads_run resolver_start x -> (in6_addr addr -> known_family af -> name_read x af addr nm) -> shown af addr nm.
Proof.
  intros Hx Hn Ha Hk. destruct (Hn Ha Hk) as [o x' nm s added H Hr|nm E].
  - destruct (raddr_bytes_ok af addr Ha) as [Hl Hb]. assert (threads_run resolver_start x') as Hx' by (by etrans).
    destruct (resolve_wrote ntop do_resolve x' o af _ true HOSTNAME_LENGTH nm s added Hx' Hl Hb Hr) as (t & Hg & ->).
    rewrite make_raddr_bytes in Hg. exists t. split; [done|by right].
  - exists nm. split; [by left|by left].
Qed.

Lemma names_read_given x names k : threads_run resolver_start x -> names_read x names -> gives shown (names k).
Proof. intros Hx Hn af addr nm E. apply (name_read_shown x); [done|]. intros Ha Hk. by eapply Hn. Qed.

(** inet_ntop knows AF_INET and AF_INET6. *)
Hypothesis ntop_known : forall a, known_family (as_family a) -> is_Some (ntop a).

(** There is always a name to read. *)
Lemma name_readable x o af addr :
  threads_run resolver_start x -> in6_addr addr -> known_family af -> dnsresolution o = 1 ->
  exists nm s added, resolve o ntop af (raddr_bytes af addr) true HOSTNAME_LENGTH (monitor x) = Some (Some nm, s, added) /\
    name_read x af addr nm.
Proof.
  intros Hx Ha Hk Ho. destruct (raddr_bytes_ok af addr Ha) as [Hl Hb].
  destruct (resolve_genuine ntop do_resolve x o af (raddr_bytes af addr) true HOSTNAME_LENGTH Hx) as (out & s & added & E & H).
  { split_and!; [done|done|]. intros _. by apply ntop_known. }
  unfold copies in H. rewrite Ho in H. destruct H as (nm & _ & ->). do 3 eexists. split; [exact E|].
  by eapply (read_table _ _ _ o x).
Qed.

(** *** Both sides *)
Context `{!QSort (w_qsort W)} (x : setup).
Hypothesis proc_readable : forall k, is_Some (procinfo_refresh (w_proc W k)).
Hypothesis isprint_NUL : w_isprint W 0 = false.
Hypothesis wide_enough : 16 <= w_COLS W.
Hypothesis files_nul_free : forall path text, x_files x path = Some text -> nul_free text = true.
Hypothesis args_nul_free : Forall (fun a => nul_free a.2 = true) (x_opts x).
Hypothesis addresses_readable : forall name,
  is_Some (get_addrs_ioctl (x_socket x) (x_hw_addr x name) (x_ifaddrs x) name (replicate 4 0) (replicate 16 0)).

(** [n] lines may have been scrolled down. *)
Record whole_ok (i : iface) (h : packet_handler) (n : Z) (w : program * resolver_sys) : Prop := WholeOk {
  wo_program : program_ok w.1;
  wo_iface : p_iface w.1 = i;
  wo_handler : p_handler w.1 = h;
  wo_offset : screen_offset (s_options (p_session w.1)) <= n;
  wo_names : program_named shown w.1;
  wo_pairs : program_pairs w.1;
  wo_resolver : threads_run resolver_start w.2
}.

Lemma program_step_calls W' ev m m' :
  event_good bytes_ok ev -> program_step W' align ev m = Some m' -> calls_ok (new_calls m m').
Proof.
  intros Hp. unfold new_calls.
  assert (forall m1 : program, p_resolve m1 = p_resolve m -> calls_ok (drop (length (p_resolve m)) (p_resolve m1))) as Hsame.
  { intros m1 ->. rewrite drop_ge by done. apply Forall_nil_2. }
  revert m'. change (returns (fun m' => calls_ok (drop (length (p_resolve m)) (p_resolve m'))) (program_step W' align ev m)).
  unfold program_step. destruct (p_main m) eqn:Em; [..|apply returns_ret; by apply Hsame];
    (destruct ev as [p|c| |sig|];
     [eapply returns_bind; [by apply (packet_loop_calls W')|]; intros [s calls] Hc; apply returns_ret;
        cbn [p_resolve]; by rewrite drop_app_length'
     |apply returns_skip; intros r; apply returns_ret; by apply Hsame
     |apply returns_skip; intros r; apply returns_ret; by apply Hsame
     |apply returns_ret; by apply Hsame
     |apply returns_ret, Hsame; unfold eraseAndLoop; rewrite Em; by repeat case_match]).
Qed.

Lemma whole_event_steps i h n names ev w :
  whole_ok i h n w -> n < 2 ^ 31 - 1 -> whole_event_ok i h ev -> names_read w.2 names ->
  (exists w', whole_event names ev w w') /\ forall w', whole_event names ev w w' -> whole_ok i h (n + 1) w'.
Proof.
  intros [Hm Hi Hh Ho Hn Hpairs Hx] Hlt [He Hb] Hnames.
  assert (QSort (w_qsort (with_names W names))) by done.
  assert (screen_offset (s_options (p_session w.1)) < 2 ^ 31 - 1) as Hoff by lia. rewrite <- Hi, <- Hh in He.
  destruct (program_step_ok (with_names W names) align proc_readable isprint_NUL wide_enough ev w.1 Hm He Hoff)
    as (m' & E & Hm' & Hi' & Hh' & Ho').
  pose proof (program_step_calls _ _ _ _ Hb E) as Hc. split.
  - destruct (calls_possible (s_options (p_session w.1)) _ w.2 Hx Hc) as [x' Hx']. by exists (m', x').
  - intros [m1 x1] [E1 Hx1]. cbn [fst snd] in *. rewrite E in E1. injection E1 as <-. split; cbn [fst snd].
    + done.
    + congruence.
    + congruence.
    + lia.
    + eapply (program_step_named shown (with_names W names) align); [|exact Hn|exact E].
      intros k. by eapply names_read_given.
    + exact (program_step_inv _ _ _ _ (pairs_data (with_names W names) align) ev w.1 Hb Hpairs m' E).
    + by eapply calls_reach.
Qed.

Lemma whole_run_ok i h evs w w' : whole_run evs w w' -> forall n,
  whole_ok i h n w -> Forall (whole_event_ok i h) evs -> n + Z.of_nat (length evs) < 2 ^ 31 ->
  whole_ok i h (n + Z.of_nat (length evs)) w'.
Proof.
  assert (forall n m x x1, whole_ok i h n (m, x) -> threads_run x x1 -> whole_ok i h n (m, x1)) as Hidle
    by (intros n m y y1 [? ? ? ? ? ? Hx] Hx1; split; try done; cbn in *; by etrans).
  induction 1 as [m y y' H|names ev evs m y y1 w w' H Hnames Hev _ IH]; intros n Hw Hevs Hlt; cbn [length] in *.
  - rewrite Z.add_0_r. by eapply Hidle.
  - apply Forall_cons in Hevs as [He Hevs]. replace (n + Z.of_nat (S (length evs))) with (n + 1 + Z.of_nat (length evs)) by lia.
    apply IH; [|done|lia]. destruct (whole_event_steps i h n names ev (m, y1)) as [_ Hs]; [by eapply Hidle|lia|done|done|].
    by apply Hs.
Qed.

(** ** Property *)

(** C2: the program with its resolver never gets stuck, and what it calls a host
    is a name of that host.  From the start of the program, on a terminal of at
    least 16 columns, and of its two workers, whatever fewer than 2^31 - 1
    events there were (frames of which enough was captured, keys that the editor
    accepts, signals) and however the four threads were scheduled: the program
    is well formed; the calls of resolve of the frames captured have only taken
    the resolver to states of its own; whatever names the next sweeps are given,
    the next event can happen and its calls can be made; resolve has a name for
    every address of family AF_INET or AF_INET6 that is asked for; every line is
    of one of these families, or its two addresses are zeros; and the name kept
    in a line of such a family is the line's source or destination in numbers,
    or a name that do_resolve finds for it.  A line of two zero addresses and
    of another family, for which inet_ntop writes nothing, may have any name. *)
Theorem program_with_resolver (names0 names : nat -> Z -> list Z -> option string) (m : program)
    (evs : list program_event) (ev : program_event) (w : program * resolver_sys) :
  names_read resolver_start names0 -> main (with_names W names0) x = Some (inr m) ->
  Forall (whole_event_ok (p_iface m) (p_handler m)) evs -> Z.of_nat (length evs) < 2 ^ 31 - 1 ->
  whole_run evs (m, resolver_start) w ->
  whole_event_ok (p_iface m) (p_handler m) ev -> names_read w.2 names ->
  program_ok w.1 /\ threads_run resolver_start w.2 /\
  lines_pairs (lines (s_display (p_session w.1))) /\ lines_named shown (lines (s_display (p_session w.1))) /\
  (exists w', whole_event names ev w w') /\
  (forall o af addr, in6_addr addr -> known_family af -> dnsresolution o = 1 ->
    exists nm s added, resolve o ntop af (raddr_bytes af addr) true HOSTNAME_LENGTH (monitor w.2) = Some (Some nm, s, added) /\
      name_read w.2 af addr nm).
Proof.
  intros H0 Em Hevs Hl Hrun Hev Hnames. assert (QSort (w_qsort (with_names W names0))) by done.
  pose proof (main_starts (with_names W names0) proc_readable x files_nul_free args_nul_free addresses_readable) as Hm.
  rewrite Em in Hm. destruct Hm as [Hm Ho].
  assert (whole_ok (p_iface m) (p_handler m) 0 (m, resolver_start)) as Hw.
  { split; try done; cbn [fst snd]; [lia| |by eapply (main_pairs _ align)].
    eapply (main_named shown _ align); [|exact Em]. intros k. by eapply names_read_given. }
  pose proof (whole_run_ok _ _ _ _ _ Hrun _ Hw Hevs ltac:(lia)) as Hok.
  destruct (whole_event_steps _ _ _ names ev _ Hok ltac:(lia) Hev Hnames) as [Hs _].
  destruct Hok as [? ? ? ? ? [_ ?] ?]. split_and!; try done. intros o af addr. by apply name_readable.
Qed.
End whole.

(** ** A run: a frame, the answer of a worker, and the lines sorted by source *)
Definition named_setup : setup :=
  Setup 0 (Some "eth0") None [("P"%char, "")] false demo_files demo_aton demo_aton true
    (fun _ => Some (if_hw_addr demo_iface)) (x_ifaddrs demo_setup) true 1
    (x_getprotobyname demo_setup) (x_servent demo_setup) true.

Definition no_names (k : nat) (af : Z) (addr : list Z) : option string := None.

Fixpoint make_calls (o : options_t) (ntop : addr_storage -> option string) (calls : list resolve_call) (x : resolver_sys) :
    option resolver_sys :=
  match calls with
  | [] => Some x
  | (af, addr) :: calls =>
      '(_, s, added) ← resolve o ntop af (raddr_bytes af addr) false 0 (monitor x);
      make_calls o ntop calls (after_call s added x)
  end.

Lemma make_calls_made ntop answers o calls : forall x x',
  make_calls o ntop calls x = Some x' -> calls_made ntop answers o calls x x'.
Proof.
  induction calls as [|[af addr] calls IH]; intros x x'; cbn [make_calls]; [intros [= <-]; by apply calls_over|].
  intros ([[out s] added] & Hr & H)%bind_Some. by eapply call_made; [|exact Hr|apply IH].
Qed.

(** The table as it is. *)
Definition names_now (x : resolver_sys) (k : nat) (af : Z) (addr : list Z) : option string :=
  '(out, _, _) ← resolve Resolver.demo_options Resolver.demo_ntop af (raddr_bytes af addr) true HOSTNAME_LENGTH (monitor x); out.

Lemma names_now_read answers x : names_read Resolver.demo_ntop answers x (names_now x).
Proof.
  intros k af addr nm _ _ ([[out s] added] & Hr & ->)%bind_Some. by eapply (read_table _ _ x af addr Resolver.demo_options x nm s added).
Qed.

(** Worker 0 goes on: woken by a signal, the queue, the answer. *)
Definition worker_turn (answer : string) (x : resolver_sys) : option resolver_sys :=
  let goes s w n := Some (ResolverSys s (<[0%nat := w]> (workers x)) n) in
  match workers x !! 0%nat with
  | Some Waiting => match signals x with S n => goes (monitor x) Woken n | O => None end
  | Some Woken => '(a, s) ← worker_take (monitor x); goes s (next_job a) (signals x)
  | Some (Resolving a) =>
      s ← worker_store a (Some answer) (monitor x); '(b, s) ← worker_take s; goes s (next_job b) (signals x)
  | _ => None
  end.

Fixpoint worker_turns (answer : string) (n : nat) (x : resolver_sys) : option resolver_sys :=
  match n with O => Some x | S n => x ← worker_turn answer x; worker_turns answer n x end.

Lemma worker_turn_step ntop (answers : addr_storage -> string -> Prop) answer x x' :
  (forall a, answers a answer) -> worker_turn answer x = Some x' -> resolver_step ntop answers x x'.
Proof.
  intros Ha. unfold worker_turn. destruct x as [s ws n]. cbn [workers monitor signals].
  destruct (ws !! 0%nat) as [[| | |a]|] eqn:E; try done.
  - destruct n as [|n]; [done|]. intros [= <-]. by apply (step_signal _ _ _ _ _ 0).
  - intros ([a s'] & Ht & [= <-])%bind_Some. exact (step_take ntop answers s ws n 0 a s' E Ht).
  - intros (s1 & Hs & H)%bind_Some. apply bind_Some in H as ([b s'] & Ht & [= <-]).
    exact (step_store ntop answers s ws n 0 a (Some answer) s1 b s' E (Ha a) Hs Ht).
Qed.

Lemma worker_turns_run ntop (answers : addr_storage -> string -> Prop) answer n : forall x x',
  (forall a, answers a answer) -> worker_turns answer n x = Some x' -> rtc (resolver_step ntop answers) x x'.
Proof.
  induction n as [|n IH]; intros x x' Ha; cbn [worker_turns]; [by intros [= <-]|].
  intros (x1 & H1 & H)%bind_Some. eapply rtc_l; [by eapply worker_turn_step|by apply IH].
Qed.

Definition named_events : list program_event := [PFrame demo_frame; PKey (code "<")].

(** The run, evaluated once: the frame, its calls, the answer of worker 0, the
    key; there is no other call, and the answer has reached the line. *)
Definition named_check (m m1 m2 : program) : bool :=
  (length (p_resolve m) =? 0)%nat && (length (p_resolve m2) =? length (p_resolve m1))%nat &&
  frame_whole 4 (p_iface m) (p_handler m) demo_frame &&
  bool_decide ((fun l => (src (l_ap l), cached_hostname l)) ∘ snd <$> map_to_list (lines (s_display (p_session m2))) =
               [(pad16 [10; 0; 0; 1], "gateway"%string)]).

Definition named_run (r : option (Z + program)) : bool :=
  match r with
  | Some (inr m) =>
      match program_step (with_names demo_world no_names) 4 (PFrame demo_frame) m with
      | Some m1 =>
          match make_calls (s_options (p_session m)) Resolver.demo_ntop (p_resolve m1) demo_idle ≫= worker_turns "gateway" 4 with
          | Some x2 =>
              match program_step (with_names demo_world (names_now x2)) 4 (PKey (code "<")) m1 with
              | Some m2 => named_check m m1 m2
              | None => false
              end
          | None => false
          end
      | None => false
      end
  | _ => false
  end.

Lemma named_run_ok : named_run (main (with_names demo_world no_names) named_setup) = true.
Proof. vm_compute. reflexivity. Qed.

Lemma no_names_read ntop answers x : names_read ntop answers x no_names.
Proof. done. Qed.

Lemma demo_frame_bytes : bytes_ok demo_frame.
Proof. apply (bool_decide_unpack _). vm_compute. exact I. Qed.

Lemma new_calls_all m m1 : (length (p_resolve m) =? 0)%nat = true -> new_calls m m1 = p_resolve m1.
Proof. unfold new_calls. by intros ->%Nat.eqb_eq. Qed.

Lemma new_calls_none m m1 : (length (p_resolve m1) =? length (p_resolve m))%nat = true -> new_calls m m1 = [].
Proof. unfold new_calls. intros E%Nat.eqb_eq. apply drop_ge. lia. Qed.

Lemma named r :
  named_run r = true ->
  exists m m2 x2, r = Some (inr m) /\
    Forall (whole_event_ok 4 (p_iface m) (p_handler m)) named_events /\
    whole_run demo_world 4 Resolver.demo_ntop demo_answers named_events (m, resolver_start) (m2, x2) /\
    (fun l => (src (l_ap l), cached_hostname l)) ∘ snd <$> map_to_list (lines (s_display (p_session m2))) =
      [(pad16 [10; 0; 0; 1], "gateway"%string)].
Proof.
  intros H. unfold named_run in H. destruct r as [[|m]|]; [discriminate H| |discriminate H].
  destruct (program_step _ 4 (PFrame demo_frame) m) as [m1|] eqn:E1; [|discriminate H].
  destruct (make_calls _ _ _ _ ≫= _) as [x2|] eqn:Ex; [|discriminate H].
  apply bind_Some in Ex as (x1 & Ec & Et).
  destruct (program_step _ 4 (PKey (code "<")) m1) as [m2|] eqn:E2; [|discriminate H].
  apply andb_prop in H as [[[H0 H1]%andb_prop Hw]%andb_prop Hg]. apply bool_decide_eq_true in Hg.
  exists m, m2, x2. refine (conj eq_refl (conj _ (conj _ Hg))).
  - constructor; [split; [exact Hw|exact demo_frame_bytes]|].
    constructor; [|constructor]. split; [|exact I]. apply (bool_decide_unpack _). vm_compute. exact I.
  - apply (whole_next _ _ _ _ no_names _ _ _ _ demo_idle (m1, x1)).
    + apply demo_idle_reachable.
    + apply no_names_read.
    + split; cbn [fst snd]; [exact E1|]. rewrite (new_calls_all _ _ H0). by apply make_calls_made.
    + apply (whole_next _ _ _ _ (names_now x2) _ _ _ _ x2 (m2, x2)).
      * apply (worker_turns_run _ _ "gateway" 4); [intros a; reflexivity|exact Et].
      * apply names_now_read.
      * split; cbn [fst snd]; [exact E2|]. rewrite (new_calls_none _ _ H1). by apply calls_over.
      * by apply whole_idle.
Qed.

(** ** A family that inet_ntop does not know *)
Definition strange_ip6 : bytes := [96; 0; 0; 0; 0; 0; 59; 64] ++ [32; 1] ++ replicate 13 0 ++ [1] ++ [32; 1] ++ replicate 13 0 ++ [2].

(** An IPv6 packet of unknown direction is accounted to the pair of zeros, and
    resolve is called with the address family of that pair, which is 0: the
    buffer of the new entry is never written.  Sorted by host, the line of the
    pair asks for such an entry and copies what its buffer holds. *)
Lemma unknown_family_asked :
  snd <$> handle_ip_packet (Env Resolver.demo_options demo_iface None) cap_init strange_ip6 (-1) =
    Some [(0, [32; 1] ++ replicate 13 0 ++ [2]); (0, [32; 1] ++ replicate 13 0 ++ [1])] /\
  (forall o names text, names 0 (replicate 16 0) = Some text ->
    cached_hostname (name_line o names (new_line zero_pair)) = text).
Proof.
  split; [vm_compute; reflexivity|]. intros o names text E. unfold name_line. cbn [l_ap new_line address_family zero_pair src dst].
  change zeros16 with (replicate 16 0). destruct (_ =? _); by rewrite E.
Qed.

Lemma named_files_ok path text : x_files named_setup path = Some text -> nul_free text = true.
Proof. exact (demo_files_ok path text). Qed.

Lemma named_args_ok : Forall (fun a : ascii * string => nul_free a.2 = true) (x_opts named_setup).
Proof. repeat constructor. Qed.

Lemma demo_ntop_known a : known_family (as_family a) -> is_Some (Resolver.demo_ntop a).
Proof. unfold Resolver.demo_ntop. intros [-> | ->]; by eexists. Qed.

Example program_with_resolver_witness :
  exists m w, whole_run demo_world 4 Resolver.demo_ntop demo_answers named_events (m, resolver_start) w /\
    program_ok w.1 /\ rtc (resolver_step Resolver.demo_ntop demo_answers) resolver_start w.2 /\
    lines_named (shown Resolver.demo_ntop demo_answers) (lines (s_display (p_session w.1))) /\
    exists w', whole_event demo_world 4 Resolver.demo_ntop demo_answers (names_now w.2) PTurn w w'.
Proof.
  destruct (named _ named_run_ok) as (m & m2 & x2 & Em & Hev & Hrun & _). exists m, (m2, x2). split; [exact Hrun|].
  destruct (program_with_resolver demo_world 4 Resolver.demo_ntop demo_answers demo_ntop_known named_setup demo_proc_readable
    eq_refl ltac:(vm_compute; congruence) named_files_ok named_args_ok demo_addresses no_names (names_now x2)
    m named_events PTurn (m2, x2)) as (Hp & Hx & _ & Hl & Hs & _).
  - apply no_names_read.
  - exact Em.
  - exact Hev.
  - reflexivity.
  - exact Hrun.
  - split; exact I.
  - apply names_now_read.
  - exact (conj Hp (conj Hx (conj Hl Hs))).
Defined.
