(* ===== verification/DoResolve.v ===== *)
(** * Looking a name up (src/util/resolver.c do_resolve)

    The five variants of do_resolve that the build chooses from.  What the
    resolver libraries and the system answer are arguments; the results are
    doubly optional: the outer option is lost when the code reads memory that
    nothing wrote, the inner one is the pointer that is returned. *)

From S2P Require Import Prelude Bytes CStr AddrHash Packet NsHash UiFormat.

Local Open Scope Z_scope.

(** A copy of [addr_len] bytes into a field of [n], over what it held; no
    value past the end of either. *)
Definition copy_addr (n : nat) (old : bytes) (a : addr_storage) : option bytes :=
  if (0 <=? addr_len a) && (addr_len a <=? Z.of_nat n) && (addr_len a <=? Z.of_nat (length (as_addr a)))
  then Some (take (Z.to_nat (addr_len a)) (as_addr a) ++ drop (Z.to_nat (addr_len a)) old) else None.

(** ** USE_GETNAMEINFO *)

(** A socket address: what the code sets, and the other fields, which it does not. *)
Record sockaddr := Sockaddr { sa_family : Z; sa_port : Z; sa_addr : bytes; sa_rest : bytes }.

Section getnameinfo.
Context (getnameinfo : sockaddr -> option string) (stack : sockaddr).

Definition do_resolve_getnameinfo (addr : addr_storage) : option (option string) :=
  if as_family addr =? AF_INET then
    a ← copy_addr 4 (sa_addr stack) addr; Some (getnameinfo (Sockaddr (as_family addr) 0 a (sa_rest stack)))
  else if as_family addr =? AF_INET6 then
    a ← copy_addr 16 (sa_addr stack) addr; Some (getnameinfo (Sockaddr (as_family addr) 0 a (sa_rest stack)))
  else Some None.
End getnameinfo.

(** ** USE_GETHOSTBYADDR_R *)

(** One call with a buffer: too small, failed, or the entry found if there is one. *)
Inductive r_answer :=
  | RErange
  | RError (code : Z)
  | RDone (hp : option string).

Section gethostbyaddr_r.
Context (gethostbyaddr_r : Z -> r_answer) (realloc_ok : Z -> bool).

(** The enlarging of the buffer: the last answer and the size; no result when
    the fuel is too small. *)
Fixpoint enlarge (fuel : nat) (hstbuflen : Z) : option (r_answer * Z) :=
  match fuel with
  | O => None
  | S fuel =>
      match gethostbyaddr_r hstbuflen with
      | RErange =>
          let hstbuflen := u64 (hstbuflen * 2) in
          if realloc_ok hstbuflen then enlarge fuel hstbuflen else Some (RErange, hstbuflen)
      | answer => Some (answer, hstbuflen)
      end
  end.

(** The calls that return an error code. *)
Definition do_resolve_r_int (fuel : nat) : option (option string) :=
  '(answer, _) ← enlarge fuel 1024;
  Some (match answer with RDone hp => hp | _ => None end).

(** The calls that return the entry: [res] is tested all the same. *)
Definition do_resolve_r_ptr (res : option Z) (fuel : nat) : option (option string) :=
  '(answer, _) ← enlarge fuel 1024;
  res ← res;
  Some (if truth res then None else match answer with RDone hp => hp | _ => None end).
End gethostbyaddr_r.

(** ** USE_GETHOSTBYADDR *)
Definition do_resolve_gethostbyaddr (gethostbyaddr : addr_storage -> option string) (addr : addr_storage) :
    option (option string) := Some (gethostbyaddr addr).

(** ** The question of a reverse lookup *)

(** ["%d.%d.%d.%d.in-addr.arpa."] into a buffer of 35 bytes. *)
Definition ptr_suffix : string := ".in-addr.arpa.".
Definition ptr_question (a : bytes) : option string :=
  match a with
  | a0 :: a1 :: a2 :: a3 :: _ =>
      Some (snprintf 35 (dec a3 +:+ "." +:+ dec a2 +:+ "." +:+ dec a1 +:+ "." +:+ dec a0 +:+ ptr_suffix))
  | _ => None
  end.

(** ** USE_LIBRESOLV *)

(** An answer record: its type and its name, when that can be uncompressed. *)
Record rr := RR { rr_type : Z; rr_name : option string }.
Definition T_PTR : Z := 12.

(** The loop over the answers, of which [None] is one that ns_parserr refuses:
    [ret] and the copies that no pointer is left to. *)
Fixpoint answer_loop (answers : list (option rr)) (ret : option string) (lost : list string) :
    option (option string * list string) :=
  match answers with
  | [] => Some (ret, lost)
  | Some r :: answers =>
      if rr_type r =? T_PTR then
        buf ← rr_name r;
        answer_loop answers (Some buf) (match ret with Some s => lost ++ [s] | None => lost end)
      else answer_loop answers ret lost
  | None :: answers => answer_loop answers ret lost
  end.

(** [res_search]: the answers to a question, unless it fails or its message
    cannot be parsed. *)
Definition do_resolve_libresolv (res_search : string -> option (list (option rr))) (addr : addr_storage) :
    option (option string * list string) :=
  if negb (as_family addr =? AF_INET) then Some (None, [])
  else
    s ← ptr_question (as_addr addr);
    match res_search s with
    | None => Some (None, [])
    | Some answers => answer_loop answers None []
    end.

(** ** USE_ARES *)

(** struct ares_callback_comm; the name is not set before the callback. *)
Record ares_comm := AresComm { c_result : Z; c_name : option string }.

(** A call of the callback: ARES_SUCCESS with the entry that
    ares_parse_ptr_reply finds, if it does, or another status. *)
Inductive ares_reply :=
  | AresSuccess (he : option string)
  | AresFailure (status : Z).

Definition do_resolve_ares_callback (reply : ares_reply) (C : ares_comm) : option ares_comm :=
  match reply with
  | AresSuccess he => h_name ← he; Some (AresComm 1 (Some h_name))
  | AresFailure _ => Some (AresComm (-1) (c_name C))
  end.

(** What is kept between calls: the key, and this thread's channel. *)
Record ares_state := AresState { gotkey : bool; channel : bool; channels_made : nat }.

(** At the end of the thread. *)
Definition ares_channel_destroy (st : ares_state) : ares_state := AresState (gotkey st) false (channels_made st).

(** [while (C.result == 0)]: each turn may run the callback. *)
Fixpoint ares_wait (turns : list (option ares_reply)) (C : ares_comm) : option ares_comm :=
  if c_result C =? 0 then
    match turns with
    | [] => None
    | None :: turns => ares_wait turns C
    | Some reply :: turns => C ← do_resolve_ares_callback reply C; ares_wait turns C
    end
  else Some C.

Section ares.
Context (ares_init_ok : bool) (ares_query : string -> list (option ares_reply)).

(** Make sure there is a channel. *)
Definition ares_channel (st : ares_state) : bool * ares_state :=
  if channel st then (true, AresState true true (channels_made st))
  else if ares_init_ok then (true, AresState true true (S (channels_made st)))
  else (false, AresState true false (channels_made st)).

(** The first reply of [ares_query] is what the call itself runs. *)
Definition do_resolve_ares (addr : addr_storage) (st : ares_state) : option (option string * ares_state) :=
  if negb (as_family addr =? AF_INET) then Some (None, st)
  else
    let '(ok, st) := ares_channel st in
    if negb ok then Some (None, st)
    else
      s ← ptr_question (as_addr addr);
      let C := AresComm 0 None in
      '(C, turns) ← match ares_query s with
                    | Some reply :: turns => C ← do_resolve_ares_callback reply C; Some (C, turns)
                    | None :: turns => Some (C, turns)
                    | [] => Some (C, [])
                    end;
      C ← ares_wait turns C;
      if (c_result C =? -1) || (c_result C =? 0) then Some (None, st)
      else name ← c_name C; Some (Some name, st).
End ares.

(** ** USE_FORKING_RESOLVER *)
Definition NAMESIZE : Z := 64.
Definition SIZEOF_ADDR_STORAGE : nat := 24.
Definition SIZEOF_IN6_ADDR : nat := 16.

(** A 32-bit integer of a little-endian machine. *)
Definition le32 (z : Z) : bytes := (fun i => Z.shiftr (u32 z) (8 * i) mod 256) <$> [0; 1; 2; 3].
Definition int_of_le32 (l : bytes) : Z := s32 (be_val (rev l)).

(** The bytes of a struct addr_storage. *)
Definition storage_bytes (a : addr_storage) : bytes := le32 (as_family a) ++ le32 (addr_len a) ++ as_addr a.
Definition storage_of_bytes (l : bytes) : addr_storage :=
  AddrStorage (int_of_le32 (take 4 l)) (int_of_le32 (take 4 (drop 4 l))) (drop 8 l).

Section forking.
Context (gethostbyaddr : addr_storage -> option string).

(** The child: what its reads return, and what it writes; it exits at a read
    of another size.  Without more to read it waits. *)
Fixpoint forking_resolver_worker (reads : list bytes) : list string * option Z :=
  match reads with
  | [] => ([], None)
  | r :: reads =>
      if negb (length r =? SIZEOF_ADDR_STORAGE)%nat then ([], Some (-1))
      else
        let buf := match gethostbyaddr (storage_of_bytes r) with
                   | Some h_name => strncpy (NAMESIZE - 1) h_name
                   | None => ""
                   end in
        let '(replies, code) := forking_resolver_worker reads in (buf :: replies, code)
  end.

(** What this thread keeps between calls, the descriptors it has open and the
    children it has not waited for. *)
Record fork_state := ForkState { workerinfo : option Z; open_fds : Z; children : Z }.

(** A stream socket gives at most what was asked for of what was written. *)
Definition stream_read (n : nat) (written : bytes) : bytes := take n written.

(** A request of [n] bytes of the struct, and the name in the reply, if 64
    bytes of one come back. *)
Definition transact (n : nat) (addr : addr_storage) : option string :=
  head (forking_resolver_worker [stream_read SIZEOF_ADDR_STORAGE (take n (storage_bytes addr))]).1.

(** [socketpair_ok] and the child that fork makes. *)
Definition fork_worker (socketpair_ok : bool) (child : option Z) (st : fork_state) : option Z * fork_state :=
  match workerinfo st with
  | Some child => (Some child, st)
  | None =>
      if negb socketpair_ok then (None, st)
      else match child with
           | None => (None, st)
           | Some child => (Some child, ForkState (Some child) (open_fds st + 1) (children st + 1))
           end
  end.

(** [addr] is declared as the address alone, of which the size is taken. *)
Definition do_resolve_forking (socketpair_ok : bool) (child : option Z) (addr : addr_storage) (st : fork_state) :
    option string * fork_state :=
  match fork_worker socketpair_ok child st with
  | (None, st) => (None, st)
  | (Some child, st) =>
      match transact SIZEOF_IN6_ADDR addr with
      | Some name => (if String.eqb name "" then None else Some name, st)
      | None => (None, ForkState None (open_fds st - 1) (children st - 1))
      end
  end.
End forking.

(** ** No method *)
Definition do_resolve_none (addr : addr_storage) : option (option string) := Some None.

(** ** The question *)
Definition read_label (s : string) : option (Z * string) :=
  let l := before_char "." s in
  if String.eqb l "" || negb (all_chars is_digit l) then None
  else rest ← after_char "." s; Some (dec_value 0 l, rest).

(** The address that a question asks for. *)
Definition read_question (s : string) : option bytes :=
  '(a3, s) ← read_label s; '(a2, s) ← read_label s; '(a1, s) ← read_label s; '(a0, s) ← read_label s;
  if String.eqb s "in-addr.arpa." then Some [a0; a1; a2; a3] else None.

Lemma read_label_dec n s : 0 <= n -> read_label (dec n +:+ "." +:+ s) = Some (n, s).
Proof.
  intros Hn. destruct (dec_digits n Hn) as (Hv & Hd & Hne). unfold read_label.
  assert (all_chars (fun a => negb (aeq a ".")) (dec n) = true) as Hdot.
  { eapply all_chars_impl; [|exact Hd]. intros c Hc. destruct (aeq c ".") eqn:E; [|done].
    by apply aeq_true in E as ->. }
  assert (span (fun a => negb (aeq a ".")) (dec n +:+ "." +:+ s) = (dec n, "." +:+ s)) as Hs
    by (by apply span_stop).
  unfold before_char, take_while. rewrite Hs. cbn [fst]. rewrite Hd.
  destruct (String.eqb_spec (dec n) ""); [done|]. cbn [orb negb].
  unfold after_char, drop_while. rewrite Hs. cbn [snd mbind option_bind]. by rewrite Hv.
Qed.

Lemma dec_byte_length n : is_byte n -> (strlen (dec n) <= 3)%nat.
Proof.
  intros Hn. assert (forallb (fun n => strlen (dec n) <=? 3)%nat (seqZ 0 256) = true) as H by (vm_compute; reflexivity).
  rewrite forallb_forall in H. apply Nat.leb_le, H, list_elem_of_In, elem_of_seqZ. unfold is_byte in Hn. lia.
Qed.

Lemma ptr_question_full a0 a1 a2 a3 rest :
  bytes_ok [a0; a1; a2; a3] ->
  ptr_question (a0 :: a1 :: a2 :: a3 :: rest) =
    Some (dec a3 +:+ "." +:+ dec a2 +:+ "." +:+ dec a1 +:+ "." +:+ dec a0 +:+ ptr_suffix).
Proof.
  unfold bytes_ok. rewrite !Forall_cons. intros (H0 & H1 & H2 & H3 & _). unfold ptr_question, snprintf. f_equal.
  apply dec_byte_length in H0, H1, H2, H3. apply str_take_all. rewrite !strlen_app. simpl strlen. lia.
Qed.

(** The question of a reverse lookup is never cut by its buffer, and it
    asks for the address it was made from. *)
Theorem ptr_question_reads_back (a : bytes) :
  bytes_ok a -> (4 <= length a)%nat -> exists s, ptr_question a = Some s /\ read_question s = Some (take 4 a).
Proof.
  destruct a as [|a0 [|a1 [|a2 [|a3 rest]]]]; try (simpl; lia). intros Ha _.
  assert (bytes_ok [a0; a1; a2; a3]) as H4 by exact (Forall_take _ 4 _ Ha).
  eexists. split; [by apply ptr_question_full|].
  unfold bytes_ok in H4. rewrite !Forall_cons in H4. unfold is_byte in H4.
  change ptr_suffix with ("." +:+ "in-addr.arpa.")%string.
  unfold read_question. do 4 (rewrite read_label_dec by lia; cbn [mbind option_bind]). done.
Qed.

Lemma ptr_question_reads_back_witness :
  ptr_question [192; 0; 2; 7] = Some "7.2.0.192.in-addr.arpa."%string /\
  exists s, ptr_question [192; 0; 2; 7] = Some s /\ read_question s = Some [192; 0; 2; 7].
Proof.
  split; [vm_compute; reflexivity|]. apply (ptr_question_reads_back [192; 0; 2; 7]).
  - repeat constructor; unfold is_byte; lia.
  - simpl. lia.
Defined.

(** ** The buffer of gethostbyaddr_r *)
Section enlarge.
Context (gethostbyaddr_r : Z -> r_answer) (realloc_ok : Z -> bool).

Lemma enlarge_step fuel n :
  enlarge gethostbyaddr_r realloc_ok (S fuel) n =
    match gethostbyaddr_r n with
    | RErange => if realloc_ok (u64 (n * 2)) then enlarge gethostbyaddr_r realloc_ok fuel (u64 (n * 2))
                 else Some (RErange, u64 (n * 2))
    | answer => Some (answer, n)
    end.
Proof. done. Qed.

Lemma enlarge_doubles k : forall n fuel,
  (k < fuel)%nat -> 0 <= n -> n * 2 ^ Z.of_nat k < 2 ^ 64 ->
  (forall j, (j < k)%nat -> gethostbyaddr_r (n * 2 ^ Z.of_nat j) = RErange /\ realloc_ok (n * 2 ^ Z.of_nat (S j)) = true) ->
  gethostbyaddr_r (n * 2 ^ Z.of_nat k) <> RErange ->
  enlarge gethostbyaddr_r realloc_ok fuel n = Some (gethostbyaddr_r (n * 2 ^ Z.of_nat k), n * 2 ^ Z.of_nat k).
Proof.
  induction k as [|k IH]; intros n [|fuel] Hf Hn Hb Hj He; try lia; rewrite enlarge_step.
  - change (2 ^ Z.of_nat 0) with 1 in *. rewrite Z.mul_1_r in *. by destruct (gethostbyaddr_r n).
  - destruct (Hj 0%nat ltac:(lia)) as [E1 E2]. change (2 ^ Z.of_nat 0) with 1 in E1. change (2 ^ Z.of_nat 1) with 2 in E2.
    rewrite Z.mul_1_r in E1. rewrite E1.
    assert (forall i, n * 2 ^ Z.of_nat (S i) = n * 2 * 2 ^ Z.of_nat i) as Ep.
    { intros i. rewrite Nat2Z.inj_succ, Z.pow_succ_r by lia. lia. }
    assert (u64 (n * 2) = n * 2) as ->.
    { apply uwrap_small. rewrite Ep in Hb. assert (0 < 2 ^ Z.of_nat k) by (apply Z.pow_pos_nonneg; lia). nia. }
    rewrite E2, Ep. apply IH; [lia|lia|by rewrite <- Ep| |by rewrite <- Ep].
    intros j Hlt. rewrite <- !Ep. apply Hj. lia.
Qed.

(** No object has more than half of the addresses: the doubling ends. *)
Hypothesis realloc_limit : forall n, realloc_ok n = true -> 0 < n < 2 ^ 63.

Lemma enlarge_ends k : forall n fuel,
  (k < fuel)%nat -> 2 ^ 63 <= n * 2 ^ Z.of_nat k -> 0 <= n < 2 ^ 63 -> is_Some (enlarge gethostbyaddr_r realloc_ok fuel n).
Proof.
  induction k as [|k IH]; intros n [|fuel] Hf Hk Hn; try lia.
  rewrite enlarge_step. destruct (gethostbyaddr_r n); [|by eexists|by eexists].
  rewrite uwrap_small by lia. destruct (realloc_ok (n * 2)) eqn:E; [|by eexists].
  apply realloc_limit in E. apply IH; [lia| |lia]. rewrite Nat2Z.inj_succ, Z.pow_succ_r in Hk by lia. lia.
Qed.
End enlarge.

(** C36: the buffer of gethostbyaddr_r is doubled until the entry fits or no
    memory is left, after at most 54 turns; if it fits a buffer that can be had,
    the name of the entry is what is returned. *)
Theorem buffer_loop_ends (gethostbyaddr_r : Z -> r_answer) (realloc_ok : Z -> bool) (fuel : nat) :
  (forall n, realloc_ok n = true -> 0 < n < 2 ^ 63) -> (54 <= fuel)%nat ->
  is_Some (do_resolve_r_int gethostbyaddr_r realloc_ok fuel) /\
  forall k, (k < 53)%nat ->
    (forall j, (j < k)%nat -> gethostbyaddr_r (2 ^ (10 + Z.of_nat j)) = RErange /\
                              realloc_ok (2 ^ (10 + Z.of_nat (S j))) = true) ->
    gethostbyaddr_r (2 ^ (10 + Z.of_nat k)) <> RErange ->
    do_resolve_r_int gethostbyaddr_r realloc_ok fuel =
      Some (match gethostbyaddr_r (2 ^ (10 + Z.of_nat k)) with RDone hp => hp | _ => None end).
Proof.
  intros Hr Hf. unfold do_resolve_r_int. split.
  - destruct (enlarge_ends gethostbyaddr_r realloc_ok Hr 53 1024 fuel) as [[a n] ->]; [lia|done|done|by eexists].
  - intros k Hk Hj He.
    assert (forall i, 2 ^ (10 + Z.of_nat i) = 1024 * 2 ^ Z.of_nat i) as Ep by (intros i; by rewrite Z.pow_add_r by lia).
    setoid_rewrite Ep in Hj. rewrite Ep in He |- *.
    rewrite (enlarge_doubles gethostbyaddr_r realloc_ok k 1024 fuel); [done|lia|lia| |done|done].
    rewrite <- Ep. apply Z.pow_lt_mono_r; lia.
Qed.

(** An entry of 3000 bytes. *)
Definition long_entry (n : Z) : r_answer := if n <? 3000 then RErange else RDone (Some "host.example").
Definition small_memory (n : Z) : bool := (0 <? n) && (n <? 2 ^ 20).

Lemma buffer_loop_ends_witness :
  is_Some (do_resolve_r_int long_entry small_memory 54) /\
  do_resolve_r_int long_entry small_memory 54 = Some (Some "host.example").
Proof.
  destruct (buffer_loop_ends long_entry small_memory 54) as [H1 H2].
  - unfold small_memory. intros n [H1%Z.ltb_lt H2%Z.ltb_lt]%andb_true_iff. lia.
  - lia.
  - split; [exact H1|]. apply (H2 2%nat); [lia| |discriminate].
    intros j Hj. assert (j = 0 \/ j = 1)%nat as [-> | ->] by lia; split; reflexivity.
Defined.

(** ** What the model shows of the code *)

(** Where gethostbyaddr_r returns the entry, [res] is read and nothing has set it. *)
Lemma r_ptr_reads_unset g r fuel : do_resolve_r_ptr g r None fuel = None.
Proof. unfold do_resolve_r_ptr. by destruct (enlarge _ _ _ _) as [[]|]. Qed.

(** The last name of the answers is returned, and the copies of the others are lost. *)
Definition ptr_name (r : option rr) : option string := r ← r; if rr_type r =? T_PTR then rr_name r else None.

Definition opt_list {A} (x : option A) : list A := match x with Some x => [x] | None => [] end.

Lemma answer_loop_spec answers ret lost :
  Forall (fun r => forall x, r = Some x -> rr_type x = T_PTR -> is_Some (rr_name x)) answers ->
  exists ret' lost', answer_loop answers ret lost = Some (ret', lost') /\
    lost' ++ opt_list ret' = lost ++ opt_list ret ++ omap ptr_name answers.
Proof.
  intros Ha. revert ret lost. induction Ha as [|r answers Hr _ IH]; intros ret lost.
  { exists ret, lost. by rewrite app_nil_r. }
  cbn [answer_loop]. destruct r as [x|]; [|apply IH].
  cbn [omap list_omap]. unfold ptr_name at 1. cbn [mbind option_bind].
  destruct (Z.eqb_spec (rr_type x) T_PTR) as [E|E]; [|apply IH].
  destruct (Hr x eq_refl E) as [nm ->]. cbn [mbind option_bind].
  destruct (IH (Some nm) (match ret with Some s => lost ++ [s] | None => lost end)) as (ret' & lost' & -> & Hl).
  exists ret', lost'. split; [done|]. rewrite Hl. destruct ret; simpl; by rewrite <- ?app_assoc.
Qed.

Lemma libresolv_leaks :
  do_resolve_libresolv (fun _ => Some [Some (RR T_PTR (Some "a.example")); Some (RR T_PTR (Some "b.example"))])
    (AddrStorage AF_INET 4 (10 :: replicate 15 0)) = Some (Some "b.example", ["a.example"]).
Proof. vm_compute. reflexivity. Qed.

(** A reply that ares cannot parse leaves [he] as it was. *)
Lemma ares_unparsed_reply C : do_resolve_ares_callback (AresSuccess None) C = None.
Proof. done. Qed.

(** The forking resolver never resolves: the request is shorter than the child
    expects, which exits, and the next lookup forks another. *)
Lemma forking_never_resolves g sp child addr st :
  workerinfo st = None -> do_resolve_forking g sp child addr st = (None, st).
Proof.
  intros Hw. unfold do_resolve_forking, fork_worker. rewrite Hw.
  destruct sp; [|done]. destruct child as [child|]; [|done].
  assert (transact g SIZEOF_IN6_ADDR addr = None) as ->.
  { unfold transact, stream_read. cbn [forking_resolver_worker].
    assert (length (take SIZEOF_ADDR_STORAGE (take SIZEOF_IN6_ADDR (storage_bytes addr))) <= 16)%nat as Hl
      by (rewrite !length_take; unfold SIZEOF_IN6_ADDR; lia).
    destruct (Nat.eqb_spec (length (take SIZEOF_ADDR_STORAGE (take SIZEOF_IN6_ADDR (storage_bytes addr))))
      SIZEOF_ADDR_STORAGE) as [E|E]; [change SIZEOF_ADDR_STORAGE with 24%nat in *; lia|done]. }
  destruct st as [w f c]. simpl in *. subst w. do 2 f_equal; lia.
Qed.

(** A request of the whole struct would be answered. *)
Lemma le32_round_trip z : - 2 ^ 31 <= z < 2 ^ 31 -> int_of_le32 (le32 z) = z.
Proof.
  intros Hz. unfold int_of_le32, le32. cbn [fmap list_fmap rev app].
  pose proof (uwrap_range 32 z ltac:(lia)) as Hu.
  assert (be_val [Z.shiftr (u32 z) (8 * 3) mod 256; Z.shiftr (u32 z) (8 * 2) mod 256; Z.shiftr (u32 z) (8 * 1) mod 256;
    Z.shiftr (u32 z) (8 * 0) mod 256] = u32 z) as ->.
  { unfold be_val, be_acc. cbn [foldl]. rewrite !Z.shiftr_div_pow2 by lia.
    change (2 ^ (8 * 3)) with 16777216. change (2 ^ (8 * 2)) with 65536. change (2 ^ (8 * 1)) with 256.
    change (2 ^ (8 * 0)) with 1. change (2 ^ 32) with 4294967296 in Hu. generalize dependent (u32 z). intros u Hu.
    Z.to_euclidean_division_equations. lia. }
  unfold swrap, uwrap. change (32 - 1) with 31. rewrite Zplus_mod_idemp_l. rewrite Z.mod_small; lia.
Qed.

Lemma full_request_resolves g addr :
  - 2 ^ 31 <= as_family addr < 2 ^ 31 -> - 2 ^ 31 <= addr_len addr < 2 ^ 31 -> length (as_addr addr) = 16%nat ->
  transact g SIZEOF_ADDR_STORAGE addr =
    Some (match g addr with Some name => strncpy (NAMESIZE - 1) name | None => "" end).
Proof.
  intros Hf Hl Hn. unfold transact, stream_read.
  assert (length (storage_bytes addr) = 24%nat) as H24.
  { unfold storage_bytes. rewrite !length_app, Hn. done. }
  rewrite !(take_ge (storage_bytes addr)) by (unfold SIZEOF_ADDR_STORAGE; lia).
  assert (storage_of_bytes (storage_bytes addr) = addr) as Hs.
  { unfold storage_of_bytes, storage_bytes. destruct addr as [f l b]. cbn [as_family addr_len as_addr] in *.
    change (take 4 (le32 f ++ le32 l ++ b)) with (le32 f). change (take 4 (drop 4 (le32 f ++ le32 l ++ b))) with (le32 l).
    change (drop 8 (le32 f ++ le32 l ++ b)) with b. by rewrite !le32_round_trip. }
  cbn [forking_resolver_worker]. rewrite H24, Hs. done.
Qed.

(** Each thread makes its channel once. *)
Lemma ares_channel_once ok st :
  channels_made st = (if channel st then 1 else 0)%nat ->
  channels_made (ares_channel ok st).2 = (if channel (ares_channel ok st).2 then 1 else 0)%nat /\
  (channel st = true -> (ares_channel ok st).1 = true).
Proof. unfold ares_channel. destruct st as [k [] n], ok; simpl; intros ->; split; try done; lia. Qed.
