(* ===== verification/Dlpi.v ===== *)
(** * Messages of the data link provider (src/util/dlcommon.c)

    The requests that are put on a DLPI stream, the checks on the answers, and
    the text of both.  The constants and the layouts of the system's headers
    are the fields of a [header]; a message that was received is read through
    [dl_union].  An error that ends the program is a value of [outcome], and
    so is a read or a write that C does not define. *)

From S2P Require Import Prelude Bytes CStr Packet.

Local Open Scope Z_scope.

(** ** Outcomes *)
Inductive outcome (A : Type) :=
  | Done (x : A)
  | Exit (code : Z) (message : string)
  | Undefined.
Arguments Done {A} x.
Arguments Exit {A} code message.
Arguments Undefined {A}.

#[export] Instance outcome_bind : MBind outcome := fun A B f x =>
  match x with Done x => f x | Exit c s => Exit c s | Undefined => Undefined end.

Definition defined {A} (x : option A) : outcome A := match x with Some x => Done x | None => Undefined end.

(** ** printf *)
Definition hex_digits : list ascii :=
  ["0"; "1"; "2"; "3"; "4"; "5"; "6"; "7"; "8"; "9"; "a"; "b"; "c"; "d"; "e"; "f"]%char.
Definition nibble (z : Z) : ascii := default NUL (hex_digits !! Z.to_nat (z mod 16)).

(** [hexnibble]: the digit of the low half of a character. *)
Definition hexnibble (c : Z) : option ascii := hex_digits !! Z.to_nat (Z.land c 0x0f).

(** The [n] digits from the [n]-th nibble down, without leading zeros. *)
Fixpoint hex_from (n : nat) (started : bool) (z : Z) : string :=
  match n with
  | O => EmptyString
  | S n =>
      let d := nibble (Z.shiftr z (4 * Z.of_nat n)) in
      if started || negb (aeq d "0") || (n =? 0)%nat then String d (hex_from n true z) else hex_from n false z
  end.

(** [%x] *)
Definition hex (z : Z) : string := hex_from 8 false (u32 z).

Inductive arg := AD (z : Z) | AS (s : string).

(** [%d], [%x] and [%s]; an argument that is missing or of another kind has no
    text. *)
Fixpoint printf (format : string) (args : list arg) : option string :=
  match format with
  | EmptyString => Some EmptyString
  | String "%" (String k rest) =>
      match args with
      | AD z :: args =>
          t ← printf rest args;
          if aeq k "d" then Some (dec (s32 z) +:+ t) else if aeq k "x" then Some (hex z +:+ t) else None
      | AS s :: args => t ← printf rest args; if aeq k "s" then Some (s +:+ t) else None
      | [] => None
      end
  | String c rest => t ← printf rest args; Some (String c t)
  end.

(** ** The headers *)
Inductive prim :=
  | DL_INFO_REQ | DL_INFO_ACK | DL_ATTACH_REQ | DL_DETACH_REQ | DL_BIND_REQ | DL_BIND_ACK | DL_UNBIND_REQ
  | DL_OK_ACK | DL_ERROR_ACK | DL_SUBS_BIND_REQ | DL_SUBS_BIND_ACK | DL_SUBS_UNBIND_REQ | DL_ENABMULTI_REQ
  | DL_DISABMULTI_REQ | DL_PROMISCON_REQ | DL_PROMISCOFF_REQ | DL_UNITDATA_REQ | DL_UNITDATA_IND
  | DL_UDERROR_IND | DL_UDQOS_REQ | DL_CONNECT_REQ | DL_CONNECT_IND | DL_CONNECT_RES | DL_CONNECT_CON
  | DL_TOKEN_REQ | DL_TOKEN_ACK | DL_DISCONNECT_REQ | DL_DISCONNECT_IND | DL_RESET_REQ | DL_RESET_IND
  | DL_RESET_RES | DL_RESET_CON | DL_PHYS_ADDR_REQ | DL_PHYS_ADDR_ACK | DL_SET_PHYS_ADDR_REQ.

#[export] Instance prim_eq_dec : EqDecision prim.
Proof. solve_decision. Defined.

(** The members of union DL_primitives. *)
Inductive dl_struct :=
  | info_req | info_ack | attach_req | detach_req | bind_req | bind_ack | unbind_req | ok_ack | error_ack
  | subs_bind_req | subs_bind_ack | subs_unbind_req | enabmulti_req | disabmulti_req | promiscon_req
  | promiscoff_req | unitdata_req | unitdata_ind | uderror_ind | udqos_req | physaddr_req | physaddr_ack
  | set_physaddr_req | test_req | test_ind | test_res | test_con | xid_req | xid_ind | xid_res | xid_con.

Record header := Header {
  code : prim -> Z;
  sizeof : dl_struct -> Z;
  states : list Z;           (* the cases of dlstate, in order; those of the other tables *)
  errnos : list Z;
  promisc_levels : list Z;
  service_modes : list Z;
  styles : list Z;
  mac_types : list Z
}.

Definition MAXDLBUF : Z := 8192.
Definition MAXDLADDR : Z := 1024.
Definition SIZEOF_LONG : Z := 8.

Section dlpi.
Context (H : header).

(** ** Names *)

(** [CASERET(s)] returns the string of one letter that its macro holds. *)
Definition caseret (cases : list Z) (format : string) (z : Z) : string :=
  if bool_decide (z ∈ cases) then "s" else default "" (printf format [AD z]).

Definition named_prims : list prim :=
  [DL_INFO_REQ; DL_INFO_ACK; DL_ATTACH_REQ; DL_DETACH_REQ; DL_BIND_REQ; DL_BIND_ACK; DL_UNBIND_REQ; DL_OK_ACK;
   DL_ERROR_ACK; DL_SUBS_BIND_REQ; DL_SUBS_BIND_ACK; DL_UNITDATA_REQ; DL_UNITDATA_IND; DL_UDERROR_IND;
   DL_UDQOS_REQ; DL_CONNECT_REQ; DL_CONNECT_IND; DL_CONNECT_RES; DL_CONNECT_CON; DL_TOKEN_REQ; DL_TOKEN_ACK;
   DL_DISCONNECT_REQ; DL_DISCONNECT_IND; DL_RESET_REQ; DL_RESET_IND; DL_RESET_RES; DL_RESET_CON].

Definition dlprim (z : Z) : string := caseret (code H <$> named_prims) "unknown primitive 0x%x" (s32 z).
Definition dlstate (z : Z) : string := caseret (states H) "unknown state 0x%x" z.
Definition dlerrno (z : Z) : string := caseret (errnos H) "unknown dlpi errno 0x%x" z.
Definition dlpromisclevel (z : Z) : string := caseret (promisc_levels H) "unknown promisc level 0x%x" z.
Definition dlservicemode (z : Z) : string := caseret (service_modes H) "unknown provider service mode 0x%x" z.
Definition dlstyle (z : Z) : string := caseret (styles H) "unknown provider style 0x%x" z.
Definition dlmactype (z : Z) : string := caseret (mac_types H) "unknown media type 0x%x" z.

(** ** err and syserr *)
Definition err {A} (format : string) (args : list arg) : outcome A :=
  match printf format args with Some s => Exit 1 s | None => Undefined end.
Definition syserr {A} (s : string) : outcome A := Exit 1 s.

(** ** Requests *)

(** What putmsg is given: the struct with the fields set in it after the
    primitive, the bytes behind the struct, the length of the control part, and
    the data part. *)
Record request := Request {
  q_struct : dl_struct;
  q_primitive : prim;
  q_fields : list Z;
  q_addr : bytes;
  q_len : Z;
  q_data : option bytes;
  q_hipri : bool
}.

(** The request, when putmsg takes it. *)
Definition putmsg (ok : bool) (caller : string) (q : request) : outcome request :=
  if ok then Done q else syserr (caller +:+ ":  putmsg").

(** A request of a struct alone. *)
Definition simple_request (hipri : bool) (s : dl_struct) (p : prim) (fields : list Z) : request :=
  Request s p fields [] (sizeof H s) None hipri.

(** A request with [length] bytes of [addr] behind its struct, in a buffer of
    [MAXDLBUF] longs. *)
Definition addr_request (s : dl_struct) (p : prim) (more : list Z) (addr : bytes) (length : Z) (data : option bytes) :
    outcome request :=
  if (0 <=? length) && (length <=? Z.of_nat (List.length addr)) && (sizeof H s + length <=? MAXDLBUF * SIZEOF_LONG)
  then Done (Request s p ([length; sizeof H s] ++ more) (take (Z.to_nat length) addr) (sizeof H s + length) data false)
  else Undefined.

Section requests.
Context (ok : bool).

Definition dlinforeq : outcome request := putmsg ok "dlinforeq" (simple_request true info_req DL_INFO_REQ []).
Definition dlattachreq (ppa : Z) : outcome request :=
  putmsg ok "dlattachreq" (simple_request false attach_req DL_ATTACH_REQ [ppa]).
Definition dlenabmultireq (addr : bytes) (length : Z) : outcome request :=
  q ← addr_request enabmulti_req DL_ENABMULTI_REQ [] addr length None; putmsg ok "dlenabmultireq" q.
Definition dldisabmultireq (addr : bytes) (length : Z) : outcome request :=
  q ← addr_request disabmulti_req DL_ENABMULTI_REQ [] addr length None; putmsg ok "dldisabmultireq" q.
Definition dlpromisconreq (level : Z) : outcome request :=
  putmsg ok "dlpromiscon" (simple_request false promiscon_req DL_PROMISCON_REQ [level]).
Definition dlpromiscoff (level : Z) : outcome request :=
  putmsg ok "dlpromiscoff" (simple_request false promiscoff_req DL_PROMISCOFF_REQ [level]).
Definition dlphysaddrreq (addrtype : Z) : outcome request :=
  putmsg ok "dlphysaddrreq" (simple_request false physaddr_req DL_PHYS_ADDR_REQ [addrtype]).
Definition dlsetphysaddrreq (addr : bytes) (length : Z) : outcome request :=
  q ← addr_request set_physaddr_req DL_ENABMULTI_REQ [] addr length None; putmsg ok "dlsetphysaddrreq" q.
Definition dldetachreq : outcome request := putmsg ok "dldetachreq" (simple_request false detach_req DL_DETACH_REQ []).
Definition dlbindreq (sap max_conind service_mode conn_mgmt xidtest : Z) : outcome request :=
  putmsg ok "dlbindreq"
    (simple_request false bind_req DL_BIND_REQ [sap; max_conind; service_mode; conn_mgmt; xidtest]).
Definition dlunitdatareq (addrp : bytes) (addrlen minpri maxpri : Z) (datap : bytes) (datalen : Z) : outcome request :=
  q ← addr_request unitdata_req DL_UNITDATA_REQ [minpri; maxpri] addrp addrlen (Some (take (Z.to_nat datalen) datap));
  putmsg ok "dlunitdatareq" q.
Definition dlunbindreq : outcome request := putmsg ok "dlunbindreq" (simple_request false unbind_req DL_UNBIND_REQ []).
End requests.

(** ** Addresses as text *)
Fixpoint addr_text (addr : bytes) : string :=
  match addr with
  | [] => EmptyString
  | b :: addr => hex (Z.land b 0xff) +:+ String ":" (addr_text addr)
  end.

(** The text in a buffer of [MAXDLADDR] that held [buf]; the colon after the
    last byte is overwritten. *)
Definition addrtostring (addr : bytes) (buf : option string) : outcome (option string) :=
  if bool_decide (addr = []) then Done buf
  else
    let s := addr_text addr in
    if Z.of_nat (strlen s) + 1 <=? MAXDLADDR then Done (Some (but_last s)) else Undefined.

(** strtok over [":"]: the tokens, none of which is empty. *)
Fixpoint tokens (s : string) (token : string) : list string :=
  match s with
  | EmptyString => if String.eqb token "" then [] else [token]
  | String c s =>
      if aeq c ":" then (if String.eqb token "" then [] else [token]) ++ tokens s ""
      else tokens s (token +:+ String c EmptyString)
  end.

Definition hex_val (c : ascii) : option Z :=
  let n := Z.of_N (N_of_ascii c) in
  if (48 <=? n) && (n <=? 57) then Some (n - 48)
  else if (97 <=? n) && (n <=? 102) then Some (n - 87)
  else if (65 <=? n) && (n <=? 70) then Some (n - 55)
  else None.
Definition is_hex (c : ascii) : bool := match hex_val c with Some _ => true | None => false end.

Fixpoint hex_value (acc : Z) (s : string) : Z :=
  match s with EmptyString => acc | String c s => hex_value (16 * acc + default 0 (hex_val c)) s end.

(** [sscanf(p, "%x", &val)]; a number that the int cannot hold is undefined. *)
Definition sscanf_x (p : string) : option (outcome Z) :=
  let p := drop_while is_space p in
  let '(neg, p) := match p with String "-" p => (true, p) | String "+" p => (false, p) | _ => (false, p) end in
  let p := match p with String "0" (String "x" q) | String "0" (String "X" q) => q | _ => p end in
  let ds := take_while is_hex p in
  if String.eqb ds "" then None
  else
    let v := hex_value 0 ds in
    Some (if v <? 2 ^ 32 then Done (s32 (if neg then - v else v)) else Undefined).

(** What is left of the input after the first call of strtok. *)
Definition cut_input (sp : string) : string :=
  take_while (fun c => aeq c ":") sp +:+ before_char ":" (drop_while (fun c => aeq c ":") sp).

Fixpoint stringtoaddr_loop (sp : string) (ps : list string) (n : Z) (addr : bytes) : outcome (Z * bytes) :=
  match ps with
  | [] => Done (n, addr)
  | p :: ps =>
      match sscanf_x p with
      | None => err "stringtoaddr:  invalid input string:  %s" [AS sp]
      | Some val =>
          val ← val;
          if 0xff <? val then err "stringtoaddr:  invalid input string:  %s" [AS sp]
          else stringtoaddr_loop sp ps (n + 1) (addr ++ [val mod 256])
      end
  end.

(** The number of bytes and the bytes. *)
Definition stringtoaddr (sp : string) : outcome (Z * bytes) := stringtoaddr_loop (cut_input sp) (tokens sp "") 0 [].

(** ** Answers *)

(** What a buffer holds: the primitive, the fields of a member of the union,
    and the bytes at an offset. *)
Inductive field :=
  | dl_addr_length | dl_addr_offset | dl_brdcst_addr_length | dl_brdcst_addr_offset | dl_max_sdu | dl_min_sdu
  | dl_mac_type | dl_current_state | dl_sap_length | dl_service_mode | dl_qos_length | dl_qos_offset
  | dl_qos_range_length | dl_qos_range_offset | dl_provider_style | dl_version | dl_ppa | dl_correct_primitive
  | dl_error_primitive | dl_errno | dl_unix_errno | dl_level | dl_addr_type | dl_sap | dl_max_conind
  | dl_conn_mgmt | dl_xidtest_flg | dl_subs_sap_offset | dl_subs_sap_length | dl_dest_addr_length
  | dl_dest_addr_offset | dl_src_addr_length | dl_src_addr_offset | dl_priority_min | dl_priority_max
  | dl_group_address | dl_flag.

Record dl_union := DlUnion {
  dl_primitive : Z;
  member : dl_struct -> field -> Z;
  octets : Z -> Z -> option bytes
}.

(** An answer of getmsg: the flags MORECTL and MOREDATA of its result, the
    length of the control part (-1 when there is none), whether the message
    has high priority, and the buffer. *)
Record reply := Reply { more_ctl : bool; more_data : bool; ctl_len : Z; hipri : bool; dlp : dl_union }.
Inductive getmsg_answer := GTimeout | GError | GReply (r : reply).

(** [ctl.len < n]: the length is converted to size_t. *)
Definition len_below (len n : Z) : bool := u64 len <? n.

Definition strgetmsg (caller : string) (a : getmsg_answer) : outcome reply :=
  match a with
  | GTimeout => err "sigalrm:  TIMEOUT" []
  | GError => syserr (caller +:+ ":  getmsg")
  | GReply r =>
      if more_ctl r && more_data r then err "%s:  MORECTL|MOREDATA" [AS caller]
      else if more_ctl r then err "%s:  MORECTL" [AS caller]
      else if more_data r then err "%s:  MOREDATA" [AS caller]
      else if len_below (ctl_len r) SIZEOF_LONG
      then err "getmsg:  control portion length < sizeof (long):  %d" [AD (ctl_len r)]
      else Done r
  end.

(** ** printdlprim *)

(** The lines that are printed. *)
Definition line (format : string) (args : list arg) : outcome (list string) :=
  defined (s ← printf format args; Some [s]).
Definition lines (ls : list (outcome (list string))) : outcome (list string) :=
  foldr (fun l k => a ← l; b ← k; Done (a ++ b)) (Done []) ls.

Section print.
Context (d : dl_union).

(** The text of the address of a member, in a buffer that nothing has set. *)
Definition address (s : dl_struct) (len off : field) : outcome string :=
  a ← defined (octets d (member d s off) (member d s len));
  buf ← addrtostring a None;
  defined buf.

Definition printdlinforeq : outcome (list string) := line "DL_INFO_REQ" [].

Definition printdlinfoack : outcome (list string) :=
  let m f := AD (member d info_ack f) in
  addr ← address info_ack dl_addr_length dl_addr_offset;
  brdcst ← address info_ack dl_brdcst_addr_length dl_brdcst_addr_offset;
  lines
    [line "DL_INFO_ACK:  max_sdu %d min_sdu %d" [m dl_max_sdu; m dl_min_sdu];
     line "addr_length %d mac_type %s current_state %s"
       [m dl_addr_length; AS (dlmactype (member d info_ack dl_mac_type));
        AS (dlstate (member d info_ack dl_current_state))];
     line "sap_length %d service_mode %s qos_length %d"
       [m dl_sap_length; AS (dlservicemode (member d info_ack dl_service_mode)); m dl_qos_length];
     line "qos_offset %d qos_range_length %d qos_range_offset %d"
       [m dl_qos_offset; m dl_qos_range_length; m dl_qos_range_offset];
     line "provider_style %s addr_offset %d version %d"
       [AS (dlstyle (member d info_ack dl_provider_style)); m dl_addr_offset; m dl_version];
     line "brdcst_addr_length %d brdcst_addr_offset %d" [m dl_brdcst_addr_length; m dl_brdcst_addr_offset];
     line "addr %s" [AS addr];
     line "brdcst_addr %s" [AS brdcst]].

Definition printdlattachreq : outcome (list string) :=
  line "DL_ATTACH_REQ:  ppa %d" [AD (member d attach_req dl_ppa)].

Definition printdlokack : outcome (list string) :=
  line "DL_OK_ACK:  correct_primitive %s" [AS (dlprim (member d ok_ack dl_correct_primitive))].

Definition printdlerrorack : outcome (list string) :=
  line "DL_ERROR_ACK:  error_primitive %s errno %s unix_errno %d"
    [AS (dlprim (member d error_ack dl_error_primitive)); AS (dlerrno (member d error_ack dl_errno));
     AD (member d error_ack dl_unix_errno)].

(** A line with the length and the offset of an address, the others, and the address. *)
Definition address_lines (s : dl_struct) (len off : field) (before : list (string * list arg)) (label : string) :
    outcome (list string) :=
  addr ← address s len off;
  lines (((fun l => line l.1 l.2) <$> before) ++ [line label [AS addr]]).

Definition printdlenabmultireq : outcome (list string) :=
  let m f := AD (member d enabmulti_req f) in
  address_lines enabmulti_req dl_addr_length dl_addr_offset
    [("DL_ENABMULTI_REQ:  addr_length %d addr_offset %d", [m dl_addr_length; m dl_addr_offset])] "addr %s".

Definition printdldisabmultireq : outcome (list string) :=
  let m f := AD (member d disabmulti_req f) in
  address_lines disabmulti_req dl_addr_length dl_addr_offset
    [("DL_DISABMULTI_REQ:  addr_length %d addr_offset %d", [m dl_addr_length; m dl_addr_offset])] "addr %s".

Definition printdlpromisconreq : outcome (list string) :=
  line "DL_PROMISCON_REQ:  level %s" [AS (dlpromisclevel (member d promiscon_req dl_level))].

Definition printdlpromiscoffreq : outcome (list string) :=
  line "DL_PROMISCOFF_REQ:  level %s" [AS (dlpromisclevel (member d promiscoff_req dl_level))].

Definition printdlphysaddrreq : outcome (list string) :=
  line "DL_PHYS_ADDR_REQ:  addr_type 0x%x" [AD (member d physaddr_req dl_addr_type)].

Definition printdlphysaddrack : outcome (list string) :=
  let m f := AD (member d physaddr_ack f) in
  address_lines physaddr_ack dl_addr_length dl_addr_offset
    [("DL_PHYS_ADDR_ACK:  addr_length %d addr_offset %d", [m dl_addr_length; m dl_addr_offset])] "addr %s".

Definition printdlsetphysaddrreq : outcome (list string) :=
  let m f := AD (member d set_physaddr_req f) in
  address_lines set_physaddr_req dl_addr_length dl_addr_offset
    [("DL_SET_PHYS_ADDR_REQ:  addr_length %d addr_offset %d", [m dl_addr_length; m dl_addr_offset])] "addr %s".

Definition printdldetachreq : outcome (list string) := line "DL_DETACH_REQ" [].

Definition printdlbindreq : outcome (list string) :=
  let m f := AD (member d bind_req f) in
  lines
    [line "DL_BIND_REQ:  sap %d max_conind %d" [m dl_sap; m dl_max_conind];
     line "service_mode %s conn_mgmt %d xidtest_flg 0x%x"
       [AS (dlservicemode (member d bind_req dl_service_mode)); m dl_conn_mgmt; m dl_xidtest_flg]].

Definition printdlbindack : outcome (list string) :=
  let m f := AD (member d bind_ack f) in
  address_lines bind_ack dl_addr_length dl_addr_offset
    [("DL_BIND_ACK:  sap %d addr_length %d addr_offset %d", [m dl_sap; m dl_addr_length; m dl_addr_offset]);
     ("max_conind %d xidtest_flg 0x%x", [m dl_max_conind; m dl_xidtest_flg])] "addr %s".

Definition printdlunbindreq : outcome (list string) := line "DL_UNBIND_REQ" [].

Definition printdlsubsbindreq : outcome (list string) :=
  let m f := AD (member d subs_bind_req f) in
  address_lines subs_bind_req dl_subs_sap_length dl_subs_sap_offset
    [("DL_SUBS_BIND_REQ:  subs_sap_offset %d sub_sap_len %d", [m dl_subs_sap_offset; m dl_subs_sap_length])] "sap %s".

Definition printdlsubsbindack : outcome (list string) :=
  let m f := AD (member d subs_bind_ack f) in
  address_lines subs_bind_ack dl_subs_sap_length dl_subs_sap_offset
    [("DL_SUBS_BIND_ACK:  subs_sap_offset %d sub_sap_length %d", [m dl_subs_sap_offset; m dl_subs_sap_length])] "sap %s".

Definition printdlsubsunbindreq : outcome (list string) :=
  let m f := AD (member d subs_unbind_req f) in
  address_lines subs_unbind_req dl_subs_sap_length dl_subs_sap_offset
    [("DL_SUBS_UNBIND_REQ:  subs_sap_offset %d sub_sap_length %d", [m dl_subs_sap_offset; m dl_subs_sap_length])]
    "sap %s".

Definition printdlunitdatareq : outcome (list string) :=
  let m f := AD (member d unitdata_req f) in
  address_lines unitdata_req dl_dest_addr_length dl_dest_addr_offset
    [("DL_UNITDATA_REQ:  dest_addr_length %d dest_addr_offset %d", [m dl_dest_addr_length; m dl_dest_addr_offset]);
     ("dl_priority.min %d dl_priority.max %d", [m dl_priority_min; m dl_priority_max])] "addr %s".

(** The messages with a source and a destination. *)
Definition two_addresses (s : dl_struct) (before : list (string * list arg)) (dest_label src_label : string) :
    outcome (list string) :=
  dest ← address s dl_dest_addr_length dl_dest_addr_offset;
  src ← address s dl_src_addr_length dl_src_addr_offset;
  lines (((fun l => line l.1 l.2) <$> before) ++ [line dest_label [AS dest]; line src_label [AS src]]).

Definition printdlunitdataind : outcome (list string) :=
  let m f := AD (member d unitdata_ind f) in
  two_addresses unitdata_ind
    [("DL_UNITDATA_IND:  dest_addr_length %d dest_addr_offset %d", [m dl_dest_addr_length; m dl_dest_addr_offset]);
     ("src_addr_length %d src_addr_offset %d", [m dl_src_addr_length; m dl_src_addr_offset]);
     ("group_address 0x%x", [m dl_group_address])] "dest %s" "src %s".

Definition printdluderrorind : outcome (list string) :=
  let m f := AD (member d uderror_ind f) in
  address_lines uderror_ind dl_dest_addr_length dl_dest_addr_offset
    [("DL_UDERROR_IND:  dest_addr_length %d dest_addr_offset %d", [m dl_dest_addr_length; m dl_dest_addr_offset]);
     ("unix_errno %d errno %s", [m dl_unix_errno; AS (dlerrno (member d uderror_ind dl_errno))])] "addr %s".

(** The test and xid messages: with one address, or with two. *)
Definition flagged (s : dl_struct) (name : string) : list (string * list arg) :=
  let m f := AD (member d s f) in
  [(name +:+ ":  flag 0x%x dest_addr_length %d dest_addr_offset %d",
    [m dl_flag; m dl_dest_addr_length; m dl_dest_addr_offset])].
Definition flagged_src (s : dl_struct) (name : string) : list (string * list arg) :=
  let m f := AD (member d s f) in
  flagged s name ++ [("src_addr_length %d src_addr_offset %d", [m dl_src_addr_length; m dl_src_addr_offset])].
Definition one_flagged (s : dl_struct) (name : string) : outcome (list string) :=
  address_lines s dl_dest_addr_length dl_dest_addr_offset (flagged s name) "dest_addr %s".
Definition two_flagged (s : dl_struct) (name : string) : outcome (list string) :=
  two_addresses s (flagged_src s name) "dest_addr %s" "src_addr %s".

Definition printdltestreq : outcome (list string) := one_flagged test_req "DL_TEST_REQ".
Definition printdltestind : outcome (list string) := two_flagged test_ind "DL_TEST_IND".
Definition printdltestres : outcome (list string) := one_flagged test_res "DL_TEST_RES".
Definition printdltestcon : outcome (list string) := two_flagged test_con "DL_TEST_CON".
Definition printdlxidreq : outcome (list string) := one_flagged xid_req "DL_XID_REQ".
Definition printdlxidind : outcome (list string) := two_flagged xid_ind "DL_XID_IND".
Definition printdlxidres : outcome (list string) := one_flagged xid_res "DL_XID_RES".
Definition printdlxidcon : outcome (list string) := two_flagged xid_con "DL_XID_CON".

Definition printdludqosreq : outcome (list string) :=
  line "DL_UDQOS_REQ:  qos_length %d qos_offset %d"
    [AD (member d udqos_req dl_qos_length); AD (member d udqos_req dl_qos_offset)].

(** The cases of the switch. *)
Definition printers : list (prim * outcome (list string)) :=
  [(DL_INFO_REQ, printdlinforeq); (DL_INFO_ACK, printdlinfoack); (DL_ATTACH_REQ, printdlattachreq);
   (DL_OK_ACK, printdlokack); (DL_ERROR_ACK, printdlerrorack); (DL_DETACH_REQ, printdldetachreq);
   (DL_BIND_REQ, printdlbindreq); (DL_BIND_ACK, printdlbindack); (DL_UNBIND_REQ, printdlunbindreq);
   (DL_SUBS_BIND_REQ, printdlsubsbindreq); (DL_SUBS_BIND_ACK, printdlsubsbindack);
   (DL_SUBS_UNBIND_REQ, printdlsubsunbindreq); (DL_ENABMULTI_REQ, printdlenabmultireq);
   (DL_DISABMULTI_REQ, printdldisabmultireq); (DL_PROMISCON_REQ, printdlpromisconreq);
   (DL_PROMISCOFF_REQ, printdlpromiscoffreq); (DL_UNITDATA_REQ, printdlunitdatareq);
   (DL_UNITDATA_IND, printdlunitdataind); (DL_UDERROR_IND, printdluderrorind); (DL_UDQOS_REQ, printdludqosreq);
   (DL_PHYS_ADDR_REQ, printdlphysaddrreq); (DL_PHYS_ADDR_ACK, printdlphysaddrack);
   (DL_SET_PHYS_ADDR_REQ, printdlsetphysaddrreq)].

Definition printdlprim : outcome (list string) :=
  match List.find (fun c => code H c.1 =? dl_primitive d) printers with
  | Some c => c.2
  | None => err "printdlprim:  unknown primitive type 0x%x" [AD (dl_primitive d)]
  end.
End print.

(** ** Acknowledgements *)
Definition expecting (p : prim) (d : dl_union) : outcome unit :=
  if negb (dl_primitive d =? u64 (code H p)) then
    _ ← printdlprim d;
    err "expected %s got %s" [AS (dlprim (code H p)); AS (dlprim (dl_primitive d))]
  else Done tt.

Definition check_len (r : reply) (s : dl_struct) (format : string) : outcome unit :=
  if len_below (ctl_len r) (sizeof H s) then err format [AD (ctl_len r)] else Done tt.
Definition check_hipri (r : reply) (format : string) : outcome unit :=
  if hipri r then Done tt else err format [].

(** The acknowledgements that check the length first. *)
Definition long_ack (name ack_name : string) (p : prim) (s : dl_struct) (a : getmsg_answer) : outcome reply :=
  r ← strgetmsg name a;
  _ ← expecting p (dlp r);
  _ ← check_len r s (name +:+ ":  response ctl.len too short:  %d");
  _ ← check_hipri r (name +:+ ":  " +:+ ack_name +:+ " was not M_PCPROTO");
  _ ← check_len r s (name +:+ ":  short response ctl.len:  %d");
  Done r.

Definition dlinfoack : getmsg_answer -> outcome reply := long_ack "dlinfoack" "DL_INFO_ACK" DL_INFO_ACK info_ack.
Definition dlokack : getmsg_answer -> outcome reply := long_ack "dlokack" "DL_OK_ACK" DL_OK_ACK ok_ack.
Definition dlerrorack : getmsg_answer -> outcome reply := long_ack "dlerrorack" "DL_OK_ACK" DL_ERROR_ACK error_ack.

Definition dlbindack (a : getmsg_answer) : outcome reply :=
  r ← strgetmsg "dlbindack" a;
  _ ← expecting DL_BIND_ACK (dlp r);
  _ ← check_hipri r "dlbindack:  DL_OK_ACK was not M_PCPROTO";
  _ ← check_len r bind_ack "dlbindack:  short response ctl.len:  %d";
  Done r.

Definition dlphysaddrack (a : getmsg_answer) : outcome reply :=
  r ← strgetmsg "dlphysaddrack" a;
  _ ← expecting DL_PHYS_ADDR_ACK (dlp r);
  _ ← check_hipri r "dlbindack:  DL_OK_ACK was not M_PCPROTO";
  _ ← check_len r physaddr_ack "dlphysaddrack:  short response ctl.len:  %d";
  Done r.

(** [rc]: what the ioctl returns, and the length it leaves. *)
Definition strioctl (rc ic_len : Z) : Z := if rc <? 0 then rc else ic_len.
End dlpi.

(** ** Addresses read back *)
Definition hex_ok (b : Z) : bool :=
  let s := hex (Z.land b 0xff) in
  all_chars (fun c => negb (aeq c ":")) s && negb (String.eqb s "") && (strlen s <=? 2)%nat &&
  match sscanf_x s with Some (Done v) => v =? b | _ => false end.

Lemma hex_byte b : is_byte b -> hex_ok b = true.
Proof.
  intros Hb. assert (forallb hex_ok (seqZ 0 256) = true) as H by (vm_compute; reflexivity).
  rewrite forallb_forall in H. apply H, list_elem_of_In, elem_of_seqZ. unfold is_byte in Hb. lia.
Qed.

Lemma hex_byte_spec b :
  is_byte b -> let s := hex (Z.land b 0xff) in
  all_chars (fun c => negb (aeq c ":")) s = true /\ s <> "" /\ (strlen s <= 2)%nat /\ sscanf_x s = Some (Done b).
Proof.
  intros Hb%hex_byte. unfold hex_ok in Hb. cbv zeta in *. set (s := hex (Z.land b 255)) in *. clearbody s.
  apply andb_true_iff in Hb as [[[Hc Hn]%andb_true_iff Hl]%andb_true_iff Hv].
  split_and!; [done|by intros ->|by apply Nat.leb_le|].
  destruct (sscanf_x s) as [[v|?|]|]; try done. by apply Z.eqb_eq in Hv as ->.
Qed.

Lemma tokens_app s token rest :
  all_chars (fun c => negb (aeq c ":")) s = true ->
  tokens (s +:+ String ":" rest) token =
    (if String.eqb (token +:+ s) "" then [] else [token +:+ s]) ++ tokens rest "".
Proof.
  revert token. induction s as [|c s IH]; intros token Hs; [by rewrite app_empty_r|].
  simpl in Hs. apply andb_true_iff in Hs as [Hc%negb_true_iff Hs].
  change (String c s +:+ String ":" rest) with (String c (s +:+ String ":" rest)). cbn [tokens]. rewrite Hc, IH by done.
  by rewrite <- str_app_assoc.
Qed.

Lemma tokens_end s token :
  all_chars (fun c => negb (aeq c ":")) s = true ->
  tokens s token = if String.eqb (token +:+ s) "" then [] else [token +:+ s].
Proof.
  revert token. induction s as [|c s IH]; intros token Hs; [by rewrite app_empty_r|].
  simpl in Hs. apply andb_true_iff in Hs as [Hc%negb_true_iff Hs]. cbn [tokens]. rewrite Hc, IH by done.
  by rewrite <- str_app_assoc.
Qed.

Lemma but_last_app s c t : but_last (s +:+ String c t) = s +:+ but_last (String c t).
Proof.
  induction s as [|a s IH]; [done|]. change (String a s +:+ String c t) with (String a (s +:+ String c t)).
  assert (exists b u, s +:+ String c t = String b u) as (b & u & E) by (destruct s; eauto).
  rewrite E in IH |- *. change (but_last (String a (String b u))) with (String a (but_last (String b u))).
  by rewrite IH.
Qed.

Lemma addr_text_tokens addr :
  bytes_ok addr -> addr <> [] -> tokens (but_last (addr_text addr)) "" = (fun b => hex (Z.land b 0xff)) <$> addr.
Proof.
  induction addr as [|b addr IH]; intros Ha Hne; [done|]. apply bytes_ok_cons in Ha as [Hb Ha].
  destruct (hex_byte_spec b Hb) as (Hc & Hn & _ & _). cbn [addr_text]. rewrite fmap_cons.
  destruct addr as [|b' addr].
  - cbn [addr_text]. rewrite but_last_app. cbn [but_last]. rewrite app_empty_r, tokens_end by done.
    change ("" +:+ ?s) with s. by destruct (String.eqb_spec (hex (Z.land b 255)) "").
  - rewrite but_last_app.
    assert (but_last (String ":" (addr_text (b' :: addr))) = String ":" (but_last (addr_text (b' :: addr)))) as ->.
    { cbn [addr_text]. by destruct (hex (Z.land b' 255)). }
    rewrite tokens_app by done. change ("" +:+ ?s) with s. rewrite IH by done.
    by destruct (String.eqb_spec (hex (Z.land b 255)) "").
Qed.

Lemma addr_text_length addr : bytes_ok addr -> (strlen (addr_text addr) <= 3 * length addr)%nat.
Proof.
  induction 1 as [|b addr Hb _ IH]; [done|]. destruct (hex_byte_spec b Hb) as (_ & _ & Hl & _).
  cbn [addr_text length]. rewrite strlen_app. cbn [strlen]. lia.
Qed.

Lemma stringtoaddr_hex sp addr : forall n acc,
  bytes_ok addr ->
  stringtoaddr_loop sp ((fun b => hex (Z.land b 0xff)) <$> addr) n acc = Done (n + Z.of_nat (length addr), acc ++ addr).
Proof.
  induction addr as [|b addr IH]; intros n acc Ha; [by rewrite app_nil_r, Z.add_0_r|].
  apply bytes_ok_cons in Ha as [Hb Ha]. destruct (hex_byte_spec b Hb) as (_ & _ & _ & Hv).
  rewrite fmap_cons. cbn [stringtoaddr_loop]. rewrite Hv. unfold mbind, outcome_bind.
  unfold is_byte in Hb. destruct (Z.ltb_spec 255 b); [lia|].
  rewrite IH by done. rewrite <- app_assoc, Z.mod_small by lia. do 2 f_equal. cbn [length]. lia.
Qed.

(** C35: an address of 1 to 341 bytes fits the buffer it is printed into, and
    its text reads back as the same bytes.  (Nothing is written for an empty
    address.) *)
Theorem address_text_reads_back (addr : bytes) :
  bytes_ok addr -> addr <> [] -> 3 * Z.of_nat (length addr) + 1 <= MAXDLADDR ->
  exists s, addrtostring addr None = Done (Some s) /\ stringtoaddr s = Done (Z.of_nat (length addr), addr).
Proof.
  intros Ha Hne Hl. unfold addrtostring. rewrite bool_decide_false by done.
  pose proof (addr_text_length addr Ha). rewrite (proj2 (Z.leb_le _ _)) by lia. eexists. split; [done|].
  unfold stringtoaddr. rewrite addr_text_tokens, stringtoaddr_hex by done. done.
Qed.

Lemma address_text_reads_back_witness :
  addrtostring [0; 20; 0xa7; 255; 16; 1] None = Done (Some "0:14:a7:ff:10:1"%string) /\
  exists s, addrtostring [0; 20; 0xa7; 255; 16; 1] None = Done (Some s) /\ stringtoaddr s = Done (6, [0; 20; 0xa7; 255; 16; 1]).
Proof.
  split; [vm_compute; reflexivity|]. apply (address_text_reads_back [0; 20; 0xa7; 255; 16; 1]).
  - repeat constructor; unfold is_byte; lia.
  - done.
  - unfold MAXDLADDR. simpl. lia.
Defined.

(** ** What an acknowledgement has been checked for *)

(** The lengths of the control part that pass the checks for [n] bytes, which
    compare size_t's. *)
Definition long_enough (n len : Z) : Prop := n <= u64 len.

Definition checked (H : header) (p : prim) (s : dl_struct) (r : reply) : Prop :=
  more_ctl r = false /\ more_data r = false /\ long_enough SIZEOF_LONG (ctl_len r) /\
  dl_primitive (dlp r) = u64 (code H p) /\ hipri r = true /\ long_enough (sizeof H s) (ctl_len r).

(** A whole message of the primitive [p], of high priority, whose control part
    holds the struct, or is missing. *)
Definition acknowledged (H : header) (p : prim) (s : dl_struct) (r : reply) : Prop :=
  more_ctl r = false /\ more_data r = false /\ hipri r = true /\
  dl_primitive (dlp r) = u64 (code H p) /\ (SIZEOF_LONG <= ctl_len r /\ sizeof H s <= ctl_len r \/ ctl_len r = -1).

(** getmsg leaves the length of the control part, or -1 when there is none. *)
Lemma long_enough_signed n len : 0 <= n <= 2 ^ 31 -> -1 <= len < 2 ^ 31 -> long_enough n len <-> n <= len \/ len = -1.
Proof.
  intros Hn Hl. unfold long_enough. destruct (decide (len = -1)) as [->|Hne].
  - change (u64 (-1)) with (2 ^ 64 - 1). lia.
  - rewrite uwrap_small by lia. lia.
Qed.

Lemma checked_acknowledged H p s r :
  0 <= sizeof H s <= 2 ^ 31 -> -1 <= ctl_len r < 2 ^ 31 -> checked H p s r <-> acknowledged H p s r.
Proof.
  intros Hs Hl. unfold checked, acknowledged. rewrite !long_enough_signed by (unfold SIZEOF_LONG; lia). tauto.
Qed.

Lemma outcome_bind_Done {A B} (m : outcome A) (f : A -> outcome B) y :
  (x ← m; f x) = Done y <-> exists x, m = Done x /\ f x = Done y.
Proof.
  unfold mbind, outcome_bind. destruct m; split; try done; [by exists x|by intros (? & [= ->] & ?)|
    by intros (? & [=] & _)|by intros (? & [=] & _)].
Qed.

Lemma err_not_Done {A} format args (x : A) : err format args = Done x -> False.
Proof. unfold err. by case_match. Qed.

Lemma strgetmsg_Done caller a r :
  strgetmsg caller a = Done r <->
  a = GReply r /\ more_ctl r = false /\ more_data r = false /\ SIZEOF_LONG <= u64 (ctl_len r).
Proof.
  unfold strgetmsg, len_below. destruct a as [| |q]; [split; [by intros ?%err_not_Done|by intros [? _]]|by split; [|intros [? _]]|].
  destruct (more_ctl q) eqn:E1, (more_data q) eqn:E2; cbn [andb];
    try (split; [by intros ?%err_not_Done|by intros ([= ->] & ? & ? & _); congruence]).
  destruct (Z.ltb_spec (u64 (ctl_len q)) SIZEOF_LONG).
  - split; [by intros ?%err_not_Done|intros ([= ->] & _ & _ & ?); lia].
  - split; [by intros [= <-]|by intros ([= ->] & _)].
Qed.

Lemma expecting_Done H p d : expecting H p d = Done tt <-> dl_primitive d = u64 (code H p).
Proof.
  unfold expecting. destruct (Z.eqb_spec (dl_primitive d) (u64 (code H p))) as [E|E]; cbn [negb]; [done|].
  split; [|done]. intros (l & _ & Hd)%outcome_bind_Done. by apply err_not_Done in Hd.
Qed.

Lemma check_len_Done H r s format : check_len H r s format = Done tt <-> sizeof H s <= u64 (ctl_len r).
Proof.
  unfold check_len, len_below. destruct (Z.ltb_spec (u64 (ctl_len r)) (sizeof H s)); [|done].
  split; [by intros ?%err_not_Done|lia].
Qed.

Lemma check_hipri_Done r format : check_hipri r format = Done tt <-> hipri r = true.
Proof. unfold check_hipri. destruct (hipri r); [done|]. split; [by intros ?%err_not_Done|done]. Qed.

Lemma unit_outcome (m : outcome unit) x : m = Done x <-> m = Done tt.
Proof. by destruct x. Qed.

Lemma long_ack_Done H name ack_name p s a r :
  long_ack H name ack_name p s a = Done r <-> a = GReply r /\ checked H p s r.
Proof.
  unfold long_ack, checked, long_enough. rewrite outcome_bind_Done. setoid_rewrite strgetmsg_Done.
  setoid_rewrite outcome_bind_Done. setoid_rewrite (unit_outcome (expecting _ _ _)). setoid_rewrite expecting_Done.
  setoid_rewrite outcome_bind_Done. setoid_rewrite (unit_outcome (check_len _ _ _ _)). setoid_rewrite check_len_Done.
  setoid_rewrite outcome_bind_Done. setoid_rewrite (unit_outcome (check_hipri _ _)). setoid_rewrite check_hipri_Done.
  setoid_rewrite outcome_bind_Done. setoid_rewrite (unit_outcome (check_len _ _ _ _)). setoid_rewrite check_len_Done.
  split.
  - intros (q & (-> & ? & ? & ?) & _ & ? & _ & ? & _ & ? & _ & ? & [= <-]). auto 10.
  - intros (-> & ? & ? & ? & ? & ? & ?). exists r. split; [auto|]. do 4 (exists tt; split; [done|]). done.
Qed.

Ltac short_ack :=
  unfold dlbindack, dlphysaddrack, checked, long_enough; rewrite outcome_bind_Done; setoid_rewrite strgetmsg_Done;
  setoid_rewrite outcome_bind_Done; setoid_rewrite (unit_outcome (expecting _ _ _)); setoid_rewrite expecting_Done;
  setoid_rewrite outcome_bind_Done; setoid_rewrite (unit_outcome (check_hipri _ _)); setoid_rewrite check_hipri_Done;
  setoid_rewrite outcome_bind_Done; setoid_rewrite (unit_outcome (check_len _ _ _ _)); setoid_rewrite check_len_Done;
  (split;
   [intros (q & (-> & ? & ? & ?) & _ & ? & _ & ? & _ & ? & [= <-]); auto 10
   |intros (-> & ? & ? & ? & ? & ? & ?); eexists; split; [eauto|]; do 3 (exists tt; split; [done|]); done]).

Lemma dlbindack_Done H a r : dlbindack H a = Done r <-> a = GReply r /\ checked H DL_BIND_ACK bind_ack r.
Proof. short_ack. Qed.

Lemma dlphysaddrack_Done H a r : dlphysaddrack H a = Done r <-> a = GReply r /\ checked H DL_PHYS_ADDR_ACK physaddr_ack r.
Proof. short_ack. Qed.

(** C34: for any length that getmsg leaves (-1 when the message has no control
    part) and structs of at most 2^31 bytes, an acknowledgement is accepted
    exactly when the message is whole, of high priority and of the primitive
    that is expected, and its control part holds a long and the struct, or is
    missing altogether: the length is compared as a size_t.  What is returned is
    that message; after a timeout, an error or any other message the program
    ends, or reads what nothing has set. *)
Theorem acknowledgements_checked (H : header) (a : getmsg_answer) (r : reply) :
  (forall s, 0 <= sizeof H s <= 2 ^ 31) -> -1 <= ctl_len r < 2 ^ 31 ->
  (dlinfoack H a = Done r <-> a = GReply r /\ acknowledged H DL_INFO_ACK info_ack r) /\
  (dlokack H a = Done r <-> a = GReply r /\ acknowledged H DL_OK_ACK ok_ack r) /\
  (dlerrorack H a = Done r <-> a = GReply r /\ acknowledged H DL_ERROR_ACK error_ack r) /\
  (dlbindack H a = Done r <-> a = GReply r /\ acknowledged H DL_BIND_ACK bind_ack r) /\
  (dlphysaddrack H a = Done r <-> a = GReply r /\ acknowledged H DL_PHYS_ADDR_ACK physaddr_ack r).
Proof.
  intros Hs Hl. rewrite <- !checked_acknowledged by done.
  split_and!; [apply long_ack_Done..|apply dlbindack_Done|apply dlphysaddrack_Done].
Qed.

Lemma acknowledgements_checked_witness :
  let H := Header (fun p => if bool_decide (p = DL_OK_ACK) then 6 else 0) (fun _ => 16) [] [] [] [] [] [] in
  let r len := Reply false false len true (DlUnion 6 (fun _ _ => 0) (fun _ _ => None)) in
  dlokack H (GReply (r 24)) = Done (r 24) /\ dlokack H (GReply (r 8)) <> Done (r 8).
Proof.
  intros H r.
  destruct (acknowledgements_checked H (GReply (r 24)) (r 24)) as (_ & H1 & _); [intros s; simpl; lia|simpl; lia|].
  destruct (acknowledgements_checked H (GReply (r 8)) (r 8)) as (_ & H2 & _); [intros s; simpl; lia|simpl; lia|].
  split.
  - apply H1. split; [reflexivity|]. split_and!; try reflexivity. left. simpl. unfold SIZEOF_LONG. lia.
  - intros E. apply H2 in E as (_ & _ & _ & _ & _ & [E|E]); simpl in E; lia.
Defined.

(** ** What the model shows of the code *)

(** A message without a control part has the length -1, which the checks take
    for the largest size. *)
Lemma missing_control_part_accepted : len_below (-1) SIZEOF_LONG = false.
Proof. reflexivity. Qed.

(** Every primitive that has a name is called "s". *)
Lemma primitives_have_one_name H p : p ∈ named_prims -> - 2 ^ 31 <= code H p < 2 ^ 31 -> dlprim H (code H p) = "s".
Proof.
  intros Hp Hr. unfold dlprim, caseret. rewrite bool_decide_true; [done|]. rewrite swrap_small by lia.
  by apply list_elem_of_fmap_2.
Qed.

(** The requests to disable a multicast address and to set the physical
    address carry the primitive that enables a multicast address. *)
Lemma wrong_primitive_sent H addr length q :
  dldisabmultireq H true addr length = Done q \/ dlsetphysaddrreq H true addr length = Done q ->
  q_primitive q = DL_ENABMULTI_REQ.
Proof.
  unfold dldisabmultireq, dlsetphysaddrreq, addr_request, mbind, outcome_bind, putmsg.
  intros [E|E]; destruct (_ && _) in E; try done; by injection E as <-.
Qed.

(** An address of no bytes is printed from a buffer that nothing has set. *)
Lemma empty_address_unset d s len off :
  octets d (member d s off) (member d s len) = Some [] -> address d s len off = Undefined.
Proof. intros E. unfold address. by rewrite E. Qed.
