(* ===== verification/AddrsDlpi.v ===== *)
(** * Interface addresses through DLPI (src/util/addrs_dlpi.c)

    The device of an interface, the exchange of messages of [Dlpi] that reads
    its hardware address, and the ioctl that reads its network address. *)

From S2P Require Import Prelude CStr Packet UiFormat Dlpi.

Local Open Scope Z_scope.

(** ** Strings in buffers *)

(** [while ((i++ < n) && *src)]: what is copied, and what is left of [src]. *)
Fixpoint copy_loop (n i : Z) (src : string) : string * string :=
  match src with
  | EmptyString => (EmptyString, EmptyString)
  | String c rest =>
      if i <? n then let '(d, r) := copy_loop n (i + 1) rest in (String c d, r) else (EmptyString, src)
  end.

(** [while ((i < n) && *dest_ptr)]: what is passed, and [i]. *)
Fixpoint scan_loop (n i : Z) (dest : string) : string * Z :=
  match dest with
  | EmptyString => (EmptyString, i)
  | String c rest => if i <? n then let '(d, j) := scan_loop n (i + 1) rest in (String c d, j) else (EmptyString, i)
  end.

(** The string left in [dest], and the pointer that is returned; a null pointer
    is [None]. *)
Definition strncpy2 (dest src : option string) (n : Z) : option string * option string :=
  match dest, src with
  | Some _, Some src => let '(d, r) := copy_loop n 0 src in (Some d, Some r)
  | _, _ => (dest, src)
  end.

Definition strncat2 (dest src : option string) (n : Z) : option string * option string :=
  match dest, src with
  | Some dest, Some src =>
      let '(kept, i) := scan_loop (n - 1) 0 dest in
      let '(copied, rest) := copy_loop (n - 1) i src in
      (Some (kept +:+ copied), Some rest)
  | _, _ => (dest, None)
  end.

(** ** split_dname *)

(** The device without its unit number, and the number. *)
Definition split_dname (device : string) : option (string * Z) :=
  c ← last_char device;
  if negb (is_digit c) then None
  else
    let name := rtrim is_digit device in
    let '(unit, eos, _) := strtol (str_drop (strlen name) device) in
    if negb (String.eqb eos "") then None else Some (name, s32 unit).

(** ** get_addrs_dlpi *)
Definition starts_with (p s : string) : bool := String.eqb (str_take (strlen p) s) p.

(** The name that is printed; the path is made of the interface itself. *)
Definition devname (interface : string) : string :=
  if starts_with "/dev/" interface then str_drop (strlen "/dev/") interface else interface.

Definition fulldevpath (interface : string) : option string * option string :=
  strncat2 (strncpy2 (Some "") (Some "/dev/") (256 - 1)).1 (Some interface) 256.

(** An attempt to open a device. *)
Inductive opened := Opened | NoEntry | OpenError.

Section get_addrs.
Context (H : header) (open : string -> opened) (putmsg_ok : nat -> bool) (answer : nat -> getmsg_answer).

Definition open_device (devname2 fulldevpath : string) : bool :=
  match open devname2 with
  | Opened => true
  | OpenError => false
  | NoEntry => match open fulldevpath with Opened => true | _ => false end
  end.

(** [memcpy(if_hw_addr, ...)], into 6 bytes. *)
Definition copy_hw_addr (d : dl_union) : outcome (option bytes) :=
  if u32 (member d info_ack dl_addr_length + member d info_ack dl_sap_length) =? 6 then
    let len := member d info_ack dl_addr_length in
    if 6 <? len then Undefined
    else a ← defined (octets d (member d info_ack dl_addr_offset) len);
         Done (Some (a ++ drop (length a) (replicate 6 0)))
  else Done None.

(** The messages: the unit is attached and bound, and asked for its address. *)
Definition dlpi_exchange (unit_num DL_CLDLS : Z) : outcome (option bytes) :=
  _ ← dlattachreq H (putmsg_ok 0) unit_num;
  _ ← dlokack H (answer 0);
  _ ← dlbindreq H (putmsg_ok 1) 0 0 DL_CLDLS 0 0;
  _ ← dlbindack H (answer 1);
  _ ← dlinforeq H (putmsg_ok 2);
  r ← dlinfoack H (answer 2);
  copy_hw_addr (dlp r).

Definition hw_address (full : string) (DL_CLDLS : Z) : outcome (option bytes) :=
  match split_dname full with
  | None => Done None
  | Some (devname2, unit_num) =>
      if open_device devname2 full then dlpi_exchange unit_num DL_CLDLS else Done None
  end.

(** [ip]: the address, when SIOCGIFADDR exists and its ioctl succeeds. *)
Definition get_addrs_dlpi (interface : string) (DL_CLDLS : Z) (ip : option bytes) :
    outcome (Z * bytes * option bytes) :=
  match fulldevpath interface with
  | (Some full, Some rest) =>
      if negb (String.eqb rest "") then Done (-1, replicate 6 0, None)
      else
        hw ← hw_address full DL_CLDLS;
        let got_hw_addr := match hw with Some _ => 1 | None => 0 end in
        let got_ip_addr := match ip with Some _ => 2 | None => 0 end in
        Done (got_hw_addr + got_ip_addr, default (replicate 6 0) hw, ip)
  | _ => Undefined
  end.
End get_addrs.

(** ** Properties of the strings *)
Lemma copy_loop_spec n i src :
  copy_loop n i src = (str_take (Z.to_nat (n - i)) src, str_drop (Z.to_nat (n - i)) src).
Proof.
  revert i. induction src as [|c src IH]; intros i; cbn [copy_loop]; [by destruct (Z.to_nat _)|].
  destruct (Z.ltb_spec i n) as [Hi|Hi].
  - rewrite IH. replace (Z.to_nat (n - i)) with (S (Z.to_nat (n - (i + 1)))) by lia. done.
  - replace (Z.to_nat (n - i)) with 0%nat by lia. done.
Qed.

Lemma scan_loop_spec n i dest :
  scan_loop n i dest = (str_take (Z.to_nat (n - i)) dest, i + Z.of_nat (strlen (str_take (Z.to_nat (n - i)) dest))).
Proof.
  revert i. induction dest as [|c dest IH]; intros i; cbn [scan_loop]; [by destruct (Z.to_nat _); rewrite Z.add_0_r|].
  destruct (Z.ltb_spec i n) as [Hi|Hi].
  - rewrite IH. replace (Z.to_nat (n - i)) with (S (Z.to_nat (n - (i + 1)))) by lia. cbn [str_take strlen]. f_equal. lia.
  - replace (Z.to_nat (n - i)) with 0%nat by lia. by rewrite Z.add_0_r.
Qed.

Lemma str_take_drop n s : str_take n s +:+ str_drop n s = s.
Proof. revert n. induction s as [|c s IH]; intros [|n]; try done. exact (f_equal (String c) (IH n)). Qed.

(** The two bounded copies do what their comments promise: the string in a
    buffer of [n] bytes is the concatenation cut at [n - 1] characters, the
    rest of the source is returned, and it is empty unless something was cut. *)
Theorem strncat2_bounded (dest src : string) (n : Z) :
  0 < n ->
  exists kept rest, strncat2 (Some dest) (Some src) n = (Some kept, Some rest) /\
    kept = str_take (Z.to_nat (n - 1)) (dest +:+ src) /\ Z.of_nat (strlen kept) < n /\
    (Z.of_nat (strlen dest) < n -> kept +:+ rest = dest +:+ src).
Proof.
  intros Hn. unfold strncat2. rewrite scan_loop_spec, copy_loop_spec, Z.sub_0_r, Z.add_0_l. eexists _, _.
  split; [done|].
  assert (str_take (Z.to_nat (n - 1)) dest +:+
      str_take (Z.to_nat (n - 1 - Z.of_nat (strlen (str_take (Z.to_nat (n - 1)) dest)))) src =
    str_take (Z.to_nat (n - 1)) (dest +:+ src)) as E.
  { rewrite str_take_app, strlen_take. destruct (Nat.le_ge_cases (Z.to_nat (n - 1)) (strlen dest)).
    - rewrite Nat.min_l by lia. do 2 f_equal. lia.
    - rewrite Nat.min_r by lia. do 2 f_equal. lia. }
  split_and!; [exact E|rewrite E, strlen_take; lia|]. intros Hd.
  rewrite !(str_take_all _ dest) by lia. by rewrite <- str_app_assoc, str_take_drop.
Qed.

Lemma strncat2_bounded_witness :
  exists kept rest, strncat2 (Some "/dev/") (Some "ge0") 8 = (Some kept, Some rest) /\
    kept = str_take (Z.to_nat (8 - 1)) ("/dev/" +:+ "ge0") /\ Z.of_nat (strlen kept) < 8 /\
    (Z.of_nat (strlen "/dev/") < 8 -> kept +:+ rest = "/dev/" +:+ "ge0").
Proof. apply (strncat2_bounded "/dev/" "ge0" 8). lia. Defined.

(** The path of an interface whose name fits. *)
Lemma fulldevpath_fits interface :
  Z.of_nat (strlen interface) <= 250 -> fulldevpath interface = (Some ("/dev/" +:+ interface), Some "").
Proof.
  intros Hl. unfold fulldevpath. change (strncpy2 (Some "") (Some "/dev/") (256 - 1)).1 with (Some "/dev/"%string).
  unfold strncat2. change (scan_loop (256 - 1) 0 "/dev/") with ("/dev/"%string, 5). cbv iota beta.
  rewrite copy_loop_spec. change (Z.to_nat (256 - 1 - 5)) with 250%nat.
  rewrite str_take_all by lia. do 2 f_equal.
  assert (forall n s, (strlen s <= n)%nat -> str_drop n s = "") as Hd.
  { intros n s. revert n. induction s as [|c s IH]; intros [|n] Hn; simpl in *; try done; [lia|]. apply IH. lia. }
  apply Hd. lia.
Qed.

(** *** Units *)
Lemma rtrim_app_all p s t : all_chars p t = true -> rtrim p (s +:+ t) = rtrim p s.
Proof.
  intros Ht. assert (rtrim p t = "") as E.
  { induction t as [|c t IH]; [done|]. simpl in Ht |- *. apply andb_true_iff in Ht as [-> Ht]. by rewrite IH. }
  induction s as [|c s IH]; [exact E|]. change (String c s +:+ t) with (String c (s +:+ t)).
  cbn [rtrim]. by rewrite IH.
Qed.

Lemma digits_last s : s <> "" -> all_chars is_digit s = true -> exists c, last_char s = Some c /\ is_digit c = true.
Proof.
  induction s as [|c [|d s] IH]; intros Hne Hs; [done|..].
  - exists c. simpl in Hs. split; [done|]. by destruct (is_digit c).
  - apply andb_true_iff in Hs as [_ Hs]. exact (IH ltac:(done) Hs).
Qed.

Lemma last_char_app_r s t : t <> "" -> last_char (s +:+ t) = last_char t.
Proof. destruct t as [|c t]; [done|]. intros _. apply last_char_app. Qed.

Lemma strtol_dec n : 0 <= n < 2 ^ 63 -> strtol (dec n) = (n, "", false).
Proof.
  intros Hn. destruct (dec_digits n ltac:(lia)) as (Hv & Hd & Hne). unfold strtol.
  assert (forall c t, dec n = String c t -> is_digit c = true /\ drop_while is_space (dec n) = dec n) as Hc.
  { intros c t E. rewrite E in Hd |- *. simpl in Hd. apply andb_true_iff in Hd as [Hd _]. split; [done|].
    unfold drop_while. cbn [span]. destruct (is_space c) eqn:Es; [|done]. exfalso.
    destruct c as [[] [] [] [] [] [] [] []]; vm_compute in Es, Hd; congruence. }
  destruct (dec n) as [|c t] eqn:E; [done|]. destruct (Hc c t eq_refl) as [Hcd ->].
  assert (match String c t with String "-" s' => (true, s') | String "+" s' => (false, s') | _ => (false, String c t) end
    = (false, String c t)) as ->.
  { destruct c as [[] [] [] [] [] [] [] []]; try done; vm_compute in Hcd; congruence. }
  unfold take_while, drop_while. rewrite (span_all _ _ Hd). cbn [fst snd]. rewrite bool_decide_false by done.
  rewrite Hv. assert (clamp64 n = n) as -> by (unfold clamp64; lia). by rewrite bool_decide_false by (intros E2; by apply E2).
Qed.

Lemma split_dname_unit name n c :
  last_char name = Some c -> is_digit c = false -> 0 <= n < 2 ^ 31 -> split_dname (name +:+ dec n) = Some (name, n).
Proof.
  intros Hl Hc Hn. destruct (dec_digits n ltac:(lia)) as (Hv & Hd & Hne). unfold split_dname.
  destruct (digits_last _ Hne Hd) as (k & Ek & Hk). rewrite last_char_app_r, Ek by done. cbn [mbind option_bind].
  rewrite Hk, rtrim_app_all, (rtrim_id _ name c), str_drop_app, strtol_dec by (done || lia).
  cbn [negb]. by rewrite swrap_small by lia.
Qed.

(** The interface [ge12] is looked for as the unit 12 of the device
    [/dev/ge], and as the device [/dev/ge12] when there is no [/dev/ge]; what is
    then returned says which addresses were found. *)
Theorem dlpi_unit_of_interface (H : header) (open : string -> opened) (putmsg_ok : nat -> bool)
    (answer : nat -> getmsg_answer) (name : string) (unit : Z) (c : ascii) (DL_CLDLS : Z) (ip : option bytes) :
  last_char name = Some c -> is_digit c = false -> 0 <= unit < 2 ^ 31 -> Z.of_nat (strlen (name +:+ dec unit)) <= 250 ->
  get_addrs_dlpi H open putmsg_ok answer (name +:+ dec unit) DL_CLDLS ip =
    (hw ← (match open ("/dev/" +:+ name), open ("/dev/" +:+ name +:+ dec unit) with
           | Opened, _ | NoEntry, Opened => dlpi_exchange H putmsg_ok answer unit DL_CLDLS
           | _, _ => Done None
           end);
     Done ((match hw with Some _ => 1 | None => 0 end) + (match ip with Some _ => 2 | None => 0 end),
           default (replicate 6 0) hw, ip)).
Proof.
  intros Hl Hc Hu Hlen. unfold get_addrs_dlpi. rewrite fulldevpath_fits by done. cbn [negb].
  change (String.eqb "" "") with true. cbn [negb]. f_equal. unfold hw_address.
  rewrite (str_app_assoc "/dev/" name (dec unit)).
  assert (last_char ("/dev/" +:+ name) = Some c) as Hl' by (destruct name; [done|]; by rewrite last_char_app).
  rewrite (split_dname_unit _ _ _ Hl' Hc Hu). unfold open_device.
  by destruct (open ("/dev/" +:+ name)), (open (("/dev/" +:+ name) +:+ dec unit)).
Qed.

(** A stream whose answers give the address of an interface: its length and
    that of the service access point, at the offset 0. *)
Definition demo_header : header :=
  Header (fun p => match p with DL_INFO_ACK => 4 | DL_BIND_ACK => 5 | DL_OK_ACK => 6 | _ => 99 end) (fun _ => 8)
    [0; 3] [] [] [] [] [4].

Definition demo_union (prim len sap : Z) : dl_union :=
  DlUnion prim (fun _ f => match f with dl_addr_length => len | dl_sap_length => sap | _ => 0 end)
    (fun off len => rdn [0; 20; 79; 1; 2; 3; 8; 6] off (Z.to_nat len)).

Definition demo_answer (len sap : Z) (k : nat) : getmsg_answer :=
  GReply (Reply false false 64 true
    (match k with O => demo_union 6 0 0 | S O => demo_union 5 0 0 | _ => demo_union 4 len sap end)).

Definition demo_open (path : string) : opened := if String.eqb path "/dev/ge" then Opened else NoEntry.

Lemma dlpi_unit_of_interface_witness :
  get_addrs_dlpi demo_header demo_open (fun _ => true) (demo_answer 6 0) ("ge" +:+ dec 0) 2 (Some [10; 0; 0; 1]) =
    Done (3, [0; 20; 79; 1; 2; 3], Some [10; 0; 0; 1]).
Proof.
  rewrite (dlpi_unit_of_interface demo_header demo_open (fun _ => true) (demo_answer 6 0) "ge" 0 "e" 2
    (Some [10; 0; 0; 1])); [reflexivity|reflexivity|reflexivity|lia|vm_compute; discriminate].
Defined.

(** ** What the model shows of the code *)

(** An Ethernet device gives 8 bytes, the last two of them its service access
    point, whose length is -2: they are copied into a buffer of 6. *)
Lemma solaris_address_overflows :
  get_addrs_dlpi demo_header demo_open (fun _ => true) (demo_answer 8 (-2)) "ge0" 2 None = Undefined.
Proof. vm_compute. reflexivity. Qed.

(** A full path gets the directory twice. *)
Lemma full_path_doubled : fulldevpath "/dev/ge0" = (Some "/dev//dev/ge0"%string, Some ""%string).
Proof. vm_compute. reflexivity. Qed.
