(* ===== verification/ThreadProf.v ===== *)
(** * Creating a profiled thread (src/util/threadprof.c)

    gprof_pthread_create passes the profiling timer to the new thread through a
    structure on its own stack, and waits on a condition until the thread has
    read it.  Both sides as a step relation: every statement that touches the
    structure is a step. *)

From S2P Require Import Prelude.

(** ** The two sides *)

(** gprof_pthread_create, by its next statement. *)
Inductive creator :=
  | CLock          (* pthread_mutex_lock, after the initialisation of the structure *)
  | CCreate        (* pthread_create *)
  | CWait          (* pthread_cond_wait: gives the mutex back and sleeps *)
  | CAsleep
  | CWoken         (* pthread_cond_wait takes the mutex again *)
  | CUnlock
  | CDestroy       (* of the mutex and the condition; then the stack frame goes *)
  | CReturned (created : bool).

(** wrapper_routine. *)
Inductive routine :=
  | RNone          (* not created *)
  | RRead          (* start_routine, arg, setitimer *)
  | RLock
  | RSignal
  | RUnlock
  | RCall.         (* the thread's own routine *)

Inductive owner := Nobody | Creator | Routine.

Record handshake := Handshake { at_creator : creator; at_routine : routine; lock : owner }.

Definition handshake_init : handshake := Handshake CLock RNone Nobody.

(** [spurious]: whether pthread_cond_wait may return without a signal, which
    POSIX allows. *)
Inductive step (spurious : bool) : handshake -> handshake -> Prop :=
  | creator_lock r : step spurious (Handshake CLock r Nobody) (Handshake CCreate r Creator)
  | creator_created l : step spurious (Handshake CCreate RNone l) (Handshake CWait RRead l)
  | creator_failed l : step spurious (Handshake CCreate RNone l) (Handshake CUnlock RNone l)
  | creator_wait r : step spurious (Handshake CWait r Creator) (Handshake CAsleep r Nobody)
  | creator_spurious r l : spurious = true -> step spurious (Handshake CAsleep r l) (Handshake CWoken r l)
  | creator_wake r : step spurious (Handshake CWoken r Nobody) (Handshake CUnlock r Creator)
  | creator_unlock r : step spurious (Handshake CUnlock r Creator) (Handshake CDestroy r Nobody)
  | creator_return r l :
      step spurious (Handshake CDestroy r l) (Handshake (CReturned (match r with RNone => false | _ => true end)) r l)
  | routine_read c l : step spurious (Handshake c RRead l) (Handshake c RLock l)
  | routine_lock c : step spurious (Handshake c RLock Nobody) (Handshake c RSignal Routine)
  | routine_signal c l :
      step spurious (Handshake c RSignal l) (Handshake (match c with CAsleep => CWoken | _ => c end) RUnlock l)
  | routine_unlock c : step spurious (Handshake c RUnlock Routine) (Handshake c RCall Nobody).

(** The structure is on the creator's stack, with the mutex and the condition
    in it until they are destroyed. *)
Definition alive (h : handshake) : Prop := match at_creator h with CReturned _ => False | _ => True end.
Definition usable (h : handshake) : Prop := match at_creator h with CDestroy | CReturned _ => False | _ => True end.

(** The new thread still has to read the structure, or its mutex. *)
Definition needs (h : handshake) : Prop := match at_routine h with RNone | RCall => False | _ => True end.

(** ** Without spurious wake-ups *)

(** The reachable states. *)
Definition valid (h : handshake) : Prop :=
  match at_creator h, at_routine h, lock h with
  | CLock, RNone, Nobody | CCreate, RNone, Creator => True
  | CWait, (RRead | RLock), Creator => True
  | CAsleep, (RRead | RLock), Nobody | CAsleep, RSignal, Routine => True
  | CWoken, RUnlock, Routine | CWoken, RCall, Nobody => True
  | CUnlock, (RNone | RCall), Creator => True
  | CDestroy, (RNone | RCall), Nobody => True
  | CReturned false, RNone, Nobody | CReturned true, RCall, Nobody => True
  | _, _, _ => False
  end.

Lemma step_valid h h' : step false h h' -> valid h -> valid h'.
Proof.
  intros [r|l|l|r|r l|r|r|r l|c l|c|c l|c]; unfold valid; cbn [at_creator at_routine lock];
    repeat (case_match; try done); try discriminate.
Qed.

Lemma reached_valid h : rtc (step false) handshake_init h -> valid h.
Proof.
  assert (valid handshake_init) as H0 by done. revert H0. generalize handshake_init as h0. intros h0 H0 Hr.
  induction Hr as [|h1 h2 h3 Hs _ IH]; [done|]. by eapply IH, step_valid.
Qed.

(** Statements left, on both sides. *)
Definition left (h : handshake) : nat :=
  (match at_creator h with
   | CLock => 8 | CCreate => 7 | CWait => 5 | CAsleep => 4 | CWoken => 3 | CUnlock => 2 | CDestroy => 1 | CReturned _ => 0
   end +
   match at_routine h with RNone => 5 | RRead => 5 | RLock => 4 | RSignal => 3 | RUnlock => 2 | RCall => 1 end)%nat.

Lemma step_left spurious h h' : step spurious h h' -> (left h' < left h)%nat.
Proof. intros [r|l|l|r|r l|r|r|r l|c l|c|c l|c]; unfold left; cbn [at_creator at_routine]; try lia. destruct c; lia. Qed.

Lemma valid_progress h :
  valid h -> (exists h', step false h h') \/
  h = Handshake (CReturned true) RCall Nobody \/ h = Handshake (CReturned false) RNone Nobody.
Proof.
  destruct h as [c r l]. unfold valid. cbn [at_creator at_routine lock]. intros H.
  repeat (case_match; try done); subst; try (by right; left); try (by right; right); left; eexists;
    first [apply routine_read|apply routine_lock|apply routine_signal|apply routine_unlock|apply creator_lock
      |apply creator_created|apply creator_wait|apply creator_wake|apply creator_unlock|apply creator_return].
Qed.

(** ** Properties *)

(** C29: the hand-over of the profiling timer is safe and ends, if no wake-up is
    spurious: whatever the scheduling, as long as the new thread needs the
    structure its creator has neither destroyed the mutex nor returned; no
    state is a deadlock; and every run ends, after at most thirteen steps, with
    the creator returned and the thread in its own routine, or not created. *)
Theorem handshake_safe (h : handshake) :
  rtc (step false) handshake_init h ->
  (needs h -> usable h /\ alive h) /\
  ((exists h', step false h h') \/
   h = Handshake (CReturned true) RCall Nobody \/ h = Handshake (CReturned false) RNone Nobody) /\
  (forall n h', nsteps (step false) n h h' -> (n <= 13)%nat).
Proof.
  intros Hr. pose proof (reached_valid h Hr) as Hv. split_and!.
  - unfold needs, usable, alive. unfold valid in Hv. repeat (case_match; try done).
  - by apply valid_progress.
  - assert (left h <= 13)%nat as Hl.
    { change 13%nat with (left handshake_init). clear Hv. induction Hr as [|h1 h2 h3 Hs _ IH]; [done|].
      pose proof (step_left _ _ _ Hs). lia. }
    intros n. revert h Hl Hr Hv.
    assert (forall n h h', nsteps (step false) n h h' -> (n + left h' <= left h)%nat) as H.
    { clear. induction n as [|n IH]; intros h h' Hn; inversion Hn as [|? ? h1 ? Hs Hn']; subst; [lia|].
      pose proof (step_left _ _ _ Hs). pose proof (IH _ _ Hn'). lia. }
    intros h Hl _ _ h' Hn. pose proof (H n h h' Hn). lia.
Qed.

Lemma handshake_safe_witness :
  let h := Handshake CAsleep RLock Nobody in
  (needs h -> usable h /\ alive h) /\
  ((exists h', step false h h') \/
   h = Handshake (CReturned true) RCall Nobody \/ h = Handshake (CReturned false) RNone Nobody) /\
  (forall n h', nsteps (step false) n h h' -> (n <= 13)%nat).
Proof.
  intros h. apply (handshake_safe h).
  eapply rtc_l; [apply creator_lock|]. eapply rtc_l; [apply creator_created|].
  eapply rtc_l; [apply creator_wait|]. eapply rtc_l; [apply routine_read|]. apply rtc_refl.
Defined.

(** The wait is not in a loop on a condition: woken by nothing, the creator
    returns while the thread has still to read the structure on its stack. *)
Lemma spurious_wake_frees_data :
  exists h, rtc (step true) handshake_init h /\ needs h /\ ~ alive h.
Proof.
  exists (Handshake (CReturned true) RRead Nobody). split; [|split; [exact I|intros []]].
  eapply rtc_l; [apply creator_lock|]. eapply rtc_l; [apply creator_created|].
  eapply rtc_l; [apply creator_wait|]. eapply rtc_l; [by apply creator_spurious|].
  eapply rtc_l; [apply creator_wake|]. eapply rtc_l; [apply creator_unlock|].
  eapply rtc_l; [apply creator_return|]. apply rtc_refl.
Qed.
