(* ===== verification/Util.v ===== *)
(** * Memory that aborts when there is none (src/util/util.c)

    The wrappers of the allocator, over a heap of blocks of bytes.  What the
    system answers ([memory]: whether the request can be met, and the bytes
    that a fresh block happens to hold) is an argument; [None] is abort(), or a
    free of what is not allocated. *)

From S2P Require Import Prelude CStr EdLine.

Local Open Scope Z_scope.

Abbreviation heap := (gmap positive (list Z)).

(** A fresh block. *)
Definition allocate (b : list Z) (h : heap) : positive * heap := let p := fresh (dom h) in (p, <[p := b]> h).

(** malloc, realloc and calloc of 0 bytes may give a null pointer: [memory]
    then says whether they do not. *)
Definition xmalloc (memory : bool) (b : list Z) (h : heap) : option (positive * heap) :=
  if memory then Some (allocate b h) else None.

(** calloc fails when the product of its arguments is no size_t. *)
Definition xcalloc (memory : bool) (count size : Z) (h : heap) : option (positive * heap) :=
  if memory && (count * size <? 2 ^ 64) then Some (allocate (replicate (Z.to_nat (count * size)) 0) h) else None.

Definition xfree (ptr : option positive) (h : heap) : option heap :=
  match ptr with
  | None => Some h
  | Some p => _ ← h !! p; Some (delete p h)
  end.

(** [rest]: the bytes past the old block; a size of 0 may give a null pointer,
    which is no error. *)
Definition xrealloc (memory : bool) (orig : option positive) (size : Z) (rest : list Z) (h : heap) :
    option (option positive * heap) :=
  old ← match orig with None => Some [] | Some p => h !! p end;
  if memory then
    h ← xfree orig h;
    let '(p, h) := allocate (take (Z.to_nat size) (old ++ rest)) h in Some (Some p, h)
  else if size =? 0 then h ← xfree orig h; Some (None, h)
  else None.

(** The bytes of a C string with its terminator. *)
Definition string_bytes (s : string) : list Z := typed s ++ [0].

Definition xstrdup (memory : bool) (s : string) (h : heap) : option (positive * heap) :=
  xmalloc memory (string_bytes s) h.

(** The string at a block, up to its terminator. *)
Fixpoint read_string (b : list Z) : option string :=
  match b with
  | [] => None
  | c :: b => if c =? 0 then Some "" else s ← read_string b; Some (String (chr c) s)
  end.

(** ** Laws *)
Lemma allocate_spec b h :
  let '(p, h') := allocate b h in h !! p = None /\ h' !! p = Some b /\ (forall q, q <> p -> h' !! q = h !! q).
Proof.
  unfold allocate. pose proof (is_fresh (dom h)) as Hf. apply not_elem_of_dom in Hf.
  split_and!; [done|apply lookup_insert_eq|]. intros q Hq. by rewrite lookup_insert_ne.
Qed.

Lemma code_range c : 0 <= code c < 256.
Proof. unfold code. pose proof (N_ascii_bounded c). lia. Qed.

Lemma read_string_bytes s t : nul_free s = true -> read_string (typed s ++ 0 :: t) = Some s.
Proof.
  induction s as [|c s IH]; [done|]. intros [Hc Hs]%andb_true_iff. cbn [typed app read_string].
  destruct (Z.eqb_spec (code c) 0) as [E|_].
  - apply negb_true_iff in Hc. unfold aeq in Hc. apply bool_decide_eq_false in Hc. exfalso. apply Hc.
    rewrite <- (chr_code c), E. reflexivity.
  - rewrite (IH Hs). cbn [mbind option_bind]. by rewrite chr_code.
Qed.

(** What the program relies on when it allocates: a wrapper that returns
    gives a block that was not in use and leaves the others alone; xrealloc
    keeps the bytes that fit, frees the old block, and fails only for a size
    other than 0; and a copy of a C string reads back as the string, until it
    is freed once. *)
Theorem allocation_safe (memory : bool) (h h1 : heap) (p : positive) (old rest : list Z) (size : Z) (s : string) :
  h !! p = Some old -> 0 <= size -> Z.of_nat (length (old ++ rest)) >= size -> nul_free s = true ->
  (xrealloc memory (Some p) size rest h = None <-> memory = false /\ size <> 0) /\
  (forall q, xrealloc memory (Some p) size rest h = Some (Some q, h1) ->
     h1 !! q = Some (take (Z.to_nat size) (old ++ rest)) /\ delete q h1 = delete p h) /\
  (forall q, xstrdup memory s h = Some (q, h1) ->
     h !! q = None /\ (b ← h1 !! q; read_string b) = Some s /\ xfree (Some q) h1 = Some h).
Proof.
  intros Hp Hsize Hl Hs. unfold xrealloc, xfree. rewrite Hp. cbn [mbind option_bind].
  assert (forall b h0, let '(q, h2) := allocate b h0 in delete q h2 = h0) as Hdel.
  { intros b h0. pose proof (allocate_spec b h0) as H. unfold allocate in *. destruct H as (H & _ & _).
    by rewrite delete_insert_id. }
  split_and!.
  - destruct memory; [split; [by destruct (allocate _ _)|by intros [? _]]|].
    destruct (Z.eqb_spec size 0); [split; [done|by intros [_ ?]]|done].
  - intros q E. destruct memory; [|by destruct (size =? 0)].
    pose proof (allocate_spec (take (Z.to_nat size) (old ++ rest)) (delete p h)) as Ha.
    pose proof (Hdel (take (Z.to_nat size) (old ++ rest)) (delete p h)) as Hd.
    destruct (allocate _ _) as [q' h'] eqn:Ea. apply (inj Some) in E. simplify_eq. split; [apply Ha|done].
  - unfold xstrdup, xmalloc. intros q E. destruct memory; [|done]. apply (inj Some) in E.
    pose proof (allocate_spec (string_bytes s) h) as Ha. pose proof (Hdel (string_bytes s) h) as Hd. rewrite E in Ha, Hd.
    destruct Ha as (H1 & H2 & _). rewrite H2. cbn [mbind option_bind]. split_and!; [done| |by rewrite Hd].
    by apply (read_string_bytes s []).
Qed.
